(* ===== verification/_CoqProject ===== *)
-Q . S2P
Prelude.v
Text.v
TL.v
OpenSSL.v
Transport.v
Detect.v
Net.v
Sockets.v
Process.v
Schema.v
Messages.v
Invoke.v
Cipher.v
Dh.v
RsaKey.v
Params.v
Srp.v
Session.v
Handshake.v
Server.v
Domain.v
Store.v
Auth.v
Json.v
Http.v
Webhook.v
Password.v
Bind.v
Api.v
ApiSchema.v
Users.v
Database.v
KeyStore.v
AuthorizationStore.v
UserStore.v
PasswordStore.v
Locks.v
Main.v
Program.v
Gate.v
Mutex.v
Postgres.v
