(* ===== verification/Prelude.v ===== *)
(** * ShuzaGram server: verification development

    ShuzaGram is an MTProto server: it accepts TCP connections, finds out which
    transport a client speaks, runs the key exchange or resumes a known key,
    decrypts messages, and answers the calls inside them from its stores.  This
    library models that path from the bytes of a socket to the answer of an RPC
    and proves what makes it correct.  Paths below are under [src/].

    ** How the code is modelled

    Bytes are [Byte.byte], strings and vectors of bytes are lists of them, a
    fixed-width integer is a [Z] with its wrap-around written out ([u8], [u32],
    [s32], [u64], [s64]).  An operation that has effects or throws is a function
    of type [M S A] = [S -> res A * S]: the state is passed on also when an
    exception ([exn], one constructor per class of the sources) is thrown, so
    what was done before a throw stays done.  A [TLBuffer] is its byte list.
    Sockets, stores, the clock and the generator are arguments ([ReadExact],
    [WriteBytes], [IUserStore] …, [Clock], [RandomFill]) over any state, and
    small classes say what a theorem needs of them ([Source], [Sink],
    [ClockSource], [RandomSource], [CodeStoreSpec] …), each with an instance on
    which the witnesses run.  OpenSSL ([OpenSSL], [OpenSSLLaws]), the phone
    library ([e164], [E164Laws]) and the JSON library ([Json], [JsonLaws]) are
    third-party: parameters, never definitions; so are [RAND_bytes]
    ([RandBytes]) and the stored function that binds a temporary key, with the
    laws its callers document ([BindLaws]).

    ** Files

    - [Prelude]: bytes, integers, exceptions, the monad and its lemmas, parsing
      ([parses]), what a computation does to a view of the state ([effect],
      [frames]), tactics ([zlen_lia], [inv_ok]) and hints.  [Text]: the
      [std::string] and number conversions.
    - [TL] ([tl_buffer.hpp]); [Schema]: TL types as data, with an encoder and a
      decoder, against which messages are compared.
    - [OpenSSL], [Dh] ([crypto/dh.cpp], [rsa.cpp], [rsa_pad.cpp],
      [bignum_util.hpp]), [RsaKey] (the server's key and its file), [Params] (the fixed prime), [Cipher] ([aes_ige.cpp],
      [message_cipher.cpp], [bind.cpp], [kdf_v1.cpp]), [Srp] ([srp.cpp]).
    - [Sockets] ([net/tcp_socket.cpp], [tcp_listener.cpp]: descriptors, listening,
      accepting, connecting), [Net] (reading and writing over a socket),
      [Transport] (the four codecs and CRC-32), [Detect] (detection and
      obfuscated2).
    - [Messages] (identifiers, handshake and session messages), [Invoke] (the
      wrappers of a call), [Api] and [ApiSchema] (auth, account, help and users
      messages).
    - [Session] ([session.cpp], [rpc_dispatch.hpp]), [Handshake]
      ([server_exchange.cpp]), [Server] ([tcp_handshake_server.cpp]: what a
      connection's thread does), [Process] (its accept loop, the threads, [Stop]).
    - [Domain] ([domain/]), [Store] (the interfaces of [store/] and the
      in-memory code store).
    - [Auth] ([auth/sign_in.cpp], [current_user.cpp]), [Password]
      ([check_password.cpp]), [Bind] ([bind_temp_auth_key.cpp]), [Users]
      ([users/], [account/]), [Json] (the JSON library's interface),
      [Http] ([net/http_client.cpp]), [Webhook] ([otpdelivery/]).
    - [Database] (tables, transactions, failures of the server), [KeyStore]
      ([store/postgres/auth_key_store.cpp], [auth_identity_lock.cpp],
      [temp_auth_key_store.cpp]), [AuthorizationStore]
      ([authorization_store.cpp], [user_lock.cpp]), [UserStore]
      ([user_store.cpp]: accounts and the registry of user names),
      [PasswordStore] ([password_store.cpp]), [Locks] (the advisory locks of
      their transactions, and sessions of several servers that take them).
    - [Main] ([cmd/shuzagram_server/main.cpp]: every handler, the registry, the
      key resolver, the settings), [Program] ([main] from the start to the exit,
      over the sockets), [Gate], the theorems about the program as it is put
      together, [Mutex] (what [db_mutex] guarantees to handlers that run action
      by action on several threads), and [Postgres], which puts the stores of [store/postgres/] into
      the interfaces the handlers are proved against.

    ** What is proved

    - Framing: what a codec writes is read back, in any number and any split of
      the stream; detection leaves the stream as it was; CRC-32 is the bitwise
      one; the full transport refuses replays.
    - Data: TL strings round trip; requests, responses, handshake and session
      messages agree with their TL schemas, byte for byte.
    - Secrecy layer: encryption and decryption are inverse, and what is accepted
      was authenticated; RSA padding and the exchange answers are invertible;
      both sides of the key exchange get the same key, and a temporary key has
      the lifetime that was asked for.
    - Sessions: a message is served once (no replay), every message of a
      container is answered and acknowledged as the protocol says, the
      optimised dispatch refines a list specification; a resumed key serves.
    - Accounts: nobody logs in without the code that was issued; guesses are
      bounded; two-step verification gates the login; a key binding needs
      possession of the permanent key; user names and phone numbers are
      canonical; a code is delivered once and only an acknowledgement counts.
    - Postgres stores: each operation does to the committed tables what its
      specification says, in one transaction, or the server failed and nothing
      happened (or all of it, if the connection was lost in the commit).  No
      history of calls gives two accounts names that differ at most in case.
      While the server does not fail they meet every contract the services and
      handlers rely on, all at once, over one database ([Postgres]); a key id or
      key that is not of the length of its [std::array] names no row there.
      The advisory locks of all transactions are taken in one order, so servers
      that share a database do not deadlock on them ([Locks]).
    - Concurrency: the handlers that take [db_mutex] run as if one after another,
      and one that does not can lose an update ([Mutex]).
    - The program: every decodable call of a served method is answered whatever
      the stores do; a key that is not logged in reaches nothing.
    - The process: it starts with the key of its file or does not serve; in
      every interleaving of the accept loop, the threads and the signals each
      open socket has one owner, who closes it; after [Stop] the loop returns,
      and the failures that end the server are exactly three.

    ** Fuel

    Loops of the sources that are not structural take fuel.  The wrappers of
    a call get the size of the buffer, of which every turn consumes some
    ([Invoke], [UnwrapInvokeWrappers_total]); the socket loops the bytes left
    and the interruptions to come ([Net], [ReadExact_delivers]); the head of an
    HTTP response [head_fuel] ([Http], [ReadHead_fuel]: more never matters);
    the calendar 400 years and 12 months ([Webhook]).  The loops that wait for
    the peer (handshake messages, frames of a session) and those that draw
    random numbers again ([Handshake], [Server], [Dh]) may go on for ever in the
    program too; their fuel is an argument, and the theorems hold for any fuel
    above the length of the conversation they describe.  Out of fuel, a loop
    throws [out_of_fuel], which no theorem counts as a result.

    ** Not modelled

    - SQL itself: it is modelled by hand, statement by statement, over tables
      that are finite maps; the defaults, constraints, foreign keys and stored
      function of the schema, which is not part of the sources, are parameters
      ([Schema], [UserSchema]).  The services are proved over any stores that
      meet the contracts of [Store] and [Auth].
    - The insides of the system calls, the file system and key generation: they
      are parameters ([Kernel], [KeyTools]) with laws about the open sockets and
      the files.  [printf] has no effect.
    - Threads finer than a whole connection: in [Process] the loop, the threads
      and the signals interleave, but a thread is one step, and in [Main] a
      handler is.  [Mutex] justifies the latter for the six handlers that take
      the mutex of [main.cpp]; the others race, and what concurrent use does to
      a [pqxx::connection] is not modelled.
    - Other sessions of the database, but for the advisory locks: a session sees
      the committed tables as it left them itself, and row locks ([FOR UPDATE],
      and those of an [UPDATE]) are not kept.  In [Locks] each session asks for
      the locks that its calls ask for when it is alone; those that the stored
      function of the schema takes are not known.
    - The insides of OpenSSL, libphonenumber and nlohmann::json. *)

From Stdlib Require Import ZArith Lia Strings.Byte Strings.String.
From stdpp Require Import base decidable countable list strings pretty.

#[global] Open Scope Z_scope.
#[global] Open Scope list_scope.

Declare Scope cpp_scope.
Delimit Scope cpp_scope with cpp.

(** ** Bytes and machine integers *)

(** [std::uint8_t]; both [std::vector<std::uint8_t>] and [std::string] are
    lists of bytes (a C++ string is a byte string). *)
Abbreviation byte := Byte.byte.
Abbreviation bytes := (list Byte.byte).

#[global] Instance byte_eq_decision : EqDecision byte := Byte.byte_eq_dec.
#[global] Instance byte_countable : Countable byte :=
  inj_countable Byte.to_N Byte.of_N Byte.of_to_N.

(** The value of a byte, and [static_cast<std::uint8_t>]. *)
Definition bz (b : byte) : Z := Z.of_N (Byte.to_N b).

Definition u8 (z : Z) : byte :=
  match Byte.of_N (Z.to_N (z mod 256)) with
  | Some b => b
  | None => x00
  end.

(** Casts between the fixed-width types: [uN] wraps, [sN] reads the low N
    bits in two's complement. *)
Definition u16 (z : Z) : Z := z mod 2 ^ 16.
Definition u32 (z : Z) : Z := z mod 2 ^ 32.
Definition u64 (z : Z) : Z := z mod 2 ^ 64.
Definition s32 (z : Z) : Z :=
  if u32 z <? 2 ^ 31 then u32 z else u32 z - 2 ^ 32.
Definition s64 (z : Z) : Z :=
  if u64 z <? 2 ^ 63 then u64 z else u64 z - 2 ^ 64.

Definition int32_min : Z := - 2 ^ 31.
Definition int32_max : Z := 2 ^ 31 - 1.
Definition is_u8 (z : Z) : Prop := 0 <= z < 2 ^ 8.
Definition is_u32 (z : Z) : Prop := 0 <= z < 2 ^ 32.
Definition is_u64 (z : Z) : Prop := 0 <= z < 2 ^ 64.
Definition is_s32 (z : Z) : Prop := - 2 ^ 31 <= z < 2 ^ 31.
Definition is_s64 (z : Z) : Prop := - 2 ^ 63 <= z < 2 ^ 63.

(** [v.size()] as an integer. *)
Definition zlen {A} (l : list A) : Z := Z.of_nat (length l).

(** The first [n] elements and the rest, for an integer index. *)
Definition ztake {A} (n : Z) (l : list A) : list A := firstn (Z.to_nat n) l.
Definition zdrop {A} (n : Z) (l : list A) : list A := skipn (Z.to_nat n) l.

(** [substr(l, off, n)]: the iterator range [off, off + n). *)
Definition zslice {A} (off n : Z) (l : list A) : list A := ztake n (zdrop off l).

(** A C++ string literal as bytes. *)
Definition lit (s : string) : bytes := list_byte_of_string s.

(** Little-endian layout: byte [i] of the [n]-byte encoding is
    [static_cast<std::uint8_t>(v >> (8 * i))]. *)
Fixpoint le_bytes (n : nat) (v : Z) : bytes :=
  match n with
  | O => []
  | S n' => u8 v :: le_bytes n' (Z.shiftr v 8)
  end.

(** The number a little-endian byte sequence denotes. *)
Fixpoint le_val (l : bytes) : Z :=
  match l with
  | [] => 0
  | b :: t => bz b + 256 * le_val t
  end.

(** The number a big-endian byte sequence denotes ([BN_bin2bn]'s reading). *)
Definition be_val (l : bytes) : Z := fold_left (fun acc b => acc * 256 + bz b) l 0.

(** The loop [v |= b << (8 * i)] over a byte sequence. *)
Fixpoint or_bytes (i : Z) (v : Z) (l : bytes) : Z :=
  match l with
  | [] => v
  | b :: t => or_bytes (i + 1) (Z.lor v (Z.shiftl (bz b) (8 * i))) t
  end.

(** A digit of ["0123456789abcdef"]. *)
Definition hex_char (d : Z) : byte := u8 (if d <? 10 then 48 + d else 87 + d).

(** ** Exceptions *)

(** Every exception type the modelled code throws or catches.  All of them
    derive from [std::exception]; the ones with a payload carry it. *)
Inductive exn : Type :=
  (* tl_buffer.hpp *)
  | UnexpectedIdError (id : Z)
  | BufferUnderrunError
  (* standard library *)
  | RuntimeError (what : string)
  | InvalidArgument (what : string)
  | LengthError
  (* net *)
  | ConnectionClosedError
  | SocketError (what : bytes)
  (* transport *)
  | InvalidMessageLengthError (n : Z)
  | AlignedPayloadExpectedError (n : Z)
  | ProtocolHeaderMismatchError
  | ProtocolError (code : Z)
  | InvalidTransportPrefixError (what : string)
  (* handshake *)
  | UnexpectedEncryptedFrameError (auth_key_id : bytes) (frame : bytes)
  | ServerExchangeError (code : Z) (what : string)
  | BindEncryptedMessageInvalidError
  (* domain *)
  | UsernameOccupiedError
  | UsernameInvalidError
  | UserNotFoundError
  | UsernameNotOccupiedError
  | PhoneNumberOccupiedError
  | StarGiftCollectibleInvalidError
  | NotImplementedError (what : string)
  | UserFrozenError
  | AccountDeletedError
  | BirthdayInvalidError
  | PremiumRequiredError
  | PremiumBotUnsupportedError
  | PeerModerationFlagsInvalidError
  | FirstNameInvalidError
  | AboutTooLongError
  | DomainError (what : string)
  (* store *)
  | InvalidAuthKeyProtocolExpiryError
  | AuthKeyProtocolMetadataConflictError
  | AuthKeyNotFoundError
  | AuthKeyNotPermanentError
  | AuthKeyBindingInvalidError
  | AuthorizationStateChangedError
  | AuthKeySessionLayerInvalidError
  | AuthKeySessionLayerConflictError
  | TempAuthKeyAlreadyBoundError
  | StoreError (what : string)
  (* auth *)
  | PhoneNumberInvalidError
  | CodeExpiredError
  | CodeInvalidError
  | SessionPasswordNeededError
  | ExpiresAtInvalidError
  | TempAuthKeyEmptyError
  | EncryptedMessageInvalidError
  | PasswordHashInvalidError
  | SrpIdInvalidError
  | SrpPasswordChangedError
  | DeliveryFailedError (what : bytes)
  (* HTTP and JSON *)
  | HttpError (what : bytes)
  | JsonTypeError
  (* libpqxx: sql_error, with its SQLSTATE and text; other failures; an internal signal *)
  | SqlError (sqlstate message : string)
  | DatabaseError
  | AuthIdentityChangedException.

(** [e.what()], by the file that declares the exception.  The text of
    [std::length_error] is the library's own. *)
Definition domain_what (e : exn) : option string :=
  match e with
  | UsernameOccupiedError => Some "username occupied"
  | UsernameInvalidError => Some "username invalid"
  | UserNotFoundError => Some "user not found"
  | UsernameNotOccupiedError => Some "username not occupied"
  | PhoneNumberOccupiedError => Some "phone number occupied"
  | StarGiftCollectibleInvalidError => Some "stargift: invalid collectible definition"
  | NotImplementedError w => Some ("not implemented: " +:+ w)
  | UserFrozenError => Some "user account frozen"
  | AccountDeletedError => Some "account deleted"
  | BirthdayInvalidError => Some "birthday invalid"
  | PremiumRequiredError => Some "premium account required"
  | PremiumBotUnsupportedError => Some "bot accounts cannot be premium"
  | PeerModerationFlagsInvalidError => Some "peer moderation flags invalid"
  | FirstNameInvalidError => Some "first name invalid"
  | AboutTooLongError => Some "about too long"
  | DomainError w => Some w
  | _ => None
  end%string.

Definition store_what (e : exn) : option string :=
  match e with
  | StoreError w => Some w
  | InvalidAuthKeyProtocolExpiryError => Some "invalid auth key protocol expiry"
  | AuthKeyProtocolMetadataConflictError => Some "auth key protocol metadata conflict"
  | AuthKeyNotFoundError => Some "auth key not found"
  | AuthKeyNotPermanentError => Some "auth key is not permanent"
  | AuthKeyBindingInvalidError => Some "invalid temporary auth key binding"
  | AuthorizationStateChangedError => Some "authorization state changed"
  | AuthKeySessionLayerInvalidError => Some "invalid auth key session layer evidence"
  | AuthKeySessionLayerConflictError => Some "conflicting auth key session layer evidence"
  | TempAuthKeyAlreadyBoundError =>
      Some "temporary auth key already bound to a different permanent key"
  | _ => None
  end%string.

Definition sign_in_what (e : exn) : option string :=
  match e with
  | PhoneNumberInvalidError => Some "phone number invalid"
  | CodeExpiredError => Some "phone code expired or not found"
  | CodeInvalidError => Some "phone code invalid"
  | SessionPasswordNeededError => Some "session password needed"
  | _ => None
  end%string.

Definition what (e : exn) : string :=
  match e with
  | UnexpectedIdError _ => "unexpected TL id"
  | BufferUnderrunError => "unexpected end of TL buffer"
  | RuntimeError w | InvalidArgument w => w
  | LengthError => "length error"
  | ConnectionClosedError => "connection closed by peer"
  | InvalidMessageLengthError n => "invalid message length " +:+ pretty n
  | AlignedPayloadExpectedError n => "payload is not aligned, expected align by " +:+ pretty n
  | ProtocolHeaderMismatchError => "protocol header mismatch"
  | ProtocolError code =>
      if code =? 404 then "auth key not found"
      else if code =? 429 then "transport flood"
      else if code =? 444 then "wrong DC"
      else "protocol error " +:+ pretty code
  | InvalidTransportPrefixError w => w
  | UnexpectedEncryptedFrameError _ _ => "unexpected encrypted message during key exchange"
  | ServerExchangeError _ w => w
  | BindEncryptedMessageInvalidError => "encrypted message invalid"
  | ExpiresAtInvalidError => "temporary auth key request expiry invalid"
  | TempAuthKeyEmptyError => "temporary auth key missing or expired"
  | EncryptedMessageInvalidError => "encrypted message invalid"
  | PasswordHashInvalidError => "password hash invalid"
  | SrpIdInvalidError => "srp id invalid"
  | SrpPasswordChangedError => "srp password changed"
  | SocketError w | DeliveryFailedError w | HttpError w => string_of_list_byte w
  | JsonTypeError => "[json.exception.type_error.302]"
  | _ =>
      match domain_what e, store_what e, sign_in_what e with
      | Some w, _, _ | None, Some w, _ | None, None, Some w => w
      | None, None, None => ""
      end
  end.

(** ** Computations: state, exceptions *)

(** What a loop whose fuel has run out throws; no loop of the sources does. *)
Definition out_of_fuel : exn := RuntimeError "out of fuel".

(** The outcome of a call: a value, or a thrown exception. *)
Inductive res (A : Type) : Type :=
  | Ok (a : A)
  | Throw (e : exn).
Arguments Ok {A} a.
Arguments Throw {A} e.

(** A stateful computation.  As in C++, the mutations made before a throw
    stay: the state is returned in both cases. *)
Definition M (S A : Type) : Type := S -> res A * S.

Definition ret {S A} (a : A) : M S A := fun s => (Ok a, s).
Definition throw {S A} (e : exn) : M S A := fun s => (Throw e, s).
Definition bind {S A B} (m : M S A) (k : A -> M S B) : M S B := fun s =>
  match m s with
  | (Ok a, s') => k a s'
  | (Throw e, s') => (Throw e, s')
  end.

(** [try { m } catch (const std::exception& e) { h(e) }] *)
Definition try_catch {S A} (m : M S A) (h : exn -> M S A) : M S A := fun s =>
  match m s with
  | (Ok a, s') => (Ok a, s')
  | (Throw e, s') => h e s'
  end.

Definition get {S} : M S S := fun s => (Ok s, s).
Definition put {S} (s : S) : M S unit := fun _ => (Ok tt, s).
Definition modify {S} (f : S -> S) : M S unit := fun s => (Ok tt, f s).
Definition gets {S A} (f : S -> A) : M S A := fun s => (Ok (f s), s).

(** A value or exception computed without state. *)
Definition lift {S A} (r : res A) : M S A := fun s => (r, s).

(** A computation on a local object (a [TLBuffer] on the stack, say) started
    at [t]: its final value is dropped when it goes out of scope. *)
Definition local {S T A} (t : T) (m : M T A) : M S A := lift (fst (m t)).

(** A computation on one component of the state. *)
Definition on_fst {S T A} (m : M S A) : M (S * T) A := fun '(s, t) =>
  let '(r, s') := m s in (r, (s', t)).
Definition on_snd {S T A} (m : M T A) : M (S * T) A := fun '(s, t) =>
  let '(r, t') := m t in (r, (s, t')).

(** [if (!c) throw e;] *)
Definition guard {S} (c : bool) (e : exn) : M S unit :=
  if c then ret tt else throw e.

(** [if (c) m;] *)
Definition when {S} (c : bool) (m : M S unit) : M S unit :=
  if c then m else ret tt.

Notation "x <- m ;; k" := (bind m (fun x => k))
  (at level 100, m at next level, right associativity) : cpp_scope.
Notation "m ;;; k" := (bind m (fun _ => k))
  (at level 100, right associativity) : cpp_scope.
#[global] Open Scope cpp_scope.

(** The [res] monad (calls without state). *)
Definition rbind {A B} (r : res A) (k : A -> res B) : res B :=
  match r with Ok a => k a | Throw e => Throw e end.
Notation "x <-? r ;; k" := (rbind r (fun x => k))
  (at level 100, r at next level, right associativity) : cpp_scope.

(** [for (x : l) f(x)] *)
Fixpoint for_each {S A} (f : A -> M S unit) (l : list A) : M S unit :=
  match l with
  | [] => ret tt
  | x :: t => f x ;;; for_each f t
  end.

(** [for (x : l) out.push_back(f(x))] *)
Fixpoint collect {S A B} (f : A -> M S B) (l : list A) : M S (list B) :=
  match l with
  | [] => ret []
  | x :: t => y <- f x ;; ys <- collect f t ;; ret (y :: ys)
  end.

(** [n] decodes in a row ([for (auto& m : messages) m = decode()]). *)
Fixpoint repeat_m {S A} (n : nat) (m : M S A) : M S (list A) :=
  match n with
  | O => ret []
  | S n' => y <- m ;; ys <- repeat_m n' m ;; ret (y :: ys)
  end.

(** ** Lemmas on bytes and integers *)

Lemma bz_range b : 0 <= bz b < 256.
Proof.
  unfold bz. pose proof (Byte.to_N_bounded b). lia.
Qed.

Lemma u8_bz b : u8 (bz b) = b.
Proof.
  unfold u8. rewrite Z.mod_small by apply bz_range.
  unfold bz. rewrite N2Z.id, Byte.of_to_N. done.
Qed.

Lemma bz_u8 z : bz (u8 z) = z mod 256.
Proof.
  unfold u8, bz.
  pose proof (Z.mod_pos_bound z 256 ltac:(lia)) as Hz.
  destruct (Byte.of_N (Z.to_N (z mod 256))) eqn:E.
  - apply Byte.to_of_N in E. rewrite E. lia.
  - apply Byte.of_N_None_iff in E. lia.
Qed.

Lemma bz_inj a b : bz a = bz b -> a = b.
Proof. intros H. rewrite <- (u8_bz a), <- (u8_bz b), H. done. Qed.

Lemma u8_mod z : u8 (z mod 256) = u8 z.
Proof. apply bz_inj. rewrite !bz_u8. apply Z.mod_mod. lia. Qed.

Lemma lor_shiftl_add a b k :
  0 <= k -> 0 <= a < 2 ^ k -> Z.lor a (Z.shiftl b k) = a + b * 2 ^ k.
Proof.
  intros Hk Ha. rewrite <- (Z.shiftl_mul_pow2 b k) by lia.
  assert (Hand : Z.land a (Z.shiftl b k) = 0).
  { apply Z.bits_inj'. intros i Hi.
    rewrite Z.land_spec, Z.bits_0, Z.shiftl_spec by lia.
    destruct (Z.lt_ge_cases i k).
    - rewrite (Z.testbit_neg_r b) by lia. apply andb_false_r.
    - rewrite <- (Z.mod_small a (2 ^ k)) by lia.
      rewrite Z.mod_pow2_bits_high by lia. done. }
  rewrite Z.add_nocarry_lxor, Z.lxor_lor by done. done.
Qed.

Lemma le_val_range l : 0 <= le_val l < 256 ^ zlen l.
Proof.
  unfold zlen. induction l as [|b t IH]; [cbn; lia|].
  cbn [le_val length]. rewrite Nat2Z.inj_succ, Z.pow_succ_r by lia.
  pose proof (bz_range b). lia.
Qed.

Lemma length_le_bytes n v : length (le_bytes n v) = n.
Proof. revert v. induction n; intros; cbn; auto. Qed.

Lemma zlen_le_bytes n v : zlen (le_bytes n v) = Z.of_nat n.
Proof. unfold zlen. rewrite length_le_bytes. done. Qed.

Lemma le_val_le_bytes n v : le_val (le_bytes n v) = v mod 256 ^ Z.of_nat n.
Proof.
  revert v. induction n as [|n IH]; intros v.
  - cbn. rewrite Z.mod_1_r. done.
  - cbn [le_bytes le_val]. rewrite IH, bz_u8, Nat2Z.inj_succ, Z.pow_succ_r by lia.
    rewrite Z.shiftr_div_pow2 by lia. change (2 ^ 8) with 256.
    rewrite Z.rem_mul_r by lia. lia.
Qed.

Lemma le_bytes_le_val l : le_bytes (length l) (le_val l) = l.
Proof.
  induction l as [|b t IH]; [done|].
  cbn [length le_bytes le_val]. f_equal.
  - apply bz_inj. rewrite bz_u8.
    rewrite (Z.mul_comm 256), Z.mod_add by lia. apply Z.mod_small, bz_range.
  - rewrite Z.shiftr_div_pow2 by lia. change (2 ^ 8) with 256.
    rewrite (Z.mul_comm 256), Z.div_add by lia.
    rewrite Z.div_small by apply bz_range. exact IH.
Qed.

Lemma le_bytes_mod n v : le_bytes n (v mod 256 ^ Z.of_nat n) = le_bytes n v.
Proof.
  rewrite <- (le_val_le_bytes n v).
  rewrite <- (length_le_bytes n v) at 1. apply le_bytes_le_val.
Qed.

Lemma or_bytes_val i v l :
  0 <= i -> 0 <= v < 256 ^ i -> or_bytes i v l = v + 256 ^ i * le_val l.
Proof.
  revert i v. induction l as [|b t IH]; intros i v Hi Hv; [cbn; lia|].
  cbn [or_bytes le_val].
  assert (E : 2 ^ (8 * i) = 256 ^ i) by (rewrite Z.pow_mul_r by lia; done).
  rewrite lor_shiftl_add by (rewrite ?E; lia). rewrite E.
  pose proof (bz_range b).
  rewrite IH.
  - rewrite Z.pow_add_r, Z.pow_1_r by lia. nia.
  - lia.
  - rewrite Z.pow_add_r, Z.pow_1_r by lia. nia.
Qed.

Lemma or_bytes_0 l : or_bytes 0 0 l = le_val l.
Proof. rewrite or_bytes_val; [cbn; lia| lia | cbn; lia]. Qed.

Lemma u32_range z : is_u32 (u32 z).
Proof. apply Z.mod_pos_bound. lia. Qed.
Lemma u64_range z : is_u64 (u64 z).
Proof. apply Z.mod_pos_bound. lia. Qed.
Lemma u32_id z : is_u32 z -> u32 z = z.
Proof. apply Z.mod_small. Qed.
Lemma u64_id z : is_u64 z -> u64 z = z.
Proof. apply Z.mod_small. Qed.

Lemma s32_range z : is_s32 (s32 z).
Proof.
  pose proof (u32_range z). unfold is_u32, is_s32, s32 in *.
  destruct (Z.ltb_spec (u32 z) (2 ^ 31)); lia.
Qed.
Lemma s64_range z : is_s64 (s64 z).
Proof.
  pose proof (u64_range z). unfold is_u64, is_s64, s64 in *.
  destruct (Z.ltb_spec (u64 z) (2 ^ 63)); lia.
Qed.

Lemma s32_id z : is_s32 z -> s32 z = z.
Proof.
  unfold is_s32, s32, u32. intros H.
  destruct (Z.lt_ge_cases z 0).
  - replace (z mod 2 ^ 32) with (z + 2 ^ 32)
      by (symmetry; rewrite <- (Z.mod_add z 1) by lia; apply Z.mod_small; lia).
    destruct (Z.ltb_spec (z + 2 ^ 32) (2 ^ 31)); lia.
  - rewrite Z.mod_small by lia. destruct (Z.ltb_spec z (2 ^ 31)); lia.
Qed.
Lemma s64_id z : is_s64 z -> s64 z = z.
Proof.
  unfold is_s64, s64, u64. intros H.
  destruct (Z.lt_ge_cases z 0).
  - replace (z mod 2 ^ 64) with (z + 2 ^ 64)
      by (symmetry; rewrite <- (Z.mod_add z 1) by lia; apply Z.mod_small; lia).
    destruct (Z.ltb_spec (z + 2 ^ 64) (2 ^ 63)); lia.
  - rewrite Z.mod_small by lia. destruct (Z.ltb_spec z (2 ^ 63)); lia.
Qed.

Lemma s32_u32 z : s32 (u32 z) = s32 z.
Proof. unfold s32, u32. rewrite Z.mod_mod by lia. done. Qed.
Lemma s64_u64 z : s64 (u64 z) = s64 z.
Proof. unfold s64, u64. rewrite Z.mod_mod by lia. done. Qed.
Lemma u32_s32 z : u32 (s32 z) = u32 z.
Proof.
  unfold s32. destruct (u32 z <? 2 ^ 31); unfold u32.
  - apply Z.mod_mod. lia.
  - rewrite <- (Z.mod_add (z mod 2 ^ 32 - 2 ^ 32) 1) by lia.
    replace (z mod 2 ^ 32 - 2 ^ 32 + 1 * 2 ^ 32) with (z mod 2 ^ 32) by lia.
    apply Z.mod_mod. lia.
Qed.
Lemma u64_s64 z : u64 (s64 z) = u64 z.
Proof.
  unfold s64. destruct (u64 z <? 2 ^ 63); unfold u64.
  - apply Z.mod_mod. lia.
  - rewrite <- (Z.mod_add (z mod 2 ^ 64 - 2 ^ 64) 1) by lia.
    replace (z mod 2 ^ 64 - 2 ^ 64 + 1 * 2 ^ 64) with (z mod 2 ^ 64) by lia.
    apply Z.mod_mod. lia.
Qed.

(** Eight bytes, read as a signed integer and written back. *)
Lemma key_id_roundtrip id : zlen id = 8 -> le_bytes 8 (u64 (s64 (le_val id))) = id.
Proof.
  intros Hl. rewrite u64_s64. unfold u64. change (2 ^ 64) with (256 ^ Z.of_nat 8). rewrite le_bytes_mod.
  assert (length id = 8%nat) as <- by (unfold zlen in Hl; lia). apply le_bytes_le_val.
Qed.

Lemma lxor_range a b : is_u32 a -> is_u32 b -> is_u32 (Z.lxor a b).
Proof.
  unfold is_u32. intros Ha Hb.
  assert (H0 : 0 <= Z.lxor a b) by (apply Z.lxor_nonneg; lia).
  destruct (Z.eq_dec (Z.lxor a b) 0) as [->|Hne]; [lia|]. split; [done|].
  apply Z.log2_lt_pow2; [lia|]. eapply Z.le_lt_trans; [apply Z.log2_lxor; lia|].
  assert (Hl : forall x, 0 <= x < 2 ^ 32 -> Z.log2 x < 32).
  { intros x Hx. destruct (Z.eq_dec x 0) as [->|]; [cbn; lia | apply Z.log2_lt_pow2; lia]. }
  by apply Z.max_lub_lt; apply Hl.
Qed.

(** ** Lemmas on lists with integer indices *)

Lemma zlen_nil {A} : zlen (@nil A) = 0.
Proof. done. Qed.
Lemma zlen_cons {A} (x : A) l : zlen (x :: l) = zlen l + 1.
Proof. unfold zlen. cbn [length]. lia. Qed.
Lemma zlen_app {A} (l k : list A) : zlen (l ++ k) = zlen l + zlen k.
Proof. unfold zlen. rewrite length_app. lia. Qed.
Lemma zlen_nonneg {A} (l : list A) : 0 <= zlen l.
Proof. unfold zlen. lia. Qed.
Lemma zlen_0_inv {A} (l : list A) : zlen l = 0 -> l = [].
Proof. destruct l; [done|]. rewrite zlen_cons. pose proof (zlen_nonneg l). lia. Qed.
Lemma zlen_replicate {A} n (x : A) : zlen (replicate n x) = Z.of_nat n.
Proof. unfold zlen. rewrite length_replicate. done. Qed.
Lemma zlen_rev {A} (l : list A) : zlen (rev l) = zlen l.
Proof. unfold zlen. rewrite length_rev. done. Qed.

Lemma zlen_ztake {A} n (l : list A) : 0 <= n <= zlen l -> zlen (ztake n l) = n.
Proof. unfold zlen, ztake. intros H. rewrite length_take. lia. Qed.
Lemma zlen_zdrop {A} n (l : list A) : 0 <= n <= zlen l -> zlen (zdrop n l) = zlen l - n.
Proof. unfold zlen, zdrop. intros H. rewrite length_drop. lia. Qed.
Lemma zlen_zslice {A} off n (l : list A) :
  0 <= off -> 0 <= n -> off + n <= zlen l -> zlen (zslice off n l) = n.
Proof.
  intros Ho Hn H. unfold zslice. apply zlen_ztake. rewrite zlen_zdrop by lia. lia.
Qed.

Lemma ztake_app {A} n (l k : list A) : zlen l = n -> ztake n (l ++ k) = l.
Proof.
  intros <-. unfold ztake, zlen. rewrite Nat2Z.id, take_app_length. done.
Qed.
Lemma zdrop_app {A} n (l k : list A) : zlen l = n -> zdrop n (l ++ k) = k.
Proof.
  intros <-. unfold zdrop, zlen. rewrite Nat2Z.id, drop_app_length. done.
Qed.
Lemma ztake_all {A} n (l : list A) : zlen l = n -> ztake n l = l.
Proof. intros H. rewrite <- (app_nil_r l) at 1. by apply ztake_app. Qed.
Lemma zdrop_all {A} n (l : list A) : zlen l = n -> zdrop n l = [].
Proof. intros H. rewrite <- (app_nil_r l). by apply zdrop_app. Qed.
Lemma ztake_zdrop {A} n (l : list A) : ztake n l ++ zdrop n l = l.
Proof. apply take_drop. Qed.
Lemma zdrop_0 {A} (l : list A) : zdrop 0 l = l.
Proof. done. Qed.

(** Split a list long enough into its first [n] elements and the rest. *)
Lemma zsplit {A} n (l : list A) :
  0 <= n <= zlen l -> exists a b, l = a ++ b /\ zlen a = n.
Proof.
  intros H. exists (ztake n l), (zdrop n l).
  split; [by rewrite ztake_zdrop | by apply zlen_ztake].
Qed.

Create Rewrite HintDb zlen.
#[export] Hint Rewrite @zlen_nil @zlen_cons @zlen_app @zlen_replicate @zlen_rev
  zlen_le_bytes : zlen.

(** Normalise lengths, then decide. *)
Ltac zlen_lia :=
  autorewrite with zlen in *;
  repeat match goal with
  | H : context [zlen ?l] |- _ =>
      is_var l; lazymatch goal with
      | _ : 0 <= zlen l |- _ => fail
      | _ => pose proof (zlen_nonneg l)
      end
  | |- context [zlen ?l] =>
      is_var l; lazymatch goal with
      | _ : 0 <= zlen l |- _ => fail
      | _ => pose proof (zlen_nonneg l)
      end
  end;
  lia.

(** ** Lemmas on computations *)

Lemma bind_Ok {S A B} (m : M S A) (k : A -> M S B) s a s' :
  m s = (Ok a, s') -> bind m k s = k a s'.
Proof. unfold bind. intros ->. done. Qed.

Lemma bind_Throw {S A B} (m : M S A) (k : A -> M S B) s e s' :
  m s = (Throw e, s') -> bind m k s = (Throw e, s').
Proof. unfold bind. intros ->. done. Qed.

Lemma bind_Ok_inv {S A B} (m : M S A) (k : A -> M S B) s b s' :
  bind m k s = (Ok b, s') -> exists a s1, m s = (Ok a, s1) /\ k a s1 = (Ok b, s').
Proof. unfold bind. destruct (m s) as [[a|e] s1]; [eauto|done]. Qed.

Lemma ret_Ok_inv {S A} (a b : A) (s s' : S) : (Ok a, s) = (Ok b, s') -> a = b /\ s = s'.
Proof. by intros [= -> ->]. Qed.

Lemma bind_ret {S A B} (a : A) (k : A -> M S B) s : bind (ret a) k s = k a s.
Proof. done. Qed.

Lemma bind_guard {S B} (c : bool) e (k : unit -> M S B) s :
  c = true -> bind (guard c e) k s = k tt s.
Proof. by intros ->. Qed.

Lemma bind_guard_if {S B} (c : bool) e (k : unit -> M S B) s :
  bind (guard c e) k s = if c then k tt s else (Throw e, s).
Proof. by destruct c. Qed.

Lemma bind_guard_false {S B} (c : bool) e (k : unit -> M S B) s :
  c = false -> bind (guard c e) k s = (Throw e, s).
Proof. by intros ->. Qed.

Lemma bind_gets {S A B} (f : S -> A) (k : A -> M S B) s : bind (gets f) k s = k (f s) s.
Proof. done. Qed.

Lemma bind_get {S B} (k : S -> M S B) s : bind get k s = k s s.
Proof. done. Qed.

Lemma bind_lift {S A B} (r : res A) (k : A -> M S B) s :
  bind (lift r) k s = match r with Ok a => k a s | Throw e => (Throw e, s) end.
Proof. by destruct r. Qed.

Lemma bind_assoc {S A B C} (m : M S A) (k : A -> M S B) (h : B -> M S C) s :
  bind (bind m k) h s = bind m (fun a => bind (k a) h) s.
Proof. unfold bind. destruct (m s) as [[a|e] s1]; done. Qed.

(** Decompose the successful runs in the context. *)
Ltac inv_ok :=
  repeat match goal with
  | H : bind _ _ _ = (Ok _, _) |- _ =>
      let a := fresh "v" in let s := fresh "st" in
      let H1 := fresh "Hrun" in let H2 := fresh "Hrun" in
      apply bind_Ok_inv in H; destruct H as (a & s & H1 & H2)
  | H : ret _ _ = (Ok _, _) |- _ => apply ret_Ok_inv in H; destruct H as [? ?]; subst
  | H : (Ok _, _) = (Ok _, _) |- _ => apply ret_Ok_inv in H; destruct H as [? ?]; subst
  | H : (Throw _, _) = (Ok _, _) |- _ => discriminate H
  | H : throw _ _ = (Ok _, _) |- _ => discriminate H
  end.

(** ** Parsers and what they accept *)

(** [parses m enc a]: on any input that starts with the bytes [enc], [m]
    returns [a] and leaves exactly the rest. *)
Definition parses {A} (m : M bytes A) (enc : bytes) (a : A) : Prop :=
  forall rest, m (enc ++ rest) = (Ok a, rest).

Lemma parses_ret {A} (a : A) : parses (ret a) [] a.
Proof. intros rest. done. Qed.

Lemma parses_bind {A B} (m : M bytes A) (k : A -> M bytes B) e1 e2 a b :
  parses m e1 a -> parses (k a) e2 b -> parses (bind m k) (e1 ++ e2) b.
Proof.
  intros H1 H2 rest. rewrite <- app_assoc.
  erewrite bind_Ok by apply H1. apply H2.
Qed.

Lemma parses_eq {A} (m : M bytes A) e e' a : parses m e a -> e = e' -> parses m e' a.
Proof. by intros H <-. Qed.

(** A final step that consumes nothing. *)
Lemma parses_bind_ret {A B} (m : M bytes A) (f : A -> B) e a :
  parses m e a -> parses (bind m (fun x => ret (f x))) e (f a).
Proof. intros H rest. erewrite bind_Ok by apply H. done. Qed.

Lemma parses_ret_bind {A B} (x : A) (k : A -> M bytes B) e b :
  parses (k x) e b -> parses (bind (ret x) k) e b.
Proof. done. Qed.

Lemma parses_guard {A} (c : bool) e (k : unit -> M bytes A) enc a :
  c = true -> parses (k tt) enc a -> parses (bind (guard c e) k) enc a.
Proof. intros Hc H rest. rewrite bind_guard by done. apply H. Qed.

Lemma parses_lift {A B} (r : res A) (v : A) (k : A -> M bytes B) enc b :
  r = Ok v -> parses (k v) enc b -> parses (bind (lift r) k) enc b.
Proof. intros -> H rest. rewrite bind_lift. apply H. Qed.

Lemma parses_repeat {A} (m : M bytes A) (enc : A -> bytes) l :
  (forall a, a ∈ l -> parses m (enc a) a) ->
  parses (repeat_m (length l) m) (concat (map enc l)) l.
Proof.
  induction l as [|x t IH]; intros H; [apply parses_ret|].
  cbn [length repeat_m map concat].
  apply (parses_bind _ _ _ _ x); [apply H; left|].
  rewrite <- (app_nil_r (concat _)).
  apply (parses_bind _ _ _ _ t); [apply IH; intros; apply H; by right|].
  apply parses_ret.
Qed.

(** The reads of [m] take a prefix of the buffer and nothing else; a failed
    read may have taken a prefix as well. *)
Definition consumes {A} (m : M bytes A) : Prop :=
  forall s r s', m s = (r, s') -> exists pre, s = pre ++ s'.

Lemma consumes_ret {A} (a : A) : consumes (ret a).
Proof. intros s r s' [= <- <-]. by exists []. Qed.
Lemma consumes_throw {A} e : consumes (@throw bytes A e).
Proof. intros s r s' [= <- <-]. by exists []. Qed.
Lemma consumes_bind {A B} (m : M bytes A) (k : A -> M bytes B) :
  consumes m -> (forall a, consumes (k a)) -> consumes (bind m k).
Proof.
  intros Hm Hk s r s'. unfold bind.
  destruct (m s) as [[a|e] s1] eqn:E; apply Hm in E as [p1 ->].
  - intros [p2 ->]%Hk. exists (p1 ++ p2). by rewrite app_assoc.
  - intros [= <- <-]. by exists p1.
Qed.
Lemma consumes_repeat {A} (m : M bytes A) n : consumes m -> consumes (repeat_m n m).
Proof.
  intros H. induction n; [apply consumes_ret|]. cbn.
  apply consumes_bind; [done|]. intros a. apply consumes_bind; [done|].
  intros. apply consumes_ret.
Qed.

Create HintDb tl discriminated.
#[export] Hint Resolve parses_ret consumes_ret consumes_throw consumes_bind
  consumes_repeat : tl.

(** ** What a computation may do to a view of the state *)

Section Effects.
Context {W V : Type} (view : W -> V).

(** From any world of view [cs], [m] ends with a result and a view in [Q]. *)
Definition effect {A} (m : M W A) (cs : V) (Q : res A -> V -> Prop)
    : Prop :=
  forall w, view w = cs -> Q (fst (m w)) (view (snd (m w))).

(** [m] is about something else. *)
Definition frames {A} (m : M W A) : Prop := forall w, view (snd (m w)) = view w.

Lemma effect_ret {A} (a : A) cs (Q : _ -> _ -> Prop) : Q (Ok a) cs -> effect (ret a) cs Q.
Proof. by intros H w <-. Qed.
Lemma effect_throw {A} e cs (Q : res A -> _ -> Prop) : Q (Throw e) cs -> effect (throw e) cs Q.
Proof. by intros H w <-. Qed.

Lemma effect_bind {A B} (m : M W A) (k : A -> M W B) cs Q :
  effect m cs (fun r cs' => match r with Ok a => effect (k a) cs' Q | Throw e => Q (Throw e) cs' end) ->
  effect (bind m k) cs Q.
Proof.
  intros H w Hw. specialize (H w Hw). unfold bind. destruct (m w) as [[a|e] w'].
  - by apply H.
  - exact H.
Qed.

Lemma effect_mono {A} (m : M W A) cs (Q Q' : _ -> _ -> Prop) :
  effect m cs Q -> (forall r cs', Q r cs' -> Q' r cs') -> effect m cs Q'.
Proof. intros H Hi w Hw. by apply Hi, H. Qed.

Lemma effect_frame {A} (m : M W A) cs (Q : _ -> _ -> Prop) :
  frames m -> (forall r, Q r cs) -> effect m cs Q.
Proof. intros Hf H w <-. rewrite Hf. apply H. Qed.

Lemma effect_bind_frame {A B} (m : M W A) (k : A -> M W B) cs (Q : _ -> _ -> Prop) :
  frames m -> (forall a, effect (k a) cs Q) -> (forall e, Q (Throw e) cs) ->
  effect (bind m k) cs Q.
Proof. intros Hf Ha He. apply effect_bind, effect_frame; [done|]. by intros [a|e]. Qed.

Lemma effect_guard {B} (c : bool) e (k : unit -> M W B) cs (Q : _ -> _ -> Prop) :
  (c = true -> effect (k tt) cs Q) -> (c = false -> Q (Throw e) cs) ->
  effect (bind (guard c e) k) cs Q.
Proof.
  intros Ht Hf. apply effect_bind. unfold guard. destruct c.
  - by apply effect_ret, Ht.
  - by apply effect_throw, Hf.
Qed.

(** [m] always returns, and is about something else. *)
Lemma effect_bind_total {A B} (m : M W A) (k : A -> M W B) cs Q :
  (forall w, exists a w', m w = (Ok a, w') /\ view w' = view w) ->
  (forall a, effect (k a) cs Q) -> effect (bind m k) cs Q.
Proof.
  intros Hm Hk. apply effect_bind. intros w <-. destruct (Hm w) as (a & w' & E & Hc).
  rewrite E. cbn. rewrite Hc. apply Hk.
Qed.

(** What holds of the view however the computation ends. *)
Lemma effect_bind_view {A B} (m : M W A) (k : A -> M W B) cs (P : V -> Prop) :
  effect m cs (fun _ => P) -> (forall a cs', P cs' -> effect (k a) cs' (fun _ => P)) ->
  effect (bind m k) cs (fun _ => P).
Proof.
  intros Hm Hk. apply effect_bind. eapply effect_mono; [exact Hm|]. intros [a|e] cs' H; [by apply Hk|done].
Qed.
Lemma effect_catch_view {A} (m : M W A) h cs (P : V -> Prop) :
  (forall e cs', P cs' -> effect (h e) cs' (fun _ => P)) -> effect m cs (fun _ => P) ->
  effect (try_catch m h) cs (fun _ => P).
Proof.
  intros Hh Hm w Hw. specialize (Hm w Hw). unfold try_catch. destruct (m w) as [[a|e] w']; [done|]. by apply (Hh e (view w')).
Qed.
Lemma effect_view_frame {A} (m : M W A) cs (P : V -> Prop) : frames m -> P cs -> effect m cs (fun _ => P).
Proof. intros Hm HP. by apply effect_frame. Qed.

Lemma frames_bind {A B} (m : M W A) (k : A -> M W B) :
  frames m -> (forall a, frames (k a)) -> frames (bind m k).
Proof.
  intros Hm Hk w. specialize (Hm w). unfold bind. destruct (m w) as [[a|e] w']; [|done].
  cbn in Hm. rewrite Hk. exact Hm.
Qed.
Lemma frames_ret {A} (a : A) : frames (ret a).
Proof. done. Qed.

Lemma frames_throw {A} e : frames (@throw W A e).
Proof. done. Qed.
Lemma frames_lift {A} (r : res A) : frames (lift r).
Proof. done. Qed.
Lemma frames_guard c e : frames (guard c e).
Proof. intros w. by destruct c. Qed.
Lemma frames_catch {A} (m : M W A) h : frames m -> (forall e, frames (h e)) -> frames (try_catch m h).
Proof.
  intros Hm Hh w. specialize (Hm w). unfold try_catch. destruct (m w) as [[a|e] w']; [done|].
  cbn in Hm. rewrite Hh. exact Hm.
Qed.

End Effects.

Create HintDb frames discriminated.
#[export] Hint Resolve frames_ret frames_throw frames_lift frames_guard : frames.
