(* ===== verification/Text.v ===== *)
(** * Text: the [std::string] and number operations the sources use

    Searching, cutting and trimming of strings, and the conversions between
    integers and their decimal texts.  [None] stands for [npos], or for the
    exception of a conversion. *)

From Stdlib Require Import ZArith Lia Strings.Byte Strings.String.
From stdpp Require Import base decidable list.
From S2P Require Import Prelude.

(** ** Characters *)

Definition is_digit (c : byte) : bool := (48 <=? bz c) && (bz c <=? 57).
(** A character of [" \t\n\r\f\v"]: [std::isspace] of the C locale. *)
Definition is_space (c : byte) : bool := (bz c =? 32) || ((9 <=? bz c) && (bz c <=? 13)).
(** [std::tolower] of the C locale. *)
Definition tolower (c : byte) : byte :=
  if (65 <=? bz c) && (bz c <=? 90) then u8 (bz c + 32) else c.
Definition ToLower (s : bytes) : bytes := map tolower s.

(** ** Searching and cutting *)

(** [s.find_first_not_of(…)] and [s.find_last_not_of(…)] *)
Fixpoint find_first_not_of (skip : byte -> bool) (s : bytes) : option Z :=
  match s with
  | [] => None
  | c :: t => if skip c then option_map Z.succ (find_first_not_of skip t) else Some 0
  end.
Fixpoint find_last_not_of (skip : byte -> bool) (s : bytes) : option Z :=
  match s with
  | [] => None
  | c :: t => match find_last_not_of skip t with
              | Some i => Some (Z.succ i)
              | None => if skip c then None else Some 0
              end
  end.
(** [s.find(c)] and [s.rfind(c)] *)
Definition find_char (c : byte) : bytes -> option Z :=
  find_first_not_of (fun d => negb (bool_decide (d = c))).
Definition rfind_char (c : byte) : bytes -> option Z :=
  find_last_not_of (fun d => negb (bool_decide (d = c))).
(** [s.substr(pos, count)] and [s.substr(pos)], for [pos] up to the size. *)
Definition substr (s : bytes) (pos count : Z) : bytes := ztake count (zdrop pos s).

Definition crlf : bytes := [x0d; x0a].
(** [s.find("\r\n")] *)
Fixpoint find_crlf (s : bytes) : option Z :=
  match s with
  | [] => None
  | c :: t =>
      match t with
      | d :: _ => if bool_decide (c = x0d) && bool_decide (d = x0a) then Some 0
                  else option_map Z.succ (find_crlf t)
      | [] => None
      end
  end.

(** ** Numbers *)

(** [std::to_string] of an integer of at most 64 bits. *)
Fixpoint decimal (fuel : nat) (n : Z) : bytes :=
  match fuel with
  | O => []
  | S fuel => if n <? 10 then [u8 (48 + n)] else decimal fuel (n / 10) ++ [u8 (48 + n mod 10)]
  end.
Definition to_string (n : Z) : bytes :=
  if n <? 0 then lit "-" ++ decimal 20 (- n) else decimal 20 n.

(** The value of the leading digits. *)
Fixpoint digits_value (acc : Z) (s : bytes) : Z :=
  match s with
  | c :: t => if is_digit c then digits_value (10 * acc + (bz c - 48)) t else acc
  | [] => acc
  end.
Definition starts_with_digit (s : bytes) : bool :=
  match s with c :: _ => is_digit c | [] => false end.

(** White space, a sign, then digits: what [strtol] and [strtoul] read. *)
Fixpoint strtol (s : bytes) : option Z :=
  match s with
  | [] => None
  | c :: t =>
      if is_space c then strtol t
      else if bz c =? 45 then if starts_with_digit t then Some (- digits_value 0 t) else None
      else if bz c =? 43 then if starts_with_digit t then Some (digits_value 0 t) else None
      else if is_digit c then Some (digits_value 0 s) else None
  end.

(** [std::atoi], where the value fits an [int]. *)
Definition atoi (s : bytes) : Z := default 0 (strtol s).

(** [std::stoi] and [std::stoul]; [None] is an exception. *)
Definition stoi (s : bytes) : option Z :=
  match strtol s with
  | Some v => if (- 2 ^ 31 <=? v) && (v <? 2 ^ 31) then Some v else None
  | None => None
  end.
Definition stoul (s : bytes) : option Z :=
  match strtol s with
  | Some v => if (- 2 ^ 64 <? v) && (v <? 2 ^ 64) then Some (u64 v) else None
  | None => None
  end.

(** ** Searching *)

Lemma find_first_skips p a b : forallb p a = true ->
  find_first_not_of p (a ++ b) = option_map (fun i => zlen a + i) (find_first_not_of p b).
Proof.
  induction a as [|c a IH]; cbn [forallb app find_first_not_of]; intros H.
  { destruct (find_first_not_of p b); [|done]. cbn. f_equal. }
  apply andb_true_iff in H as [-> H]. rewrite IH by done. destruct (find_first_not_of p b); [|done].
  cbn [option_map]. f_equal. rewrite zlen_cons. lia.
Qed.

Lemma find_first_spaces p a : forallb p a = true -> find_first_not_of p a = None.
Proof. intros H. rewrite <- (app_nil_r a). by rewrite find_first_skips. Qed.

Lemma find_last_app p a b :
  find_last_not_of p (a ++ b) =
    match find_last_not_of p b with Some i => Some (zlen a + i) | None => find_last_not_of p a end.
Proof.
  induction a as [|c a IH]; cbn [app find_last_not_of].
  { by destruct (find_last_not_of p b). }
  rewrite IH. destruct (find_last_not_of p b); [|done]. f_equal. rewrite zlen_cons. lia.
Qed.

Lemma find_last_spaces p a : forallb p a = true -> find_last_not_of p a = None.
Proof.
  induction a as [|c a IH]; [done|]. cbn [forallb find_last_not_of]. intros [-> H]%andb_true_iff.
  by rewrite IH.
Qed.

(** [c] is not in [s]. *)
Definition lacks (c : byte) (s : bytes) : Prop := forallb (fun d => negb (bool_decide (d = c))) s = true.

Lemma find_char_app c a b : lacks c a -> find_char c (a ++ c :: b) = Some (zlen a).
Proof.
  intros H. unfold find_char. rewrite find_first_skips by done. cbn [find_first_not_of].
  rewrite bool_decide_eq_true_2 by done. cbn [negb option_map]. by rewrite Z.add_0_r.
Qed.
Lemma find_char_None c a : lacks c a -> find_char c a = None.
Proof. apply find_first_spaces. Qed.
Lemma rfind_char_app c a b : lacks c b -> rfind_char c (a ++ c :: b) = Some (zlen a).
Proof.
  intros H. unfold rfind_char. rewrite find_last_app. cbn [find_last_not_of].
  rewrite (find_last_spaces _ b), bool_decide_eq_true_2 by done. cbn [negb]. by rewrite Z.add_0_r.
Qed.
Lemma rfind_char_None c a : lacks c a -> rfind_char c a = None.
Proof. apply find_last_spaces. Qed.

Lemma find_crlf_app a b : lacks x0d a -> find_crlf (a ++ crlf ++ b) = Some (zlen a).
Proof.
  unfold crlf. induction a as [|c a IH]; intros H; [done|].
  unfold lacks in *. cbn [forallb] in H. apply andb_true_iff in H as [Hc H].
  apply negb_true_iff, bool_decide_eq_false in Hc. specialize (IH H). cbn [app find_crlf] in *.
  destruct (a ++ x0d :: x0a :: b) as [|d t] eqn:E; [by destruct a|].
  rewrite bool_decide_eq_false_2, IH by done. cbn [andb option_map]. f_equal. rewrite zlen_cons. lia.
Qed.

Lemma substr_middle a b c : substr (a ++ b ++ c) (zlen a) (zlen b) = b.
Proof. unfold substr. rewrite zdrop_app by done. by apply ztake_app. Qed.

(** ** Numbers *)

Lemma digit_u8 d : 0 <= d < 10 -> bz (u8 (48 + d)) = 48 + d /\ is_digit (u8 (48 + d)) = true.
Proof. intros H. unfold is_digit. rewrite bz_u8, Z.mod_small by lia. lia. Qed.

Lemma digits_value_app acc a b : forallb is_digit a = true ->
  digits_value acc (a ++ b) = digits_value (digits_value acc a) b.
Proof.
  revert acc. induction a as [|c a IH]; intros acc; cbn [forallb app digits_value]; [done|].
  intros [-> H]%andb_true_iff. by apply IH.
Qed.

Lemma digits_value_stop acc s : starts_with_digit s = false -> digits_value acc s = acc.
Proof. destruct s as [|c s]; [done|]. cbn. by intros ->. Qed.

Lemma decimal_spec fuel n : 0 <= n < 10 ^ Z.of_nat fuel -> (0 < fuel)%nat ->
  decimal fuel n <> [] /\ forallb is_digit (decimal fuel n) = true /\ digits_value 0 (decimal fuel n) = n.
Proof.
  revert n. induction fuel as [|fuel IH]; intros n Hn Hf; [lia|]. cbn [decimal].
  destruct (Z.ltb_spec n 10) as [Hlt|Hge].
  { destruct (digit_u8 n ltac:(lia)) as [Hb Hd]. cbn. rewrite Hd, Hb. split; [done|]. split; [done|lia]. }
  assert (Hdiv : 0 <= n / 10 < 10 ^ Z.of_nat fuel).
  { split; [apply Z.div_pos; lia|]. apply Z.div_lt_upper_bound; [lia|].
    rewrite Nat2Z.inj_succ, Z.pow_succ_r in Hn by lia. lia. }
  destruct fuel as [|fuel].
  { change (10 ^ Z.of_nat 0) with 1 in Hdiv. assert (1 <= n / 10) by (apply Z.div_le_lower_bound; lia). lia. }
  destruct (IH (n / 10) Hdiv ltac:(lia)) as (Hne & Hall & Hv).
  pose proof (Z.mod_pos_bound n 10 ltac:(lia)) as Hm.
  destruct (digit_u8 (n mod 10) Hm) as [Hb Hd].
  split; [by destruct (decimal (S fuel) (n / 10))|].
  split; [by rewrite forallb_app, Hall; cbn; rewrite Hd|].
  rewrite digits_value_app, Hv by done. cbn. rewrite Hd, Hb.
  pose proof (Z.div_mod n 10 ltac:(lia)). lia.
Qed.

(** A number that was printed is read back, whatever follows but a digit. *)
Lemma strtol_to_string n rest : 0 <= n < 2 ^ 64 -> starts_with_digit rest = false ->
  strtol (to_string n ++ rest) = Some n.
Proof.
  intros Hn Hr. unfold to_string. destruct (Z.ltb_spec n 0); [lia|].
  destruct (decimal_spec 20 n ltac:(lia) ltac:(lia)) as (Hne & Hall & Hv).
  destruct (decimal 20 n) as [|c t] eqn:E; [done|]. cbn [app strtol].
  cbn [forallb] in Hall. apply andb_true_iff in Hall as [Hc Ht].
  assert (is_space c = false) as -> by (unfold is_space, is_digit in *; lia).
  destruct (Z.eqb_spec (bz c) 45); [unfold is_digit in Hc; lia|].
  destruct (Z.eqb_spec (bz c) 43); [unfold is_digit in Hc; lia|]. rewrite Hc. f_equal.
  rewrite app_comm_cons, digits_value_app by (cbn; by rewrite Hc).
  rewrite Hv. by apply digits_value_stop.
Qed.

Lemma to_string_digits n : 0 <= n < 2 ^ 64 -> to_string n <> [] /\ forallb is_digit (to_string n) = true.
Proof.
  intros Hn. unfold to_string. destruct (Z.ltb_spec n 0); [lia|].
  destruct (decimal_spec 20 n ltac:(lia) ltac:(lia)) as (Hne & Hall & _). done.
Qed.
