(* ===== verification/TL.v ===== *)
(** * The TL wire buffer: [mtproto::TLBuffer]

    A [TLBuffer] is its byte vector [buf].  The writing methods append to it;
    the reading methods are computations on it ([M bytes A]) that throw
    [BufferUnderrunError] when it is too short.  The vectors read and written
    are lists of bytes; lengths are integers. *)

From Stdlib Require Import ZArith Lia Strings.Byte Strings.String.
From stdpp Require Import base decidable list.
From S2P Require Import Prelude.

Module TLBuffer.

(** ** Writing *)

Definition kTypeVector : Z := 0x1cb5c415.

Definition Put (data : bytes) (buf : bytes) : bytes := buf ++ data.

Definition PutUint32 (v : Z) (buf : bytes) : bytes :=
  Put [u8 v; u8 (Z.shiftr v 8); u8 (Z.shiftr v 16); u8 (Z.shiftr v 24)] buf.
Definition PutInt32 (v : Z) (buf : bytes) : bytes := PutUint32 (u32 v) buf.
Definition PutID (id : Z) (buf : bytes) : bytes := PutUint32 id buf.

(** [for (i = 0; i < 8; ++i) b[i] = v >> (8 * i)] *)
Definition PutUint64 (v : Z) (buf : bytes) : bytes :=
  Put (map (fun i => u8 (Z.shiftr v (8 * Z.of_nat i))) (seq 0 8)) buf.
Definition PutLong (v : Z) (buf : bytes) : bytes := PutUint64 (u64 v) buf.

(** [Int128] and [Int256] are arrays of 16 and 32 bytes. *)
Definition PutInt128 (v : bytes) (buf : bytes) : bytes := Put v buf.
Definition PutInt256 (v : bytes) (buf : bytes) : bytes := Put v buf.

Definition kWord : Z := 4.
Definition NearestPaddedLength (l : Z) : Z :=
  let n := kWord * (l / kWord) in
  if n <? l then n + kWord else n.

Definition kMaxSmall : Z := 253.
Definition kLongMarker : Z := 254.

Definition PutBytes (v : bytes) (buf : bytes) : bytes :=
  let l := zlen v in
  let '(buf, header_len) :=
    if l <=? kMaxSmall then (buf ++ [u8 l], 1)
    else (buf ++ [u8 kLongMarker; u8 l; u8 (Z.shiftr l 8); u8 (Z.shiftr l 16)], 4) in
  let buf := Put v buf in
  let current := header_len + l in
  let padded := NearestPaddedLength current in
  buf ++ replicate (Z.to_nat (padded - current)) x00.

Definition PutVectorHeader (length : Z) (buf : bytes) : bytes :=
  PutInt32 (s32 length) (PutID kTypeVector buf).

(** [for (const auto& x : l) f(b, x)] on a buffer. *)
Fixpoint PutAll {A} (f : A -> bytes -> bytes) (l : list A) (buf : bytes) : bytes :=
  match l with
  | [] => buf
  | x :: t => PutAll f t (f x buf)
  end.

(** ** Reading *)

Definition ReadU32LE (p : bytes) : Z :=
  match p with
  | p0 :: p1 :: p2 :: p3 :: _ =>
      Z.lor (Z.lor (Z.lor (bz p0) (Z.shiftl (bz p1) 8)) (Z.shiftl (bz p2) 16))
            (Z.shiftl (bz p3) 24)
  | _ => 0 (* not reached: the callers check the size *)
  end.

(** [buf.erase(buf.begin(), buf.begin() + n)] *)
Definition erase (n : Z) : M bytes unit := modify (zdrop n).

Definition PeekID : M bytes Z :=
  buf <- get ;;
  guard (4 <=? zlen buf) BufferUnderrunError ;;;
  ret (ReadU32LE buf).

Definition PeekN (n : Z) : M bytes bytes :=
  buf <- get ;;
  guard (n <=? zlen buf) BufferUnderrunError ;;;
  ret (ztake n buf).

Definition ConsumeN (n : Z) : M bytes bytes :=
  target <- PeekN n ;;
  erase n ;;;
  ret target.

Definition Uint32 : M bytes Z :=
  v <- PeekID ;;
  erase 4 ;;;
  ret v.
Definition Int32 : M bytes Z := v <- Uint32 ;; ret (s32 v).

Definition ConsumeID (id : Z) : M bytes unit :=
  got <- PeekID ;;
  guard (got =? id) (UnexpectedIdError got) ;;;
  erase 4.

Definition Uint64 : M bytes Z :=
  buf <- get ;;
  guard (8 <=? zlen buf) BufferUnderrunError ;;;
  let v := or_bytes 0 0 (ztake 8 buf) in
  erase 8 ;;;
  ret v.
Definition Long : M bytes Z := v <- Uint64 ;; ret (s64 v).

Definition GetInt128 : M bytes bytes :=
  buf <- get ;;
  guard (16 <=? zlen buf) BufferUnderrunError ;;;
  erase 16 ;;;
  ret (ztake 16 buf).
Definition GetInt256 : M bytes bytes :=
  buf <- get ;;
  guard (32 <=? zlen buf) BufferUnderrunError ;;;
  erase 32 ;;;
  ret (ztake 32 buf).

(** The length prefix of a TL [bytes]: header length and content length. *)
Definition BytesHeader (buf : bytes) : res (Z * Z) :=
  match buf with
  | [] => Throw BufferUnderrunError
  | b0 :: t =>
      if bz b0 =? kLongMarker then
        match t with
        | b1 :: b2 :: b3 :: _ =>
            Ok (4, Z.lor (Z.lor (bz b1) (Z.shiftl (bz b2) 8)) (Z.shiftl (bz b3) 16))
        | _ => Throw BufferUnderrunError
        end
      else Ok (1, bz b0)
  end.

Definition GetBytes : M bytes bytes :=
  buf <- get ;;
  header <- lift (BytesHeader buf) ;;
  let '(header_len, len) := header in
  guard (header_len + len <=? zlen buf) BufferUnderrunError ;;;
  let v := zslice header_len len buf in
  let padded := NearestPaddedLength (header_len + len) in
  guard (padded <=? zlen buf) BufferUnderrunError ;;;
  erase padded ;;;
  ret v.

Definition VectorHeader : M bytes Z :=
  ConsumeID kTypeVector ;;;
  Int32.

(** ** What the writing methods append *)

(** A writer appends: what it adds does not depend on what is there. *)
Class Appends (f : bytes -> bytes) : Prop :=
  appends : forall buf, f buf = buf ++ f [].

Lemma PutUint32_app v buf : PutUint32 v buf = buf ++ le_bytes 4 v.
Proof.
  unfold PutUint32, Put. cbn [le_bytes]. rewrite !Z.shiftr_shiftr by lia. done.
Qed.

Lemma PutInt32_app v buf : PutInt32 v buf = buf ++ le_bytes 4 v.
Proof. unfold PutInt32. rewrite PutUint32_app. f_equal. apply (le_bytes_mod 4). Qed.

Lemma PutID_app v buf : PutID v buf = buf ++ le_bytes 4 v.
Proof. apply PutUint32_app. Qed.

Lemma PutUint64_app v buf : PutUint64 v buf = buf ++ le_bytes 8 v.
Proof.
  unfold PutUint64, Put. cbn [le_bytes map seq]. rewrite !Z.shiftr_shiftr by lia.
  done.
Qed.

Lemma PutLong_app v buf : PutLong v buf = buf ++ le_bytes 8 v.
Proof. unfold PutLong. rewrite PutUint64_app. f_equal. apply (le_bytes_mod 8). Qed.

(** The bytes [PutBytes] appends. *)
Definition bytes_header (l : Z) : bytes :=
  if l <=? kMaxSmall then [u8 l] else u8 kLongMarker :: le_bytes 3 l.
Definition bytes_pad (n : Z) : bytes :=
  replicate (Z.to_nat (NearestPaddedLength n - n)) x00.
Definition enc_bytes (v : bytes) : bytes :=
  bytes_header (zlen v) ++ v ++ bytes_pad (zlen (bytes_header (zlen v)) + zlen v).

Lemma PutBytes_app v buf : PutBytes v buf = buf ++ enc_bytes v.
Proof.
  unfold PutBytes, enc_bytes, Put, bytes_header, bytes_pad.
  destruct (zlen v <=? kMaxSmall); cbn [le_bytes];
    rewrite ?Z.shiftr_shiftr by lia;
    rewrite ?zlen_cons, ?zlen_nil, <- ?app_assoc; done.
Qed.

Definition enc_vector_header (n : Z) : bytes := le_bytes 4 kTypeVector ++ le_bytes 4 n.

Lemma PutVectorHeader_app n buf : PutVectorHeader n buf = buf ++ enc_vector_header n.
Proof.
  unfold PutVectorHeader, enc_vector_header.
  rewrite PutInt32_app, PutID_app, <- app_assoc. do 2 f_equal.
  rewrite <- (le_bytes_mod 4 (s32 n)), <- (le_bytes_mod 4 n).
  f_equal. change (256 ^ Z.of_nat 4) with (2 ^ 32).
  change (u32 (s32 n) = u32 n). apply u32_s32.
Qed.

Lemma Put_app data buf : Put data buf = buf ++ data.
Proof. done. Qed.
Lemma PutInt128_app v buf : PutInt128 v buf = buf ++ v.
Proof. done. Qed.
Lemma PutInt256_app v buf : PutInt256 v buf = buf ++ v.
Proof. done. Qed.

Lemma PutAll_app {A} (f : A -> bytes -> bytes) (e : A -> bytes) l buf :
  (forall x b, f x b = b ++ e x) -> PutAll f l buf = buf ++ concat (map e l).
Proof.
  intros H. revert buf. induction l as [|x t IH]; intros buf; cbn.
  - by rewrite app_nil_r.
  - rewrite IH, H, <- app_assoc. done.
Qed.

(** ** What the reading methods take *)

Lemma ReadU32LE_le_val p : 4 <= zlen p -> ReadU32LE p = le_val (ztake 4 p).
Proof.
  intros H. destruct p as [|p0 [|p1 [|p2 [|p3 t]]]]; try (zlen_lia).
  rewrite <- or_bytes_0. unfold ztake. cbn [Z.to_nat Pos.to_nat take].
  change (Pos.to_nat 4) with 4%nat. cbn [take or_bytes ReadU32LE].
  rewrite ?Z.lor_0_l, ?Z.shiftl_0_r. done.
Qed.

Lemma ReadU32LE_le_bytes v rest : ReadU32LE (le_bytes 4 v ++ rest) = u32 v.
Proof.
  rewrite ReadU32LE_le_val by zlen_lia.
  rewrite ztake_app by (by rewrite zlen_le_bytes).
  apply (le_val_le_bytes 4).
Qed.

Lemma PeekID_run v rest :
  PeekID (le_bytes 4 v ++ rest) = (Ok (u32 v), le_bytes 4 v ++ rest).
Proof.
  unfold PeekID, bind, get, guard.
  destruct (Z.leb_spec 4 (zlen (le_bytes 4 v ++ rest))); [|zlen_lia].
  cbn [ret]. unfold ret. by rewrite ReadU32LE_le_bytes.
Qed.

(** [PeekID] leaves the buffer; then the same bytes are parsed. *)
Lemma parses_peek {A} (k : Z -> M bytes A) v e a :
  parses (k (u32 v)) (le_bytes 4 v ++ e) a ->
  parses (id <- PeekID ;; k id) (le_bytes 4 v ++ e) a.
Proof.
  intros H rest. erewrite bind_Ok; [apply H|].
  rewrite <- app_assoc. apply PeekID_run.
Qed.

Lemma parses_Uint32 v : parses Uint32 (le_bytes 4 v) (u32 v).
Proof.
  intros rest. unfold Uint32. erewrite bind_Ok by apply PeekID_run.
  unfold erase, modify, bind, ret. by rewrite zdrop_app by (by rewrite zlen_le_bytes).
Qed.

Lemma parses_Int32 v : parses Int32 (le_bytes 4 v) (s32 v).
Proof.
  intros rest. unfold Int32. erewrite bind_Ok by apply parses_Uint32.
  unfold ret. by rewrite s32_u32.
Qed.

Lemma parses_ConsumeID id : is_u32 id -> parses (ConsumeID id) (le_bytes 4 id) tt.
Proof.
  intros Hid rest. unfold ConsumeID. erewrite bind_Ok by apply PeekID_run.
  rewrite u32_id, Z.eqb_refl by done.
  unfold guard, erase, modify, bind, ret. by rewrite zdrop_app by (by rewrite zlen_le_bytes).
Qed.

Lemma parses_Uint64 v : parses Uint64 (le_bytes 8 v) (u64 v).
Proof.
  intros rest. unfold Uint64, bind, get, guard.
  destruct (Z.leb_spec 8 (zlen (le_bytes 8 v ++ rest))); [|zlen_lia].
  unfold ret, erase, modify. rewrite or_bytes_0.
  rewrite ztake_app, zdrop_app by (by rewrite zlen_le_bytes).
  by rewrite (le_val_le_bytes 8).
Qed.

Lemma parses_Long v : parses Long (le_bytes 8 v) (s64 v).
Proof.
  intros rest. unfold Long. erewrite bind_Ok by apply parses_Uint64.
  unfold ret. by rewrite s64_u64.
Qed.

Lemma parses_GetInt128 v : zlen v = 16 -> parses GetInt128 v v.
Proof.
  intros Hv rest. unfold GetInt128, bind, get, guard.
  destruct (Z.leb_spec 16 (zlen (v ++ rest))); [|zlen_lia].
  unfold ret, erase, modify. by rewrite ztake_app, zdrop_app.
Qed.

Lemma parses_GetInt256 v : zlen v = 32 -> parses GetInt256 v v.
Proof.
  intros Hv rest. unfold GetInt256, bind, get, guard.
  destruct (Z.leb_spec 32 (zlen (v ++ rest))); [|zlen_lia].
  unfold ret, erase, modify. by rewrite ztake_app, zdrop_app.
Qed.

Lemma parses_ConsumeN n v : zlen v = n -> parses (ConsumeN n) v v.
Proof.
  intros Hv rest. unfold ConsumeN, PeekN, bind, get, guard.
  destruct (Z.leb_spec n (zlen (v ++ rest))); [|zlen_lia].
  unfold ret, erase, modify. by rewrite ztake_app, zdrop_app.
Qed.

Lemma parses_VectorHeader n : parses VectorHeader (enc_vector_header n) (s32 n).
Proof.
  apply (parses_bind _ _ _ _ tt); [apply parses_ConsumeID; done | apply parses_Int32].
Qed.

(** *** TL [bytes] *)

Lemma NearestPaddedLength_spec l :
  0 <= l ->
  l <= NearestPaddedLength l < l + 4 /\ NearestPaddedLength l mod 4 = 0.
Proof.
  intros Hl. unfold NearestPaddedLength, kWord.
  pose proof (Z.div_mod l 4 ltac:(lia)). pose proof (Z.mod_pos_bound l 4 ltac:(lia)).
  destruct (Z.ltb_spec (4 * (l / 4)) l); split; try lia.
  - replace (4 * (l / 4) + 4) with ((l / 4 + 1) * 4) by lia. by rewrite Z.mod_mul.
  - rewrite Z.mul_comm. by rewrite Z.mod_mul.
Qed.

Lemma zlen_bytes_pad n : 0 <= n -> zlen (bytes_pad n) = NearestPaddedLength n - n.
Proof.
  intros Hn. unfold bytes_pad. rewrite zlen_replicate.
  destruct (NearestPaddedLength_spec n Hn). lia.
Qed.

Lemma zlen_bytes_header l :
  zlen (bytes_header l) = if l <=? kMaxSmall then 1 else 4.
Proof. unfold bytes_header. destruct (l <=? kMaxSmall); done. Qed.

(** The header [PutBytes] writes, as [GetBytes] reads it: the three length
    bytes hold the length modulo 2^24. *)
Definition header_len_of (l : Z) : Z := if l <=? kMaxSmall then 1 else 4.
Definition read_len (l : Z) : Z := if l <=? kMaxSmall then l else l mod 2 ^ 24.

Lemma BytesHeader_run l rest :
  0 <= l ->
  BytesHeader (bytes_header l ++ rest) = Ok (header_len_of l, read_len l).
Proof.
  intros Hl. unfold bytes_header, header_len_of, read_len, kMaxSmall.
  destruct (Z.leb_spec l 253) as [Hs|Hs].
  - cbn [app BytesHeader]. rewrite bz_u8, Z.mod_small by lia.
    unfold kLongMarker. destruct (Z.eqb_spec l 254); [lia|done].
  - cbn [app le_bytes BytesHeader]. rewrite !bz_u8.
    change (kLongMarker mod 256 =? kLongMarker) with true. cbv iota.
    do 2 f_equal. change (2 ^ 24) with (256 ^ Z.of_nat 3).
    rewrite <- le_val_le_bytes, <- or_bytes_0.
    cbn [le_bytes or_bytes]. rewrite !bz_u8, ?Z.lor_0_l, ?Z.shiftl_0_r. done.
Qed.

(** The general case: [GetBytes] returns the first [read_len] bytes. *)
Lemma GetBytes_run v rest :
  exists rest', GetBytes (enc_bytes v ++ rest) = (Ok (ztake (read_len (zlen v)) v), rest') /\
    (read_len (zlen v) = zlen v -> rest' = rest).
Proof.
  pose proof (zlen_nonneg v) as Hv. pose proof (zlen_nonneg rest) as Hr.
  assert (Hread : 0 <= read_len (zlen v) <= zlen v).
  { unfold read_len. destruct (_ <=? _); [lia|].
    split; [apply Z.mod_pos_bound; lia | apply Z.mod_le; lia]. }
  assert (Hh : zlen (bytes_header (zlen v)) = header_len_of (zlen v))
    by apply zlen_bytes_header.
  assert (Hh0 : 0 <= header_len_of (zlen v)) by (rewrite <- Hh; apply zlen_nonneg).
  pose proof (NearestPaddedLength_spec (header_len_of (zlen v) + zlen v) ltac:(lia)).
  pose proof (NearestPaddedLength_spec
    (header_len_of (zlen v) + read_len (zlen v)) ltac:(lia)).
  assert (Hlen : zlen (enc_bytes v ++ rest) =
    NearestPaddedLength (header_len_of (zlen v) + zlen v) + zlen rest).
  { unfold enc_bytes. rewrite !zlen_app, zlen_bytes_pad by lia. rewrite Hh. lia. }
  assert (Hmono : NearestPaddedLength (header_len_of (zlen v) + read_len (zlen v)) <=
    NearestPaddedLength (header_len_of (zlen v) + zlen v)).
  { unfold NearestPaddedLength, kWord.
    pose proof (Z.div_le_mono (header_len_of (zlen v) + read_len (zlen v))
      (header_len_of (zlen v) + zlen v) 4 ltac:(lia) ltac:(lia)).
    pose proof (Z.div_mod (header_len_of (zlen v) + read_len (zlen v)) 4 ltac:(lia)).
    pose proof (Z.div_mod (header_len_of (zlen v) + zlen v) 4 ltac:(lia)).
    pose proof (Z.mod_pos_bound (header_len_of (zlen v) + read_len (zlen v)) 4 ltac:(lia)).
    pose proof (Z.mod_pos_bound (header_len_of (zlen v) + zlen v) 4 ltac:(lia)).
    repeat case_match; lia. }
  unfold GetBytes, bind, get, lift.
  unfold enc_bytes at 1. rewrite <- app_assoc, BytesHeader_run by lia.
  unfold guard.
  destruct (Z.leb_spec (header_len_of (zlen v) + read_len (zlen v))
    (zlen (enc_bytes v ++ rest))); [|lia]. unfold ret.
  destruct (Z.leb_spec (NearestPaddedLength (header_len_of (zlen v) + read_len (zlen v)))
    (zlen (enc_bytes v ++ rest))); [|lia]. unfold erase, modify.
  eexists. split.
  - do 2 f_equal. unfold zslice, enc_bytes. rewrite <- !app_assoc, zdrop_app by done.
    unfold ztake. rewrite take_app_le; [done|]. unfold zlen in *. lia.
  - intros E. rewrite E. apply zdrop_app. unfold enc_bytes.
    rewrite !zlen_app, zlen_bytes_pad by lia. rewrite Hh. lia.
Qed.

Lemma parses_GetBytes v : zlen v < 2 ^ 24 -> parses GetBytes (enc_bytes v) v.
Proof.
  intros Hv rest. pose proof (zlen_nonneg v).
  assert (E : read_len (zlen v) = zlen v).
  { unfold read_len. destruct (_ <=? _); [done|]. apply Z.mod_small. lia. }
  destruct (GetBytes_run v rest) as (rest' & -> & Hr).
  rewrite (Hr E), E, ztake_all by done. done.
Qed.

Lemma zlen_enc_bytes v :
  zlen (enc_bytes v) = NearestPaddedLength (header_len_of (zlen v) + zlen v).
Proof.
  pose proof (zlen_nonneg v). unfold enc_bytes.
  assert (0 <= header_len_of (zlen v)) by (unfold header_len_of; case_match; lia).
  rewrite !zlen_app, zlen_bytes_pad; rewrite zlen_bytes_header;
    unfold header_len_of in *; case_match; lia.
Qed.

(** The readers with the values already in range. *)
Lemma parses_Uint32_id v : is_u32 v -> parses Uint32 (le_bytes 4 v) v.
Proof. intros H. rewrite <- (u32_id v) at 2 by done. apply parses_Uint32. Qed.
Lemma parses_Int32_id v : is_s32 v -> parses Int32 (le_bytes 4 v) v.
Proof. intros H. rewrite <- (s32_id v) at 2 by done. apply parses_Int32. Qed.
Lemma parses_Long_id v : is_s64 v -> parses Long (le_bytes 8 v) v.
Proof. intros H. rewrite <- (s64_id v) at 2 by done. apply parses_Long. Qed.
Lemma parses_VectorHeader_id v : is_s32 v -> parses VectorHeader (enc_vector_header v) v.
Proof. intros H. rewrite <- (s32_id v) at 2 by done. apply parses_VectorHeader. Qed.

(** [GetBytes] on an empty string: the encoding of length 0 is four zeros. *)
Lemma enc_bytes_nil : enc_bytes [] = [x00; x00; x00; x00].
Proof. reflexivity. Qed.

(** *** A read value is the one encoded *)

Lemma Uint32_inv s v s' : Uint32 s = (Ok v, s') -> s = le_bytes 4 v ++ s' /\ is_u32 v.
Proof.
  unfold Uint32, PeekID, bind, get, guard, erase, modify, ret.
  destruct (Z.leb_spec 4 (zlen s)); [|done]. intros [= <- <-].
  rewrite ReadU32LE_le_val by done.
  assert (Hl : length (ztake 4 s) = 4%nat) by (apply Nat2Z.inj, zlen_ztake; lia).
  rewrite <- (ztake_zdrop 4 s) at 1. split.
  - f_equal. rewrite <- Hl. by rewrite le_bytes_le_val.
  - pose proof (le_val_range (ztake 4 s)). unfold zlen in *. rewrite Hl in *. done.
Qed.

Lemma Int32_inv s v s' : Int32 s = (Ok v, s') -> s = le_bytes 4 v ++ s' /\ is_s32 v.
Proof.
  unfold Int32. intros H. inv_ok. apply Uint32_inv in Hrun as [-> Hv].
  split; [|apply s32_range]. f_equal.
  rewrite <- (le_bytes_mod 4 (s32 _)). f_equal. change (v0 = u32 (s32 v0)).
  by rewrite u32_s32, u32_id.
Qed.

Lemma Uint64_inv s v s' : Uint64 s = (Ok v, s') -> s = le_bytes 8 v ++ s' /\ is_u64 v.
Proof.
  unfold Uint64, bind, get, guard, erase, modify, ret.
  destruct (Z.leb_spec 8 (zlen s)); [|done]. intros [= <- <-].
  rewrite or_bytes_0.
  assert (Hl : length (ztake 8 s) = 8%nat) by (apply Nat2Z.inj, zlen_ztake; lia).
  rewrite <- (ztake_zdrop 8 s) at 1. split.
  - f_equal. rewrite <- Hl. by rewrite le_bytes_le_val.
  - pose proof (le_val_range (ztake 8 s)). unfold zlen in *. rewrite Hl in *. done.
Qed.

Lemma Long_inv s v s' : Long s = (Ok v, s') -> s = le_bytes 8 v ++ s' /\ is_s64 v.
Proof.
  unfold Long. intros H. inv_ok. apply Uint64_inv in Hrun as [-> Hv].
  split; [|apply s64_range]. f_equal.
  rewrite <- (le_bytes_mod 8 (s64 _)). f_equal. change (v0 = u64 (s64 v0)).
  by rewrite u64_s64, u64_id.
Qed.

(** *** The readers take a prefix *)

Lemma consumes_get_guard {A} (c : bytes -> bool) e (k : bytes -> M bytes A) :
  (forall buf, c buf = true -> forall r s', k buf buf = (r, s') -> exists pre, buf = pre ++ s') ->
  consumes (buf <- get ;; guard (c buf) e ;;; k buf).
Proof.
  intros H s r s'. unfold bind, get, guard.
  destruct (c s) eqn:E; [by apply H | intros [= <- <-]; by exists []].
Qed.

Lemma consumes_erase n : consumes (erase n).
Proof. intros s r s' [= <- <-]. exists (ztake n s). by rewrite ztake_zdrop. Qed.
Lemma consumes_guard c e : consumes (@guard bytes c e).
Proof. destruct c; eauto with tl. Qed.
Lemma consumes_lift {A} (r : res A) : consumes (@lift bytes A r).
Proof. intros s r' s' [= <- <-]. by exists []. Qed.
Lemma consumes_get : consumes (@get bytes).
Proof. intros s r s' [= <- <-]. by exists []. Qed.
Lemma consumes_when c (m : M bytes unit) : consumes m -> consumes (when c m).
Proof. destruct c; eauto with tl. Qed.
#[local] Hint Resolve consumes_erase consumes_guard consumes_lift consumes_get : tl.

Lemma consumes_PeekID : consumes PeekID.
Proof. unfold PeekID. eauto 10 with tl. Qed.
#[local] Hint Resolve consumes_PeekID : tl.
Lemma consumes_Uint32 : consumes Uint32.
Proof. unfold Uint32. eauto 10 with tl. Qed.
#[local] Hint Resolve consumes_Uint32 : tl.
Lemma consumes_Int32 : consumes Int32.
Proof. unfold Int32. eauto 10 with tl. Qed.
Lemma consumes_ConsumeID id : consumes (ConsumeID id).
Proof. unfold ConsumeID. eauto 10 with tl. Qed.
#[local] Hint Resolve consumes_Int32 consumes_ConsumeID : tl.
Lemma consumes_Uint64 : consumes Uint64.
Proof. unfold Uint64. eauto 10 with tl. Qed.
#[local] Hint Resolve consumes_Uint64 : tl.
Lemma consumes_Long : consumes Long.
Proof. unfold Long. eauto 10 with tl. Qed.
Lemma consumes_GetInt128 : consumes GetInt128.
Proof. unfold GetInt128. eauto 10 with tl. Qed.
Lemma consumes_GetInt256 : consumes GetInt256.
Proof. unfold GetInt256. eauto 10 with tl. Qed.
Lemma consumes_ConsumeN n : consumes (ConsumeN n).
Proof. unfold ConsumeN, PeekN. eauto 10 with tl. Qed.
Lemma consumes_VectorHeader : consumes VectorHeader.
Proof. unfold VectorHeader. eauto 10 with tl. Qed.
Lemma consumes_GetBytes : consumes GetBytes.
Proof.
  unfold GetBytes. apply consumes_bind; [eauto with tl|]. intros buf.
  apply consumes_bind; [eauto with tl|]. intros [h l]. eauto 10 with tl.
Qed.

(** *** A read that throws has left the buffer as it was *)

Definition keeps_on_throw {A} (m : M bytes A) : Prop :=
  forall s e s', m s = (Throw e, s') -> s' = s.

Lemma keeps_GetBytes : keeps_on_throw GetBytes.
Proof.
  intros s e s'. unfold GetBytes, bind, get, lift, guard.
  destruct (BytesHeader s) as [[h l]|e0]; [|by intros [= _ <-]].
  destruct (h + l <=? zlen s); [|by intros [= _ <-]]. unfold ret at 1.
  destruct (NearestPaddedLength (h + l) <=? zlen s); [|by intros [= _ <-]]. done.
Qed.

(** ** Properties *)

(** A TL [bytes] value of fewer than 2^24 bytes written by [PutBytes] is
    read back by [GetBytes], which stops exactly at its end whatever follows,
    and the encoding is a whole number of 4-byte words. *)
Theorem PutBytes_GetBytes_roundtrip (v buf rest : bytes) (Hv : zlen v < 2 ^ 24) :
  exists enc, PutBytes v buf = buf ++ enc /\ GetBytes (enc ++ rest) = (Ok v, rest) /\
    zlen enc mod 4 = 0.
Proof.
  exists (enc_bytes v). split; [apply PutBytes_app|].
  split; [by apply parses_GetBytes|]. rewrite zlen_enc_bytes.
  apply NearestPaddedLength_spec. pose proof (zlen_nonneg v).
  unfold header_len_of. case_match; lia.
Qed.

Lemma PutBytes_GetBytes_roundtrip_witness :
  exists enc, PutBytes (lit "abcde") [x01] = [x01] ++ enc /\
    GetBytes (enc ++ [x07]) = (Ok (lit "abcde"), [x07]) /\ zlen enc mod 4 = 0.
Proof. apply (PutBytes_GetBytes_roundtrip (lit "abcde") [x01] [x07]). reflexivity. Defined.

(** Whatever the length, [GetBytes] on what [PutBytes] wrote returns the
    first [l mod 2^24] bytes (all of them when [l <= 253]): a value of 2^24
    bytes or more is cut, since only three length bytes are written. *)
Theorem PutBytes_GetBytes_truncates (v rest : bytes) :
  fst (GetBytes (PutBytes v [] ++ rest)) =
  Ok (ztake (if zlen v <=? kMaxSmall then zlen v else zlen v mod 2 ^ 24) v).
Proof.
  rewrite PutBytes_app. cbn [app].
  destruct (GetBytes_run v rest) as (rest' & -> & _). done.
Qed.

End TLBuffer.

#[export] Hint Resolve TLBuffer.parses_Uint32_id TLBuffer.parses_Int32_id
  TLBuffer.parses_Long_id TLBuffer.parses_GetInt128 TLBuffer.parses_GetInt256
  TLBuffer.parses_GetBytes TLBuffer.parses_VectorHeader_id TLBuffer.parses_ConsumeID
  TLBuffer.parses_ConsumeN : tl.
#[export] Hint Resolve TLBuffer.consumes_erase TLBuffer.consumes_guard
  TLBuffer.consumes_lift TLBuffer.consumes_get TLBuffer.consumes_when
  TLBuffer.consumes_PeekID TLBuffer.consumes_Uint32 TLBuffer.consumes_Int32
  TLBuffer.consumes_ConsumeID TLBuffer.consumes_Uint64 TLBuffer.consumes_Long
  TLBuffer.consumes_GetInt128 TLBuffer.consumes_GetInt256 TLBuffer.consumes_ConsumeN
  TLBuffer.consumes_VectorHeader TLBuffer.consumes_GetBytes : tl.
#[export] Hint Extern 1 (is_u32 _) =>
  solve [assumption | apply u32_range | split; [discriminate | reflexivity]] : tl.
#[export] Hint Extern 1 (is_s32 _) =>
  solve [assumption | apply s32_range | split; [discriminate | reflexivity]] : tl.
#[export] Hint Extern 1 (is_s64 _) =>
  solve [assumption | apply s64_range | split; [discriminate | reflexivity]] : tl.
#[export] Hint Extern 1 (zlen _ = _) => solve [assumption | reflexivity] : tl.
#[export] Hint Extern 1 (zlen _ < _) => solve [assumption | reflexivity] : tl.

(** Prove [parses (x1 <- m1 ;; ... ret r) (e1 ++ ...) r] field by field. *)
Ltac parse :=
  cbv beta iota;
  match goal with
  | |- parses (ret _) [] _ => apply parses_ret
  | |- parses (bind (ret _) _) _ _ => apply parses_ret_bind; parse
  | |- parses (bind (guard _ _) _) _ _ => apply parses_guard; [done | parse]
  | |- parses (bind (lift _) _) _ _ => eapply parses_lift; [reflexivity | parse]
  | |- parses (bind TLBuffer.PeekID _) _ _ => apply TLBuffer.parses_peek; parse
  | |- parses (bind _ (fun _ => ret _)) _ _ => apply parses_bind_ret; solve [eauto 3 with tl]
  | |- parses (bind _ _) (_ ++ _) _ =>
      eapply parses_bind; [solve [eauto 3 with tl] | parse]
  | |- parses (bind _ _) ?e _ =>
      apply (parses_eq _ (e ++ [])); [|apply app_nil_r];
      eapply parses_bind; [solve [eauto 3 with tl] | parse]
  | |- parses _ _ _ => solve [eauto 3 with tl]
  end.

Create Rewrite HintDb put.
#[export] Hint Rewrite TLBuffer.PutUint32_app TLBuffer.PutInt32_app TLBuffer.PutID_app
  TLBuffer.PutUint64_app TLBuffer.PutLong_app TLBuffer.PutBytes_app
  TLBuffer.PutVectorHeader_app TLBuffer.Put_app TLBuffer.PutInt128_app
  TLBuffer.PutInt256_app : put.

(** Normalise an encoder to "what was there, then these bytes". *)
Ltac put_norm := autorewrite with put; rewrite <- ?app_assoc; cbn [app].
