(* ===== verification/OpenSSL.v ===== *)
(** * The third-party primitives the server calls

    OpenSSL is not part of the repository.  Its functions are the members of
    the class [OpenSSL]; every definition that calls one takes the class as an
    argument.  [OpenSSLLaws] states the documented behaviour the theorems rely
    on: digest lengths, AES decryption undoing encryption under the same key,
    and the value [BN_mod_exp] returns for an odd modulus.  No law says that a
    digest is injective or a cipher secure.

    [Toy] is a concrete instance (not cryptographic) on which the witnesses
    evaluate. *)

From Stdlib Require Import ZArith Zpow_facts Lia Strings.Byte Strings.String.
From stdpp Require Import base decidable list.
From S2P Require Import Prelude.

(** An AES key size the code accepts. *)
Definition aes_key_size (n : Z) : bool := (n =? 16) || (n =? 24) || (n =? 32).

Class OpenSSL : Type := {
  (** [SHA1], [SHA256], [HMAC(EVP_sha256())] of a whole input; the [EVP_Digest*]
      calls on several parts digest their concatenation. *)
  sha1 : bytes -> bytes;
  sha256 : bytes -> bytes;
  hmac_sha256 : bytes -> bytes -> bytes;
  (** [PKCS5_PBKDF2_HMAC(password, salt, iterations, EVP_sha512(), len)] *)
  pbkdf2_sha512 : bytes -> bytes -> Z -> Z -> bytes;
  (** One 16-byte block under [EVP_aes_*_ecb] without padding. *)
  aes_encrypt_block : bytes -> bytes -> bytes;
  aes_decrypt_block : bytes -> bytes -> bytes;
  (** Byte [pos] of the [EVP_aes_256_ctr] key stream for a key and an iv. *)
  aes256_ctr_keystream : bytes -> bytes -> Z -> byte;
  (** [BN_mod_exp]; [None] when it reports an error. *)
  bn_mod_exp : Z -> Z -> Z -> option Z;
}.

Class OpenSSLLaws `{!OpenSSL} : Prop := {
  zlen_sha1 : forall d, zlen (sha1 d) = 20;
  zlen_sha256 : forall d, zlen (sha256 d) = 32;
  zlen_aes_encrypt_block : forall k b, zlen b = 16 -> zlen (aes_encrypt_block k b) = 16;
  zlen_aes_decrypt_block : forall k b, zlen b = 16 -> zlen (aes_decrypt_block k b) = 16;
  aes_decrypt_encrypt : forall k b,
    aes_key_size (zlen k) = true -> zlen b = 16 ->
    aes_decrypt_block k (aes_encrypt_block k b) = b;
  bn_mod_exp_odd : forall b e n,
    0 <= b -> 0 <= e -> 1 < n -> Z.odd n = true ->
    bn_mod_exp b e n = Some (b ^ e mod n);
}.

(** ** Big-endian integers of BIGNUM *)

(** [BN_bn2binpad]: exactly [n] bytes, most significant first. *)
Definition be_bytes (n : nat) (v : Z) : bytes := rev (le_bytes n v).

(** [BN_num_bytes] *)
Definition bn_num_bytes (v : Z) : Z := if v =? 0 then 0 else Z.log2 v / 8 + 1.

Lemma be_val_fold l acc :
  fold_left (fun acc b => acc * 256 + bz b) l acc = acc * 256 ^ zlen l + be_val l.
Proof.
  unfold be_val. revert acc. induction l as [|b t IH]; intros acc.
  - rewrite zlen_nil. cbn [fold_left]. change (256 ^ 0) with 1. lia.
  - cbn [fold_left]. rewrite IH, (IH (0 * 256 + bz b)).
    rewrite zlen_cons, Z.pow_add_r, Z.pow_1_r by (pose proof (zlen_nonneg t); lia).
    ring.
Qed.

Lemma be_val_app l k : be_val (l ++ k) = be_val l * 256 ^ zlen k + be_val k.
Proof. unfold be_val at 1. rewrite fold_left_app. apply be_val_fold. Qed.

Lemma be_val_rev l : be_val (rev l) = le_val l.
Proof.
  induction l as [|b t IH]; [done|].
  cbn [rev le_val]. rewrite be_val_app, IH. change (256 ^ zlen [b]) with 256.
  unfold be_val. cbn. lia.
Qed.

Lemma be_val_range l : 0 <= be_val l < 256 ^ zlen l.
Proof.
  rewrite <- (rev_involutive l), be_val_rev, zlen_rev. apply le_val_range.
Qed.

Lemma be_val_be_bytes n v : be_val (be_bytes n v) = v mod 256 ^ Z.of_nat n.
Proof. unfold be_bytes. rewrite be_val_rev. apply le_val_le_bytes. Qed.

Lemma zlen_be_bytes n v : zlen (be_bytes n v) = Z.of_nat n.
Proof. unfold be_bytes. rewrite zlen_rev. apply zlen_le_bytes. Qed.

Lemma be_bytes_be_val l : be_bytes (length l) (be_val l) = l.
Proof.
  unfold be_bytes. rewrite <- (rev_involutive l) at 2. rewrite be_val_rev.
  rewrite <- (length_rev l), le_bytes_le_val. apply rev_involutive.
Qed.

Lemma bn_num_bytes_nonneg v : 0 <= v -> 0 <= bn_num_bytes v.
Proof.
  intros H. unfold bn_num_bytes. case_match; [lia|].
  pose proof (Z.log2_nonneg v). pose proof (Z.div_pos (Z.log2 v) 8 ltac:(lia) ltac:(lia)). lia.
Qed.

(** The minimal length holds the value. *)
Lemma bn_num_bytes_fits v : 0 <= v -> v < 256 ^ bn_num_bytes v.
Proof.
  intros H. unfold bn_num_bytes. destruct (Z.eqb_spec v 0); [subst; done|].
  pose proof (Z.log2_spec v ltac:(lia)) as [_ Hv].
  pose proof (Z.log2_nonneg v).
  pose proof (Z.div_mod (Z.log2 v) 8 ltac:(lia)).
  pose proof (Z.mod_pos_bound (Z.log2 v) 8 ltac:(lia)).
  change 256 with (2 ^ 8). rewrite <- Z.pow_mul_r by lia.
  eapply Z.lt_le_trans; [exact Hv|]. apply Z.pow_le_mono_r; lia.
Qed.

(** And is the least one. *)
Lemma bn_num_bytes_le v n : 0 <= n -> 0 <= v < 256 ^ n -> bn_num_bytes v <= n.
Proof.
  intros Hn H. unfold bn_num_bytes. destruct (Z.eqb_spec v 0); [lia|].
  assert (Z.log2 v < 8 * n).
  { apply Z.log2_lt_pow2; [lia|]. rewrite Z.pow_mul_r by lia. change (2 ^ 8) with 256. lia. }
  pose proof (Z.div_lt_upper_bound (Z.log2 v) 8 n ltac:(lia) ltac:(lia)). lia.
Qed.

(** ** XOR of byte strings *)

Definition xor_byte (a b : byte) : byte := u8 (Z.lxor (bz a) (bz b)).

(** [for (i ...) out[i] = a[i] ^ b[i]] over the common length. *)
Fixpoint xor_bytes (a b : bytes) : bytes :=
  match a, b with
  | x :: a', y :: b' => xor_byte x y :: xor_bytes a' b'
  | _, _ => []
  end.

Lemma lxor_byte_range a b : 0 <= Z.lxor (bz a) (bz b) < 256.
Proof.
  pose proof (bz_range a). pose proof (bz_range b).
  assert (0 <= Z.lxor (bz a) (bz b)) by (apply Z.lxor_nonneg; lia).
  destruct (Z.eq_dec (Z.lxor (bz a) (bz b)) 0) as [->|Hne]; [lia|].
  split; [done|]. change 256 with (2 ^ 8). apply Z.log2_lt_pow2; [lia|].
  eapply Z.le_lt_trans; [apply Z.log2_lxor; lia|].
  assert (Hlog : forall x, 0 <= x < 256 -> Z.log2 x < 8).
  { intros x Hx. destruct (Z.eq_dec x 0) as [->|]; [cbn; lia | apply Z.log2_lt_pow2; lia]. }
  by apply Z.max_lub_lt; apply Hlog.
Qed.

Lemma bz_xor_byte a b : bz (xor_byte a b) = Z.lxor (bz a) (bz b).
Proof. unfold xor_byte. rewrite bz_u8. apply Z.mod_small, lxor_byte_range. Qed.

Lemma xor_byte_cancel a b : xor_byte (xor_byte a b) b = a.
Proof.
  apply bz_inj. rewrite !bz_xor_byte, Z.lxor_assoc, Z.lxor_nilpotent. apply Z.lxor_0_r.
Qed.

Lemma xor_byte_comm a b : xor_byte a b = xor_byte b a.
Proof. unfold xor_byte. by rewrite Z.lxor_comm. Qed.

Lemma zlen_xor_bytes a b : zlen a = zlen b -> zlen (xor_bytes a b) = zlen a.
Proof.
  revert b. induction a as [|x a IH]; intros [|y b] H; cbn [xor_bytes];
    try done; try (exfalso; zlen_lia).
  rewrite !zlen_cons in *. rewrite IH by lia. done.
Qed.

Lemma xor_bytes_cancel a b : zlen a = zlen b -> xor_bytes (xor_bytes a b) b = a.
Proof.
  revert b. induction a as [|x a IH]; intros [|y b] H; cbn [xor_bytes];
    try done; try (exfalso; zlen_lia).
  rewrite !zlen_cons in *. rewrite xor_byte_cancel, IH by lia. done.
Qed.

Lemma xor_bytes_comm a b : xor_bytes a b = xor_bytes b a.
Proof.
  revert b. induction a as [|x a IH]; intros [|y b]; cbn [xor_bytes]; try done.
  by rewrite xor_byte_comm, IH.
Qed.

(** ** Randomness *)

(** [RandomFill]: a call for [n] bytes, drawn from the state. *)
Definition RandomFill (S : Type) : Type := Z -> M S bytes.

(** A generator that works: it returns as many bytes as asked, up to what an
    [int] can count, and does not touch what [keep] observes. *)
Class RandomSource {S T} (rand : RandomFill S) (keep : S -> T) : Prop :=
  random_fill : forall n s, 0 <= n < 2 ^ 31 ->
    exists r s', rand n s = (Ok r, s') /\ zlen r = n /\ keep s' = keep s.

(** The generator of production: [RAND_bytes(buf, num)], which returns 1 and
    the bytes it wrote, or some other code. *)
Section SystemRandom.
Context {S : Type} (RAND_bytes : Z -> S -> Z * bytes * S).

(** [num] is an [int]: a longer request is cut to its low 32 bits, which are
    signed. *)
Definition SystemRandomFill : RandomFill S := fun len s =>
  let '(code, buf, s') := RAND_bytes (s32 len) s in
  if negb (code =? 1) then (Throw (RuntimeError "RAND_bytes failed"), s') else (Ok buf, s').
Definition SystemRandomBytes (len : Z) : M S bytes := SystemRandomFill len.

(** A [RAND_bytes] that never fails on a length it can be given. *)
Class RandBytes {T} (keep : S -> T) : Prop := {
  rb_fills num s : 0 <= num < 2 ^ 31 -> exists buf s', RAND_bytes num s = (1, buf, s') /\ zlen buf = num;
  rb_keeps num s : keep (snd (RAND_bytes num s)) = keep s }.

#[export] Instance SystemRandom_source {T} (keep : S -> T) `{!RandBytes keep} : RandomSource SystemRandomFill keep.
Proof.
  intros n s Hn. destruct (rb_fills n s Hn) as (buf & s' & E & Hb). exists buf, s'.
  pose proof (rb_keeps n s) as Hk. unfold SystemRandomFill. rewrite s32_id by (unfold is_s32; lia). by rewrite E in *.
Qed.
Lemma SystemRandom_draw {T} (keep : S -> T) `{!RandBytes keep} n : frames keep (SystemRandomFill n).
Proof.
  intros s. pose proof (rb_keeps (s32 n) s) as Hk. unfold SystemRandomFill.
  destruct (RAND_bytes (s32 n) s) as [[code buf] s']. by destruct (code =? 1).
Qed.
End SystemRandom.

(** ** The system clock *)

(** [std::chrono::system_clock::now()] in nanoseconds since the epoch. *)
Definition Clock (S : Type) : Type := M S Z.

(** [duration_cast<seconds>(t.time_since_epoch()).count()] *)
Definition seconds_of (nanos : Z) : Z := Z.quot nanos 1000000000.

(** A clock that works, until 2038; like the generator it does not touch what
    [keep] observes. *)
Class ClockSource {S T} (now : Clock S) (keep : S -> T) : Prop :=
  clock_now : forall s, exists t s', now s = (Ok t, s') /\
    0 <= t < 2 ^ 31 * 1000000000 /\ keep s' = keep s.

(** ** A concrete instance for the witnesses *)

Module Toy.

Definition fit (n : nat) (d : bytes) : bytes := le_bytes n (fold_left (fun a b => (a * 31 + bz b + 7) mod 2 ^ 160) d 1).

Definition xor_key (k b : bytes) : bytes :=
  xor_bytes b (le_bytes (length b) (le_val k)).

#[local] Instance toy : OpenSSL := {|
  sha1 := fit 20;
  sha256 := fit 32;
  hmac_sha256 := fun k d => fit 32 (k ++ d);
  pbkdf2_sha512 := fun p s i n => fit (Z.to_nat n) (p ++ s);
  aes_encrypt_block := xor_key;
  aes_decrypt_block := xor_key;
  aes256_ctr_keystream := fun k iv pos => u8 (le_val k + le_val iv + pos * 37);
  bn_mod_exp := fun b e n => if (1 <? n) && Z.odd n then Some (Zpow_mod b e n) else None;
|}.

Lemma zlen_fit n d : zlen (fit n d) = Z.of_nat n.
Proof. apply zlen_le_bytes. Qed.

Lemma zlen_xor_key k b : zlen (xor_key k b) = zlen b.
Proof. unfold xor_key. apply zlen_xor_bytes. rewrite zlen_le_bytes. done. Qed.

#[local] Instance toy_laws : OpenSSLLaws.
Proof.
  split; intros; cbn [sha1 sha256 aes_encrypt_block aes_decrypt_block bn_mod_exp toy].
  - apply zlen_fit.
  - apply zlen_fit.
  - by rewrite zlen_xor_key.
  - by rewrite zlen_xor_key.
  - unfold xor_key. rewrite <- (zlen_xor_key k b) in *.
    assert (E : length (xor_bytes b (le_bytes (length b) (le_val k))) = length b).
    { apply Nat2Z.inj. change (zlen (xor_key k b) = zlen b). apply zlen_xor_key. }
    rewrite E. apply xor_bytes_cancel. rewrite zlen_le_bytes. done.
  - destruct (Z.ltb_spec 1 n); [|lia]. rewrite H2. cbn [andb].
    f_equal. apply Zpow_mod_correct. lia.
Qed.

(** A generator that returns zeros. *)
Definition zeros {S} : RandomFill S := fun n s => (Ok (replicate (Z.to_nat n) x00), s).

#[local] Instance zeros_random {S} : RandomSource (@zeros S) id.
Proof.
  intros n s Hn. exists (replicate (Z.to_nat n) x00), s. split; [done|].
  split; [|done]. rewrite zlen_replicate. lia.
Qed.

(** A clock stopped in June 2026. *)
Definition clock {S} : Clock S := fun s => (Ok 1780243200000000001, s).

#[local] Instance clock_source {S} : ClockSource (@clock S) id.
Proof. intros s. exists 1780243200000000001, s. split; [done|]. split; [split|]; done. Qed.

End Toy.
