(* ===== verification/Transport.v ===== *)
(** * The wire transports: [mtproto/transport]

    The four codecs (abridged, intermediate, padded intermediate, full), the
    CRC-32 of the full transport and the frame checks of [codec.hpp].  A
    connection is read through a [ReadExact] and written through a
    [WriteBytes]; the classes [Source] and [Sink] say what these two promise,
    and the codec theorems are proved against them. *)

From Stdlib Require Import ZArith Lia Strings.Byte Strings.String.
From stdpp Require Import base decidable list.
From S2P Require Import Prelude TL OpenSSL.

(** ** The byte streams under a codec *)

(** Reads exactly [n] bytes or throws; writes all its bytes or throws. *)
Definition ReadExact (S : Type) : Type := Z -> M S bytes.
Definition WriteBytes (S : Type) : Type := bytes -> M S unit.

(** [read] delivers, in order, the bytes that [view] shows as still to come. *)
Class Source {S} (read : ReadExact S) (view : S -> bytes) : Prop :=
  source_read : forall s a b, view s = a ++ b ->
    exists s', read (zlen a) s = (Ok a, s') /\ view s' = b.

(** [write] appends to what [sent] shows as sent so far. *)
Class Sink {S} (write : WriteBytes S) (sent : S -> bytes) : Prop :=
  sink_write : forall d s, exists s', write d s = (Ok tt, s') /\ sent s' = sent s ++ d.

(** ** Checks shared by the codecs ([codec.hpp], namespace [detail]) *)

Module Checks.

Definition kMaxMessageSize : Z := Z.shiftl 1 24.

Definition CheckMessageLength {S} (length : Z) : M S unit :=
  if (length =? 0) || (kMaxMessageSize <? length)
  then throw (InvalidMessageLengthError length) else ret tt.

Definition CheckOutgoingMessage {S} (payload : bytes) : M S unit :=
  CheckMessageLength (zlen payload).

Definition CheckAlign {S} (payload : bytes) (n : Z) : M S unit :=
  if zlen payload mod n =? 0 then ret tt else throw (AlignedPayloadExpectedError n).

(** A frame of exactly 4 bytes is an error signal.  ([-code] of the least
    [int32] is undefined in C++; here it wraps to itself.) *)
Definition CheckProtocolError {S} (payload : bytes) : M S unit :=
  if negb (zlen payload =? 4) then ret tt
  else let code := s32 (TLBuffer.ReadU32LE payload) in throw (ProtocolError (s32 (- code))).

Definition WriteU32Le {S} (write : WriteBytes S) (v : Z) : M S unit :=
  write [u8 v; u8 (Z.shiftr v 8); u8 (Z.shiftr v 16); u8 (Z.shiftr v 24)].

Definition ReadU32Le {S} (read : ReadExact S) : M S Z :=
  b <- read 4 ;;
  ret (TLBuffer.ReadU32LE b).

Lemma CheckMessageLength_ok {S} n (s : S) :
  0 < n <= 2 ^ 24 -> CheckMessageLength n s = (Ok tt, s).
Proof.
  intros H. unfold CheckMessageLength, kMaxMessageSize.
  change (Z.shiftl 1 24) with (2 ^ 24).
  destruct (Z.eqb_spec n 0), (Z.ltb_spec (2 ^ 24) n); try lia. done.
Qed.

Lemma CheckProtocolError_ok {S} p (s : S) :
  zlen p <> 4 -> CheckProtocolError p s = (Ok tt, s).
Proof. intros H. unfold CheckProtocolError. by destruct (Z.eqb_spec (zlen p) 4). Qed.

Lemma CheckAlign_ok {S} p n (s : S) :
  zlen p mod n = 0 -> CheckAlign p n s = (Ok tt, s).
Proof. intros H. unfold CheckAlign. by rewrite H. Qed.

Lemma le4_literal v :
  [u8 v; u8 (Z.shiftr v 8); u8 (Z.shiftr v 16); u8 (Z.shiftr v 24)] = le_bytes 4 v.
Proof. cbn [le_bytes]. rewrite !Z.shiftr_shiftr by lia. done. Qed.

Lemma ReadU32Le_run {S} (read : ReadExact S) view `{!Source read view} s v rest :
  view s = le_bytes 4 v ++ rest ->
  exists s', ReadU32Le read s = (Ok (u32 v), s') /\ view s' = rest.
Proof.
  intros Hs. destruct (source_read s _ _ Hs) as (s' & Hr & Hv).
  rewrite zlen_le_bytes in Hr. exists s'. split; [|done].
  unfold ReadU32Le. erewrite bind_Ok by apply Hr. unfold ret.
  rewrite <- (app_nil_r (le_bytes 4 v)), TLBuffer.ReadU32LE_le_bytes. done.
Qed.

End Checks.

(** ** CRC-32 ([crc32.hpp]) *)

Module Crc32.

Definition kPoly : Z := 0xEDB88320.

(** [(c & 1) ? (0xEDB88320u ^ (c >> 1)) : (c >> 1)] *)
Definition step (c : Z) : Z :=
  if Z.land c 1 =? 1 then Z.lxor kPoly (Z.shiftr c 1) else Z.shiftr c 1.

(** [for (k = 0; k < 8; ++k) c = step(c)] *)
Fixpoint steps (n : nat) (c : Z) : Z :=
  match n with O => c | S n' => steps n' (step c) end.
Definition entry (i : Z) : Z := steps 8 i.

Definition Crc32Table : list Z := map (fun i => entry (Z.of_nat i)) (seq 0 256).

Definition table_at (i : Z) : Z := nth (Z.to_nat i) Crc32Table 0.

Definition update (crc : Z) (b : byte) : Z :=
  Z.lxor (table_at (Z.land (Z.lxor crc (bz b)) 0xFF)) (Z.shiftr crc 8).

Definition Crc32Ieee (data : bytes) : Z :=
  Z.lxor (fold_left update data 0xFFFFFFFF) 0xFFFFFFFF.

(** *** The bit-at-a-time definition of the same checksum *)

Definition update_bitwise (crc : Z) (b : byte) : Z := steps 8 (Z.lxor crc (bz b)).
Definition Crc32Reference (data : bytes) : Z :=
  Z.lxor (fold_left update_bitwise data 0xFFFFFFFF) 0xFFFFFFFF.

Lemma step_odd c : step c = Z.lxor (if Z.odd c then kPoly else 0) (Z.shiftr c 1).
Proof.
  unfold step. rewrite <- (Z.bit0_odd c).
  replace (Z.land c 1) with (Z.b2z (Z.testbit c 0)).
  - destruct (Z.testbit c 0); cbn [Z.b2z]; [done|]. by rewrite Z.lxor_0_l.
  - change 1 with (Z.ones 1). rewrite Z.land_ones by lia.
    rewrite Z.bit0_mod. done.
Qed.

Lemma odd_lxor a b : Z.odd (Z.lxor a b) = xorb (Z.odd a) (Z.odd b).
Proof. rewrite <- !Z.bit0_odd. apply Z.lxor_spec. Qed.

(** Each step is linear over XOR. *)
Lemma step_lxor a b : step (Z.lxor a b) = Z.lxor (step a) (step b).
Proof.
  rewrite !step_odd, odd_lxor, Z.shiftr_lxor.
  destruct (Z.odd a), (Z.odd b); cbn [xorb]; rewrite ?Z.lxor_0_l.
  - rewrite (Z.lxor_comm kPoly (Z.shiftr b 1)), <- Z.lxor_assoc.
    rewrite (Z.lxor_assoc kPoly), (Z.lxor_comm kPoly), !Z.lxor_assoc, Z.lxor_nilpotent.
    by rewrite Z.lxor_0_r.
  - by rewrite Z.lxor_assoc.
  - rewrite <- !Z.lxor_assoc. f_equal. apply Z.lxor_comm.
  - done.
Qed.

Lemma steps_lxor n a b : steps n (Z.lxor a b) = Z.lxor (steps n a) (steps n b).
Proof. revert a b. induction n as [|n IH]; intros; cbn; [done|]. by rewrite step_lxor, IH. Qed.

(** A value whose low bits are zero is only shifted. *)
Lemma steps_shiftl n hi : steps n (Z.shiftl hi (Z.of_nat n)) = hi.
Proof.
  induction n as [|n IH]; [apply Z.shiftl_0_r|]. cbn [steps].
  assert (E : Z.odd (Z.shiftl hi (Z.of_nat (S n))) = false).
  { rewrite <- Z.bit0_odd, Z.shiftl_spec_low by lia. done. }
  rewrite step_odd, E, Z.lxor_0_l, Z.shiftr_shiftl_l by lia.
  replace (Z.of_nat (S n) - 1) with (Z.of_nat n) by lia. exact IH.
Qed.

Lemma split_low8 x : x = Z.lxor (Z.land x 0xFF) (Z.shiftl (Z.shiftr x 8) 8).
Proof.
  apply Z.bits_inj'. intros i Hi.
  rewrite Z.lxor_spec, Z.land_spec, Z.shiftl_spec by lia.
  change 0xFF with (Z.ones 8). rewrite Z.testbit_ones_nonneg by lia.
  destruct (Z.ltb_spec i 8).
  - rewrite (Z.testbit_neg_r _ (i - 8)) by lia. by rewrite andb_true_r, xorb_false_r.
  - rewrite Z.shiftr_spec by lia. replace (i - 8 + 8) with i by lia.
    by rewrite andb_false_r, xorb_false_l.
Qed.

Lemma table_at_entry i : 0 <= i < 256 -> table_at i = entry i.
Proof.
  intros H. unfold table_at, Crc32Table.
  rewrite (nth_indep _ 0 ((fun i => entry (Z.of_nat i)) 0%nat))
    by (rewrite length_map, length_seq; lia).
  rewrite (map_nth (fun i => entry (Z.of_nat i))), seq_nth by lia.
  f_equal. lia.
Qed.

Lemma update_eq crc b : update crc b = update_bitwise crc b.
Proof.
  unfold update, update_bitwise. set (x := Z.lxor crc (bz b)).
  assert (Hr : 0 <= Z.land x 0xFF < 256).
  { change 0xFF with (Z.ones 8). rewrite Z.land_ones by lia. apply Z.mod_pos_bound. lia. }
  rewrite table_at_entry by done. unfold entry.
  assert (Hx : Z.shiftr x 8 = Z.shiftr crc 8).
  { unfold x. rewrite Z.shiftr_lxor. rewrite (Z.shiftr_div_pow2 (bz b)) by lia.
    rewrite Z.div_small by apply bz_range. apply Z.lxor_0_r. }
  rewrite (split_low8 x) at 2. rewrite steps_lxor.
  change (Z.shiftl (Z.shiftr x 8) 8) with (Z.shiftl (Z.shiftr x 8) (Z.of_nat 8)).
  rewrite steps_shiftl, Hx. done.
Qed.

(** The checksum fits 32 bits. *)
Lemma step_range c : is_u32 c -> is_u32 (step c).
Proof.
  unfold is_u32. intros H. rewrite step_odd.
  assert (Hs : 0 <= Z.shiftr c 1 < 2 ^ 31).
  { rewrite Z.shiftr_div_pow2 by lia. change (2 ^ 1) with 2.
    split; [apply Z.div_pos; lia | apply Z.div_lt_upper_bound; lia]. }
  destruct (Z.odd c); [|rewrite Z.lxor_0_l; lia].
  apply lxor_range; [done | unfold is_u32; lia].
Qed.

Lemma steps_range n c : is_u32 c -> is_u32 (steps n c).
Proof. revert c. induction n; intros c H; cbn; [done|]. by apply IHn, step_range. Qed.

Lemma Crc32Ieee_range data : is_u32 (Crc32Ieee data).
Proof.
  unfold Crc32Ieee. apply lxor_range; [|done].
  assert (H : is_u32 0xFFFFFFFF) by done. revert H. generalize 0xFFFFFFFF as c.
  induction data as [|b t IH]; intros c H; [done|]. cbn [fold_left]. apply IH.
  rewrite update_eq. apply steps_range, lxor_range; [done|].
  pose proof (bz_range b). unfold is_u32. lia.
Qed.

(** C34. The table-driven CRC of the full transport is the bit-at-a-time
    CRC-32 (reflected polynomial 0xEDB88320), for every input. *)
Theorem Crc32Ieee_is_bitwise (data : bytes) : Crc32Ieee data = Crc32Reference data.
Proof.
  unfold Crc32Ieee, Crc32Reference. f_equal. generalize 0xFFFFFFFF as c.
  induction data as [|b t IH]; intros c; [done|]. cbn [fold_left].
  by rewrite update_eq, IH.
Qed.

(** The check value of CRC-32/ISO-HDLC. *)
Example Crc32Ieee_check : Crc32Ieee (lit "123456789") = 0xCBF43926.
Proof. vm_compute. reflexivity. Qed.

End Crc32.

(** ** The codecs *)

Module AbridgedCodec.

Definition kAbridgedClientStart : byte := xef.

Definition WriteHeader {S} (write : WriteBytes S) : M S unit := write [kAbridgedClientStart].

Definition ReadHeader {S} (read : ReadExact S) : M S unit :=
  b <- read 1 ;;
  if decide (b = [kAbridgedClientStart]) then ret tt else throw ProtocolHeaderMismatchError.

Definition ObfuscatedTag : bytes :=
  [kAbridgedClientStart; kAbridgedClientStart; kAbridgedClientStart; kAbridgedClientStart].

Definition Write {S} (write : WriteBytes S) (payload : bytes) : M S unit :=
  Checks.CheckOutgoingMessage payload ;;;
  Checks.CheckAlign payload 4 ;;;
  let words := Z.shiftr (u32 (zlen payload)) 2 in
  (if words <? 0x7f then write [u8 words]
   else write [u8 0x7f; u8 words; u8 (Z.shiftr words 8); u8 (Z.shiftr words 16)]) ;;;
  write payload.

Definition ReadLength {S} (read : ReadExact S) : M S Z :=
  first <- read 1 ;;
  let words := Z.land (le_val first) 0x7f in
  if words =? 0 then throw (InvalidMessageLengthError 0)
  else if words <? 0x7f then
    let n := words * 4 in
    Checks.CheckMessageLength n ;;; ret n
  else
    ext <- read 3 ;;
    let words := or_bytes 0 0 ext in
    let n := words * 4 in
    if words <? 0x7f then throw (InvalidMessageLengthError n)
    else Checks.CheckMessageLength n ;;; ret n.

Definition Read {S} (read : ReadExact S) : M S bytes :=
  n <- ReadLength read ;;
  payload <- read n ;;
  Checks.CheckProtocolError payload ;;;
  ret payload.

End AbridgedCodec.

Module IntermediateCodec.

Definition kIntermediateClientStart : bytes := [xee; xee; xee; xee].
Definition kPaddedIntermediateClientStart : bytes := [xdd; xdd; xdd; xdd].

Definition WriteIntermediateFrame {S} (write : WriteBytes S) (payload : bytes) : M S unit :=
  Checks.WriteU32Le write (u32 (zlen payload)) ;;;
  write payload.

Definition ReadIntermediateFrame {S} (read : ReadExact S) (padding : bool) : M S bytes :=
  n <- Checks.ReadU32Le read ;;
  Checks.CheckMessageLength n ;;;
  payload <- read n ;;
  if padding then
    let pad := zlen payload mod 4 in
    ret (ztake (zlen payload - pad) payload)
  else ret payload.

Definition WriteHeader {S} (write : WriteBytes S) : M S unit := write kIntermediateClientStart.

Definition ReadHeader {S} (read : ReadExact S) : M S unit :=
  got <- read 4 ;;
  if decide (got = kIntermediateClientStart) then ret tt else throw ProtocolHeaderMismatchError.

Definition Write {S} (write : WriteBytes S) (payload : bytes) : M S unit :=
  Checks.CheckOutgoingMessage payload ;;;
  Checks.CheckAlign payload 4 ;;;
  WriteIntermediateFrame write payload.

Definition Read {S} (read : ReadExact S) : M S bytes :=
  payload <- ReadIntermediateFrame read false ;;
  Checks.CheckProtocolError payload ;;;
  ret payload.

(** [PaddedIntermediateCodec] *)

Definition PaddedWriteHeader {S} (write : WriteBytes S) : M S unit :=
  write kPaddedIntermediateClientStart.

Definition PaddedReadHeader {S} (read : ReadExact S) : M S unit :=
  got <- read 4 ;;
  if decide (got = kPaddedIntermediateClientStart) then ret tt
  else throw ProtocolHeaderMismatchError.

Definition PaddedWrite {S} (write : WriteBytes S) (rand_ : RandomFill S) (payload : bytes)
    : M S unit :=
  Checks.CheckOutgoingMessage payload ;;;
  Checks.CheckAlign payload 4 ;;;
  random_tail <- rand_ 4 ;;
  let pad_len := if decide (payload = []) then 0 else bz (List.last payload x00) mod 4 in
  let framed := payload ++ ztake pad_len random_tail in
  WriteIntermediateFrame write framed.

Definition PaddedRead {S} (read : ReadExact S) : M S bytes :=
  payload <- ReadIntermediateFrame read true ;;
  Checks.CheckProtocolError payload ;;;
  ret payload.

End IntermediateCodec.

Module FullCodec.

(** The codec object: its two counters. *)
Record t : Type := Mk { write_seq_no_ : Z; read_seq_no_ : Z }.
Definition fresh : t := Mk 0 0.

Definition append_u32 (v : Z) (frame : bytes) : bytes :=
  frame ++ [u8 v; u8 (Z.shiftr v 8); u8 (Z.shiftr v 16); u8 (Z.shiftr v 24)].

Definition Write {S} (write : WriteBytes S) (payload : bytes) : M (t * S) unit :=
  Checks.CheckOutgoingMessage payload ;;;
  st <- get ;;
  let seq_no := write_seq_no_ (fst st) in
  put (Mk (seq_no + 1) (read_seq_no_ (fst st)), snd st) ;;;
  let total_len := u32 (4 + 4 + zlen payload + 4) in
  let frame := append_u32 total_len [] in
  let frame := append_u32 (u32 seq_no) frame in
  let frame := frame ++ payload in
  let frame := append_u32 (Crc32.Crc32Ieee frame) frame in
  on_snd (write frame).

Lemma append_u32_app v frame : append_u32 v frame = frame ++ le_bytes 4 v.
Proof. unfold append_u32. by rewrite Checks.le4_literal. Qed.

Definition Read {S} (read : ReadExact S) : M (t * S) bytes :=
  n <- on_snd (Checks.ReadU32Le read) ;;
  Checks.CheckMessageLength n ;;;
  (if n <? 3 * 4 then throw (InvalidMessageLengthError n) else ret tt) ;;;
  tail <- on_snd (read (n - 4)) ;;
  let frame := [u8 n; u8 (Z.shiftr n 8); u8 (Z.shiftr n 16); u8 (Z.shiftr n 24)] ++ tail in
  let server_seq_no := TLBuffer.ReadU32LE (zdrop 4 frame) in
  st <- get ;;
  let expected_seq_no := read_seq_no_ (fst st) in
  put (Mk (write_seq_no_ (fst st)) (expected_seq_no + 1), snd st) ;;;
  (if negb (s32 server_seq_no =? expected_seq_no)
   then throw (RuntimeError "full transport: seq_no mismatch") else ret tt) ;;;
  let received_crc := TLBuffer.ReadU32LE (zdrop (n - 4) frame) in
  let computed_crc := Crc32.Crc32Ieee (ztake (n - 4) frame) in
  (if negb (received_crc =? computed_crc)
   then throw (RuntimeError "full transport: crc mismatch") else ret tt) ;;;
  let payload := zslice 8 (n - 12) frame in
  Checks.CheckProtocolError payload ;;;
  ret payload.

End FullCodec.

(** A [std::shared_ptr<Codec>]: which class, and its fields. *)
Inductive Codec : Type :=
  | Abridged
  | Intermediate
  | PaddedIntermediate
  | Full (fields : FullCodec.t).

(** A call of a codec without fields. *)
Definition stateless {S A} (m : M S A) : M (Codec * S) A := on_snd m.

(** A call of a full codec's method, which may change its fields. *)
Definition on_full {S A} (f : FullCodec.t) (m : M (FullCodec.t * S) A) : M (Codec * S) A :=
  fun '(_, s) => let '(r, (f', s')) := m (f, s) in (r, (Full f', s')).

Definition Codec_Write {S} (write : WriteBytes S) (rand : RandomFill S) (payload : bytes)
    : M (Codec * S) unit := fun cs =>
  match fst cs with
  | Abridged => stateless (AbridgedCodec.Write write payload) cs
  | Intermediate => stateless (IntermediateCodec.Write write payload) cs
  | PaddedIntermediate => stateless (IntermediateCodec.PaddedWrite write rand payload) cs
  | Full f => on_full f (FullCodec.Write write payload) cs
  end.

Definition Codec_Read {S} (read : ReadExact S) : M (Codec * S) bytes := fun cs =>
  match fst cs with
  | Abridged => stateless (AbridgedCodec.Read read) cs
  | Intermediate => stateless (IntermediateCodec.Read read) cs
  | PaddedIntermediate => stateless (IntermediateCodec.PaddedRead read) cs
  | Full f => on_full f (FullCodec.Read read) cs
  end.

(** ** What a codec puts on the wire *)

(** The frame of payload [p] under codec [c]; [pad] is the tail the padded
    intermediate codec adds. *)
Definition full_body (f : FullCodec.t) (p : bytes) : bytes :=
  le_bytes 4 (12 + zlen p) ++ le_bytes 4 (FullCodec.write_seq_no_ f) ++ p.

Definition frame (c : Codec) (p pad : bytes) : bytes :=
  match c with
  | Abridged =>
      (if zlen p / 4 <? 0x7f then le_bytes 1 (zlen p / 4)
       else u8 0x7f :: le_bytes 3 (zlen p / 4)) ++ p
  | Intermediate => le_bytes 4 (zlen p) ++ p
  | PaddedIntermediate => le_bytes 4 (zlen p + zlen pad) ++ p ++ pad
  | Full f => full_body f p ++ le_bytes 4 (Crc32.Crc32Ieee (full_body f p))
  end.

(** The payloads a codec carries: not empty, not the 4 bytes of an error
    signal, within the size limit (12 bytes less for the full transport), and
    whole words for the three codecs that require it. *)
Definition sendable (c : Codec) (p : bytes) : bool :=
  match c with
  | Full f => (0 <? zlen p) && negb (zlen p =? 4) && (zlen p <=? 2 ^ 24 - 12) &&
              (0 <=? FullCodec.write_seq_no_ f) && (FullCodec.write_seq_no_ f <? 2 ^ 31)
  | PaddedIntermediate =>
      (4 <? zlen p) && (zlen p <=? 2 ^ 24 - 4) && (zlen p mod 4 =? 0)
  | _ => (4 <? zlen p) && (zlen p <=? 2 ^ 24) && (zlen p mod 4 =? 0)
  end.

Definition after_write (c : Codec) : Codec :=
  match c with
  | Full f => Full (FullCodec.Mk (FullCodec.write_seq_no_ f + 1) (FullCodec.read_seq_no_ f))
  | _ => c
  end.
Definition after_read (c : Codec) : Codec :=
  match c with
  | Full f => Full (FullCodec.Mk (FullCodec.write_seq_no_ f) (FullCodec.read_seq_no_ f + 1))
  | _ => c
  end.

(** The reading end expects what the writing end sends next. *)
Definition peer (cw cr : Codec) : Prop :=
  match cw, cr with
  | Full w, Full r => FullCodec.write_seq_no_ w = FullCodec.read_seq_no_ r
  | Abridged, Abridged | Intermediate, Intermediate => True
  | PaddedIntermediate, PaddedIntermediate => True
  | _, _ => False
  end.

Fixpoint sendable_all (c : Codec) (ps : list bytes) : bool :=
  match ps with
  | [] => true
  | p :: t => sendable c p && sendable_all (after_write c) t
  end.

Lemma after_peer cw cr : peer cw cr -> peer (after_write cw) (after_read cr).
Proof. destruct cw, cr; cbn; try done. by intros ->. Qed.

Section Codecs.

Context {S : Type}.

(** *** Writing *)

Section Writing.
Context (write : WriteBytes S) (rand : RandomFill S) (sent : S -> bytes).
Context `{!Sink write sent, !RandomSource rand sent}.

Lemma write_then {A} d (k : unit -> M S A) s (P : res A * S -> Prop) :
  (forall s', sent s' = sent s ++ d -> P (k tt s')) -> P (bind (write d) k s).
Proof.
  intros H. destruct (sink_write d s) as (s' & E & Hs).
  erewrite bind_Ok by apply E. by apply H.
Qed.

Lemma Abridged_write p s :
  sendable Abridged p = true ->
  exists s', AbridgedCodec.Write write p s = (Ok tt, s') /\
    sent s' = sent s ++ frame Abridged p [].
Proof.
  cbn [sendable]. intros H. assert (4 < zlen p <= 2 ^ 24 /\ zlen p mod 4 = 0) as [Hl Hm] by lia.
  unfold AbridgedCodec.Write, Checks.CheckOutgoingMessage.
  erewrite bind_Ok by (apply Checks.CheckMessageLength_ok; lia).
  erewrite bind_Ok by (by apply Checks.CheckAlign_ok).
  rewrite u32_id by (unfold is_u32; lia).
  rewrite Z.shiftr_div_pow2 by lia. change (2 ^ 2) with 4.
  cbn [frame]. destruct (zlen p / 4 <? 0x7f).
  - apply write_then. intros s1 H1. destruct (sink_write p s1) as (s2 & -> & H2).
    exists s2. split; [done|]. by rewrite H2, H1, <- app_assoc.
  - apply write_then. intros s1 H1. destruct (sink_write p s1) as (s2 & -> & H2).
    exists s2. split; [done|]. rewrite H2, H1. cbn [le_bytes].
    rewrite !Z.shiftr_shiftr by lia. by rewrite <- app_assoc.
Qed.

Lemma Intermediate_frame_write p s :
  0 <= zlen p < 2 ^ 32 ->
  exists s', IntermediateCodec.WriteIntermediateFrame write p s = (Ok tt, s') /\
    sent s' = sent s ++ le_bytes 4 (zlen p) ++ p.
Proof.
  intros Hp. unfold IntermediateCodec.WriteIntermediateFrame, Checks.WriteU32Le.
  rewrite Checks.le4_literal, u32_id by (unfold is_u32; lia).
  apply write_then. intros s1 H1. destruct (sink_write p s1) as (s2 & -> & H2).
  exists s2. split; [done|]. by rewrite H2, H1, <- app_assoc.
Qed.

Lemma Intermediate_write p s :
  sendable Intermediate p = true ->
  exists s', IntermediateCodec.Write write p s = (Ok tt, s') /\
    sent s' = sent s ++ frame Intermediate p [].
Proof.
  cbn [sendable]. intros H. assert (4 < zlen p <= 2 ^ 24 /\ zlen p mod 4 = 0) as [Hl Hm] by lia.
  unfold IntermediateCodec.Write, Checks.CheckOutgoingMessage.
  erewrite bind_Ok by (apply Checks.CheckMessageLength_ok; lia).
  erewrite bind_Ok by (by apply Checks.CheckAlign_ok).
  apply Intermediate_frame_write. lia.
Qed.

Lemma Padded_write p s :
  sendable PaddedIntermediate p = true ->
  exists pad s', IntermediateCodec.PaddedWrite write rand p s = (Ok tt, s') /\
    sent s' = sent s ++ frame PaddedIntermediate p pad /\ zlen pad < 4.
Proof.
  cbn [sendable]. intros H.
  assert (4 < zlen p <= 2 ^ 24 - 4 /\ zlen p mod 4 = 0) as [Hl Hm] by lia.
  unfold IntermediateCodec.PaddedWrite, Checks.CheckOutgoingMessage.
  erewrite bind_Ok by (apply Checks.CheckMessageLength_ok; lia).
  erewrite bind_Ok by (by apply Checks.CheckAlign_ok).
  destruct (random_fill 4 s ltac:(lia)) as (r & s1 & E & Hr & Hs1).
  erewrite bind_Ok by apply E.
  set (n := if decide (p = []) then 0 else bz (List.last p x00) mod 4).
  assert (Hn : 0 <= n < 4) by (unfold n; case_decide; [lia | apply Z.mod_pos_bound; lia]).
  assert (Hpad : zlen (ztake n r) = n) by (apply zlen_ztake; lia).
  destruct (Intermediate_frame_write (p ++ ztake n r) s1) as (s2 & -> & H2).
  { rewrite zlen_app. lia. }
  exists (ztake n r), s2. split; [done|]. split; [|lia].
  rewrite H2, Hs1, zlen_app. done.
Qed.

Lemma Full_write f p s :
  sendable (Full f) p = true ->
  exists s', FullCodec.Write write p (f, s) =
      (Ok tt, (FullCodec.Mk (FullCodec.write_seq_no_ f + 1) (FullCodec.read_seq_no_ f), s')) /\
    sent s' = sent s ++ frame (Full f) p [].
Proof.
  cbn [sendable]. intros H. unfold FullCodec.Write, Checks.CheckOutgoingMessage.
  erewrite bind_Ok by (apply Checks.CheckMessageLength_ok; lia).
  unfold bind, get, put, on_snd. cbn [fst snd].
  rewrite !FullCodec.append_u32_app, !u32_id by (unfold is_u32; lia).
  replace (4 + 4 + zlen p + 4) with (12 + zlen p) by lia.
  cbn [app]. rewrite <- (app_assoc _ _ p). fold (full_body f p).
  destruct (sink_write (full_body f p ++ le_bytes 4 (Crc32.Crc32Ieee (full_body f p))) s)
    as (s' & -> & Hs').
  by exists s'.
Qed.

Lemma Codec_write_frame c p s :
  sendable c p = true ->
  exists pad s', Codec_Write write rand p (c, s) = (Ok tt, (after_write c, s')) /\
    sent s' = sent s ++ frame c p pad /\ zlen pad < 4.
Proof.
  intros H. unfold Codec_Write, stateless, on_snd, on_full. cbn [fst].
  destruct c.
  - destruct (Abridged_write p s H) as (s' & -> & Hs). by exists [], s'.
  - destruct (Intermediate_write p s H) as (s' & -> & Hs). by exists [], s'.
  - destruct (Padded_write p s H) as (pad & s' & -> & Hs & Hp). by exists pad, s'.
  - destruct (Full_write fields p s H) as (s' & -> & Hs). by exists [], s'.
Qed.

End Writing.

(** *** Reading *)

Section Reading.
Context (read : ReadExact S) (view : S -> bytes) `{!Source read view}.

Lemma read_then {A} n a b (k : bytes -> M S A) s (P : res A * S -> Prop) :
  view s = a ++ b -> zlen a = n ->
  (forall s', view s' = b -> P (k a s')) -> P (bind (read n) k s).
Proof.
  intros Hv <- H. destruct (source_read s a b Hv) as (s' & E & Hs).
  erewrite bind_Ok by apply E. by apply H.
Qed.

Lemma land_7f n : 0 <= n < 128 -> Z.land n 0x7f = n.
Proof. intros H. change 0x7f with (Z.ones 7). rewrite Z.land_ones by lia. by apply Z.mod_small. Qed.

Lemma Abridged_ReadLength_run p s rest :
  sendable Abridged p = true -> view s = frame Abridged p [] ++ rest ->
  exists s', AbridgedCodec.ReadLength read s = (Ok (zlen p), s') /\ view s' = p ++ rest.
Proof.
  cbn [sendable frame]. intros H Hv.
  assert (4 < zlen p <= 2 ^ 24 /\ zlen p mod 4 = 0) as [Hl Hm] by lia.
  pose proof (Z.div_mod (zlen p) 4 ltac:(lia)) as Hd. set (w := zlen p / 4) in *.
  rewrite <- app_assoc in Hv. unfold AbridgedCodec.ReadLength.
  destruct (Z.ltb_spec w 0x7f).
  - eapply (read_then _ (le_bytes 1 w)); [exact Hv | done |]. intros s1 H1.
    rewrite le_val_le_bytes. change (256 ^ Z.of_nat 1) with 256.
    rewrite Z.mod_small, land_7f by lia.
    destruct (Z.eqb_spec w 0); [lia|]. destruct (Z.ltb_spec w 0x7f); [|lia].
    erewrite bind_Ok by (apply Checks.CheckMessageLength_ok; lia).
    exists s1. split; [|done]. unfold ret. do 2 f_equal. lia.
  - eapply (read_then _ [u8 0x7f]); [exact Hv | done |]. intros s1 H1.
    change (Z.land (le_val [u8 0x7f]) 0x7f) with 0x7f. cbn [Z.eqb Z.ltb Z.compare].
    change (127 =? 0) with false. change (127 <? 127) with false. cbv iota.
    eapply (read_then _ (le_bytes 3 w)); [exact H1 | done |]. intros s2 H2.
    rewrite or_bytes_0, le_val_le_bytes. change (256 ^ Z.of_nat 3) with (2 ^ 24).
    rewrite Z.mod_small by lia. destruct (Z.ltb_spec w 0x7f); [lia|].
    erewrite bind_Ok by (apply Checks.CheckMessageLength_ok; lia).
    exists s2. split; [|done]. unfold ret. do 2 f_equal. lia.
Qed.

Lemma Abridged_read p s rest :
  sendable Abridged p = true -> view s = frame Abridged p [] ++ rest ->
  exists s', AbridgedCodec.Read read s = (Ok p, s') /\ view s' = rest.
Proof.
  intros H Hv. unfold AbridgedCodec.Read.
  destruct (Abridged_ReadLength_run p s rest H Hv) as (s1 & E & H1).
  erewrite bind_Ok by apply E.
  eapply read_then; [exact H1 | done |]. intros s2 H2.
  erewrite bind_Ok by (apply Checks.CheckProtocolError_ok; cbn [sendable] in H; lia).
  by exists s2.
Qed.

Lemma Intermediate_frame_read p pad padding s rest :
  0 < zlen p + zlen pad <= 2 ^ 24 -> zlen p mod 4 = 0 -> zlen pad < 4 ->
  (padding = false -> pad = []) ->
  view s = le_bytes 4 (zlen p + zlen pad) ++ p ++ pad ++ rest ->
  exists s', IntermediateCodec.ReadIntermediateFrame read padding s = (Ok p, s') /\
    view s' = rest.
Proof.
  intros Hl Hm Hp Hpad Hv. unfold IntermediateCodec.ReadIntermediateFrame.
  destruct (Checks.ReadU32Le_run read view s _ _ Hv) as (s1 & E & H1).
  erewrite bind_Ok by apply E. rewrite u32_id by (unfold is_u32; lia).
  erewrite bind_Ok by (apply Checks.CheckMessageLength_ok; lia).
  eapply (read_then _ (p ++ pad) rest);
    [by rewrite H1, <- app_assoc | by rewrite zlen_app |].
  intros s2 H2. exists s2. split; [|done]. destruct padding.
  - unfold ret. do 2 f_equal. rewrite zlen_app.
    rewrite <- Z.add_mod_idemp_l, Hm, Z.add_0_l by lia.
    rewrite Z.mod_small by (pose proof (zlen_nonneg pad); lia). apply ztake_app. lia.
  - rewrite Hpad by done. unfold ret. by rewrite app_nil_r.
Qed.

Lemma Intermediate_read p s rest :
  sendable Intermediate p = true -> view s = frame Intermediate p [] ++ rest ->
  exists s', IntermediateCodec.Read read s = (Ok p, s') /\ view s' = rest.
Proof.
  cbn [sendable frame]. intros H Hv. unfold IntermediateCodec.Read.
  assert (4 < zlen p <= 2 ^ 24 /\ zlen p mod 4 = 0) as [Hl Hm] by lia.
  destruct (Intermediate_frame_read p [] false s rest) as (s1 & E & H1);
    [change (zlen (@nil byte)) with 0; lia | done | done | done
    | change (zlen (@nil byte)) with 0; by rewrite Hv, Z.add_0_r, <- app_assoc |].
  erewrite bind_Ok by apply E.
  erewrite bind_Ok by (apply Checks.CheckProtocolError_ok; lia). by exists s1.
Qed.

Lemma Padded_read p pad s rest :
  sendable PaddedIntermediate p = true -> zlen pad < 4 ->
  view s = frame PaddedIntermediate p pad ++ rest ->
  exists s', IntermediateCodec.PaddedRead read s = (Ok p, s') /\ view s' = rest.
Proof.
  cbn [sendable frame]. intros H Hpad Hv. unfold IntermediateCodec.PaddedRead.
  pose proof (zlen_nonneg pad).
  assert (4 < zlen p <= 2 ^ 24 - 4 /\ zlen p mod 4 = 0) as [Hl Hm] by lia.
  destruct (Intermediate_frame_read p pad true s rest) as (s1 & E & H1);
    [lia | done | done | done | by rewrite Hv, <- !app_assoc |].
  erewrite bind_Ok by apply E.
  erewrite bind_Ok by (apply Checks.CheckProtocolError_ok; lia). by exists s1.
Qed.

Lemma zdrop_two a b n (l : bytes) :
  zlen a + zlen b = n -> zdrop n (a ++ b ++ l) = l.
Proof. intros H. rewrite app_assoc. apply zdrop_app. by rewrite zlen_app. Qed.

Lemma crc_range data : is_u32 (Crc32.Crc32Ieee data).
Proof. apply Crc32.Crc32Ieee_range. Qed.

(** Reading one full frame, whatever its sequence number. *)
Lemma Full_read_seq f seq p s rest body :
  body = le_bytes 4 (12 + zlen p) ++ le_bytes 4 seq ++ p ->
  0 < zlen p <= 2 ^ 24 - 12 -> zlen p <> 4 -> 0 <= seq < 2 ^ 31 ->
  view s = body ++ le_bytes 4 (Crc32.Crc32Ieee body) ++ rest ->
  exists s', view s' = rest /\
    FullCodec.Read read (f, s) =
    (if seq =? FullCodec.read_seq_no_ f then Ok p
     else Throw (RuntimeError "full transport: seq_no mismatch"),
     (FullCodec.Mk (FullCodec.write_seq_no_ f) (FullCodec.read_seq_no_ f + 1), s')).
Proof.
  intros Hbody Hl H4 Hseq Hv.
  assert (Hb : zlen body = 8 + zlen p) by (rewrite Hbody; zlen_lia).
  set (crc := le_bytes 4 (Crc32.Crc32Ieee body)) in *.
  assert (Hc : zlen crc = 4) by apply zlen_le_bytes.
  assert (Hv' : view s = le_bytes 4 (12 + zlen p) ++ (le_bytes 4 seq ++ p ++ crc) ++ rest)
    by (rewrite Hv, Hbody; by rewrite <- !app_assoc).
  destruct (Checks.ReadU32Le_run read view s _ _ Hv') as (s1 & E1 & H1).
  destruct (source_read s1 _ _ H1) as (s2 & E2 & H2).
  exists s2. split; [done|]. unfold FullCodec.Read.
  erewrite bind_Ok by (unfold on_snd; rewrite E1; done).
  rewrite u32_id by (unfold is_u32; lia).
  erewrite bind_Ok by (apply Checks.CheckMessageLength_ok; lia).
  destruct (Z.ltb_spec (12 + zlen p) (3 * 4)); [lia|]. rewrite bind_ret.
  replace (zlen (le_bytes 4 seq ++ p ++ crc)) with (12 + zlen p - 4) in E2 by zlen_lia.
  erewrite bind_Ok by (unfold on_snd; rewrite E2; done).
  rewrite Checks.le4_literal.
  unfold bind, get, put. cbn [fst snd].
  rewrite zdrop_app by (by rewrite zlen_le_bytes).
  rewrite TLBuffer.ReadU32LE_le_bytes, s32_u32, s32_id by (unfold is_s32; lia).
  destruct (Z.eqb_spec seq (FullCodec.read_seq_no_ f)); [|done].
  cbn [negb]. unfold ret at 1.
  assert (Hfr : le_bytes 4 (12 + zlen p) ++ le_bytes 4 seq ++ p ++ crc = body ++ crc)
    by (rewrite Hbody; by rewrite <- !app_assoc).
  rewrite Hfr, zdrop_app, ztake_app by lia.
  assert (Hrd : TLBuffer.ReadU32LE crc = Crc32.Crc32Ieee body).
  { unfold crc. rewrite <- (app_nil_r (le_bytes 4 _)), TLBuffer.ReadU32LE_le_bytes.
    apply u32_id, crc_range. }
  rewrite Hrd, Z.eqb_refl.
  cbn [negb]. unfold ret at 1. unfold zslice.
  assert (Hp : ztake (12 + zlen p - 12) (zdrop 8 (body ++ crc)) = p).
  { rewrite Hbody. rewrite <- !app_assoc, zdrop_two by done. apply ztake_app. lia. }
  rewrite Hp, Checks.CheckProtocolError_ok by done. done.
Qed.

Lemma Full_read f w p s rest :
  sendable (Full w) p = true ->
  FullCodec.write_seq_no_ w = FullCodec.read_seq_no_ f ->
  view s = frame (Full w) p [] ++ rest ->
  exists s', FullCodec.Read read (f, s) =
      (Ok p, (FullCodec.Mk (FullCodec.write_seq_no_ f) (FullCodec.read_seq_no_ f + 1), s')) /\
    view s' = rest.
Proof.
  cbn [sendable frame]. intros H Hw Hv. rewrite <- app_assoc in Hv.
  destruct (Full_read_seq f (FullCodec.write_seq_no_ w) p s rest (full_body w p))
    as (s' & Hr & E); [done | lia | lia | lia | exact Hv |].
  exists s'. rewrite E, Hw, Z.eqb_refl. done.
Qed.

Lemma Codec_read_frame cw cr p pad s rest :
  peer cw cr -> sendable cw p = true -> zlen pad < 4 ->
  view s = frame cw p pad ++ rest ->
  exists s', Codec_Read read (cr, s) = (Ok p, (after_read cr, s')) /\ view s' = rest.
Proof.
  intros Hpeer H Hpad Hv. unfold Codec_Read, stateless, on_snd, on_full. cbn [fst].
  destruct cw as [| | |w], cr as [| | |r]; try done.
  - destruct (Abridged_read p s rest H Hv) as (s' & -> & Hs). by exists s'.
  - destruct (Intermediate_read p s rest H Hv) as (s' & -> & Hs). by exists s'.
  - destruct (Padded_read p pad s rest H Hpad Hv) as (s' & -> & Hs). by exists s'.
  - destruct (Full_read r w p s rest H Hpeer Hv) as (s' & -> & Hs). by exists s'.
Qed.

End Reading.
End Codecs.

(** ** An in-memory connection

    The simplest [Source] and [Sink]: the bytes not yet read.  Reading past the
    end is the peer having closed the connection. *)
Module Pipe.

Definition read : ReadExact bytes := fun n s =>
  if n <=? zlen s then (Ok (ztake n s), zdrop n s) else (Throw ConnectionClosedError, s).
Definition write : WriteBytes bytes := fun d s => (Ok tt, s ++ d).
Definition zeros : RandomFill bytes := fun n s => (Ok (replicate (Z.to_nat n) x00), s).

#[export] Instance pipe_source : Source read id.
Proof.
  intros s a b. unfold id. intros ->. exists b. unfold read.
  destruct (Z.leb_spec (zlen a) (zlen (a ++ b))); [|zlen_lia].
  rewrite ztake_app, zdrop_app by done. done.
Qed.
#[export] Instance pipe_sink : Sink write id.
Proof. intros d s. by exists (s ++ d). Qed.
#[export] Instance pipe_random : RandomSource zeros (@id bytes).
Proof.
  intros n s Hn. exists (replicate (Z.to_nat n) x00), s.
  rewrite zlen_replicate. split; [done|]. split; [lia | done].
Qed.

End Pipe.

(** ** Properties *)

Lemma frames_run {S} (write : WriteBytes S) rand sent `{!Sink write sent}
    `{!RandomSource rand sent} {T} (read : ReadExact T) view `{!Source read view}
    (ps : list bytes) cw cr s :
  peer cw cr -> sendable_all cw ps = true ->
  exists cw' s' wire,
    for_each (Codec_Write write rand) ps (cw, s) = (Ok tt, (cw', s')) /\
    sent s' = sent s ++ wire /\
    forall t rest, view t = wire ++ rest ->
      exists cr' t', repeat_m (length ps) (Codec_Read read) (cr, t) = (Ok ps, (cr', t')) /\
        view t' = rest.
Proof.
  revert cw cr s. induction ps as [|p ps IH]; intros cw cr s Hpeer Hok.
  - exists cw, s, []. split; [done|]. split; [by rewrite app_nil_r|].
    intros t rest Hv. by exists cr, t.
  - cbn [sendable_all] in Hok. apply andb_true_iff in Hok as [Hp Hps].
    destruct (Codec_write_frame write rand sent cw p s Hp) as (pad & s1 & E1 & Hs1 & Hpad).
    destruct (IH _ _ s1 (after_peer _ _ Hpeer) Hps) as (cw' & s' & wire & E2 & Hs' & Hrd).
    exists cw', s', (frame cw p pad ++ wire). cbn [for_each].
    erewrite bind_Ok by apply E1. split; [exact E2|].
    split; [by rewrite Hs', Hs1, app_assoc|].
    intros t rest Hv. rewrite <- app_assoc in Hv.
    destruct (Codec_read_frame read view cw cr p pad t _ Hpeer Hp Hpad Hv) as (t1 & E3 & Ht1).
    destruct (Hrd t1 rest Ht1) as (cr' & t' & E4 & Ht').
    exists cr', t'. split; [|done]. cbn [length repeat_m].
    erewrite bind_Ok by apply E3. erewrite bind_Ok by apply E4. done.
Qed.

(** C33. For each of the four codecs: any sequence of payloads written by one
    end is read by the other end's codec as the same sequence, in order, with
    nothing of the following bytes consumed — over any connection that
    delivers bytes in order, whatever padding was drawn. *)
Theorem frames_roundtrip {S} (write : WriteBytes S) (rand : RandomFill S) (sent : S -> bytes)
    (Hsink : Sink write sent) (Hrand : RandomSource rand sent)
    {T} (read : ReadExact T) (view : T -> bytes) (Hsource : Source read view)
    (ps : list bytes) (cw cr : Codec) (s : S)
    (Hpeer : peer cw cr) (Hok : sendable_all cw ps = true) :
  exists cw' s' wire,
    for_each (Codec_Write write rand) ps (cw, s) = (Ok tt, (cw', s')) /\
    sent s' = sent s ++ wire /\
    forall t rest, view t = wire ++ rest ->
      exists cr' t', repeat_m (length ps) (Codec_Read read) (cr, t) = (Ok ps, (cr', t')) /\
        view t' = rest.
Proof. by apply frames_run. Qed.

Lemma frames_roundtrip_witness :
  let ps := [lit "12345678"; lit "12345678901234567890"] in
  exists cw' s' wire,
    for_each (Codec_Write Pipe.write Pipe.zeros) ps (Full FullCodec.fresh, []) =
      (Ok tt, (cw', s')) /\
    id s' = id [] ++ wire /\
    forall t rest, id t = wire ++ rest ->
      exists cr' t', repeat_m (length ps) (Codec_Read Pipe.read) (Full FullCodec.fresh, t) =
        (Ok ps, (cr', t')) /\ id t' = rest.
Proof.
  apply (frames_roundtrip Pipe.write Pipe.zeros id Pipe.pipe_sink Pipe.pipe_random
    Pipe.read id Pipe.pipe_source); [reflexivity | vm_compute; reflexivity].
Defined.

(** The full transport refuses a frame whose sequence number is not the
    next one, even with a correct length and CRC: a replayed, dropped or
    reordered frame never yields a payload. *)
Theorem Full_rejects_out_of_order {S} (read : ReadExact S) (view : S -> bytes)
    (Hsource : Source read view) (f : FullCodec.t) (seq : Z) (p : bytes) (s : S) (rest : bytes)
    (Hlen : 0 < zlen p <= 2 ^ 24 - 12) (H4 : zlen p <> 4) (Hseq : 0 <= seq < 2 ^ 31)
    (Hne : seq <> FullCodec.read_seq_no_ f)
    (Hv : view s = frame (Full (FullCodec.Mk seq 0)) p [] ++ rest) :
  fst (Codec_Read read (Full f, s)) =
  Throw (RuntimeError "full transport: seq_no mismatch").
Proof.
  cbn [frame] in Hv. rewrite <- app_assoc in Hv. unfold Codec_Read, on_full. cbn [fst].
  destruct (Full_read_seq read view f seq p s rest (full_body (FullCodec.Mk seq 0) p))
    as (s' & _ & ->); try done.
  destruct (Z.eqb_spec seq (FullCodec.read_seq_no_ f)); done.
Qed.

Lemma Full_rejects_out_of_order_witness :
  fst (Codec_Read Pipe.read
    (Full FullCodec.fresh, frame (Full (FullCodec.Mk 1 0)) (lit "12345678") [] ++ [x01])) =
  Throw (RuntimeError "full transport: seq_no mismatch").
Proof.
  apply (Full_rejects_out_of_order Pipe.read id Pipe.pipe_source FullCodec.fresh 1
    (lit "12345678") _ [x01]); try reflexivity; try (vm_compute; split; congruence);
    vm_compute; congruence.
Defined.

(** [FullCodec::Write] accepts payloads up to 2^24 bytes, but its frame is
    12 bytes longer and the reader's limit is on the frame: a payload of more
    than 2^24 - 12 bytes is sent and then refused by the other end. *)
Theorem Full_write_exceeds_read_limit {S} (write : WriteBytes S) (sent : S -> bytes)
    (Hsink : Sink write sent) {T} (read : ReadExact T) (view : T -> bytes)
    (Hsource : Source read view) (f : FullCodec.t) (p : bytes) (s : S)
    (Hlen : 2 ^ 24 - 12 < zlen p <= 2 ^ 24) (Hseq : 0 <= FullCodec.write_seq_no_ f < 2 ^ 31) :
  exists f' s' wire,
    FullCodec.Write write p (f, s) = (Ok tt, (f', s')) /\ sent s' = sent s ++ wire /\
    forall fr t, view t = wire ->
      fst (FullCodec.Read read (fr, t)) = Throw (InvalidMessageLengthError (12 + zlen p)).
Proof.
  unfold FullCodec.Write, Checks.CheckOutgoingMessage.
  erewrite bind_Ok by (apply Checks.CheckMessageLength_ok; lia).
  unfold bind at 1 2, get, put, on_snd. cbn [fst snd].
  rewrite !FullCodec.append_u32_app, !(u32_id (_ + 4)) by (unfold is_u32; lia).
  replace (4 + 4 + zlen p + 4) with (12 + zlen p) by lia. cbn [app].
  match goal with |- context [write ?d s] => destruct (sink_write d s) as (s' & -> & Hs') end.
  eexists _, s', _. split; [done|]. split; [exact Hs'|]. intros fr t Hv.
  rewrite <- !app_assoc in Hv.
  destruct (Checks.ReadU32Le_run read view t _ _ Hv) as (t1 & E & _).
  unfold FullCodec.Read. erewrite bind_Ok by (unfold on_snd; rewrite E; done).
  rewrite u32_id by (unfold is_u32; lia).
  unfold bind at 1, Checks.CheckMessageLength, Checks.kMaxMessageSize.
  change (Z.shiftl 1 24) with (2 ^ 24).
  destruct (Z.eqb_spec (12 + zlen p) 0), (Z.ltb_spec (2 ^ 24) (12 + zlen p)); try lia; done.
Qed.

Lemma Full_write_exceeds_read_limit_witness :
  let p := replicate (Z.to_nat (2 ^ 24)) x00 in
  exists f' s' wire,
    FullCodec.Write Pipe.write p (FullCodec.fresh, []) = (Ok tt, (f', s')) /\
    id s' = id [] ++ wire /\
    forall fr t, id t = wire ->
      fst (FullCodec.Read Pipe.read (fr, t)) = Throw (InvalidMessageLengthError (12 + zlen p)).
Proof.
  apply (Full_write_exceeds_read_limit Pipe.write id Pipe.pipe_sink Pipe.read id
    Pipe.pipe_source FullCodec.fresh _ []); [|split; reflexivity || discriminate].
  rewrite zlen_replicate, Z2Nat.id by discriminate. split; [reflexivity | discriminate].
Defined.
