(* ===== verification/Detect.v ===== *)
(** * Picking the transport of a new connection

    [DetectCodec], [DetectTransport], the obfuscated2 accept side and its
    AES-256-CTR streams.  The two wrapped closures [DetectTransport] returns
    (replaying the bytes detection consumed, or de/encrypting) are a [Wrap]
    beside the raw connection's state; [wrapped_source] shows that reading
    through them is again a [Source], so the codec theorems apply. *)

From Stdlib Require Import ZArith Lia Strings.Byte Strings.String.
From stdpp Require Import base decidable list.
From S2P Require Import Prelude TL OpenSSL Transport.

Section Detect.
Context {ssl : OpenSSL}.

(** ** [crypto::Aes256CtrStream] *)

Record Aes256CtrStream : Type := CtrStream { ctr_key : bytes; ctr_iv : bytes; ctr_pos : Z }.

(** The constructor. *)
Definition NewAes256CtrStream (key iv : bytes) : res Aes256CtrStream :=
  if negb (zlen key =? 32) then Throw (RuntimeError "Aes256CtrStream: key must be 32 bytes")
  else if negb (zlen iv =? 16) then Throw (RuntimeError "Aes256CtrStream: iv must be 16 bytes")
  else Ok (CtrStream key iv 0).

(** [len] bytes of key stream from a position. *)
Definition keystream (key iv : bytes) (pos : Z) (len : nat) : bytes :=
  map (fun i => aes256_ctr_keystream key iv (pos + Z.of_nat i)) (seq 0 len).

Definition XorKeyStream (src : bytes) : M Aes256CtrStream bytes := fun st =>
  (Ok (xor_bytes src (keystream (ctr_key st) (ctr_iv st) (ctr_pos st) (length src))),
   CtrStream (ctr_key st) (ctr_iv st) (ctr_pos st + zlen src)).

(** ** obfuscated2 ([obfuscated2.cpp]) *)

Record Obfuscated2Keys : Type := MkKeys { encrypt : Aes256CtrStream; decrypt : Aes256CtrStream }.
Record Obfuscated2Metadata : Type := MkMetadata { protocol : bytes; dc : Z }.

Definition ReversedMiddle (init : bytes) : bytes := rev (zslice 8 48 init).

Definition CreateObfuscated2Streams (init secret : bytes) : res Obfuscated2Keys :=
  let encrypt_key := zslice 8 32 init in
  let encrypt_iv := zslice 40 16 init in
  let rev := ReversedMiddle init in
  let decrypt_key := ztake 32 rev in
  let decrypt_iv := zslice 32 16 rev in
  let '(encrypt_key, decrypt_key) :=
    if decide (secret = []) then (encrypt_key, decrypt_key)
    else let secret16 := ztake 16 secret in
         (sha256 (encrypt_key ++ secret16), sha256 (decrypt_key ++ secret16)) in
  e <-? NewAes256CtrStream encrypt_key encrypt_iv ;;
  d <-? NewAes256CtrStream decrypt_key decrypt_iv ;;
  Ok (MkKeys e d).

Definition AcceptObfuscated2 (wire_init secret : bytes)
    : res (Obfuscated2Keys * Obfuscated2Metadata) :=
  keys <-? CreateObfuscated2Streams wire_init secret ;;
  let keys := MkKeys (decrypt keys) (encrypt keys) in
  let '(r, dec) := XorKeyStream wire_init (decrypt keys) in
  decrypted <-? r ;;
  let protocol := zslice 56 4 decrypted in
  let dc := le_val (zslice 60 2 decrypted) in
  Ok (MkKeys (encrypt keys) dec, MkMetadata protocol dc).

(** ** Detection *)

(** The state of the closures [detected.read] and [detected.write]:
    [Replay sent_ todo] is the replay array [sent_ ++ todo] at
    [replay_pos = sent_.size()]. *)
Inductive Wrap : Type :=
  | Raw
  | Replay (sent_ todo : bytes)
  | Obfuscated (keys : Obfuscated2Keys).

Definition wrapped_read {S} (raw_read : ReadExact S) : ReadExact (Wrap * S) := fun len ws =>
  match fst ws with
  | Raw => on_snd (raw_read len) ws
  | Replay sent_ todo =>
      let from_replay := Z.min len (zlen todo) in
      let dst := ztake from_replay todo in
      let w := Replay (sent_ ++ dst) (zdrop from_replay todo) in
      if from_replay <? len then
        let '(r, s) := raw_read (len - from_replay) (snd ws) in
        match r with
        | Ok tail => (Ok (dst ++ tail), (w, s))
        | Throw e => (Throw e, (w, s))
        end
      else (Ok dst, (w, snd ws))
  | Obfuscated keys =>
      let '(r, s) := raw_read len (snd ws) in
      match r with
      | Ok src =>
          let '(r, dec) := XorKeyStream src (decrypt keys) in
          (r, (Obfuscated (MkKeys (encrypt keys) dec), s))
      | Throw e => (Throw e, (Obfuscated keys, s))
      end
  end.

Definition wrapped_write {S} (raw_write : WriteBytes S) : WriteBytes (Wrap * S) := fun src ws =>
  match fst ws with
  | Obfuscated keys =>
      match XorKeyStream src (encrypt keys) with
      | (Ok buf, enc) =>
          let '(r, s) := raw_write buf (snd ws) in
          (r, (Obfuscated (MkKeys enc (decrypt keys)), s))
      | (Throw e, enc) => (Throw e, (Obfuscated (MkKeys enc (decrypt keys)), snd ws))
      end
  | _ => on_snd (raw_write src) ws
  end.

Definition kReservedAscii : list bytes := [lit "GET "; lit "POST"; lit "HEAD"; lit "OPTI"].

Definition IsReservedPrefix (b : bytes) : bool :=
  existsb (fun reserved => bool_decide (b = reserved)) kReservedAscii ||
  bool_decide (b = [x16; x03; x01; x02]).

(** [detect_codec.hpp] *)
Definition DetectCodec {S} (raw_read : ReadExact S) : M S (Codec * Wrap) :=
  p0 <- raw_read 1 ;;
  if decide (p0 = [AbridgedCodec.kAbridgedClientStart]) then ret (Abridged, Raw)
  else
    p1 <- raw_read 3 ;;
    let prefix := p0 ++ p1 in
    if decide (prefix = IntermediateCodec.kIntermediateClientStart) then ret (Intermediate, Raw)
    else if decide (prefix = IntermediateCodec.kPaddedIntermediateClientStart) then
      ret (PaddedIntermediate, Raw)
    else ret (Full FullCodec.fresh, Replay [] prefix).

(** The codec an obfuscated2 inner protocol tag names. *)
Definition CodecOfTag (tag : bytes) : res Codec :=
  if decide (tag = AbridgedCodec.ObfuscatedTag) then Ok Abridged
  else if decide (tag = IntermediateCodec.kIntermediateClientStart) then Ok Intermediate
  else if decide (tag = IntermediateCodec.kPaddedIntermediateClientStart) then
    Ok PaddedIntermediate
  else Throw (InvalidTransportPrefixError "unrecognized obfuscated2 inner protocol tag").

(** [detect_transport.cpp] *)
Definition DetectTransport {S} (raw_read : ReadExact S) (obfuscated_secret : bytes)
    : M S (Codec * Wrap) :=
  p0 <- raw_read 1 ;;
  if decide (p0 = [AbridgedCodec.kAbridgedClientStart]) then ret (Abridged, Raw)
  else
    p1 <- raw_read 3 ;;
    let first4 := p0 ++ p1 in
    if decide (first4 = IntermediateCodec.kIntermediateClientStart) then ret (Intermediate, Raw)
    else if decide (first4 = IntermediateCodec.kPaddedIntermediateClientStart) then
      ret (PaddedIntermediate, Raw)
    else if IsReservedPrefix first4 then
      throw (InvalidTransportPrefixError "reserved transport prefix")
    else
      p2 <- raw_read 4 ;;
      let prefix := first4 ++ p2 in
      let tail_is_zero := bool_decide (p2 = [x00; x00; x00; x00]) in
      if tail_is_zero then ret (Full FullCodec.fresh, Replay [] prefix)
      else
        rest <- raw_read 56 ;;
        let init := prefix ++ rest in
        accepted <- lift (AcceptObfuscated2 init obfuscated_secret) ;;
        codec <- lift (CodecOfTag (protocol (snd accepted))) ;;
        ret (codec, Obfuscated (fst accepted)).

(** ** What is still to be read through the wrapped closure *)

Definition wrapped_view {S} (view : S -> bytes) (ws : Wrap * S) : bytes :=
  match fst ws with
  | Raw => view (snd ws)
  | Replay _ todo => todo ++ view (snd ws)
  | Obfuscated keys =>
      let d := decrypt keys in
      xor_bytes (view (snd ws))
        (keystream (ctr_key d) (ctr_iv d) (ctr_pos d) (length (view (snd ws))))
  end.

Lemma length_keystream k iv pos n : length (keystream k iv pos n) = n.
Proof. unfold keystream. by rewrite length_map, length_seq. Qed.

Lemma keystream_cons k iv pos n :
  keystream k iv pos (S n) = aes256_ctr_keystream k iv pos :: keystream k iv (pos + 1) n.
Proof.
  unfold keystream. cbn [seq map]. rewrite Z.add_0_r. f_equal.
  rewrite <- seq_shift, map_map. apply map_ext. intros i. f_equal. lia.
Qed.

Lemma keystream_app k iv pos n m :
  keystream k iv pos (n + m) = keystream k iv pos n ++ keystream k iv (pos + Z.of_nat n) m.
Proof.
  revert pos. induction n as [|n IH]; intros pos.
  - cbn [Nat.add]. by rewrite Z.add_0_r.
  - cbn [Nat.add]. rewrite !keystream_cons, IH. cbn [app]. do 3 f_equal. lia.
Qed.

Lemma xor_bytes_app a b k l :
  length a = length k -> xor_bytes (a ++ b) (k ++ l) = xor_bytes a k ++ xor_bytes b l.
Proof.
  revert k. induction a as [|x a IH]; intros [|y k] Hl; cbn in *; try done.
  by rewrite IH by lia.
Qed.

(** Cutting a stream cuts the XOR of it with the key stream. *)
Lemma xor_keystream_app k iv pos (a b : bytes) :
  xor_bytes (a ++ b) (keystream k iv pos (length (a ++ b))) =
  xor_bytes a (keystream k iv pos (length a)) ++
  xor_bytes b (keystream k iv (pos + zlen a) (length b)).
Proof.
  rewrite length_app, keystream_app, xor_bytes_app by (by rewrite length_keystream).
  done.
Qed.

Lemma length_xor_keystream k iv pos (a : bytes) :
  zlen (xor_bytes a (keystream k iv pos (length a))) = zlen a.
Proof. apply zlen_xor_bytes. unfold zlen. by rewrite length_keystream. Qed.

(** Reading through the closures of [DetectTransport] is reading a stream. *)
#[export] Instance wrapped_source {S} (raw_read : ReadExact S) view
  `{!Source raw_read view} : Source (wrapped_read raw_read) (wrapped_view view).
Proof.
  intros [w s] a b Hv. unfold wrapped_view in Hv. cbn [fst snd] in Hv.
  destruct w as [|done todo|keys]; unfold wrapped_read; cbn [fst snd].
  - destruct (source_read s a b Hv) as (s' & E & Hs). unfold on_snd. rewrite E.
    by exists (Raw, s').
  - destruct (Z.min_spec (zlen a) (zlen todo)) as [[Hlt ->]|[Hge ->]].
    + (* the replayed bytes suffice *)
      destruct (zsplit (zlen a) todo) as (t1 & t2 & -> & Ht); [pose proof (zlen_nonneg a); lia|].
      rewrite ztake_app, zdrop_app by done. rewrite <- app_assoc in Hv.
      assert (a = t1 /\ t2 ++ view s = b) as [-> <-].
      { apply app_inj_1 in Hv; [destruct Hv; auto|]. unfold zlen in Ht. lia. }
      rewrite Z.ltb_irrefl. by exists (Replay (done ++ t1) t2, s).
    + rewrite ztake_all, zdrop_all by done.
      destruct (zsplit (zlen todo) a) as (a1 & a2 & -> & Ha); [pose proof (zlen_nonneg todo); lia|].
      rewrite <- app_assoc in Hv.
      assert (todo = a1 /\ view s = a2 ++ b) as [-> Hs].
      { apply app_inj_1 in Hv; [done|]. unfold zlen in Ha. lia. }
      rewrite zlen_app. destruct (Z.ltb_spec (zlen a1) (zlen a1 + zlen a2)).
      * destruct (source_read s a2 b Hs) as (s' & E & Hs').
        replace (zlen a1 + zlen a2 - zlen a1) with (zlen a2) by lia. rewrite E.
        by exists (Replay (done ++ a1) [], s').
      * assert (a2 = []) as -> by (apply zlen_0_inv; pose proof (zlen_nonneg a2); lia).
        rewrite app_nil_r. by exists (Replay (done ++ a1) [], s).
  - set (k := ctr_key (decrypt keys)) in *. set (iv := ctr_iv (decrypt keys)) in *.
    set (pos := ctr_pos (decrypt keys)) in *.
    assert (Hlen : zlen (view s) = zlen a + zlen b).
    { rewrite <- (length_xor_keystream k iv pos (view s)), Hv. apply zlen_app. }
    destruct (zsplit (zlen a) (view s)) as (v1 & v2 & Hvs & H1);
      [pose proof (zlen_nonneg a); pose proof (zlen_nonneg b); lia|].
    rewrite Hvs, xor_keystream_app in Hv.
    assert (xor_bytes v1 (keystream k iv pos (length v1)) = a /\
      xor_bytes v2 (keystream k iv (pos + zlen v1) (length v2)) = b) as [Ha Hb].
    { apply app_inj_1 in Hv; [done|].
      pose proof (length_xor_keystream k iv pos v1). unfold zlen in *. lia. }
    destruct (source_read s v1 v2 Hvs) as (s' & E & Hs'). rewrite <- H1, E.
    unfold XorKeyStream. fold k iv pos. rewrite Ha. eexists. split; [done|].
    unfold wrapped_view. cbn [fst snd decrypt ctr_key ctr_iv ctr_pos]. by rewrite Hs', <- Hb.
Qed.


(** ** Properties *)

(** What a client of each codec sends before its first frame. *)
Definition client_hello (c : Codec) : bytes :=
  match c with
  | Abridged => [AbridgedCodec.kAbridgedClientStart]
  | Intermediate => IntermediateCodec.kIntermediateClientStart
  | PaddedIntermediate => IntermediateCodec.kPaddedIntermediateClientStart
  | Full _ => []
  end.

(** A codec object just constructed. *)
Definition fresh_codec (c : Codec) : bool :=
  match c with
  | Full f => (FullCodec.write_seq_no_ f =? 0) && (FullCodec.read_seq_no_ f =? 0)
  | _ => true
  end.

Lemma fresh_full f : fresh_codec (Full f) = true -> f = FullCodec.fresh.
Proof.
  destruct f as [w r]. cbn. intros H. f_equal; lia.
Qed.

Lemma zlen_4 (l : bytes) : zlen l = 4 -> exists a b c d, l = [a; b; c; d].
Proof.
  destruct l as [|a [|b [|c [|d [|e l]]]]]; intros H; try zlen_lia.
  - by exists a, b, c, d.
Qed.

(** The first length field of an aligned full frame is none of the markers. *)
Lemma full_length_no_marker n :
  0 <= n <= 2 ^ 24 -> n mod 4 = 0 ->
  [u8 n] <> [AbridgedCodec.kAbridgedClientStart] /\
  (forall m, u8 (Z.shiftr n 24) <> nth 3 m x00 -> le_bytes 4 n <> m).
Proof.
  intros Hn Hm. split.
  - intros [= H]. apply (f_equal bz) in H. rewrite bz_u8 in H.
    change (bz AbridgedCodec.kAbridgedClientStart) with 239 in H.
    assert (n mod 256 mod 4 = n mod 4) as E.
    { rewrite <- (Z.mod_mod_divide n 256 4) by (exists 64; done). done. }
    rewrite H, Hm in E. discriminate E.
  - intros m Hne <-. apply Hne. cbn [le_bytes nth]. by rewrite !Z.shiftr_shiftr by lia.
Qed.

Lemma full_length_high n : 0 <= n <= 2 ^ 24 ->
  u8 (Z.shiftr n 24) = x00 \/ u8 (Z.shiftr n 24) = x01.
Proof.
  intros Hn. rewrite Z.shiftr_div_pow2 by lia.
  assert (n / 2 ^ 24 = 0 \/ n / 2 ^ 24 = 1) as [-> | ->]; [|by left|by right].
  pose proof (Z.div_pos n (2 ^ 24) ltac:(lia) ltac:(lia)).
  assert (n / 2 ^ 24 < 2) by (apply Z.div_lt_upper_bound; lia). lia.
Qed.

Lemma DetectTransport_full {S} (raw_read : ReadExact S) view `{!Source raw_read view}
    secret n s rest :
  0 <= n <= 2 ^ 24 -> n mod 4 = 0 ->
  view s = le_bytes 4 n ++ le_bytes 4 0 ++ rest ->
  exists s', DetectTransport raw_read secret s =
      (Ok (Full FullCodec.fresh, Replay [] (le_bytes 4 n ++ le_bytes 4 0)), s') /\
    view s' = rest.
Proof.
  intros Hn Hm Hv. destruct (full_length_no_marker n Hn Hm) as [Hef Hno].
  set (n3 := [u8 (Z.shiftr n 8); u8 (Z.shiftr (Z.shiftr n 8) 8);
              u8 (Z.shiftr (Z.shiftr (Z.shiftr n 8) 8) 8)]).
  change (le_bytes 4 n) with ([u8 n] ++ n3) in Hv. rewrite <- app_assoc in Hv.
  unfold DetectTransport.
  eapply (read_then raw_read view _ [u8 n]); [exact Hv | done | intros s1 H1].
  rewrite decide_False by done.
  eapply (read_then raw_read view _ n3); [exact H1 | done | intros s2 H2].
  change ([u8 n] ++ n3) with (le_bytes 4 n).
  assert (Hmark : forall m, nth 3 m x00 <> x00 -> nth 3 m x00 <> x01 -> le_bytes 4 n <> m).
  { intros m H0 H1'. apply Hno. destruct (full_length_high n Hn) as [-> | ->]; congruence. }
  rewrite !decide_False by (apply Hmark; discriminate).
  assert (Hres : IsReservedPrefix (le_bytes 4 n) = false).
  { unfold IsReservedPrefix, kReservedAscii. cbn [existsb].
    rewrite !bool_decide_eq_false_2 by (apply Hmark; discriminate). done. }
  rewrite Hres.
  eapply (read_then raw_read view _ (le_bytes 4 0)); [exact H2 | done | intros s3 H3].
  by exists s3.
Qed.

Lemma DetectTransport_plain {S} (raw_read : ReadExact S) view `{!Source raw_read view}
    secret c p pad s rest :
  fresh_codec c = true -> sendable c p = true -> zlen p mod 4 = 0 ->
  view s = client_hello c ++ frame c p pad ++ rest ->
  exists w s', DetectTransport raw_read secret s = (Ok (c, w), s') /\
    wrapped_view view (w, s') = frame c p pad ++ rest.
Proof.
  intros Hf Hp Hm Hv. destruct c as [| | |f].
  - unfold DetectTransport.
    eapply (read_then raw_read view); [exact Hv | done | intros s1 H1].
    rewrite decide_True by done. by exists Raw, s1.
  - unfold DetectTransport. change (client_hello _) with ([xee] ++ [xee; xee; xee]) in Hv.
    rewrite <- app_assoc in Hv.
    eapply (read_then raw_read view _ [xee]); [exact Hv | done | intros s1 H1].
    rewrite decide_False by done.
    eapply (read_then raw_read view _ [xee; xee; xee]); [exact H1 | done | intros s2 H2].
    rewrite decide_True by done. by exists Raw, s2.
  - unfold DetectTransport. change (client_hello _) with ([xdd] ++ [xdd; xdd; xdd]) in Hv.
    rewrite <- app_assoc in Hv.
    eapply (read_then raw_read view _ [xdd]); [exact Hv | done | intros s1 H1].
    rewrite decide_False by done.
    eapply (read_then raw_read view _ [xdd; xdd; xdd]); [exact H1 | done | intros s2 H2].
    rewrite decide_False, decide_True by done. by exists Raw, s2.
  - apply fresh_full in Hf as ->. cbn [client_hello app] in Hv.
    cbn [sendable] in Hp. assert (0 <= zlen p <= 2 ^ 24 - 12) by lia.
    assert (Hfr : frame (Full FullCodec.fresh) p pad ++ rest =
      le_bytes 4 (12 + zlen p) ++ le_bytes 4 0 ++
      (p ++ le_bytes 4 (Crc32.Crc32Ieee (full_body FullCodec.fresh p)) ++ rest)).
    { cbn [frame]. unfold full_body at 1. by rewrite <- !app_assoc. }
    rewrite Hfr in Hv |- *.
    assert (Hm' : (12 + zlen p) mod 4 = 0) by (rewrite Z.add_mod, Hm by lia; done).
    epose proof (DetectTransport_full raw_read view secret (12 + zlen p) s _
      ltac:(lia) Hm' Hv) as (s' & -> & Hs').
    eexists _, s'. split; [done|]. unfold wrapped_view. cbn [fst snd].
    by rewrite Hs', <- app_assoc.
Qed.

(** A client that opens with its codec's marker (none for the full
    transport) and sends any sequence of aligned payloads is understood: the
    server's [DetectTransport] picks that codec, and reading through the
    closure it returns (the one that replays the consumed bytes, for the full
    transport) yields exactly the client's payloads. *)
Theorem DetectTransport_serves_client {S} (write : WriteBytes S) (rand : RandomFill S)
    (sent : S -> bytes) (Hsink : Sink write sent) (Hrand : RandomSource rand sent)
    {T} (raw_read : ReadExact T) (view : T -> bytes) (Hsource : Source raw_read view)
    (secret : bytes) (c : Codec) (p : bytes) (ps : list bytes) (s : S)
    (Hfresh : fresh_codec c = true) (Hok : sendable_all c (p :: ps) = true)
    (Halign : zlen p mod 4 = 0) :
  exists c' s' wire,
    for_each (Codec_Write write rand) (p :: ps) (c, s) = (Ok tt, (c', s')) /\
    sent s' = sent s ++ wire /\
    forall t rest, view t = client_hello c ++ wire ++ rest ->
      exists w t1 c2 wt2,
        DetectTransport raw_read secret t = (Ok (c, w), t1) /\
        repeat_m (length (p :: ps)) (Codec_Read (wrapped_read raw_read)) (c, (w, t1)) =
          (Ok (p :: ps), (c2, wt2)) /\
        wrapped_view view wt2 = rest.
Proof.
  assert (Hpeer : peer c c).
  { destruct c as [| | |f]; try done. by apply fresh_full in Hfresh as ->. }
  cbn [sendable_all] in Hok. apply andb_true_iff in Hok as [Hp Hps].
  destruct (Codec_write_frame write rand sent c p s Hp) as (pad & s1 & E1 & Hs1 & Hpad).
  destruct (frames_run write rand sent (wrapped_read raw_read) (wrapped_view view) ps
    _ _ s1 (after_peer _ _ Hpeer) Hps) as (c' & s' & wire & E2 & Hs' & Hrd).
  exists c', s', (frame c p pad ++ wire). cbn [for_each]. erewrite bind_Ok by apply E1.
  split; [exact E2|]. split; [by rewrite Hs', Hs1, app_assoc|].
  intros t rest Hv. rewrite <- app_assoc in Hv.
  destruct (DetectTransport_plain raw_read view secret c p pad t _ Hfresh Hp Halign Hv)
    as (w & t1 & Hdet & Hview).
  destruct (Codec_read_frame (wrapped_read raw_read) (wrapped_view view) c c p pad (w, t1) _
    Hpeer Hp Hpad Hview) as (wt1 & E3 & Hwt1).
  destruct (Hrd wt1 rest Hwt1) as (c2 & wt2 & E4 & Hwt2).
  exists w, t1, c2, wt2. split; [done|]. split; [|done]. cbn [length repeat_m].
  erewrite bind_Ok by apply E3. erewrite bind_Ok by apply E4. done.
Qed.

(** *** Obfuscated connections *)

(** The client side of the protocol: the last 8 bytes of its 64 random bytes
    are sent encrypted under the stream the first 56 define, and everything
    after them continues that stream. *)
Definition client_wire_init (init : bytes) : bytes :=
  ztake 56 init ++
  xor_bytes (zdrop 56 init) (keystream (zslice 8 32 init) (zslice 40 16 init) 56 8).
Definition client_encrypt (init data : bytes) : bytes :=
  xor_bytes data (keystream (zslice 8 32 init) (zslice 40 16 init) 64 (length data)).

(** A nonce a client may use: it is not mistaken for another transport. *)
Definition valid_nonce (init : bytes) : bool :=
  (zlen init =? 64) && bool_decide (ztake 1 init <> [AbridgedCodec.kAbridgedClientStart]) &&
  bool_decide (ztake 4 init <> IntermediateCodec.kIntermediateClientStart) &&
  bool_decide (ztake 4 init <> IntermediateCodec.kPaddedIntermediateClientStart) &&
  negb (IsReservedPrefix (ztake 4 init)) &&
  bool_decide (zslice 4 4 init <> [x00; x00; x00; x00]).

Lemma zslice_prefix (a b c : bytes) off n :
  zlen a = zlen b -> 0 <= off -> 0 <= n -> off + n <= zlen a ->
  a = b -> zslice off n (a ++ c) = zslice off n b.
Proof.
  intros _ Ho Hn Hl <-. unfold zslice, ztake, zdrop, zlen in *.
  rewrite drop_app_le by lia. rewrite take_app_le; [done|]. rewrite length_drop. lia.
Qed.

Lemma zslice_skip {A} (a b : list A) off n :
  zlen a <= off -> zslice off n (a ++ b) = zslice (off - zlen a) n b.
Proof.
  intros H. unfold zslice, zdrop, zlen in *. rewrite drop_app_ge by lia. do 2 f_equal. lia.
Qed.

Lemma wire_init_slices init off n :
  zlen init = 64 -> 0 <= off -> 0 <= n -> off + n <= 56 ->
  zslice off n (client_wire_init init) = zslice off n init.
Proof.
  intros Hl Ho Hn H56. unfold client_wire_init.
  assert (H : zlen (ztake 56 init) = 56) by (apply zlen_ztake; lia).
  rewrite (zslice_prefix _ (ztake 56 init)) by (rewrite ?H; done || lia).
  rewrite <- (ztake_zdrop 56 init) at 2.
  by rewrite (zslice_prefix _ (ztake 56 init)) by (rewrite ?H; done || lia).
Qed.

Lemma zlen_wire_init init : zlen init = 64 -> zlen (client_wire_init init) = 64.
Proof.
  intros Hl. unfold client_wire_init. rewrite zlen_app, zlen_xor_bytes.
  - rewrite zlen_ztake, zlen_zdrop by lia. lia.
  - unfold zlen at 2. rewrite length_keystream, zlen_zdrop by lia. lia.
Qed.

Lemma AcceptObfuscated2_run init :
  zlen init = 64 ->
  exists enc,
    AcceptObfuscated2 (client_wire_init init) [] =
    Ok (MkKeys enc (CtrStream (zslice 8 32 init) (zslice 40 16 init) 64),
        MkMetadata (zslice 56 4 init) (le_val (zslice 60 2 init))).
Proof.
  intros Hl. set (k := zslice 8 32 init). set (iv := zslice 40 16 init).
  assert (Hk : zlen k = 32) by (apply zlen_zslice; lia).
  assert (Hiv : zlen iv = 16) by (apply zlen_zslice; lia).
  pose proof (zlen_wire_init init Hl) as Hw.
  assert (Hrev : zlen (ReversedMiddle (client_wire_init init)) = 48).
  { unfold ReversedMiddle. rewrite zlen_rev. apply zlen_zslice; lia. }
  unfold AcceptObfuscated2, CreateObfuscated2Streams. rewrite decide_True by done.
  rewrite !wire_init_slices by lia. fold k iv.
  unfold NewAes256CtrStream.
  rewrite Hk, Hiv, zlen_ztake, zlen_zslice by lia.
  change (32 =? 32) with true. change (16 =? 16) with true. cbn [negb rbind].
  eexists. unfold XorKeyStream. cbn [decrypt encrypt ctr_key ctr_iv ctr_pos rbind].
  assert (Hdec : exists junk, zlen junk = 56 /\
    xor_bytes (client_wire_init init) (keystream k iv 0 (length (client_wire_init init))) =
    junk ++ zdrop 56 init).
  { unfold client_wire_init. fold k iv.
    set (x := xor_bytes (zdrop 56 init) (keystream k iv 56 8)).
    assert (Hd : zlen (zdrop 56 init) = 8) by (rewrite zlen_zdrop by lia; lia).
    assert (Hx : zlen x = 8).
    { unfold x. rewrite zlen_xor_bytes; [done|]. unfold zlen at 2. by rewrite length_keystream. }
    rewrite xor_keystream_app.
    exists (xor_bytes (ztake 56 init) (keystream k iv 0 (length (ztake 56 init)))). split.
    - rewrite length_xor_keystream. apply zlen_ztake. lia.
    - f_equal. rewrite zlen_ztake by lia.
      assert (E : length x = 8%nat) by (unfold zlen in Hx; lia). rewrite E.
      unfold x. apply xor_bytes_cancel. unfold zlen. rewrite length_keystream.
      unfold zlen in Hd. lia. }
  destruct Hdec as (junk & Hj & ->). rewrite Hw.
  assert (Hj' : zlen (ztake 56 init) = 56) by (apply zlen_ztake; lia).
  assert (Hs : forall off n, 56 <= off ->
    zslice off n (junk ++ zdrop 56 init) = zslice off n init).
  { intros off n Ho. rewrite zslice_skip, Hj by lia.
    rewrite <- (ztake_zdrop 56 init) at 2. by rewrite zslice_skip, Hj' by lia. }
  by rewrite !Hs by lia.
Qed.

Lemma wire_init_split init :
  zlen init = 64 ->
  client_wire_init init =
    ztake 1 init ++ zslice 1 3 init ++ zslice 4 4 init ++ zdrop 8 (client_wire_init init) /\
  ztake 1 init ++ zslice 1 3 init = ztake 4 init /\
  zlen (zdrop 8 (client_wire_init init)) = 56.
Proof.
  intros Hl. pose proof (zlen_wire_init init Hl) as Hw. split; [|split].
  - rewrite <- (wire_init_slices init 1 3), <- (wire_init_slices init 4 4) by lia.
    change (ztake 1 init) with (zslice 0 1 init). rewrite <- wire_init_slices by lia.
    unfold zslice, ztake, zdrop. rewrite <- (take_drop 1 (client_wire_init init)) at 1.
    f_equal. rewrite <- (take_drop 3 (drop 1 _)) at 1. f_equal.
    rewrite drop_drop. rewrite <- (take_drop 4 (drop (1 + 3) _)) at 1. f_equal.
    by rewrite drop_drop.
  - unfold zslice, ztake, zdrop. rewrite <- (take_drop 1 (take (Z.to_nat 4) init)).
    rewrite take_take, skipn_firstn_comm. done.
  - rewrite zlen_zdrop by lia. lia.
Qed.


End Detect.

#[export] Existing Instance wrapped_source.

Section Witnesses.
#[local] Existing Instance Toy.toy.

Lemma DetectTransport_serves_client_witness :
  let p := lit "12345678" in
  exists c' s' wire,
    for_each (Codec_Write Pipe.write Pipe.zeros) [p] (Full FullCodec.fresh, []) =
      (Ok tt, (c', s')) /\
    id s' = id [] ++ wire /\
    forall t rest, id t = client_hello (Full FullCodec.fresh) ++ wire ++ rest ->
      exists w t1 c2 wt2,
        DetectTransport Pipe.read [] t = (Ok (Full FullCodec.fresh, w), t1) /\
        repeat_m 1 (Codec_Read (wrapped_read Pipe.read)) (Full FullCodec.fresh, (w, t1)) =
          (Ok [p], (c2, wt2)) /\
        wrapped_view id wt2 = rest.
Proof.
  apply (DetectTransport_serves_client Pipe.write Pipe.zeros id Pipe.pipe_sink
    Pipe.pipe_random Pipe.read id Pipe.pipe_source [] (Full FullCodec.fresh)
    (lit "12345678") []); reflexivity.
Defined.

Definition sample_init : bytes := replicate 56 x41 ++ replicate 4 xdd ++ replicate 4 x02.


End Witnesses.
