(* ===== verification/Net.v ===== *)
(** * TCP sockets: [net::TcpSocket]

    [ReadExact] and [WriteAll] over the system calls [recv] and [send], which
    are arguments: a blocking stream socket may transfer fewer bytes than
    asked, be interrupted ([EINTR]), report the peer's close (zero bytes) or
    fail.  [Recv] and [Send] state what POSIX promises of them on a healthy
    connection; under them the loops are the [Source] and the [Sink] the
    transport theorems ask for. *)

From Stdlib Require Import ZArith Lia Strings.Byte Strings.String.
From stdpp Require Import base decidable list.
From S2P Require Import Prelude Transport.

Module TcpSocket.

(** What a call to [recv] does: [n >= 0] bytes, or [-1] with [errno]. *)
Inductive recv_result : Type :=
  | Received (chunk : bytes)
  | RecvError (errno : Z).

(** What a call to [send] does. *)
Inductive send_result : Type :=
  | Sent (n : Z)
  | SendError (errno : Z).

Definition EINTR : Z := 4.

Section Socket.
Context {S : Type} (strerror : Z -> bytes) (last_errno : S -> Z).
Context (recv : Z -> S -> recv_result * S) (send : bytes -> S -> send_result * S).

(** [while (off < len) ...]; [buf] holds the [off] bytes read so far.  One
    unit of fuel per iteration. *)
Fixpoint ReadExact_loop (fuel : nat) (buf : bytes) (len : Z) : M S bytes := fun s =>
  match fuel with
  | O => (Throw (RuntimeError "out of fuel"), s)
  | Datatypes.S fuel =>
      let off := zlen buf in
      if off <? len then
        let '(r, s) := recv (len - off) s in
        match r with
        | Received [] => (Throw ConnectionClosedError, s)
        | Received chunk => ReadExact_loop fuel (buf ++ chunk) len s
        | RecvError errno =>
            if errno =? EINTR then ReadExact_loop fuel buf len s
            else (Throw (SocketError (lit "recv: " ++ strerror errno)), s)
        end
      else (Ok buf, s)
  end.

Fixpoint WriteAll_loop (fuel : nat) (off : Z) (buf : bytes) : M S unit := fun s =>
  match fuel with
  | O => (Throw (RuntimeError "out of fuel"), s)
  | Datatypes.S fuel =>
      if off <? zlen buf then
        let '(r, s) := send (zdrop off buf) s in
        match r with
        | Sent n => if n >? 0 then WriteAll_loop fuel (off + n) buf s else (Throw (SocketError (lit "send: " ++ strerror (last_errno s))), s)
        | SendError errno =>
            if errno =? EINTR then WriteAll_loop fuel off buf s
            else (Throw (SocketError (lit "send: " ++ strerror errno)), s)
        end
      else (Ok tt, s)
  end.

(** The loops run until done; [interrupts] bounds the [EINTR]s to come. *)
Definition ReadExact (interrupts : S -> nat) : Transport.ReadExact S := fun len s =>
  ReadExact_loop (interrupts s + Z.to_nat len + 1) [] len s.
Definition WriteAll (interrupts : S -> nat) : WriteBytes S := fun buf s =>
  WriteAll_loop (interrupts s + length buf + 1) 0 buf s.

(** ** What the system calls promise *)

(** On a healthy connection [view] is all the peer will send before closing:
    [recv] returns a non-empty prefix of it no longer than asked, zero bytes
    only at its end, and is interrupted finitely often. *)
Class Recv (view : S -> bytes) (interrupts : S -> nat) : Prop :=
  recv_spec : forall n s, 0 < n ->
    let '(r, s') := recv n s in
    match r with
    | Received chunk => view s = chunk ++ view s' /\ zlen chunk <= n /\
        (chunk = [] -> view s = []) /\ (interrupts s' <= interrupts s)%nat
    | RecvError errno => errno = EINTR /\ view s' = view s /\
        (interrupts s' < interrupts s)%nat
    end.

Class Send (sent : S -> bytes) (interrupts : S -> nat) : Prop :=
  send_spec : forall d s, d <> [] ->
    let '(r, s') := send d s in
    match r with
    | Sent n => 0 < n <= zlen d /\ sent s' = sent s ++ ztake n d /\
        (interrupts s' <= interrupts s)%nat
    | SendError errno => errno = EINTR /\ sent s' = sent s /\
        (interrupts s' < interrupts s)%nat
    end.

Section Reading.
Context (view : S -> bytes) (interrupts : S -> nat) `{!Recv view interrupts}.

(** Enough fuel: the loop delivers, or finds the stream too short. *)
Lemma ReadExact_loop_run fuel buf len s :
  (interrupts s + Z.to_nat (len - zlen buf) < fuel)%nat -> zlen buf <= len ->
  exists s',
    if len <=? zlen buf + zlen (view s)
    then exists a, ReadExact_loop fuel buf len s = (Ok (buf ++ a), s') /\
      view s = a ++ view s' /\ zlen (buf ++ a) = len
    else ReadExact_loop fuel buf len s = (Throw ConnectionClosedError, s').
Proof.
  revert buf s. induction fuel as [|fuel IH]; intros buf s Hf Hlen; [lia|]. cbn [ReadExact_loop].
  destruct (Z.ltb_spec (zlen buf) len) as [Hlt|Hge]; cycle 1.
  { exists s. destruct (Z.leb_spec len (zlen buf + zlen (view s))).
    - exists []. rewrite app_nil_r. repeat split; lia.
    - pose proof (zlen_nonneg (view s)). lia. }
  pose proof (recv_spec (len - zlen buf) s ltac:(lia)) as Hr.
  destruct (recv (len - zlen buf) s) as [[chunk|errno] s1].
  - destruct Hr as (Hv & Hc & Hend & Hi). destruct chunk as [|c chunk].
    + exists s1. rewrite (Hend eq_refl), zlen_nil.
      by destruct (Z.leb_spec len (zlen buf + 0)); [lia|].
    + pose proof (zlen_nonneg chunk).
      destruct (IH (buf ++ c :: chunk) s1) as (s2 & H2).
      { rewrite zlen_app, zlen_cons in *. lia. }
      { rewrite zlen_app. lia. }
      exists s2. rewrite Hv, zlen_app, Z.add_assoc, <- zlen_app.
      case_match; [|done]. destruct H2 as (a & E & Hv2 & Ha).
      exists ((c :: chunk) ++ a). rewrite app_assoc, Hv2. split; [done|].
      split; [by rewrite app_assoc | done].
  - destruct Hr as (-> & Hv & Hi). rewrite Z.eqb_refl.
    destruct (IH buf s1) as (s2 & H2); [lia|done|]. exists s2. by rewrite <- Hv.
Qed.

Lemma ReadExact_source : Source (ReadExact interrupts) view.
Proof.
  intros s a b Hv. unfold ReadExact.
  destruct (ReadExact_loop_run (interrupts s + Z.to_nat (zlen a) + 1) [] (zlen a) s)
    as (s' & H); [rewrite zlen_nil; lia | rewrite zlen_nil; apply zlen_nonneg|].
  rewrite zlen_nil, Hv, zlen_app in H. pose proof (zlen_nonneg b).
  destruct (Z.leb_spec (zlen a) (0 + (zlen a + zlen b))); [|lia].
  destruct H as (a' & E & Hs & Ha). cbn [app] in *.
  apply app_inj_1 in Hs as [Ha1 Hb1]; [|unfold zlen in Ha; lia]. subst a'. exists s'. split; [exact E|done].
Qed.

(** On a healthy connection [ReadExact] ends and returns exactly the next
    [len] bytes, however the kernel cuts them up and however often it is
    interrupted; if the peer closes before sending [len] bytes, it throws
    [ConnectionClosedError]. *)
Theorem ReadExact_delivers (len : Z) (s : S) (Hlen : 0 <= len) :
  exists s',
    if len <=? zlen (view s)
    then ReadExact interrupts len s = (Ok (ztake len (view s)), s') /\
      view s' = zdrop len (view s)
    else ReadExact interrupts len s = (Throw ConnectionClosedError, s').
Proof.
  destruct (ReadExact_loop_run (interrupts s + Z.to_nat len + 1) [] len s)
    as (s' & H); [rewrite zlen_nil; lia | done |].
  exists s'. rewrite zlen_nil, Z.add_0_l in H. case_match; [|done].
  destruct H as (a & E & -> & Ha). cbn [app] in *. by rewrite ztake_app, zdrop_app.
Qed.

End Reading.

Section Writing.
Context (sent : S -> bytes) (interrupts : S -> nat) `{!Send sent interrupts}.

Lemma WriteAll_loop_run fuel off buf s :
  (interrupts s + Z.to_nat (zlen buf - off) < fuel)%nat -> 0 <= off <= zlen buf ->
  exists s', WriteAll_loop fuel off buf s = (Ok tt, s') /\ sent s' = sent s ++ zdrop off buf.
Proof.
  revert off s. induction fuel as [|fuel IH]; intros off s Hf Ho; [lia|]. cbn [WriteAll_loop].
  destruct (Z.ltb_spec off (zlen buf)); cycle 1.
  { exists s. replace off with (zlen buf) by lia. by rewrite zdrop_all, app_nil_r. }
  assert (Hd : zlen (zdrop off buf) = zlen buf - off) by (apply zlen_zdrop; lia).
  assert (Hne : zdrop off buf <> []) by (intros E; rewrite E, zlen_nil in Hd; lia).
  pose proof (send_spec (zdrop off buf) s Hne) as Hs.
  destruct (send (zdrop off buf) s) as [[n|errno] s1].
  - destruct Hs as (Hn & Hs & Hi). destruct (Z.gtb_spec n 0); [|lia].
    destruct (IH (off + n) s1) as (s2 & E & Hs2); [lia|lia|]. exists s2. split; [done|].
    rewrite Hs2, Hs, <- app_assoc. f_equal. rewrite <- (ztake_zdrop n (zdrop off buf)) at 2.
    f_equal. unfold zdrop. rewrite drop_drop. f_equal. lia.
  - destruct Hs as (-> & Hs & Hi). rewrite Z.eqb_refl.
    destruct (IH off s1) as (s2 & E & Hs2); [lia|lia|]. exists s2. by rewrite <- Hs.
Qed.

Lemma WriteAll_sink : Sink (WriteAll interrupts) sent.
Proof.
  intros d s. apply WriteAll_loop_run.
  - rewrite Z.sub_0_r. unfold zlen. lia.
  - pose proof (zlen_nonneg d). lia.
Qed.

(** On a healthy connection [WriteAll] ends and sends the whole buffer,
    in order and once, through partial and interrupted [send]s. *)
Theorem WriteAll_sends (buf : bytes) (s : S) :
  exists s', WriteAll interrupts buf s = (Ok tt, s') /\ sent s' = sent s ++ buf.
Proof.
  destruct (WriteAll_loop_run (interrupts s + length buf + 1) 0 buf s) as (s' & E & Hs).
  - rewrite Z.sub_0_r. unfold zlen. lia.
  - pose proof (zlen_nonneg buf). lia.
  - by exists s'.
Qed.

End Writing.
End Socket.

(** ** A kernel that transfers one byte per call and interrupts *)

Record kernel : Type := MkKernel { stream : bytes; signals : nat }.

Definition slow_recv (n : Z) (k : kernel) : recv_result * kernel :=
  match signals k with
  | Datatypes.S i => (RecvError EINTR, MkKernel (stream k) i)
  | O => (Received (ztake 1 (stream k)), MkKernel (zdrop 1 (stream k)) 0)
  end.

Definition slow_send (d : bytes) (k : kernel) : send_result * kernel :=
  match signals k with
  | Datatypes.S i => (SendError EINTR, MkKernel (stream k) i)
  | O => (Sent 1, MkKernel (stream k ++ ztake 1 d) 0)
  end.

#[export] Instance slow_recv_ok : Recv slow_recv stream signals.
Proof.
  intros n [st [|i]] Hn; cbn [slow_recv signals stream].
  - split; [by rewrite ztake_zdrop|]. split; [|split; [by destruct st | done]].
    destruct st as [|x st]; [change (0 <= n) | change (1 <= n)]; lia.
  - repeat split. lia.
Qed.

#[export] Instance slow_send_ok : Send slow_send stream signals.
Proof.
  intros d [st [|i]] Hd; cbn [slow_send signals stream].
  - destruct d as [|x d]; [done|]. rewrite zlen_cons. pose proof (zlen_nonneg d).
    repeat split; lia.
  - repeat split. lia.
Qed.

Lemma ReadExact_delivers_witness :
  exists s', ReadExact (fun _ => []) slow_recv signals 3 (MkKernel (lit "hello") 2) = (Ok (lit "hel"), s') /\
    stream s' = lit "lo".
Proof.
  exact (ReadExact_delivers (fun _ => []) slow_recv stream signals 3 (MkKernel (lit "hello") 2)
    ltac:(lia)).
Defined.

Lemma WriteAll_sends_witness :
  exists s', WriteAll (fun _ => []) (fun _ => 0) slow_send signals (lit "hey") (MkKernel [] 1) = (Ok tt, s') /\
    stream s' = lit "hey".
Proof. exact (WriteAll_sends (fun _ => []) (fun _ => 0) slow_send stream signals (lit "hey") (MkKernel [] 1)). Defined.

End TcpSocket.
