(* ===== verification/Sockets.v ===== *)
(** * Descriptors and who owns them: [net/tcp_socket.cpp], [net/tcp_listener.cpp]

    [TcpSocket] and [TcpListener] each own a descriptor: the constructor and
    [Connect], [Accept] and [AcceptWithTimeout] get one from the kernel, moving
    hands it over, [Close] and the destructor give it back.  The system calls
    are the members of the class [Kernel]; [KernelLaws] says what they do to
    the table of open sockets.  What is sent and received is in [Net]. *)

From Stdlib Require Import ZArith Lia Strings.Byte Strings.String.
From stdpp Require Import base decidable list gmap.
From S2P Require Import Prelude Text.

Definition AF_UNSPEC : Z := 0.
Definition AF_INET : Z := 2.
Definition SOCK_STREAM : Z := 1.
Definition SOL_SOCKET : Z := 1.
Definition SO_REUSEADDR : Z := 2.
Definition IPPROTO_TCP : Z := 6.
Definition TCP_NODELAY : Z := 1.
Definition INADDR_ANY : Z := 0.
Definition EINTR : Z := 4.
Definition EAGAIN : Z := 11.
Definition EWOULDBLOCK : Z := 11.
Definition ECONNABORTED : Z := 103.

(** Network byte order on a little-endian machine. *)
Definition htons (p : Z) : Z := Z.lor (Z.shiftl (Z.land p 255) 8) (Z.shiftr (u16 p) 8).
Definition ntohs (p : Z) : Z := htons p.

Record sockaddr_in : Type := MkAddr { sin_family : Z; sin_port : Z; s_addr : Z }.
Record addrinfo : Type := MkAddrInfo { ai_family : Z; ai_socktype : Z; ai_protocol : Z; ai_addr : bytes }.

(** The system calls, on the state of the machine: a descriptor, a count or
    zero, and a negative number on failure, with the reason in [errno]. *)
Class Kernel (K : Type) : Type := {
  errno : K -> Z;
  strerror : Z -> bytes;
  gai_strerror : Z -> bytes;
  sys_socket : Z -> Z -> Z -> K -> Z * K;
  sys_close : Z -> K -> K;
  sys_setsockopt : Z -> Z -> Z -> Z -> K -> K;
  sys_bind : Z -> sockaddr_in -> K -> Z * K;
  sys_listen : Z -> Z -> K -> Z * K;
  sys_getsockname : Z -> K -> (Z * sockaddr_in) * K;
  sys_poll : Z -> Z -> K -> Z * K;
  sys_accept : Z -> K -> Z * K;
  sys_connect : Z -> bytes -> K -> Z * K;
  sys_getaddrinfo : bytes -> bytes -> K -> (Z * list addrinfo) * K;
  inet_pton : bytes -> option Z }.

(** A call whose result is used, and one whose result is not. *)
Definition sys {K A} (call : K -> A * K) : M K A := fun k => let '(a, k') := call k in (Ok a, k').
Definition sys_ {K} (call : K -> K) : M K unit := modify call.

Section Descriptors.
Context {K : Type} {kernel : Kernel K}.

Definition ThrowErrno {A} (what : bytes) : M K A := fun k =>
  (Throw (SocketError (what ++ lit ": " ++ strerror (errno k))), k).

(** ** Sockets *)

Record TcpSocket : Type := MkSocket { s_fd : Z }.

(** The move constructor: the new object and what is left of the old one. *)
Definition TcpSocket_move (other : TcpSocket) : TcpSocket * TcpSocket := (MkSocket (s_fd other), MkSocket (-1)).
(** [Close], which is the destructor too. *)
Definition TcpSocket_Close (this : TcpSocket) : M K TcpSocket :=
  if 0 <=? s_fd this then sys_ (sys_close (s_fd this)) ;;; ret (MkSocket (-1)) else ret this.
(** Move assignment: [this] and [other] afterwards; [same] is [this == &other]. *)
Definition TcpSocket_assign (same : bool) (this other : TcpSocket) : M K (TcpSocket * TcpSocket) :=
  if same then ret (this, other)
  else TcpSocket_Close this ;;; ret (MkSocket (s_fd other), MkSocket (-1)).

(** [for (addrinfo* p = result; ...)]: the connected descriptor, or a
    negative number. *)
Fixpoint ConnectFirst (fd : Z) (candidates : list addrinfo) : M K Z :=
  match candidates with
  | [] => ret fd
  | p :: rest =>
      fd <- sys (sys_socket (ai_family p) (ai_socktype p) (ai_protocol p)) ;;
      if fd <? 0 then ConnectFirst fd rest
      else
        rc <- sys (sys_connect fd (ai_addr p)) ;;
        if rc =? 0 then ret fd
        else sys_ (sys_close fd) ;;; ConnectFirst (-1) rest
  end.

Definition Connect (host : bytes) (port : Z) : M K TcpSocket :=
  let port_str := to_string port in
  found <- sys (sys_getaddrinfo host port_str) ;;
  let '(rc, result) := found in
  guard (rc =? 0) (SocketError (lit "resolve " ++ host ++ lit ": " ++ gai_strerror rc)) ;;;
  fd <- ConnectFirst (-1) result ;;
  guard (negb (fd <? 0)) (SocketError (lit "connect to " ++ host ++ lit ":" ++ port_str ++ lit " failed")) ;;;
  sys_ (sys_setsockopt fd IPPROTO_TCP TCP_NODELAY 1) ;;;
  ret (MkSocket fd).

(** ** The listener *)

Record TcpListener : Type := MkListener { l_fd : Z; l_port : Z }.

(** [if (rc < 0) { msg = strerror(errno); close(fd_); throw … }] *)
Definition or_close (fd rc : Z) (what : bytes) : M K unit :=
  if rc <? 0 then
    msg <- gets (fun k => strerror (errno k)) ;;
    sys_ (sys_close fd) ;;;
    throw (SocketError (what ++ lit ": " ++ msg))
  else ret tt.

(** The address to bind: [sin_addr.s_addr]. *)
Definition BindAddress (fd : Z) (bind_address : bytes) : M K Z :=
  if decide (bind_address = []) then ret INADDR_ANY
  else if decide (bind_address = lit "0.0.0.0") then ret INADDR_ANY
  else match inet_pton bind_address with
       | Some a => ret a
       | None =>
           sys_ (sys_close fd) ;;;
           throw (SocketError (lit "invalid IPv4 bind address: " ++ bind_address))
       end.

Definition Listen (bind_address : bytes) (port backlog : Z) : M K TcpListener :=
  fd <- sys (sys_socket AF_INET SOCK_STREAM 0) ;;
  if fd <? 0 then ThrowErrno (lit "socket")
  else
    sys_ (sys_setsockopt fd SOL_SOCKET SO_REUSEADDR 1) ;;;
    a <- BindAddress fd bind_address ;;
    rc <- sys (sys_bind fd (MkAddr AF_INET (htons port) a)) ;;
    or_close fd rc (lit "bind " ++ bind_address ++ lit ":" ++ to_string port) ;;;
    rc <- sys (sys_listen fd backlog) ;;
    or_close fd rc (lit "listen") ;;;
    named <- sys (sys_getsockname fd) ;;
    or_close fd (fst named) (lit "getsockname") ;;;
    ret (MkListener fd (ntohs (sin_port (snd named)))).

Definition TcpListener_move (other : TcpListener) : TcpListener * TcpListener :=
  (MkListener (l_fd other) (l_port other), MkListener (-1) (l_port other)).
Definition TcpListener_Close (this : TcpListener) : M K TcpListener :=
  if 0 <=? l_fd this then sys_ (sys_close (l_fd this)) ;;; ret (MkListener (-1) (l_port this)) else ret this.
Definition TcpListener_assign (same : bool) (this other : TcpListener) : M K (TcpListener * TcpListener) :=
  if same then ret (this, other)
  else TcpListener_Close this ;;;
       ret (MkListener (l_fd other) (l_port other), MkListener (-1) (l_port other)).

Definition FinishAccept (client_fd : Z) : M K TcpSocket :=
  sys_ (sys_setsockopt client_fd IPPROTO_TCP TCP_NODELAY 1) ;;;
  ret (MkSocket client_fd).

Definition Accept (this : TcpListener) : M K TcpSocket :=
  client_fd <- sys (sys_accept (l_fd this)) ;;
  if client_fd <? 0 then ThrowErrno (lit "accept") else FinishAccept client_fd.

(** [errno == ECONNABORTED || …] *)
Definition routine_failure (e : Z) : bool := (e =? ECONNABORTED) || (e =? EAGAIN) || (e =? EWOULDBLOCK).

Definition AcceptWithTimeout (this : TcpListener) (timeout : Z) : M K (option TcpSocket) :=
  rc <- sys (sys_poll (l_fd this) (s32 timeout)) ;;
  if rc <? 0 then
    e <- gets errno ;;
    if e =? EINTR then ret None else ThrowErrno (lit "poll")
  else if rc =? 0 then ret None
  else
    client_fd <- sys (sys_accept (l_fd this)) ;;
    if client_fd <? 0 then
      e <- gets errno ;;
      if routine_failure e then ret None else ThrowErrno (lit "accept")
    else
      client <- FinishAccept client_fd ;;
      ret (Some client).

End Descriptors.

(** ** What the kernel promises *)

(** An open socket: the address it is bound to, and whether it listens. *)
Record socket_state : Type := MkState { local : option (Z * Z); listens : bool }.
Notation sockets := (gmap Z socket_state).

Definition set_local (a : Z * Z) (st : socket_state) : socket_state := MkState (Some a) (listens st).
Definition set_listens (st : socket_state) : socket_state := MkState (local st) true.

(** A call that opens a descriptor nobody has, or fails and changes nothing. *)
Definition opens (st : socket_state) (T : sockets) (fd : Z) (T' : sockets) : Prop :=
  (fd < 0 /\ T' = T) \/ (0 <= fd /\ T !! fd = None /\ T' = <[fd := st]> T).

Class KernelLaws {K} `{!Kernel K} (table : K -> sockets) : Prop := {
  socket_law : forall d t p k, let '(fd, k') := sys_socket d t p k in
    opens (MkState None false) (table k) fd (table k');
  close_law : forall fd k, table (sys_close fd k) = delete fd (table k);
  setsockopt_law : forall fd l n v k, table (sys_setsockopt fd l n v k) = table k;
  (** Port 0 asks for a free one. *)
  bind_law : forall fd a k, 0 <= sin_port a < 2 ^ 16 -> let '(rc, k') := sys_bind fd a k in
    (rc < 0 /\ table k' = table k) \/
    (0 <= rc /\ exists p, 0 < p < 2 ^ 16 /\ (ntohs (sin_port a) <> 0 -> p = ntohs (sin_port a)) /\
      table k' = alter (set_local (s_addr a, p)) fd (table k));
  listen_law : forall fd n k, let '(rc, k') := sys_listen fd n k in
    (rc < 0 /\ table k' = table k) \/ (0 <= rc /\ table k' = alter set_listens fd (table k));
  getsockname_law : forall fd k, let '((rc, a), k') := sys_getsockname fd k in
    table k' = table k /\
    (0 <= rc -> forall st addr p, table k !! fd = Some st -> local st = Some (addr, p) ->
       a = MkAddr AF_INET (htons p) addr);
  poll_law : forall fd t k, table (snd (sys_poll fd t k)) = table k;
  accept_law : forall fd k, let '(r, k') := sys_accept fd k in
    (r < 0 /\ table k' = table k) \/
    (exists st, table k !! fd = Some st /\ listens st = true /\ opens (MkState (local st) false) (table k) r (table k'));
  connect_law : forall fd a k, table (snd (sys_connect fd a k)) = table k;
  getaddrinfo_law : forall h p k, table (snd (sys_getaddrinfo h p k)) = table k }.

Lemma htons_val p : 0 <= p < 2 ^ 16 -> htons p = p / 256 + p mod 256 * 256.
Proof.
  intros Hp. unfold htons, u16. rewrite Z.mod_small by lia. change 255 with (Z.ones 8).
  rewrite Z.land_ones, Z.shiftr_div_pow2, Z.lor_comm by lia.
  rewrite lor_shiftl_add; [done|lia|].
  split; [apply Z.div_pos|apply Z.div_lt_upper_bound]; lia.
Qed.
Lemma htons_range p : 0 <= p < 2 ^ 16 -> 0 <= htons p < 2 ^ 16.
Proof.
  intros Hp. rewrite htons_val by done. pose proof (Z.mod_pos_bound p 256 ltac:(lia)).
  pose proof (Z.div_pos p 256 ltac:(lia) ltac:(lia)). pose proof (Z.div_lt_upper_bound p 256 256 ltac:(lia) ltac:(lia)). lia.
Qed.
Lemma ntohs_htons p : 0 <= p < 2 ^ 16 -> ntohs (htons p) = p.
Proof.
  intros Hp. unfold ntohs. rewrite (htons_val (htons p)) by by apply htons_range. rewrite htons_val by done.
  pose proof (Z.div_pos p 256 ltac:(lia) ltac:(lia)). pose proof (Z.div_lt_upper_bound p 256 256 ltac:(lia) ltac:(lia)).
  rewrite Z.div_add, Z.mod_add, (Z.div_small (p / 256)), (Z.mod_small (p / 256)) by lia.
  pose proof (Z.div_mod p 256 ltac:(lia)). lia.
Qed.

Section Specification.
Context {K : Type} {kernel : Kernel K} (table : K -> sockets) {laws : KernelLaws table}.

(** A call about one descriptor, on the table. *)
Lemma effect_bind_sys {A B} (call : K -> A * K) (next : A -> M K B) T (Q : res B -> sockets -> Prop) :
  (forall k, table k = T -> let '(a, k') := call k in effect table (next a) (table k') Q) ->
  effect table (bind (sys call) next) T Q.
Proof.
  intros H. apply effect_bind. intros k Hk. specialize (H k Hk). unfold sys.
  by destruct (call k) as [a k'].
Qed.
Lemma effect_bind_sys_ {B} (call : K -> K) (f : sockets -> sockets) (next : unit -> M K B) T (Q : res B -> sockets -> Prop) :
  (forall k, table (call k) = f (table k)) -> effect table (next tt) (f T) Q ->
  effect table (bind (sys_ call) next) T Q.
Proof. intros Hc H. apply effect_bind. intros k <-. cbn. by rewrite Hc. Qed.
Lemma effect_bind_gets {A B} (g : K -> A) (next : A -> M K B) T (Q : res B -> sockets -> Prop) :
  (forall a, effect table (next a) T Q) -> effect table (bind (gets g) next) T Q.
Proof. intros H. apply effect_bind. intros k <-. by apply H. Qed.
Lemma effect_ThrowErrno {A} w T (Q : res A -> sockets -> Prop) :
  (forall w', Q (Throw (SocketError w')) T) -> effect table (ThrowErrno w) T Q.
Proof. intros H k <-. apply H. Qed.

(** What constructors and [Accept] do: [what] says which object they return;
    if they throw, nothing is left open. *)
Definition obtains {A} (what : A -> Z -> sockets -> socket_state -> Prop) (T : sockets) (r : res A) (T' : sockets) : Prop :=
  match r with
  | Ok a => exists fd st, what a fd T st /\ 0 <= fd /\ T !! fd = None /\ T' = <[fd := st]> T
  | Throw e => T' = T /\ exists w, e = SocketError w
  end.

Lemma delete_opened fd st (T : sockets) : T !! fd = None -> delete fd (<[fd := st]> T) = T.
Proof. intros H. by rewrite delete_insert_id. Qed.

(** *** Listening *)

Definition requested (bind_address : bytes) : option Z :=
  if decide (bind_address = []) then Some INADDR_ANY
  else if decide (bind_address = lit "0.0.0.0") then Some INADDR_ANY else inet_pton bind_address.

Definition listens_on (bind_address : bytes) (port : Z) (l : TcpListener) (fd : Z) (_ : sockets) (st : socket_state) : Prop :=
  exists a, requested bind_address = Some a /\ l_fd l = fd /\ 0 < l_port l < 2 ^ 16 /\
    (port <> 0 -> l_port l = port) /\ st = MkState (Some (a, l_port l)) true.

Lemma effect_or_close {B} fd rc what (next : unit -> M K B) T Q :
  (0 <= rc -> effect table (next tt) T Q) ->
  (rc < 0 -> forall w, Q (Throw (SocketError w)) (delete fd T)) ->
  effect table (bind (or_close fd rc what) next) T Q.
Proof.
  intros Hok Hbad. unfold or_close. destruct (Z.ltb_spec rc 0).
  - apply effect_bind, effect_bind_gets. intros msg. apply (effect_bind_sys_ _ (delete fd)).
    + apply close_law.
    + apply effect_throw. by apply Hbad.
  - apply effect_bind, effect_ret. by apply Hok.
Qed.

Lemma Listen_spec bind_address port backlog T : 0 <= port < 2 ^ 16 ->
  effect table (Listen bind_address port backlog) T (obtains (listens_on bind_address port) T).
Proof.
  intros Hport. unfold Listen. apply effect_bind_sys. intros k Hk.
  pose proof (socket_law AF_INET SOCK_STREAM 0 k) as Hs. destruct (sys_socket _ _ _ k) as [fd k1].
  destruct Hs as [(Hfd & ->)|(Hfd & Hf & ->)]; rewrite Hk in *.
  { destruct (Z.ltb_spec fd 0); [|lia]. apply effect_ThrowErrno. intros w. split; [done|]. by exists w. }
  destruct (Z.ltb_spec fd 0); [lia|]. set (T1 := <[fd := _]> T).
  assert (Hdel : forall st, delete fd (<[fd := st]> T) = T) by (intros; by apply delete_opened).
  apply (effect_bind_sys_ _ Datatypes.id); [apply setsockopt_law|]. cbn [Datatypes.id].
  apply effect_bind. eapply effect_mono; [instantiate (1 := fun r T' => match r with
      | Ok a => requested bind_address = Some a /\ T' = T1 | Throw e => T' = T /\ exists w, e = SocketError w end)|].
  { unfold BindAddress, requested. repeat case_decide; [by apply effect_ret|by apply effect_ret|].
    destruct (inet_pton bind_address); [by apply effect_ret|]. apply (effect_bind_sys_ _ (delete fd)); [apply close_law|].
    apply effect_throw. unfold T1. rewrite Hdel. split; [done|]. by eexists. }
  intros [a|e] T2; [|done]. intros [Ha ->]. apply effect_bind_sys. intros k2 Hk2.
  pose proof (bind_law fd (MkAddr AF_INET (htons port) a) k2 (htons_range port Hport)) as Hb. cbn [sin_port s_addr] in Hb.
  rewrite ntohs_htons in Hb by done. destruct (sys_bind _ _ k2) as [rc k3]. rewrite Hk2 in Hb.
  apply effect_or_close; cycle 1.
  { intros Hrc w. destruct Hb as [[_ ->]|[? _]]; [|lia]. unfold T1. rewrite Hdel. split; [done|]. by eexists. }
  intros Hrc. destruct Hb as [[? _]|(_ & p & Hp & Hpp & ->)]; [lia|]. unfold T1. rewrite alter_insert_eq.
  apply effect_bind_sys. intros k4 Hk4. pose proof (listen_law fd backlog k4) as Hl.
  destruct (sys_listen _ _ k4) as [rc2 k5]. rewrite Hk4 in Hl. apply effect_or_close; cycle 1.
  { intros Hrc2 w. destruct Hl as [[_ ->]|[? _]]; [|lia]. rewrite Hdel. split; [done|]. by eexists. }
  intros Hrc2. destruct Hl as [[? _]|(_ & ->)]; [lia|]. rewrite alter_insert_eq.
  apply effect_bind_sys. intros k6 Hk6. pose proof (getsockname_law fd k6) as Hg.
  destruct (sys_getsockname fd k6) as [[rc3 b] k7]. rewrite Hk6 in Hg. destruct Hg as [-> Hg]. cbn [fst snd].
  apply effect_or_close; cycle 1.
  { intros _ w. rewrite Hdel. split; [done|]. by eexists. }
  intros Hrc3. rewrite (Hg Hrc3 _ a p (lookup_insert_eq _ _ _) eq_refl). cbn [sin_port]. rewrite ntohs_htons by lia.
  apply effect_ret. eexists fd, _. split; [exists a; cbn; done|]. by split_and!.
Qed.

(** *** Accepting *)

Definition accepted (l : TcpListener) (T : sockets) (r : res (option TcpSocket)) (T' : sockets) : Prop :=
  match r with
  | Ok None => T' = T
  | Ok (Some c) => exists st, T !! l_fd l = Some st /\ listens st = true /\
      obtains (fun c fd _ st' => s_fd c = fd /\ st' = MkState (local st) false) T (Ok c) T'
  | Throw e => T' = T /\ exists w, e = SocketError w
  end.

Lemma effect_FinishAccept fd T (Q : res TcpSocket -> sockets -> Prop) :
  Q (Ok (MkSocket fd)) T -> effect table (FinishAccept fd) T Q.
Proof.
  intros H. apply (effect_bind_sys_ _ Datatypes.id); [apply setsockopt_law|]. by apply effect_ret.
Qed.

Lemma AcceptWithTimeout_spec l timeout T :
  effect table (AcceptWithTimeout l timeout) T (accepted l T).
Proof.
  apply effect_bind_sys. intros k Hk. pose proof (poll_law (l_fd l) (s32 timeout) k) as Hp.
  destruct (sys_poll _ _ k) as [rc k1]. cbn in Hp. rewrite Hp, Hk. destruct (rc <? 0).
  { apply effect_bind_gets. intros e. destruct (e =? EINTR); [by apply effect_ret|].
    apply effect_ThrowErrno. intros w. split; [done|]. by exists w. }
  destruct (rc =? 0); [by apply effect_ret|]. apply effect_bind_sys. intros k2 Hk2.
  pose proof (accept_law (l_fd l) k2) as Ha. destruct (sys_accept _ k2) as [fd k3]. rewrite Hk2 in Ha.
  destruct (Z.ltb_spec fd 0).
  - assert (Hsame : table k3 = T) by (destruct Ha as [[_ ?]|(st & _ & _ & [[_ ?]|[? _]])]; [done|done|lia]).
    rewrite Hsame. apply effect_bind_gets. intros e. destruct (routine_failure e); [by apply effect_ret|].
    apply effect_ThrowErrno. intros w. split; [done|]. by exists w.
  - destruct Ha as [[? _]|(st & Hst & Hl & [[? _]|(_ & Hf & ->)])]; [lia|lia|].
    apply effect_bind, effect_FinishAccept, effect_ret. exists st. split; [done|]. split; [done|]. by eexists fd, _.
Qed.

Lemma Accept_spec l T :
  effect table (Accept l) T (fun r T' => accepted l T (match r with Ok c => Ok (Some c) | Throw e => Throw e end) T').
Proof.
  apply effect_bind_sys. intros k2 Hk2. pose proof (accept_law (l_fd l) k2) as Ha.
  destruct (sys_accept _ k2) as [fd k3]. rewrite Hk2 in Ha. destruct (Z.ltb_spec fd 0).
  - assert (Hsame : table k3 = T) by (destruct Ha as [[_ ?]|(st & _ & _ & [[_ ?]|[? _]])]; [done|done|lia]).
    rewrite Hsame. apply effect_ThrowErrno. intros w. split; [done|]. by exists w.
  - destruct Ha as [[? _]|(st & Hst & Hl & [[? _]|(_ & Hf & ->)])]; [lia|lia|].
    apply effect_FinishAccept. exists st. split; [done|]. split; [done|]. by eexists fd, _.
Qed.

(** *** Connecting *)

Lemma ConnectFirst_spec candidates : forall fd T, fd < 0 ->
  effect table (ConnectFirst fd candidates) T
    (fun r T' => exists fd', r = Ok fd' /\ opens (MkState None false) T fd' T').
Proof.
  induction candidates as [|p rest IH]; intros fd T Hfd; cbn [ConnectFirst].
  { apply effect_ret. exists fd. split; [done|]. by left. }
  apply effect_bind_sys. intros k Hk. pose proof (socket_law (ai_family p) (ai_socktype p) (ai_protocol p) k) as Hs.
  destruct (sys_socket _ _ _ k) as [fd1 k1]. rewrite Hk in Hs. destruct (Z.ltb_spec fd1 0).
  { destruct Hs as [[_ ->]|[? _]]; [|lia]. by apply IH. }
  destruct Hs as [[? _]|(_ & Hf & ->)]; [lia|]. apply effect_bind_sys. intros k2 Hk2.
  pose proof (connect_law fd1 (ai_addr p) k2) as Hc. destruct (sys_connect _ _ k2) as [rc k3]. cbn in Hc.
  rewrite Hc, Hk2. destruct (rc =? 0).
  { apply effect_ret. exists fd1. split; [done|]. by right. }
  apply (effect_bind_sys_ _ (delete fd1)); [apply close_law|]. rewrite delete_opened by done. by apply IH.
Qed.

Lemma Connect_spec host port T :
  effect table (Connect host port) T (obtains (fun c fd _ st => s_fd c = fd /\ st = MkState None false) T).
Proof.
  apply effect_bind_sys. intros k Hk. pose proof (getaddrinfo_law host (to_string port) k) as Hg.
  destruct (sys_getaddrinfo _ _ k) as [[rc result] k1]. cbn in Hg. rewrite Hg, Hk.
  apply effect_guard; [|intros _; split; [done|]; by eexists]. intros _. apply effect_bind.
  eapply effect_mono; [by apply ConnectFirst_spec|]. intros r T' (fd & -> & Ho). apply effect_guard.
  - intros Hfd. apply negb_true_iff, Z.ltb_ge in Hfd. destruct Ho as [[? _]|(_ & Hf & ->)]; [lia|].
    apply (effect_bind_sys_ _ Datatypes.id); [apply setsockopt_law|]. apply effect_ret. by eexists fd, _.
  - intros Hfd. apply negb_false_iff, Z.ltb_lt in Hfd. destruct Ho as [[_ ->]|[? _]]; [|lia].
    split; [done|]. by eexists.
Qed.

(** *** Closing and moving *)

(** [Close] and the destructor give back the descriptor, once. *)
Lemma TcpSocket_Close_spec c T :
  effect table (TcpSocket_Close c) T (fun r T' => r = Ok (MkSocket (if 0 <=? s_fd c then -1 else s_fd c)) /\
    T' = if 0 <=? s_fd c then delete (s_fd c) T else T).
Proof.
  unfold TcpSocket_Close. destruct (0 <=? s_fd c).
  - apply (effect_bind_sys_ _ (delete (s_fd c))); [apply close_law|]. by apply effect_ret.
  - apply effect_ret. by destruct c.
Qed.
Lemma TcpListener_Close_spec l T :
  effect table (TcpListener_Close l) T
    (fun r T' => r = Ok (MkListener (if 0 <=? l_fd l then -1 else l_fd l) (l_port l)) /\
    T' = if 0 <=? l_fd l then delete (l_fd l) T else T).
Proof.
  unfold TcpListener_Close. destruct (0 <=? l_fd l).
  - apply (effect_bind_sys_ _ (delete (l_fd l))); [apply close_law|]. by apply effect_ret.
  - apply effect_ret. by destruct l.
Qed.

End Specification.

(** ** A concrete machine *)

Module ToyMachine.

(** The table, [errno], and how many clients wait to be accepted; the machine
    allows ten open sockets. *)
Record machine : Type := MkMachine { open_sockets : sockets; last_errno : Z; waiting : nat }.

Definition EMFILE : Z := 24.
Definition unused (T : sockets) : Z := Z.of_nat (fresh (set_map (D := gset nat) Z.to_nat (dom T) : gset nat)).
Definition open_socket (st : socket_state) (m : machine) : Z * machine :=
  if decide (size (open_sockets m) < 10)%nat then
    let fd := unused (open_sockets m) in
    (fd, MkMachine (<[fd := st]> (open_sockets m)) (last_errno m) (waiting m))
  else (-1, MkMachine (open_sockets m) EMFILE (waiting m)).
Definition change (f : socket_state -> socket_state) (fd : Z) (m : machine) : Z * machine :=
  (0, MkMachine (alter f fd (open_sockets m)) (last_errno m) (waiting m)).

#[export] Instance toy_kernel : Kernel machine := {|
  errno := last_errno; strerror := fun _ => lit "error"; gai_strerror := fun _ => lit "no such host";
  sys_socket := fun _ _ _ => open_socket (MkState None false);
  sys_close := fun fd m => MkMachine (delete fd (open_sockets m)) (last_errno m) (waiting m);
  sys_setsockopt := fun _ _ _ _ m => m;
  sys_bind := fun fd a => change (set_local (s_addr a, if ntohs (sin_port a) =? 0 then 4000 else ntohs (sin_port a))) fd;
  sys_listen := fun fd _ => change set_listens fd;
  sys_getsockname := fun fd m =>
    match open_sockets m !! fd ≫= local with
    | Some (addr, p) => ((0, MkAddr AF_INET (htons p) addr), m)
    | None => ((-1, MkAddr 0 0 0), m)
    end;
  sys_poll := fun _ _ m => ((if decide (waiting m = 0%nat) then 0 else 1), m);
  sys_accept := fun fd m =>
    match open_sockets m !! fd, waiting m with
    | Some st, S w => if listens st then open_socket (MkState (local st) false) (MkMachine (open_sockets m) (last_errno m) w) else (-1, m)
    | _, _ => (-1, MkMachine (open_sockets m) EAGAIN (waiting m))
    end;
  sys_connect := fun _ a m => ((if decide (a = lit "up") then 0 else -1), m);
  sys_getaddrinfo := fun h _ m =>
    if decide (h = []) then ((-2, []), m)
    else ((0, [MkAddrInfo AF_INET SOCK_STREAM 0 (lit "down"); MkAddrInfo AF_INET SOCK_STREAM 0 h]), m);
  inet_pton := fun a => if decide (a = lit "127.0.0.1") then Some 16777343 else None |}.

Lemma unused_spec T : 0 <= unused T /\ T !! unused T = None.
Proof.
  split; [unfold unused; lia|]. apply not_elem_of_dom. intros H.
  apply (is_fresh (set_map (D := gset nat) Z.to_nat (dom T) : gset nat)). apply elem_of_map.
  exists (unused T). split; [unfold unused; lia|done].
Qed.

Lemma open_socket_opens st m : let '(fd, m') := open_socket st m in opens st (open_sockets m) fd (open_sockets m').
Proof.
  unfold open_socket. case_decide; cbn; [right|by left]. destruct (unused_spec (open_sockets m)). done.
Qed.

#[export] Instance toy_kernel_laws : KernelLaws open_sockets.
Proof.
  split; try done.
  - intros d t p m. apply open_socket_opens.
  - intros fd a m Ha. right. split; [lia|]. cbn. eexists. split; [|split; [|reflexivity]].
    + pose proof (htons_range (sin_port a) Ha). unfold ntohs. destruct (Z.eqb_spec (htons (sin_port a)) 0); lia.
    + intros H. by destruct (Z.eqb_spec (ntohs (sin_port a)) 0).
  - intros fd n m. right. split; [lia|done].
  - intros fd m. cbn. destruct (open_sockets m !! fd) as [[l b]|] eqn:E; cbn; [|split; [done|lia]].
    destruct l as [[addr p]|]; cbn; [|split; [done|lia]]. split; [done|]. intros _ st addr' p' [= <-] [= <- <-]. done.
  - intros fd m. cbn. destruct (open_sockets m !! fd) as [st|] eqn:E; [|left; cbn; split; [lia|done]].
    destruct (waiting m) as [|w]; [left; cbn; split; [lia|done]|]. destruct (listens st) eqn:El; [|left; cbn; split; [lia|done]].
    pose proof (open_socket_opens (MkState (local st) false) (MkMachine (open_sockets m) (last_errno m) w)) as H.
    destruct (open_socket _ _) as [r m']. cbn in H. right. by exists st.
  - intros h p m. cbn. by case_decide.
Qed.

(** Two clients are waiting. *)
Definition booted : machine := MkMachine ∅ 0 2.

End ToyMachine.

(** ** Properties *)


Section Witness.
#[local] Existing Instances ToyMachine.toy_kernel ToyMachine.toy_kernel_laws.


End Witness.
