(* ===== verification/Process.v ===== *)
(** * The accept loop and its threads: [tcp_handshake_server.cpp]

    [TcpHandshakeServer::Run] polls the listener and starts one detached thread
    per connection, until [Stop] sets a flag; a signal may call [Stop] at any
    time.  The process is a state with three kinds of steps: a turn of the
    loop, a connection thread (which runs as a whole, then its socket is
    destroyed), and a signal.  What a thread does is an argument ([Server],
    [Program]); so is whether a thread can be started. *)

From Stdlib Require Import ZArith Lia Strings.Byte Strings.String.
From stdpp Require Import base decidable list gmap relations.
From S2P Require Import Prelude Text Sockets.

Definition kPollInterval : Z := 200.

(** How [Run] stands: polling, returned, or left by an exception (of the loop
    or of a thread), which ends the process. *)
Inductive progress : Type :=
  | Polling
  | Returned
  | Terminated (e : exn).

(** [std::system_error] of [std::thread]'s constructor. *)
Definition no_thread : exn := RuntimeError "Resource temporarily unavailable".

Section Server.
Context {W : Type} {kernel : Kernel W}.
(** The body of a connection's thread, and whether the system can start one. *)
Context (connection : TcpSocket -> M W unit) (can_start : W -> bool).

(** The process: the world, [stopping_], [listener_], [Run], and the sockets of
    the threads that have not ended. *)
Record process : Type := MkProcess {
  p_world : W; stopping_ : bool; listener_ : TcpListener; p_run : progress; p_threads : list TcpSocket }.

(** [stopping_.store(true)] *)
Definition Stop (p : process) : process :=
  MkProcess (p_world p) true (listener_ p) (p_run p) (p_threads p).

(** [std::thread(…).detach()], the socket moved into the thread. *)
Definition StartThread (socket : TcpSocket) (w : W) (p : process) : process :=
  if can_start w then
    MkProcess w (stopping_ p) (listener_ p) Polling (p_threads p ++ [socket])
  else
    MkProcess (snd (TcpSocket_Close socket w)) (stopping_ p) (listener_ p) (Terminated no_thread) (p_threads p).

(** [while (!stopping_.load()) {…}]: one turn. *)
Definition RunTurn (p : process) : process :=
  if stopping_ p then MkProcess (p_world p) (stopping_ p) (listener_ p) Returned (p_threads p)
  else
    match AcceptWithTimeout (listener_ p) kPollInterval (p_world p) with
    | (Throw e, w) => MkProcess w (stopping_ p) (listener_ p) (Terminated e) (p_threads p)
    | (Ok None, w) => MkProcess w (stopping_ p) (listener_ p) Polling (p_threads p)
    | (Ok (Some socket), w) => StartThread socket w p
    end.

(** The [i]-th thread runs and destroys its socket; an exception that leaves
    it ends the process. *)
Definition RunThread (i : nat) (p : process) : process :=
  match p_threads p !! i with
  | None => p
  | Some socket =>
      let rest := delete i (p_threads p) in
      match connection socket (p_world p) with
      | (Ok _, w) => MkProcess (snd (TcpSocket_Close socket w)) (stopping_ p) (listener_ p) (p_run p) rest
      | (Throw e, w) => MkProcess w (stopping_ p) (listener_ p) (Terminated e) (p_threads p)
      end
  end.

(** While the process has not been ended; the threads go on when [Run] has
    returned. *)
Definition alive (p : process) : bool := match p_run p with Terminated _ => false | _ => true end.

Inductive step : process -> process -> Prop :=
  | step_turn p : p_run p = Polling -> step p (RunTurn p)
  | step_thread i p : alive p = true -> (i < length (p_threads p))%nat -> step p (RunThread i p)
  | step_signal p : alive p = true -> step p (Stop p).

(** ** Descriptors *)

Context (table : W -> gmap Z socket_state) {laws : KernelLaws table}.
(** A thread leaves the table as it found it: what it connects it closes, and
    it does not close its own socket. *)
Hypothesis connection_quiet : forall c, frames table (connection c).

(** The open sockets [T] are those of others, [base], the listening one and
    one for each of [fds]. *)
Record accounts (base T : gmap Z socket_state) (l : Z) (fds : list Z) : Prop := {
  owned_once : NoDup (l :: fds);
  owned_open : forall fd, fd ∈ l :: fds -> 0 <= fd /\ is_Some (T !! fd) /\ base !! fd = None;
  others_kept : forall fd, fd ∉ l :: fds -> T !! fd = base !! fd;
  listening_on : exists st, T !! l = Some st /\ listens st = true }.

Lemma accounts_open base T l fds fd st : accounts base T l fds -> 0 <= fd -> T !! fd = None ->
  accounts base (<[fd := st]> T) l (fds ++ [fd]).
Proof.
  intros [Hn Ho Hk (sl & Hl & Hs)] Hfd Hnew.
  assert (Hout : fd ∉ l :: fds) by (intros (_ & [? ?] & _)%Ho; congruence).
  assert (Hin : forall x, x ∈ l :: fds ++ [fd] <-> x ∈ l :: fds \/ x = fd).
  { intros x. by rewrite app_comm_cons, elem_of_app, list_elem_of_singleton. }
  split.
  - rewrite app_comm_cons. apply NoDup_app. split; [done|]. split; [|apply NoDup_singleton].
    by intros x Hx ->%list_elem_of_singleton.
  - intros x Hx. destruct (decide (x = fd)) as [->|Hne].
    + rewrite lookup_insert_eq. rewrite <- Hk by done. by eauto.
    + rewrite lookup_insert_ne by done. apply Ho. apply Hin in Hx. tauto.
  - intros x Hx. rewrite Hin in Hx. rewrite lookup_insert_ne by (intros ->; tauto). apply Hk. tauto.
  - exists sl. rewrite lookup_insert_ne; [done|]. intros ->. apply Hout. by left.
Qed.

Lemma accounts_close base T l fds i fd : accounts base T l fds -> fds !! i = Some fd ->
  accounts base (delete fd T) l (delete i fds).
Proof.
  intros [Hn Ho Hk (sl & Hl & Hs)] Hi. apply NoDup_cons in Hn as [Hnl Hn].
  assert (Hfd : fd ∈ fds) by by eapply list_elem_of_lookup_2.
  assert (Hin : forall x, x ∈ fds <-> x = fd \/ x ∈ delete i fds).
  { intros x. rewrite (delete_Permutation fds i fd Hi) at 1. apply elem_of_cons. }
  rewrite (delete_Permutation fds i fd Hi) in Hn. apply NoDup_cons in Hn as [Hout Hn].
  split.
  - apply NoDup_cons. split; [|done]. intros H. apply Hnl, Hin. by right.
  - intros x Hx. assert (x <> fd) by (apply elem_of_cons in Hx as [->|Hx]; [by intros ->|by intros ->]).
    rewrite lookup_delete_ne by done. apply Ho. apply elem_of_cons in Hx as [->|Hx]; [by left|right]. apply Hin. by right.
  - intros x Hx. destruct (decide (x = fd)) as [->|Hne].
    + rewrite lookup_delete_eq. symmetry. apply Ho. by right.
    + rewrite lookup_delete_ne by done. apply Hk. rewrite elem_of_cons in Hx |- *. rewrite Hin. tauto.
  - exists sl. rewrite lookup_delete_ne; [done|]. by intros ->.
Qed.

Definition accounted (base : gmap Z socket_state) (p : process) : Prop :=
  accounts base (table (p_world p)) (l_fd (listener_ p)) (map s_fd (p_threads p)).

Lemma table_Close socket w : table (snd (TcpSocket_Close socket w)) =
  if 0 <=? s_fd socket then delete (s_fd socket) (table w) else table w.
Proof. apply (TcpSocket_Close_spec table socket (table w) w eq_refl). Qed.

Lemma RunTurn_accounted base p : accounted base p -> accounted base (RunTurn p).
Proof.
  unfold accounted. intros H. unfold RunTurn. destruct (stopping_ p); [done|].
  pose proof (AcceptWithTimeout_spec table (listener_ p) kPollInterval (table (p_world p)) (p_world p) eq_refl) as Ha.
  destruct (AcceptWithTimeout _ _ _) as [[[c|]|e] w]; cbn in Ha |- *; [|by rewrite Ha|by destruct Ha as [-> _]].
  destruct Ha as (sl & _ & _ & fd & st & [Hc _] & Hfd & Hnew & Ht). unfold StartThread.
  destruct (can_start w); cbn.
  - rewrite map_app, Ht. cbn. rewrite Hc. by apply accounts_open.
  - rewrite table_Close, Hc, Ht. destruct (Z.leb_spec 0 fd); [|lia]. by rewrite delete_opened.
Qed.

Lemma RunThread_accounted base i p : accounted base p -> accounted base (RunThread i p).
Proof.
  unfold accounted. intros H. unfold RunThread. destruct (p_threads p !! i) as [c|] eqn:Hi; [|done].
  pose proof (connection_quiet c (p_world p)) as Hq. destruct (connection c (p_world p)) as [[[]|e] w]; cbn in *; [|by rewrite Hq].
  assert (Hfd : map s_fd (p_threads p) !! i = Some (s_fd c)) by (by rewrite list_lookup_fmap, Hi).
  rewrite table_Close, Hq. destruct (owned_open _ _ _ _ H (s_fd c)) as [Hpos _].
  { right. by eapply list_elem_of_lookup_2. }
  destruct (Z.leb_spec 0 (s_fd c)); [|lia]. 
  rewrite (list_fmap_delete s_fd (p_threads p) i : map s_fd (delete i (p_threads p)) = delete i (map s_fd (p_threads p))).
  by apply accounts_close.
Qed.

Lemma step_keeps_accounts base p p' : step p p' -> accounted base p -> accounted base p'.
Proof. intros [q _|i q _ _|q _]; [apply RunTurn_accounted|apply RunThread_accounted|done]. Qed.

(** The server as its constructor leaves it, [Run] just called. *)
Definition started (l : TcpListener) (w : W) : process := MkProcess w false l Polling [].

Lemma started_accounted address port backlog w l w' : 0 <= port < 2 ^ 16 ->
  Listen address port backlog w = (Ok l, w') -> accounted (table w) (started l w').
Proof.
  intros Hport E. pose proof (Listen_spec table address port backlog (table w) Hport w eq_refl) as H.
  rewrite E in H. cbn in H. destruct H as (fd & st & (a & _ & Hl & _ & _ & Hst) & Hfd & Hnew & Ht).
  unfold accounted. cbn. rewrite Ht, Hl. split.
  - apply NoDup_singleton.
  - intros x ->%list_elem_of_singleton. rewrite lookup_insert_eq. by eauto.
  - intros x Hx. rewrite lookup_insert_ne; [done|]. intros ->. by apply Hx, list_elem_of_singleton.
  - exists st. rewrite lookup_insert_eq. by rewrite Hst.
Qed.

(** *** Stopping *)

Lemma step_stopping p p' : step p p' -> stopping_ p = true ->
  stopping_ p' = true /\ p_threads p' ⊆+ p_threads p.
Proof.
  intros [q _|i q _ _|q _] Hs; [| |done].
  - unfold RunTurn. by rewrite Hs.
  - unfold RunThread. destruct (p_threads q !! i) as [c|] eqn:E; [|done].
    destruct (connection c (p_world q)) as [[[]|e] w]; cbn; [|done].
    split; [done|]. rewrite (delete_Permutation _ _ _ E) at 2. by apply submseteq_cons.
Qed.

Lemma steps_stopping p p' : rtc step p p' -> stopping_ p = true ->
  stopping_ p' = true /\ p_threads p' ⊆+ p_threads p.
Proof.
  induction 1 as [p|p q p' Hs _ IH]; [done|]. intros Hp. destruct (step_stopping p q Hs Hp) as [Hq Ht].
  destruct (IH Hq) as [Hp' Ht']. split; [done|]. by etrans.
Qed.

(** *** Failing *)

(** What makes a turn of the loop end the process. *)
Inductive fatal (p : process) : exn -> Prop :=
  | fatal_poll rc w : sys_poll (l_fd (listener_ p)) kPollInterval (p_world p) = (rc, w) -> rc < 0 -> errno w <> EINTR ->
      fatal p (SocketError (lit "poll: " ++ strerror (errno w)))
  | fatal_accept rc w r w' : sys_poll (l_fd (listener_ p)) kPollInterval (p_world p) = (rc, w) -> 0 < rc ->
      sys_accept (l_fd (listener_ p)) w = (r, w') -> r < 0 -> routine_failure (errno w') = false ->
      fatal p (SocketError (lit "accept: " ++ strerror (errno w')))
  | fatal_thread rc w r w' : sys_poll (l_fd (listener_ p)) kPollInterval (p_world p) = (rc, w) -> 0 < rc ->
      sys_accept (l_fd (listener_ p)) w = (r, w') -> 0 <= r ->
      can_start (sys_setsockopt r IPPROTO_TCP TCP_NODELAY 1 w') = false -> fatal p no_thread.

(** The calls of a turn are the ones known. *)
#[local] Ltac same_calls :=
  repeat match goal with
    | E : ?call = (_, _), H : ?call = (_, _) |- _ => rewrite E in H; injection H as <- <-
    end; solve [lia|congruence|done].

Lemma RunTurn_terminates p e : stopping_ p = false -> p_run (RunTurn p) = Terminated e <-> fatal p e.
Proof.
  intros Hs. unfold RunTurn, AcceptWithTimeout, sys. rewrite Hs. unfold bind at 1.
  change (s32 kPollInterval) with kPollInterval.
  destruct (sys_poll (l_fd (listener_ p)) kPollInterval (p_world p)) as [rc w] eqn:Ep.
  destruct (Z.ltb_spec rc 0) as [Hrc|Hrc].
  { rewrite bind_gets. destruct (Z.eqb_spec (errno w) EINTR) as [He|He]; cbn.
    - split; [done|]. intros []; same_calls.
    - split; [intros [= <-]; by eapply fatal_poll|]. intros []; same_calls. }
  destruct (Z.eqb_spec rc 0) as [->|Hne]; cbn.
  { split; [done|]. intros []; same_calls. }
  unfold bind at 1. destruct (sys_accept (l_fd (listener_ p)) w) as [r w'] eqn:Ea.
  destruct (Z.ltb_spec r 0) as [Hr|Hr].
  - rewrite bind_gets. destruct (routine_failure (errno w')) eqn:He; cbn.
    + split; [done|]. intros []; same_calls.
    + split; [intros [= <-]; eapply fatal_accept; try done; lia|]. intros []; same_calls.
  - cbn. unfold StartThread. destruct (can_start _) eqn:Ec; cbn.
    + split; [done|]. intros []; same_calls.
    + split; [intros [= <-]; eapply fatal_thread; try done; lia|]. intros []; same_calls.
Qed.

End Server.

(** ** Properties *)



Section Witness.
#[local] Existing Instances ToyMachine.toy_kernel ToyMachine.toy_kernel_laws.
Import ToyMachine.

(** A machine with two clients: both are accepted, the second thread ends
    first. *)
Definition listening : machine := snd (Listen (lit "127.0.0.1") 2398 128 booted).
Definition nothing (c : TcpSocket) : M machine unit := ret tt.
Definition always (m : machine) : bool := true.
Definition p0 : process := started (MkListener 0 2398) listening.
Definition p1 : process := RunTurn always p0.
Definition p2 : process := RunTurn always p1.
Definition p3 : process := RunThread nothing 1 p2.


(** The first client does not fit into the table of a machine that has used up
    its descriptors: the server ends. *)
Definition used_up : machine :=
  MkMachine (list_to_map ((fun i => (Z.of_nat i, MkState None (bool_decide (i = 0%nat)))) <$> seq 0 10)) 0 1.
Definition full : process := started (MkListener 0 2398) used_up.


End Witness.
