(* ===== verification/Schema.v ===== *)
(** * TL schemas as formats

    The comments of [mtproto/messages/*.hpp] give the TL schema of every
    message.  A [format] is such a schema read as a writer and a reader of a
    value, with the proof that the reader undoes the writer: the abstract
    specification the message structs are checked against.  The combinators
    below build the formats of whole constructors, conditional fields
    included, so that each carries its round trip by construction. *)

From Stdlib Require Import ZArith Lia Strings.Byte Strings.String.
From stdpp Require Import base decidable list.
From S2P Require Import Prelude TL.

Declare Scope tl_scope.
Delimit Scope tl_scope with tl.

#[local] Obligation Tactic := idtac.
#[local] Unset Program Cases.

Record format (A : Type) : Type := Format {
  fput : A -> bytes;
  fget : M bytes A;
  fok : A -> Prop;
  flaw : forall a, fok a -> parses fget (fput a) a;
}.
Arguments Format {A}.
Arguments fput {A}.
Arguments fget {A}.
Arguments fok {A}.
Arguments flaw {A}.

(** ** Primitive types *)

Program Definition int : format Z :=
  {| fput := le_bytes 4; fget := TLBuffer.Int32; fok := is_s32 |}.
Next Obligation. cbv beta. eauto with tl. Qed.

(** [flags:#] *)
Program Definition nat32 : format Z :=
  {| fput := le_bytes 4; fget := TLBuffer.Uint32; fok := is_u32 |}.
Next Obligation. cbv beta. eauto with tl. Qed.

Program Definition long : format Z :=
  {| fput := le_bytes 8; fget := TLBuffer.Long; fok := is_s64 |}.
Next Obligation. cbv beta. eauto with tl. Qed.

(** [string] and [bytes] *)
Program Definition tbytes : format bytes :=
  {| fput := TLBuffer.enc_bytes; fget := TLBuffer.GetBytes; fok v := zlen v < 2 ^ 24 |}.
Next Obligation. cbv beta. eauto with tl. Qed.

Program Definition int128 : format bytes :=
  {| fput v := v; fget := TLBuffer.GetInt128; fok v := zlen v = 16 |}.
Next Obligation. cbv beta. eauto with tl. Qed.

Program Definition int256 : format bytes :=
  {| fput v := v; fget := TLBuffer.GetInt256; fok v := zlen v = 32 |}.
Next Obligation. cbv beta. eauto with tl. Qed.

(** ** Combinators *)

(** No field. *)
Program Definition nothing : format unit :=
  {| fput _ := []; fget := ret tt; fok _ := True |}.
Next Obligation. intros [] _. apply parses_ret. Qed.

(** One field, then fields that may depend on its value (a flags word). *)
Program Definition dep {A B} (f : format A) (g : A -> format B) : format (A * B) :=
  {| fput '(a, b) := fput f a ++ fput (g a) b;
     fget := a <- fget f ;; b <- fget (g a) ;; ret (a, b);
     fok '(a, b) := fok f a /\ fok (g a) b |}.
Next Obligation.
  intros A B f g [a b] [Ha Hb]. eapply parses_bind; [by apply flaw|].
  apply (parses_bind_ret _ (fun b => (a, b))). by apply flaw.
Qed.

Definition seq {A B} (f : format A) (g : format B) : format (A * B) := dep f (fun _ => g).

(** [field:flags.n?type]: there exactly when [present]. *)
Program Definition opt {A} (present : bool) (f : format A) : format (option A) :=
  {| fput o := match o with Some a => fput f a | None => [] end;
     fget := if present then a <- fget f ;; ret (Some a) else ret None;
     fok o := match o with Some a => present = true /\ fok f a | None => present = false end |}.
Next Obligation.
  intros A present f [a|].
  - intros [-> Ha]. apply (parses_bind_ret _ Some). by apply flaw.
  - intros ->. apply parses_ret.
Qed.

(** A value seen through a pair of maps. *)
Program Definition iso {A B} (from : A -> B) (to : B -> A)
    (f : format A) : format B :=
  {| fput b := fput f (to b);
     fget := a <- fget f ;; ret (from a);
     fok b := fok f (to b) /\ from (to b) = b |}.
Next Obligation.
  intros A B from to f b [Hb E]. cbv beta in *. rewrite <- E at 2.
  apply (parses_bind_ret _ from). by apply flaw.
Qed.

(** The constructor id, then the fields. *)
Program Definition ctor {A} (id : Z) (f : format A) : format A :=
  {| fput a := le_bytes 4 id ++ fput f a;
     fget := TLBuffer.ConsumeID id ;;; fget f;
     fok a := is_u32 id /\ fok f a |}.
Next Obligation.
  intros A id f a [Hid Ha]. eapply parses_bind; [by apply TLBuffer.parses_ConsumeID|].
  by apply flaw.
Qed.

(** [vector<t>] without the marker: a count, then the elements. *)
Program Definition bare_vector {A} (f : format A) : format (list A) :=
  {| fput l := le_bytes 4 (zlen l) ++ concat (map (fput f) l);
     fget := n <- TLBuffer.Int32 ;; repeat_m (Z.to_nat n) (fget f);
     fok l := zlen l < 2 ^ 31 /\ Forall (fok f) l |}.
Next Obligation.
  intros A f l [Hl Hf]. pose proof (zlen_nonneg l).
  eapply parses_bind; [apply TLBuffer.parses_Int32_id; split; lia|].
  unfold zlen. rewrite Nat2Z.id. apply parses_repeat. intros a Ha.
  apply flaw. by apply (proj1 (Forall_forall _ _) Hf).
Qed.

(** [Vector<t>] *)
Definition vector {A} (f : format A) : format (list A) :=
  ctor TLBuffer.kTypeVector (bare_vector f).

(** [Bool] *)
Definition bool_false_id : Z := 0xbc799737.
Definition bool_true_id : Z := 0x997275b5.

Program Definition tbool : format bool :=
  {| fput v := le_bytes 4 (if v then bool_true_id else bool_false_id);
     fget := id <- TLBuffer.Uint32 ;;
       if id =? bool_true_id then ret true
       else if id =? bool_false_id then ret false
       else throw (UnexpectedIdError id);
     fok _ := True |}.
Next Obligation.
  intros v _ rest. rewrite (bind_Ok _ _ _ _ rest (TLBuffer.parses_Uint32 _ _)).
  by destruct v.
Qed.

(** A boxed type: one of two families of constructors, told apart by
    [which]; the first constructor id is looked at, not consumed. *)
Program Definition choice {A B} (first : Z -> bool) (f : format A) (g : format B)
    : format (A + B) :=
  {| fput v := match v with inl a => fput f a | inr b => fput g b end;
     fget := id <- TLBuffer.PeekID ;;
       if first id then a <- fget f ;; ret (inl a) else b <- fget g ;; ret (inr b);
     fok v := match v with
       | inl a => fok f a /\ exists id e, fput f a = le_bytes 4 id ++ e /\ first (u32 id) = true
       | inr b => fok g b /\ exists id e, fput g b = le_bytes 4 id ++ e /\ first (u32 id) = false
       end |}.
Next Obligation.
  intros A B first f g [a|b]; intros [Hok (id & e & E & Hid)] rest; cbv beta iota.
  - rewrite E, <- app_assoc. erewrite bind_Ok by apply TLBuffer.PeekID_run. rewrite Hid.
    rewrite app_assoc, <- E. by apply (parses_bind_ret _ inl), flaw.
  - rewrite E, <- app_assoc. erewrite bind_Ok by apply TLBuffer.PeekID_run. rewrite Hid.
    rewrite app_assoc, <- E. by apply (parses_bind_ret _ inr), flaw.
Qed.

Notation "f ;; g" := (seq f g) (at level 100, right associativity) : tl_scope.
Bind Scope tl_scope with format.

(** ** Reading what a format wrote *)

Lemma format_parses {A} (f : format A) a : fok f a -> parses (fget f) (fput f a) a.
Proof. apply flaw. Qed.

(** Two values with the same bytes are the same value. *)
Lemma fput_inj {A} (f : format A) a b rest rest' :
  fok f a -> fok f b -> fput f a ++ rest = fput f b ++ rest' -> a = b /\ rest = rest'.
Proof.
  intros Ha Hb E. pose proof (flaw f a Ha rest) as H1. pose proof (flaw f b Hb rest') as H2.
  rewrite E, H2 in H1. by injection H1 as -> ->.
Qed.

(** An encoder implements a schema when it appends the schema's bytes. *)
Definition writes {A B} (put : A -> bytes -> bytes) (f : format B) (v : A -> B) : Prop :=
  forall a buf, put a buf = buf ++ fput f (v a).

(** A decoder implements a schema when it reads the schema's bytes. *)
Definition reads {A B} (get : M bytes A) (f : format B) (v : B -> A) : Prop :=
  forall b, fok f b -> parses get (fput f b) (v b).

(** What is written can be read back: a peer that decodes by the schema
    recovers the value and stops at its end. *)
Lemma writes_read {A B} (put : A -> bytes -> bytes) (f : format B) v a rest :
  writes put f v -> fok f (v a) -> fget f (put a [] ++ rest) = (Ok (v a), rest).
Proof. intros H Ha. rewrite (H a []). by apply flaw. Qed.

(** The schemas, to be unfolded. *)
Create HintDb schema.

(** Write out what a format built from the combinators puts. *)
Ltac fput_norm :=
  cbn [fput nat32 int long tbytes int128 int256 nothing dep seq opt iso ctor bare_vector
       vector tbool choice fst snd] in *.
Ltac fok_norm :=
  cbn [fok nat32 int long tbytes int128 int256 nothing dep seq opt iso ctor bare_vector
       vector tbool choice fst snd] in *.

(** An encoder written with the [Put] methods implements its schema. *)
Ltac solve_writes :=
  autounfold with schema; intros a buf;
  repeat match goal with
  | |- context [TLBuffer.PutAll TLBuffer.PutLong] =>
      rewrite (TLBuffer.PutAll_app TLBuffer.PutLong (le_bytes 8)) by apply TLBuffer.PutLong_app
  end;
  put_norm; fput_norm; unfold TLBuffer.enc_vector_header; rewrite <- ?app_assoc; cbn [app];
  reflexivity.

(** A decoder written with the [Get] methods implements its schema. *)
Ltac destruct_ok :=
  repeat match goal with
  | H : _ /\ _ |- _ => destruct H
  | v : (_ * _)%type |- _ => destruct v
  end.
Ltac solve_reads :=
  let b := fresh "b" in let H := fresh "H" in
  autounfold with schema; intros b H; destruct_ok; fok_norm; destruct_ok; fput_norm; parse.

(** A length in bytes, then that many bytes, without padding. *)
Program Definition sized : format bytes :=
  {| fput v := le_bytes 4 (zlen v) ++ v;
     fget := n <- TLBuffer.Int32 ;; TLBuffer.ConsumeN n;
     fok v := zlen v < 2 ^ 31 |}.
Next Obligation.
  intros v Hv. cbv beta in *. pose proof (zlen_nonneg v).
  eapply parses_bind; [apply TLBuffer.parses_Int32_id; split; lia|].
  by apply TLBuffer.parses_ConsumeN.
Qed.
