(* ===== verification/Messages.v ===== *)
(** * Handshake and session messages

    [mtproto/unencrypted_message.hpp] (message ids, the plaintext envelope),
    [mtproto/messages/{handshake,system,bool,bind}.hpp]: one Module per
    struct, its [Encode]/[Decode] as the source writes them, and the proof
    that each one implements the TL schema its comment quotes. *)

From Stdlib Require Import ZArith Lia Strings.Byte Strings.String.
From stdpp Require Import base decidable list.
From S2P Require Import Prelude TL Schema.
Import TLBuffer.

(** ** Message ids *)

Module MessageId.

Inductive MessageType : Type := kUnknown | kFromClient | kServerResponse | kFromServer.

#[global] Instance MessageType_eq_dec : EqDecision MessageType.
Proof. solve_decision. Defined.

Definition kYieldClient : Z := 0.
Definition kYieldServerResponse : Z := 1.
Definition kYieldFromServer : Z := 3.
Definition kMessageIdModulo : Z := 4.
Definition kNano : Z := 1000000000.

(** [/] and [%] of C++ truncate; [<<] of an [int64] wraps. *)
Definition Compute (now_nanos yield : Z) : Z :=
  let int_part := Z.quot now_nanos kNano in
  let frac_part := Z.rem now_nanos kNano in
  let frac_part := Z.land frac_part (- kMessageIdModulo) in
  let frac_part := frac_part + yield in
  Z.lor (s64 (Z.shiftl int_part 32)) (Z.land frac_part 0xFFFFFFFF).

Definition Type_ (raw : Z) : MessageType :=
  let m := Z.rem (Z.rem raw kMessageIdModulo + kMessageIdModulo) kMessageIdModulo in
  if m =? kYieldClient then kFromClient
  else if m =? kYieldServerResponse then kServerResponse
  else if m =? kYieldFromServer then kFromServer
  else kUnknown.

Definition yield_of (type : MessageType) : Z :=
  match type with
  | kFromClient => kYieldClient
  | kFromServer => kYieldFromServer
  | kServerResponse => kYieldServerResponse
  | kUnknown => kYieldClient
  end.

Definition NewFromNanos (now_nanos : Z) (type : MessageType) : Z :=
  let id := Compute now_nanos (yield_of type) in
  if bool_decide (Type_ id = kFromClient) && (u32 id =? 0) then id + kMessageIdModulo else id.

(** The instants [int64] nanoseconds and 31-bit seconds can hold. *)
Definition in_range (now : Z) : Prop := 0 <= now < 2 ^ 31 * kNano.

Lemma land_m4 x : 0 <= x -> Z.land x (-4) = 4 * (x / 4).
Proof.
  intros Hx. change (-4) with (Z.lnot (Z.ones 2)). rewrite <- Z.ldiff_land.
  rewrite Z.ldiff_ones_r, Z.shiftl_mul_pow2, Z.shiftr_div_pow2 by lia. change (2 ^ 2) with 4. lia.
Qed.

Lemma Compute_val now y :
  in_range now -> 0 <= y < 4 ->
  Compute now y = now / kNano * 2 ^ 32 + (4 * (now mod kNano / 4) + y).
Proof.
  unfold in_range, Compute, kMessageIdModulo. intros Hn Hy.
  rewrite Z.quot_div_nonneg, Z.rem_mod_nonneg by (unfold kNano; lia).
  assert (Hq : 0 <= now / kNano < 2 ^ 31).
  { split; [apply Z.div_pos; unfold kNano; lia | apply Z.div_lt_upper_bound; unfold kNano in *; lia]. }
  pose proof (Z.mod_pos_bound now kNano ltac:(done)).
  rewrite land_m4 by lia.
  assert (0 <= 4 * (now mod kNano / 4) <= now mod kNano).
  { pose proof (Z.div_mod (now mod kNano) 4). pose proof (Z.mod_pos_bound (now mod kNano) 4). lia. }
  change 0xFFFFFFFF with (Z.ones 32). rewrite Z.land_ones by lia.
  rewrite Z.mod_small by (unfold kNano in *; lia).
  rewrite Z.shiftl_mul_pow2 by lia. rewrite s64_id by (unfold is_s64; lia).
  rewrite Z.lor_comm, <- (Z.shiftl_mul_pow2 _ 32) by lia.
  rewrite lor_shiftl_add by (unfold kNano in *; lia). rewrite Z.shiftl_mul_pow2 by lia. lia.
Qed.

(** The two parts in one: four-nanosecond ticks since the epoch, spread over
    the seconds. *)
Lemma Compute_mod4 now y : in_range now -> 0 <= y < 4 -> Compute now y mod 4 = y.
Proof.
  intros Hn Hy. rewrite Compute_val by done.
  replace (now / kNano * 2 ^ 32 + (4 * (now mod kNano / 4) + y))
    with (y + (now / kNano * 2 ^ 30 + now mod kNano / 4) * 4) by lia.
  rewrite Z.mod_add by lia. by apply Z.mod_small.
Qed.

Lemma Compute_range now y : in_range now -> 0 <= y < 4 -> 0 <= Compute now y < 2 ^ 63.
Proof.
  intros Hn Hy. rewrite Compute_val by done. unfold in_range in Hn.
  assert (Hq : 0 <= now / kNano < 2 ^ 31).
  { split; [apply Z.div_pos; unfold kNano; lia | apply Z.div_lt_upper_bound; unfold kNano in *; lia]. }
  pose proof (Z.mod_pos_bound now kNano ltac:(done)).
  pose proof (Z.div_mod (now mod kNano) 4). pose proof (Z.mod_pos_bound (now mod kNano) 4).
  unfold kNano in *. lia.
Qed.

Lemma Compute_mono now now' y :
  in_range now -> in_range now' -> 0 <= y < 4 ->
  Compute now y < Compute now' y <-> now / 4 < now' / 4.
Proof.
  intros Hn Hn' Hy. rewrite !Compute_val by done. unfold in_range in *.
  pose proof (Z.div_mod now kNano ltac:(done)). pose proof (Z.mod_pos_bound now kNano ltac:(done)).
  pose proof (Z.div_mod now' kNano ltac:(done)). pose proof (Z.mod_pos_bound now' kNano ltac:(done)).
  set (q := now / kNano) in *. set (r := now mod kNano) in *.
  set (q' := now' / kNano) in *. set (r' := now' mod kNano) in *. clearbody q r q' r'.
  assert (E : now / 4 = 250000000 * q + r / 4).
  { rewrite H. replace (kNano * q + r) with (r + 250000000 * q * 4) by (unfold kNano; lia).
    rewrite Z.div_add by lia. lia. }
  assert (E' : now' / 4 = 250000000 * q' + r' / 4).
  { rewrite H1. replace (kNano * q' + r') with (r' + 250000000 * q' * 4) by (unfold kNano; lia).
    rewrite Z.div_add by lia. lia. }
  rewrite E, E'. unfold kNano in *.
  assert (0 <= r / 4 < 250000000) by (split; [apply Z.div_pos; lia | apply Z.div_lt_upper_bound; lia]).
  assert (0 <= r' / 4 < 250000000) by (split; [apply Z.div_pos; lia | apply Z.div_lt_upper_bound; lia]).
  nia.
Qed.

Lemma yield_range t : 0 <= yield_of t < 4.
Proof. by destruct t. Qed.

Lemma Type_mod4 raw : 0 <= raw -> Type_ raw =
  (let m := raw mod 4 in
   if m =? 0 then kFromClient else if m =? 1 then kServerResponse
   else if m =? 3 then kFromServer else kUnknown).
Proof.
  intros H. unfold Type_, kMessageIdModulo.
  rewrite (Z.rem_mod_nonneg raw 4) by lia. pose proof (Z.mod_pos_bound raw 4).
  rewrite Z.rem_mod_nonneg by lia.
  replace (raw mod 4 + 4) with (raw mod 4 + 1 * 4) by lia.
  rewrite Z.mod_add, Z.mod_mod by lia. done.
Qed.

Lemma Type_Compute now t :
  in_range now -> t <> kUnknown -> Type_ (Compute now (yield_of t)) = t.
Proof.
  intros Hn Ht. pose proof (Compute_range now (yield_of t) Hn (yield_range t)).
  rewrite Type_mod4, Compute_mod4 by (lia || done || apply yield_range).
  by destruct t.
Qed.

(** Only client ids are nudged. *)
Lemma NewFromNanos_server now t :
  in_range now -> t = kServerResponse \/ t = kFromServer ->
  NewFromNanos now t = Compute now (yield_of t).
Proof.
  intros Hn Ht. unfold NewFromNanos. rewrite Type_Compute by (done || by destruct Ht; subst).
  rewrite bool_decide_eq_false_2; [done|]. by destruct Ht; subst.
Qed.

(** An id made for a direction is recognised as that direction, is a
    positive [int64] (until 2038), and ids of the server's own directions
    increase exactly with the clock's four-nanosecond ticks: two instants in
    the same tick get the same id. *)
Theorem NewFromNanos_ordered (now now' : Z) (t : MessageType)
    (Hnow : in_range now) (Hnow' : in_range now') (Ht : t <> kUnknown) :
  Type_ (NewFromNanos now t) = t /\
  0 <= NewFromNanos now t < 2 ^ 63 /\
  (t <> kFromClient ->
    (NewFromNanos now t < NewFromNanos now' t <-> now / 4 < now' / 4)).
Proof.
  pose proof (Compute_range now (yield_of t) Hnow (yield_range t)) as Hr.
  pose proof (Type_Compute now t Hnow Ht) as HT. split; [|split].
  - unfold NewFromNanos. destruct (_ && _) eqn:E; [|done].
    rewrite <- HT at 2. rewrite !Type_mod4 by (unfold kMessageIdModulo; lia).
    unfold kMessageIdModulo.
    replace (Compute now (yield_of t) + 4) with (Compute now (yield_of t) + 1 * 4) by lia.
    by rewrite Z.mod_add by lia.
  - unfold NewFromNanos, kMessageIdModulo. destruct (_ && _) eqn:E; [|done].
    apply andb_true_iff in E as [_ E]. apply Z.eqb_eq in E. unfold u32 in E.
    pose proof (Z.div_mod (Compute now (yield_of t)) (2 ^ 32) ltac:(lia)).
    assert (Compute now (yield_of t) / 2 ^ 32 < 2 ^ 31) by (apply Z.div_lt_upper_bound; lia). lia.
  - intros Hc. assert (t = kServerResponse \/ t = kFromServer) by (destruct t; auto; done).
    rewrite !NewFromNanos_server by done. apply Compute_mono; [done|done|apply yield_range].
Qed.

Lemma NewFromNanos_ordered_witness :
  Type_ (NewFromNanos 1780243200000000001 kServerResponse) = kServerResponse /\
  0 <= NewFromNanos 1780243200000000001 kServerResponse < 2 ^ 63 /\
  (kServerResponse <> kFromClient ->
    (NewFromNanos 1780243200000000001 kServerResponse <
     NewFromNanos 1780243200000000006 kServerResponse <->
     1780243200000000001 / 4 < 1780243200000000006 / 4)).
Proof. apply NewFromNanos_ordered; [split; done | split; done | discriminate]. Defined.

End MessageId.

(** ** The plaintext envelope *)

Module UnencryptedMessage.

Record t : Type := Mk { message_id : Z; message_data : bytes }.

Definition Encode (m : t) (b : bytes) : bytes :=
  let b := PutLong 0 b in
  let b := PutLong (message_id m) b in
  let b := PutInt32 (s32 (zlen (message_data m))) b in
  Put (message_data m) b.

Definition Decode : M bytes t :=
  auth_key_id <- Long ;;
  guard (auth_key_id =? 0)
    (RuntimeError "unexpected non-zero auth_key_id in plaintext message") ;;;
  message_id <- Long ;;
  data_len <- Int32 ;;
  guard (0 <=? data_len) (RuntimeError "negative plaintext message length") ;;;
  b <- get ;;
  guard (data_len <=? zlen b) BufferUnderrunError ;;;
  message_data <- ConsumeN data_len ;;
  ret (Mk message_id message_data).

Lemma le_bytes_s32 n : le_bytes 4 (s32 n) = le_bytes 4 n.
Proof.
  rewrite <- (le_bytes_mod 4 (s32 n)), <- (le_bytes_mod 4 n). f_equal. apply u32_s32.
Qed.

Lemma Encode_app m b :
  Encode m b = b ++ le_bytes 8 0 ++ le_bytes 8 (message_id m) ++
    le_bytes 4 (zlen (message_data m)) ++ message_data m.
Proof. unfold Encode. put_norm. by rewrite le_bytes_s32. Qed.

Lemma Encode_parses m :
  is_s64 (message_id m) -> zlen (message_data m) < 2 ^ 31 -> parses Decode (Encode m []) m.
Proof.
  intros Hid Hlen rest. rewrite Encode_app. cbn [app]. rewrite <- !app_assoc. unfold Decode.
  erewrite bind_Ok by (apply parses_Long_id; done). rewrite bind_guard by done.
  erewrite bind_Ok by (apply parses_Long_id; done).
  pose proof (zlen_nonneg (message_data m)). pose proof (zlen_nonneg rest).
  erewrite bind_Ok by (apply parses_Int32_id; split; lia).
  rewrite bind_guard, bind_get, bind_guard by (rewrite ?zlen_app; lia).
  erewrite bind_Ok by (by apply parses_ConsumeN). by destruct m.
Qed.

(** A plaintext message of fewer than 2^31 bytes is read back whole, and
    the bytes after it (transport padding) are left in the buffer. *)
Theorem Encode_Decode (m : t) (rest : bytes)
    (Hid : is_s64 (message_id m)) (Hlen : zlen (message_data m) < 2 ^ 31) :
  Decode (Encode m [] ++ rest) = (Ok m, rest).
Proof. by apply Encode_parses. Qed.

Lemma Encode_Decode_witness :
  Decode (Encode (Mk 5 (lit "abcd")) [] ++ lit "pad") = (Ok (Mk 5 (lit "abcd")), lit "pad").
Proof. apply Encode_Decode; [split; done | done]. Defined.

End UnencryptedMessage.

(** ** Handshake messages ([messages/handshake.hpp]) *)

Definition kReqPqRequestTypeId : Z := 0x60469778.
Definition kReqPqMultiRequestTypeId : Z := 0xbe7e8ef1.

Module ReqPq.

Record t : Type := Mk { type_id : Z; nonce : bytes }.

Definition Decode : M bytes t :=
  type_id <- PeekID ;;
  guard ((type_id =? kReqPqRequestTypeId) || (type_id =? kReqPqMultiRequestTypeId))
    (UnexpectedIdError type_id) ;;;
  ConsumeID type_id ;;;
  nonce <- GetInt128 ;;
  ret (Mk type_id nonce).

End ReqPq.

Module ResPq.

Definition kTypeId : Z := 0x05162463.

Record t : Type := Mk {
  nonce : bytes; server_nonce : bytes; pq : bytes;
  server_public_key_fingerprints : list Z }.

Definition Encode (m : t) (b : bytes) : bytes :=
  let b := PutID kTypeId b in
  let b := PutInt128 (nonce m) b in
  let b := PutInt128 (server_nonce m) b in
  let b := PutBytes (pq m) b in
  let b := PutVectorHeader (zlen (server_public_key_fingerprints m)) b in
  PutAll PutLong (server_public_key_fingerprints m) b.

End ResPq.

Module ReqDhParams.

Definition kTypeId : Z := 0xd712e4be.

Record t : Type := Mk {
  nonce : bytes; server_nonce : bytes; p : bytes; q : bytes;
  public_key_fingerprint : Z; encrypted_data : bytes }.

Definition Decode : M bytes t :=
  ConsumeID kTypeId ;;;
  nonce <- GetInt128 ;;
  server_nonce <- GetInt128 ;;
  p <- GetBytes ;;
  q <- GetBytes ;;
  public_key_fingerprint <- Long ;;
  encrypted_data <- GetBytes ;;
  ret (Mk nonce server_nonce p q public_key_fingerprint encrypted_data).

End ReqDhParams.

Module PqInnerData.

Inductive PqInnerDataKind : Type := kPlain | kDc | kTempDc.

#[global] Instance PqInnerDataKind_eq_dec : EqDecision PqInnerDataKind.
Proof. solve_decision. Defined.

Definition kPlainTypeId : Z := 0x83c95aec.
Definition kDcTypeId : Z := 0xa9f55f95.
Definition kTempDcTypeId : Z := 0x56fddf88.

Record t : Type := Mk {
  kind : PqInnerDataKind; pq : bytes; p : bytes; q : bytes;
  nonce : bytes; server_nonce : bytes; new_nonce : bytes; dc : Z; expires_in : Z }.

Definition kind_of_id (id : Z) : res PqInnerDataKind :=
  if id =? kPlainTypeId then Ok kPlain
  else if id =? kDcTypeId then Ok kDc
  else if id =? kTempDcTypeId then Ok kTempDc
  else Throw (UnexpectedIdError id).

Definition Decode : M bytes t :=
  id <- PeekID ;;
  kind <- lift (kind_of_id id) ;;
  ConsumeID id ;;;
  pq <- GetBytes ;;
  p <- GetBytes ;;
  q <- GetBytes ;;
  nonce <- GetInt128 ;;
  server_nonce <- GetInt128 ;;
  new_nonce <- GetInt256 ;;
  dc <- match kind with kPlain => ret 0 | _ => Int32 end ;;
  expires_in <- match kind with kTempDc => Int32 | _ => ret 0 end ;;
  ret (Mk kind pq p q nonce server_nonce new_nonce dc expires_in).

End PqInnerData.

Module ServerDhInnerData.

Definition kTypeId : Z := 0xb5890dba.

Record t : Type := Mk {
  nonce : bytes; server_nonce : bytes; g : Z; dh_prime : bytes; g_a : bytes;
  server_time : Z }.

Definition Encode (m : t) (b : bytes) : bytes :=
  let b := PutID kTypeId b in
  let b := PutInt128 (nonce m) b in
  let b := PutInt128 (server_nonce m) b in
  let b := PutInt32 (g m) b in
  let b := PutBytes (dh_prime m) b in
  let b := PutBytes (g_a m) b in
  PutInt32 (server_time m) b.

End ServerDhInnerData.

Module ServerDhParamsOk.

Definition kTypeId : Z := 0xd0e8075c.

Record t : Type := Mk { nonce : bytes; server_nonce : bytes; encrypted_answer : bytes }.

Definition Encode (m : t) (b : bytes) : bytes :=
  let b := PutID kTypeId b in
  let b := PutInt128 (nonce m) b in
  let b := PutInt128 (server_nonce m) b in
  PutBytes (encrypted_answer m) b.

End ServerDhParamsOk.

Module SetClientDhParams.

Definition kTypeId : Z := 0xf5045f1f.

Record t : Type := Mk { nonce : bytes; server_nonce : bytes; encrypted_data : bytes }.

Definition Decode : M bytes t :=
  ConsumeID kTypeId ;;;
  nonce <- GetInt128 ;;
  server_nonce <- GetInt128 ;;
  encrypted_data <- GetBytes ;;
  ret (Mk nonce server_nonce encrypted_data).

End SetClientDhParams.

Module ClientDhInnerData.

Definition kTypeId : Z := 0x6643b654.

Record t : Type := Mk { nonce : bytes; server_nonce : bytes; retry_id : Z; g_b : bytes }.

Definition Decode : M bytes t :=
  ConsumeID kTypeId ;;;
  nonce <- GetInt128 ;;
  server_nonce <- GetInt128 ;;
  retry_id <- Long ;;
  g_b <- GetBytes ;;
  ret (Mk nonce server_nonce retry_id g_b).

Definition Encode (m : t) (b : bytes) : bytes :=
  let b := PutID kTypeId b in
  let b := PutInt128 (nonce m) b in
  let b := PutInt128 (server_nonce m) b in
  let b := PutLong (retry_id m) b in
  PutBytes (g_b m) b.

End ClientDhInnerData.

Module DhGenOk.

Definition kTypeId : Z := 0x3bcbf734.

Record t : Type := Mk { nonce : bytes; server_nonce : bytes; new_nonce_hash1 : bytes }.

Definition Encode (m : t) (b : bytes) : bytes :=
  let b := PutID kTypeId b in
  let b := PutInt128 (nonce m) b in
  let b := PutInt128 (server_nonce m) b in
  PutInt128 (new_nonce_hash1 m) b.

End DhGenOk.

(** *** The schema of the handshake *)

Module HandshakeSchema.

Definition req_pq : format bytes := ctor 0x60469778 int128.
Definition req_pq_multi : format bytes := ctor 0xbe7e8ef1 int128.
Definition resPQ : format _ :=
  ctor 0x05162463 (int128 ;; int128 ;; tbytes ;; vector long)%tl.
Definition req_DH_params : format _ :=
  ctor 0xd712e4be (int128 ;; int128 ;; tbytes ;; tbytes ;; long ;; tbytes)%tl.
Definition p_q_inner_data : format _ :=
  ctor 0x83c95aec (tbytes ;; tbytes ;; tbytes ;; int128 ;; int128 ;; int256)%tl.
Definition p_q_inner_data_dc : format _ :=
  ctor 0xa9f55f95 (tbytes ;; tbytes ;; tbytes ;; int128 ;; int128 ;; int256 ;; int)%tl.
Definition p_q_inner_data_temp_dc : format _ :=
  ctor 0x56fddf88
    (tbytes ;; tbytes ;; tbytes ;; int128 ;; int128 ;; int256 ;; int ;; int)%tl.
Definition server_DH_inner_data : format _ :=
  ctor 0xb5890dba (int128 ;; int128 ;; int ;; tbytes ;; tbytes ;; int)%tl.
Definition server_DH_params_ok : format _ :=
  ctor 0xd0e8075c (int128 ;; int128 ;; tbytes)%tl.
Definition set_client_DH_params : format _ :=
  ctor 0xf5045f1f (int128 ;; int128 ;; tbytes)%tl.
Definition client_DH_inner_data : format _ :=
  ctor 0x6643b654 (int128 ;; int128 ;; long ;; tbytes)%tl.
Definition dh_gen_ok : format _ := ctor 0x3bcbf734 (int128 ;; int128 ;; int128)%tl.

#[export] Hint Unfold req_pq req_pq_multi resPQ req_DH_params p_q_inner_data
  p_q_inner_data_dc p_q_inner_data_temp_dc server_DH_inner_data server_DH_params_ok
  set_client_DH_params client_DH_inner_data dh_gen_ok : schema.

End HandshakeSchema.

(** *** Each struct implements its schema *)

Section HandshakeConforms.
Import HandshakeSchema.

Lemma PqInnerData_reads :
  reads PqInnerData.Decode p_q_inner_data
    (fun '(pq, (p, (q, (n, (sn, nn))))) =>
      PqInnerData.Mk PqInnerData.kPlain pq p q n sn nn 0 0) /\
  reads PqInnerData.Decode p_q_inner_data_dc
    (fun '(pq, (p, (q, (n, (sn, (nn, dc)))))) =>
      PqInnerData.Mk PqInnerData.kDc pq p q n sn nn dc 0) /\
  reads PqInnerData.Decode p_q_inner_data_temp_dc
    (fun '(pq, (p, (q, (n, (sn, (nn, (dc, ex))))))) =>
      PqInnerData.Mk PqInnerData.kTempDc pq p q n sn nn dc ex).
Proof. unfold PqInnerData.Decode. split; [|split]; solve_reads. Qed.

(** The client's messages are read by their schema. *)
Lemma handshake_requests_read :
  reads ReqPq.Decode req_pq (ReqPq.Mk kReqPqRequestTypeId) /\
  reads ReqPq.Decode req_pq_multi (ReqPq.Mk kReqPqMultiRequestTypeId) /\
  reads ReqDhParams.Decode req_DH_params
    (fun '(n, (sn, (p, (q, (fp, e))))) => ReqDhParams.Mk n sn p q fp e) /\
  reads SetClientDhParams.Decode set_client_DH_params
    (fun '(n, (sn, e)) => SetClientDhParams.Mk n sn e) /\
  reads ClientDhInnerData.Decode client_DH_inner_data
    (fun '(n, (sn, (r, gb))) => ClientDhInnerData.Mk n sn r gb).
Proof.
  repeat split; unfold ReqPq.Decode, ReqDhParams.Decode, SetClientDhParams.Decode,
    ClientDhInnerData.Decode; solve_reads.
Qed.

(** The views under which the server's messages are values of their schema. *)
Definition resPQ_of (m : ResPq.t) :=
  (ResPq.nonce m, (ResPq.server_nonce m, (ResPq.pq m, ResPq.server_public_key_fingerprints m))).
Definition server_DH_inner_data_of (m : ServerDhInnerData.t) :=
  (ServerDhInnerData.nonce m, (ServerDhInnerData.server_nonce m, (ServerDhInnerData.g m,
    (ServerDhInnerData.dh_prime m, (ServerDhInnerData.g_a m, ServerDhInnerData.server_time m))))).
Definition server_DH_params_ok_of (m : ServerDhParamsOk.t) :=
  (ServerDhParamsOk.nonce m, (ServerDhParamsOk.server_nonce m,
    ServerDhParamsOk.encrypted_answer m)).
Definition client_DH_inner_data_of (m : ClientDhInnerData.t) :=
  (ClientDhInnerData.nonce m, (ClientDhInnerData.server_nonce m,
    (ClientDhInnerData.retry_id m, ClientDhInnerData.g_b m))).
Definition dh_gen_ok_of (m : DhGenOk.t) :=
  (DhGenOk.nonce m, (DhGenOk.server_nonce m, DhGenOk.new_nonce_hash1 m)).

(** The handshake structs implement the TL schemas their comments quote:
    every [Decode] (including the choices [req_pq | req_pq_multi] and the
    three [p_q_inner_data] variants) reads exactly the bytes of its schema
    into its fields, and every [Encode] writes exactly the bytes of its
    schema, which a peer decoding by the schema reads back. *)
Theorem handshake_messages_conform :
  (reads ReqPq.Decode req_pq (ReqPq.Mk kReqPqRequestTypeId) /\
   reads ReqPq.Decode req_pq_multi (ReqPq.Mk kReqPqMultiRequestTypeId) /\
   reads ReqDhParams.Decode req_DH_params
     (fun '(n, (sn, (p, (q, (fp, e))))) => ReqDhParams.Mk n sn p q fp e) /\
   reads SetClientDhParams.Decode set_client_DH_params
     (fun '(n, (sn, e)) => SetClientDhParams.Mk n sn e) /\
   reads ClientDhInnerData.Decode client_DH_inner_data
     (fun '(n, (sn, (r, gb))) => ClientDhInnerData.Mk n sn r gb)) /\
  (reads PqInnerData.Decode p_q_inner_data
     (fun '(pq, (p, (q, (n, (sn, nn))))) =>
       PqInnerData.Mk PqInnerData.kPlain pq p q n sn nn 0 0) /\
   reads PqInnerData.Decode p_q_inner_data_dc
     (fun '(pq, (p, (q, (n, (sn, (nn, dc)))))) =>
       PqInnerData.Mk PqInnerData.kDc pq p q n sn nn dc 0) /\
   reads PqInnerData.Decode p_q_inner_data_temp_dc
     (fun '(pq, (p, (q, (n, (sn, (nn, (dc, ex))))))) =>
       PqInnerData.Mk PqInnerData.kTempDc pq p q n sn nn dc ex)) /\
  (writes ResPq.Encode resPQ resPQ_of /\
   writes ServerDhInnerData.Encode server_DH_inner_data server_DH_inner_data_of /\
   writes ServerDhParamsOk.Encode server_DH_params_ok server_DH_params_ok_of /\
   writes ClientDhInnerData.Encode client_DH_inner_data client_DH_inner_data_of /\
   writes DhGenOk.Encode dh_gen_ok dh_gen_ok_of).
Proof.
  split; [exact handshake_requests_read|]. split; [exact PqInnerData_reads|].
  repeat split; unfold ResPq.Encode, ServerDhInnerData.Encode, ServerDhParamsOk.Encode,
    ClientDhInnerData.Encode, DhGenOk.Encode; solve_writes.
Qed.

End HandshakeConforms.

(** ** Session messages ([messages/system.hpp]) *)

Module ContainerMessage.

Record t : Type := Mk { msg_id : Z; seqno : Z; body : bytes }.

Definition EncodeBare (m : t) (b : bytes) : bytes :=
  let b := PutLong (msg_id m) b in
  let b := PutInt32 (seqno m) b in
  let b := PutInt32 (s32 (zlen (body m))) b in
  Put (body m) b.

(** [body.resize(len)] with a negative length cast to [size_t] throws. *)
Definition DecodeBare : M bytes t :=
  msg_id <- Long ;;
  seqno <- Int32 ;;
  len <- Int32 ;;
  guard (0 <=? len) LengthError ;;;
  body <- ConsumeN len ;;
  ret (Mk msg_id seqno body).

End ContainerMessage.

Module MsgContainer.

Definition kTypeId : Z := 0x73f1f8dc.

Record t : Type := Mk { messages : list ContainerMessage.t }.

Definition Encode (m : t) (b : bytes) : bytes :=
  let b := PutID kTypeId b in
  let b := PutInt32 (s32 (zlen (messages m))) b in
  PutAll ContainerMessage.EncodeBare (messages m) b.

Definition DecodeBare : M bytes t :=
  count <- Int32 ;;
  guard (0 <=? count) LengthError ;;;
  messages <- repeat_m (Z.to_nat count) ContainerMessage.DecodeBare ;;
  ret (Mk messages).

End MsgContainer.

Module Ping.
Definition kTypeId : Z := 0x7abe77ec.
Record t : Type := Mk { ping_id : Z }.
Definition DecodeBare : M bytes t := ping_id <- Long ;; ret (Mk ping_id).
End Ping.

Module PingDelayDisconnect.
Definition kTypeId : Z := 0xf3427b8c.
Record t : Type := Mk { ping_id : Z; disconnect_delay : Z }.
Definition DecodeBare : M bytes t :=
  ping_id <- Long ;;
  disconnect_delay <- Int32 ;;
  ret (Mk ping_id disconnect_delay).
End PingDelayDisconnect.

Module Pong.
Definition kTypeId : Z := 0x347773c5.
Record t : Type := Mk { msg_id : Z; ping_id : Z }.
Definition Encode (m : t) (b : bytes) : bytes :=
  let b := PutID kTypeId b in
  let b := PutLong (msg_id m) b in
  PutLong (ping_id m) b.
End Pong.

Module MsgsAck.
Definition kTypeId : Z := 0x62d6b459.
Record t : Type := Mk { msg_ids : list Z }.
Definition DecodeBare : M bytes t :=
  count <- VectorHeader ;;
  guard (0 <=? count) LengthError ;;;
  msg_ids <- repeat_m (Z.to_nat count) Long ;;
  ret (Mk msg_ids).
Definition Encode (m : t) (b : bytes) : bytes :=
  let b := PutID kTypeId b in
  let b := PutVectorHeader (zlen (msg_ids m)) b in
  PutAll PutLong (msg_ids m) b.
End MsgsAck.

Module RpcError.
Definition kTypeId : Z := 0x2144ca19.
Record t : Type := Mk { error_code : Z; error_message : bytes }.
Definition Encode (m : t) (b : bytes) : bytes :=
  let b := PutID kTypeId b in
  let b := PutInt32 (error_code m) b in
  PutBytes (error_message m) b.
End RpcError.

Module RpcResult.
Definition kTypeId : Z := 0xf35c6d01.
Record t : Type := Mk { req_msg_id : Z; result : bytes }.
Definition Encode (m : t) (b : bytes) : bytes :=
  let b := PutID kTypeId b in
  let b := PutLong (req_msg_id m) b in
  Put (result m) b.
End RpcResult.

(** ** [Bool] ([messages/bool.hpp]) *)

Definition kBoolFalseTypeId : Z := 0xbc799737.
Definition kBoolTrueTypeId : Z := 0x997275b5.

Definition EncodeBool (value : bool) (b : bytes) : bytes :=
  PutID (if value then kBoolTrueTypeId else kBoolFalseTypeId) b.

Definition DecodeBool : M bytes bool :=
  id <- PeekID ;;
  if id =? kBoolTrueTypeId then ConsumeID id ;;; ret true
  else if id =? kBoolFalseTypeId then ConsumeID id ;;; ret false
  else throw (UnexpectedIdError id).

(** ** Binding a temporary key ([messages/bind.hpp]) *)

Module BindAuthKeyInner.

Definition kTypeId : Z := 0x75a3f765.

Record t : Type := Mk {
  nonce : Z; temp_auth_key_id : Z; perm_auth_key_id : Z; temp_session_id : Z;
  expires_at : Z }.

Definition Encode (m : t) (b : bytes) : bytes :=
  let b := PutID kTypeId b in
  let b := PutLong (nonce m) b in
  let b := PutLong (temp_auth_key_id m) b in
  let b := PutLong (perm_auth_key_id m) b in
  let b := PutLong (temp_session_id m) b in
  PutInt32 (expires_at m) b.

Definition DecodeBare : M bytes t :=
  nonce <- Long ;;
  temp_auth_key_id <- Long ;;
  perm_auth_key_id <- Long ;;
  temp_session_id <- Long ;;
  expires_at <- Int32 ;;
  ret (Mk nonce temp_auth_key_id perm_auth_key_id temp_session_id expires_at).

End BindAuthKeyInner.

Module AuthBindTempAuthKeyRequest.

Definition kTypeId : Z := 0xcdd42a05.

Record t : Type := Mk {
  perm_auth_key_id : Z; nonce : Z; expires_at : Z; encrypted_message : bytes }.

Definition DecodeBare : M bytes t :=
  perm_auth_key_id <- Long ;;
  nonce <- Long ;;
  expires_at <- Int32 ;;
  encrypted_message <- GetBytes ;;
  ret (Mk perm_auth_key_id nonce expires_at encrypted_message).

End AuthBindTempAuthKeyRequest.

(** ** The schema of the session *)

Module SessionSchema.

(** [message msg_id:long seqno:int bytes:int body:Object], bare. *)
Definition message : format _ := (long ;; int ;; sized)%tl.
(** The fields of [msg_container], [ping], [msgs_ack]... after their id. *)
Definition msg_container : format _ := bare_vector message.
Definition ping : format Z := long.
Definition ping_delay_disconnect : format _ := (long ;; int)%tl.
Definition msgs_ack : format (list Z) := vector long.
Definition pong : format _ := (long ;; long)%tl.
Definition rpc_error : format _ := (int ;; tbytes)%tl.
Definition bind_auth_key_inner : format _ := (long ;; long ;; long ;; long ;; int)%tl.
Definition bind_temp_auth_key : format _ := (long ;; long ;; int ;; tbytes)%tl.

#[export] Hint Unfold message msg_container ping ping_delay_disconnect msgs_ack pong
  rpc_error bind_auth_key_inner bind_temp_auth_key : schema.

End SessionSchema.

Section SessionConforms.
Import SessionSchema.

Definition message_of (m : ContainerMessage.t) :=
  (ContainerMessage.msg_id m, (ContainerMessage.seqno m, ContainerMessage.body m)).
Definition of_message '((id, (seqno, body)) : Z * (Z * bytes)) : ContainerMessage.t :=
  ContainerMessage.Mk id seqno body.

Lemma ContainerMessage_writes : writes ContainerMessage.EncodeBare message message_of.
Proof.
  intros m buf. unfold ContainerMessage.EncodeBare. put_norm.
  rewrite UnencryptedMessage.le_bytes_s32. done.
Qed.

Lemma ContainerMessage_reads : reads ContainerMessage.DecodeBare message of_message.
Proof.
  unfold ContainerMessage.DecodeBare, message. intros (id & seqno & body) (Hid & Hs & Hb).
  cbn [fok sized] in Hb. fput_norm. pose proof (zlen_nonneg body). cbn [sized fput].
  eapply parses_bind; [apply parses_Long_id, Hid|].
  eapply parses_bind; [apply parses_Int32_id, Hs|].
  eapply parses_bind; [apply parses_Int32_id; split; lia|].
  apply parses_guard; [apply Z.leb_le; lia|].
  by apply (parses_bind_ret _ (ContainerMessage.Mk id seqno)), parses_ConsumeN.
Qed.

Lemma parses_repeat_map {A B} (m : M bytes B) (f : format A) (g : A -> B) l :
  (forall a, fok f a -> parses m (fput f a) (g a)) -> Forall (fok f) l ->
  parses (repeat_m (length l) m) (concat (map (fput f) l)) (map g l).
Proof.
  intros Hm. induction 1 as [|x t Hx Ht IH]; [apply parses_ret|].
  cbn [length repeat_m map concat]. eapply parses_bind; [by apply Hm|].
  by apply (parses_bind_ret _ (fun ys => g x :: ys)).
Qed.

Lemma MsgContainer_reads : reads MsgContainer.DecodeBare msg_container
  (fun l => MsgContainer.Mk (map of_message l)).
Proof.
  unfold MsgContainer.DecodeBare, msg_container. intros l [Hl Hf]. pose proof (zlen_nonneg l).
  cbn [fput bare_vector]. eapply parses_bind; [apply parses_Int32_id; split; lia|].
  apply parses_guard; [apply Z.leb_le; lia|]. unfold zlen. rewrite Nat2Z.id.
  apply (parses_bind_ret _ MsgContainer.Mk), parses_repeat_map; [|done].
  apply ContainerMessage_reads.
Qed.

Lemma MsgContainer_writes m buf :
  MsgContainer.Encode m buf = buf ++ le_bytes 4 MsgContainer.kTypeId ++
    fput msg_container (map message_of (MsgContainer.messages m)).
Proof.
  unfold MsgContainer.Encode. rewrite (PutAll_app _ (fun x => fput message (message_of x)))
    by apply ContainerMessage_writes.
  put_norm. rewrite UnencryptedMessage.le_bytes_s32. cbn [fput msg_container bare_vector].
  unfold zlen. by rewrite length_map, map_map.
Qed.

Lemma MsgsAck_reads : reads MsgsAck.DecodeBare msgs_ack MsgsAck.Mk.
Proof.
  unfold MsgsAck.DecodeBare, msgs_ack, vector. intros l (_ & Hl & Hf).
  pose proof (zlen_nonneg l). cbn [fput ctor bare_vector]. rewrite app_assoc.
  eapply parses_bind; [apply (parses_VectorHeader_id (zlen l)); split; lia|].
  apply parses_guard; [apply Z.leb_le; lia|]. unfold zlen. rewrite Nat2Z.id.
  apply (parses_bind_ret _ MsgsAck.Mk). rewrite <- (map_id l) at 3.
  apply (parses_repeat_map _ long id); [|done]. intros a Ha. by apply parses_Long_id.
Qed.

Lemma DecodeBool_reads : reads DecodeBool tbool id.
Proof.
  intros v _. unfold DecodeBool. cbn [fput tbool].
  apply (parses_eq _ (le_bytes 4 (if v then bool_true_id else bool_false_id) ++ []));
    [|apply app_nil_r].
  destruct v; apply parses_peek.
  - apply (parses_bind _ (fun _ => ret true) _ _ tt); [by apply parses_ConsumeID | apply parses_ret].
  - apply (parses_bind _ (fun _ => ret false) _ _ tt); [by apply parses_ConsumeID | apply parses_ret].
Qed.

(** The session structs implement the TL schemas their comments quote:
    the decoders read the fields after the constructor id (containers and
    acknowledgements of any length that fits), the encoders write the id and
    the fields; [rpc_result] appends the caller's object unchanged. *)
Theorem session_messages_conform :
  (reads MsgContainer.DecodeBare msg_container (fun l => MsgContainer.Mk (map of_message l)) /\
   reads Ping.DecodeBare ping Ping.Mk /\
   reads PingDelayDisconnect.DecodeBare ping_delay_disconnect
     (fun '(i, d) => PingDelayDisconnect.Mk i d) /\
   reads MsgsAck.DecodeBare msgs_ack MsgsAck.Mk /\
   reads DecodeBool tbool id /\
   reads BindAuthKeyInner.DecodeBare bind_auth_key_inner
     (fun '(n, (t, (p, (s, e)))) => BindAuthKeyInner.Mk n t p s e) /\
   reads AuthBindTempAuthKeyRequest.DecodeBare bind_temp_auth_key
     (fun '(p, (n, (e, m))) => AuthBindTempAuthKeyRequest.Mk p n e m)) /\
  ((forall m buf, MsgContainer.Encode m buf = buf ++ le_bytes 4 MsgContainer.kTypeId ++
      fput msg_container (map message_of (MsgContainer.messages m))) /\
   writes Pong.Encode (ctor Pong.kTypeId pong) (fun m => (Pong.msg_id m, Pong.ping_id m)) /\
   writes MsgsAck.Encode (ctor MsgsAck.kTypeId msgs_ack) MsgsAck.msg_ids /\
   writes RpcError.Encode (ctor RpcError.kTypeId rpc_error)
     (fun m => (RpcError.error_code m, RpcError.error_message m)) /\
   (forall m buf, RpcResult.Encode m buf =
      buf ++ le_bytes 4 RpcResult.kTypeId ++ le_bytes 8 (RpcResult.req_msg_id m) ++
      RpcResult.result m) /\
   writes EncodeBool tbool id /\
   writes BindAuthKeyInner.Encode (ctor BindAuthKeyInner.kTypeId bind_auth_key_inner)
     (fun m => (BindAuthKeyInner.nonce m, (BindAuthKeyInner.temp_auth_key_id m,
       (BindAuthKeyInner.perm_auth_key_id m, (BindAuthKeyInner.temp_session_id m,
        BindAuthKeyInner.expires_at m)))))).
Proof.
  split; repeat split.
  - apply MsgContainer_reads.
  - unfold Ping.DecodeBare. solve_reads.
  - unfold PingDelayDisconnect.DecodeBare. solve_reads.
  - apply MsgsAck_reads.
  - apply DecodeBool_reads.
  - unfold BindAuthKeyInner.DecodeBare. solve_reads.
  - unfold AuthBindTempAuthKeyRequest.DecodeBare. solve_reads.
  - apply MsgContainer_writes.
  - unfold Pong.Encode. solve_writes.
  - unfold MsgsAck.Encode. solve_writes.
  - unfold RpcError.Encode. solve_writes.
  - intros m buf. unfold RpcResult.Encode. by put_norm.
  - unfold BindAuthKeyInner.Encode. solve_writes.
Qed.

End SessionConforms.
