(* ===== verification/Invoke.v ===== *)
(** * Invoke wrappers ([messages/invoke.hpp])

    [SkipJsonValue] and [UnwrapInvokeWrappers].  The first recurses on nested
    values and the second loops while the buffer starts with a wrapper; both
    take fuel here, one unit per level or iteration, and each consumes at
    least four bytes, so the length of the buffer is enough fuel. *)

From Stdlib Require Import ZArith Lia Strings.Byte Strings.String.
From stdpp Require Import base decidable list.
From S2P Require Import Prelude TL Schema.
Import TLBuffer.

Definition kInvokeWithLayerTypeId : Z := 0xda9b0d0d.
Definition kInvokeWithoutUpdatesTypeId : Z := 0xbf9459b7.
Definition kInvokeAfterMsgTypeId : Z := 0xcb9f372d.
Definition kInitConnectionTypeId : Z := 0xc1cd5ea9.

Definition kJsonNullTypeId : Z := 0x3f6d7b68.
Definition kJsonBoolTypeId : Z := 0xc7345e6a.
Definition kJsonNumberTypeId : Z := 0x2be0dfa4.
Definition kJsonStringTypeId : Z := 0xb71e767a.
Definition kJsonArrayTypeId : Z := 0xf7444763.
Definition kJsonObjectTypeId : Z := 0x99c1d49d.
Definition kJsonObjectValueTypeId : Z := 0xc0de1bd9.

(** [for (int i = 0; i < count; ++i) m] *)
Fixpoint times (n : nat) (m : M bytes unit) : M bytes unit :=
  match n with
  | O => ret tt
  | S n => m ;;; times n m
  end.

Fixpoint SkipJson (fuel : nat) : M bytes unit :=
  match fuel with
  | O => throw out_of_fuel
  | S fuel =>
      id <- PeekID ;;
      ConsumeID id ;;;
      if id =? kJsonNullTypeId then ret tt
      else if id =? kJsonBoolTypeId then bool_id <- PeekID ;; ConsumeID bool_id
      else if id =? kJsonNumberTypeId then _ <- Uint64 ;; ret tt
      else if id =? kJsonStringTypeId then _ <- GetBytes ;; ret tt
      else if id =? kJsonArrayTypeId then
        count <- VectorHeader ;;
        times (Z.to_nat count) (SkipJson fuel)
      else if id =? kJsonObjectTypeId then
        count <- VectorHeader ;;
        times (Z.to_nat count)
          (ConsumeID kJsonObjectValueTypeId ;;;
           _ <- GetBytes ;;
           SkipJson fuel)
      else throw (UnexpectedIdError id)
  end.

Definition SkipJsonValue : M bytes unit := fun b => SkipJson (S (length b)) b.

(** The body of an [initConnection] after its id. *)
Definition SkipInitConnection : M bytes unit :=
  flags <- Uint32 ;;
  _ <- Int32 ;; (* api_id *)
  _ <- GetBytes ;; (* device_model *)
  _ <- GetBytes ;; (* system_version *)
  _ <- GetBytes ;; (* app_version *)
  _ <- GetBytes ;; (* system_lang_code *)
  _ <- GetBytes ;; (* lang_pack *)
  _ <- GetBytes ;; (* lang_code *)
  when (Z.testbit flags 0)
    (ConsumeID 0x75588b3f ;;;
     _ <- GetBytes ;; (* address *)
     _ <- Int32 ;; (* port *)
     ret tt) ;;;
  when (Z.testbit flags 1) SkipJsonValue.

Fixpoint UnwrapLoop (fuel : nat) : M bytes unit :=
  match fuel with
  | O => throw out_of_fuel
  | S fuel =>
      id <- PeekID ;;
      if id =? kInvokeWithLayerTypeId then
        ConsumeID id ;;; _ <- Int32 ;; UnwrapLoop fuel
      else if id =? kInvokeWithoutUpdatesTypeId then
        ConsumeID id ;;; UnwrapLoop fuel
      else if id =? kInvokeAfterMsgTypeId then
        ConsumeID id ;;; _ <- Long ;; UnwrapLoop fuel
      else if id =? kInitConnectionTypeId then
        ConsumeID id ;;; SkipInitConnection ;;; UnwrapLoop fuel
      else ret tt
  end.

Definition UnwrapInvokeWrappers : M bytes unit := fun b => UnwrapLoop (S (length b)) b.

Definition is_wrapper_id (id : Z) : bool :=
  (id =? kInvokeWithLayerTypeId) || (id =? kInvokeWithoutUpdatesTypeId) ||
  (id =? kInvokeAfterMsgTypeId) || (id =? kInitConnectionTypeId).

(** ** Termination *)

(** The exceptions of a [TLBuffer] read (so not [out_of_fuel]). *)
Definition tl_exn (e : exn) : bool :=
  match e with
  | UnexpectedIdError _ | BufferUnderrunError => true
  | _ => false
  end.
Definition tl_result {A} (r : res A) : Prop :=
  match r with Ok _ => True | Throw e => tl_exn e = true end.

(** On buffers of at most [n] bytes, [m] only throws what a read throws. *)
Definition runs {A} (n : nat) (m : M bytes A) : Prop :=
  forall s, (length s <= n)%nat -> tl_result (fst (m s)).

Lemma consumes_length {A} (m : M bytes A) s r s' :
  consumes m -> m s = (r, s') -> (length s' <= length s)%nat.
Proof. intros H E. destruct (H _ _ _ E) as [pre ->]. rewrite length_app. lia. Qed.

Lemma enough_bind {A B} n (m : M bytes A) (k : A -> M bytes B) :
  consumes m -> runs n m -> (forall a, runs n (k a)) -> runs n (bind m k).
Proof.
  intros Cm Hm Hk s Hs. unfold bind. specialize (Hm s Hs). destruct (m s) as [[a|e] s'] eqn:E.
  - apply Hk. pose proof (consumes_length m s _ s' Cm E). lia.
  - exact Hm.
Qed.

Lemma consumes_times n m : consumes m -> consumes (times n m).
Proof. intros H. induction n; cbn [times]; auto with tl. Qed.

Lemma runs_times n c m : consumes m -> runs n m -> runs n (times c m).
Proof.
  intros Hc H. induction c as [|c IH]; cbn [times]; [done|]. by apply enough_bind.
Qed.

(** The same on every buffer: the primitive readers. *)
Definition plain {A} (m : M bytes A) : Prop := forall s, tl_result (fst (m s)).

Lemma plain_bind {A B} (m : M bytes A) (k : A -> M bytes B) :
  plain m -> (forall a, plain (k a)) -> plain (bind m k).
Proof.
  intros Hm Hk s. unfold bind. specialize (Hm s). destruct (m s) as [[a|e] s'].
  - apply Hk.
  - exact Hm.
Qed.
Lemma plain_ret {A} (a : A) : plain (ret a).
Proof. intros s. done. Qed.
Lemma plain_throw {A} e : tl_exn e = true -> plain (@throw bytes A e).
Proof. intros H s. exact H. Qed.
Lemma plain_guard c e : tl_exn e = true -> plain (guard c e).
Proof. intros H. destruct c; [apply plain_ret | by apply plain_throw]. Qed.
Lemma plain_get : plain get.
Proof. done. Qed.
Lemma plain_erase n : plain (erase n).
Proof. done. Qed.
Lemma plain_when c m : plain m -> plain (when c m).
Proof. destruct c; [done | intros; apply plain_ret]. Qed.
Lemma plain_runs {A} n (m : M bytes A) : plain m -> runs n m.
Proof. intros H s _. apply H. Qed.

Create HintDb plain discriminated.
#[local] Hint Resolve plain_bind plain_ret plain_get plain_erase plain_when : plain.
#[local] Hint Extern 1 (plain (guard _ _)) => apply plain_guard; reflexivity : plain.
#[local] Hint Extern 1 (plain (throw _)) => apply plain_throw; reflexivity : plain.

Lemma plain_PeekID : plain PeekID.
Proof. unfold PeekID. eauto 6 with plain. Qed.
#[local] Hint Resolve plain_PeekID : plain.
Lemma plain_ConsumeID id : plain (ConsumeID id).
Proof. unfold ConsumeID. eauto 6 with plain. Qed.
Lemma plain_Uint32 : plain Uint32.
Proof. unfold Uint32. eauto 6 with plain. Qed.
#[local] Hint Resolve plain_ConsumeID plain_Uint32 : plain.
Lemma plain_Int32 : plain Int32.
Proof. unfold Int32. eauto 6 with plain. Qed.
Lemma plain_Uint64 : plain Uint64.
Proof. unfold Uint64. eauto 6 with plain. Qed.
#[local] Hint Resolve plain_Int32 plain_Uint64 : plain.
Lemma plain_Long : plain Long.
Proof. unfold Long. eauto 6 with plain. Qed.
Lemma plain_VectorHeader : plain VectorHeader.
Proof. unfold VectorHeader. eauto 6 with plain. Qed.
Lemma plain_GetBytes : plain GetBytes.
Proof.
  unfold GetBytes. apply plain_bind; [apply plain_get|]. intros buf.
  apply plain_bind.
  - intros s. unfold lift, BytesHeader. cbn [fst]. by repeat case_match.
  - intros [h l]. eauto 6 with plain.
Qed.
#[local] Hint Resolve plain_Long plain_VectorHeader plain_GetBytes : plain.

(** Looking at an id and consuming it takes four bytes. *)
Lemma take_id {A} (k : Z -> M bytes A) s :
  (forall id, (4 <= length s)%nat -> runs (length s - 4) (k id)) ->
  tl_result (fst ((id <- PeekID ;; ConsumeID id ;;; k id) s)).
Proof.
  intros Hk. unfold PeekID. rewrite bind_assoc, bind_get, bind_assoc.
  destruct (4 <=? zlen s) eqn:E; [|by rewrite bind_guard_false].
  rewrite bind_guard, bind_ret by done. unfold ConsumeID, PeekID.
  rewrite bind_assoc, bind_assoc, bind_get, bind_assoc, bind_guard, bind_ret by done.
  rewrite bind_assoc, bind_guard by apply Z.eqb_refl.
  apply Z.leb_le in E. unfold zlen in E.
  unfold bind, erase, modify. apply Hk; [lia|].
  unfold zdrop. rewrite length_drop. lia.
Qed.

Lemma consumes_SkipJson fuel : consumes (SkipJson fuel).
Proof.
  induction fuel as [|fuel IH]; cbn [SkipJson]; [apply consumes_throw|].
  apply consumes_bind; [auto with tl|]. intros id. apply consumes_bind; [auto with tl|]. intros _.
  repeat case_match; eauto 8 using consumes_times with tl.
Qed.

Lemma SkipJson_runs fuel n : (n < 4 * fuel)%nat -> runs n (SkipJson fuel).
Proof.
  revert n. induction fuel as [|fuel IH]; intros n Hn s Hs; [lia|].
  pose proof (consumes_SkipJson fuel) as Hc. cbn [SkipJson]. apply take_id. intros id H4.
  assert (Hr : runs (length s - 4) (SkipJson fuel)) by (apply IH; lia).
  repeat case_match; try solve [apply plain_runs; eauto 6 with plain].
  - apply enough_bind; [auto with tl | apply plain_runs; auto with plain |]. intros c.
    by apply runs_times.
  - apply enough_bind; [auto with tl | apply plain_runs; auto with plain |]. intros c.
    apply runs_times; [eauto 6 with tl|].
    apply enough_bind; [auto with tl | apply plain_runs; auto with plain |]. intros _.
    apply enough_bind; [auto with tl | apply plain_runs; auto with plain | done].
Qed.

Lemma plain_SkipJsonValue : plain SkipJsonValue.
Proof. intros s. apply (SkipJson_runs _ (length s)); lia. Qed.

Lemma consumes_SkipJsonValue : consumes SkipJsonValue.
Proof. intros s r s'. apply consumes_SkipJson. Qed.
#[local] Hint Resolve plain_SkipJsonValue : plain.
#[local] Hint Resolve consumes_SkipJsonValue : tl.

Lemma plain_SkipInitConnection : plain SkipInitConnection.
Proof. unfold SkipInitConnection. repeat (apply plain_bind; [auto with plain|intros]); eauto 8 with plain. Qed.
Lemma consumes_SkipInitConnection : consumes SkipInitConnection.
Proof. unfold SkipInitConnection. repeat (apply consumes_bind; [auto with tl|intros]); eauto 8 with tl. Qed.
#[local] Hint Resolve plain_SkipInitConnection : plain.
#[local] Hint Resolve consumes_SkipInitConnection : tl.

Lemma PeekID_ok s : 4 <= zlen s -> PeekID s = (Ok (ReadU32LE s), s).
Proof.
  intros H. unfold PeekID. rewrite bind_get, bind_guard by (by apply Z.leb_le). done.
Qed.
Lemma PeekID_short s : zlen s < 4 -> PeekID s = (Throw BufferUnderrunError, s).
Proof.
  intros H. unfold PeekID. rewrite bind_get, bind_guard_false by (apply Z.leb_gt; lia). done.
Qed.
Lemma ConsumeID_ok s : 4 <= zlen s -> ConsumeID (ReadU32LE s) s = (Ok tt, zdrop 4 s).
Proof.
  intros H. unfold ConsumeID. erewrite bind_Ok by (by apply PeekID_ok).
  rewrite bind_guard by apply Z.eqb_refl. done.
Qed.

Lemma consumes_UnwrapLoop fuel : consumes (UnwrapLoop fuel).
Proof.
  induction fuel as [|fuel IH]; cbn [UnwrapLoop]; [apply consumes_throw|].
  apply consumes_bind; [auto with tl|]. intros id.
  repeat case_match; eauto 8 with tl.
Qed.

Lemma UnwrapLoop_runs fuel n : (n < 4 * fuel)%nat -> runs n (UnwrapLoop fuel).
Proof.
  revert n. induction fuel as [|fuel IH]; intros n Hn s Hs; [lia|]. cbn [UnwrapLoop].
  pose proof (consumes_UnwrapLoop fuel) as Hc.
  destruct (Z.lt_ge_cases (zlen s) 4) as [H4|H4].
  { by erewrite bind_Throw by (by apply PeekID_short). }
  erewrite bind_Ok by (by apply PeekID_ok).
  assert (Hd : (length (zdrop 4 s) <= n - 4)%nat) by (unfold zdrop; rewrite length_drop; lia).
  unfold zlen in H4. assert (Hr : runs (n - 4) (UnwrapLoop fuel)) by (apply IH; lia).
  repeat case_match; try exact I;
    (erewrite bind_Ok by (by apply ConsumeID_ok)).
  - apply (enough_bind (n - 4)); auto using plain_runs with tl plain.
  - by apply Hr.
  - apply (enough_bind (n - 4)); auto using plain_runs with tl plain.
  - apply (enough_bind (n - 4)); auto using plain_runs with tl plain.
Qed.

Lemma UnwrapInvokeWrappers_exn b e b' :
  UnwrapInvokeWrappers b = (Throw e, b') -> tl_exn e = true.
Proof.
  intros E. pose proof (UnwrapLoop_runs (S (length b)) (length b) ltac:(lia) b ltac:(lia)) as H.
  unfold UnwrapInvokeWrappers in E. by rewrite E in H.
Qed.

(** When the loop returns, what is left starts with an ordinary id. *)
Lemma UnwrapLoop_stops fuel s s' :
  UnwrapLoop fuel s = (Ok tt, s') -> 4 <= zlen s' /\ is_wrapper_id (ReadU32LE s') = false.
Proof.
  revert s. induction fuel as [|fuel IH]; intros s; [discriminate|]. cbn [UnwrapLoop].
  destruct (Z.lt_ge_cases (zlen s) 4) as [H4|H4].
  { erewrite bind_Throw by (by apply PeekID_short). discriminate. }
  erewrite bind_Ok by (by apply PeekID_ok).
  repeat case_match; intros Hrun; inv_ok; try solve [eapply IH; eassumption].
  split; [done|]. unfold is_wrapper_id.
  repeat match goal with E : (_ =? _) = false |- _ => rewrite E; clear E end. done.
Qed.

(** ** Skipping what a client encodes *)

Inductive json : Type :=
  | JsonNull
  | JsonBool (value : bool)
  | JsonNumber (bits : Z)
  | JsonString (value : bytes)
  | JsonArray (value : list json)
  | JsonObject (value : list (bytes * json)).

Fixpoint enc_json (j : json) : bytes :=
  match j with
  | JsonNull => le_bytes 4 kJsonNullTypeId
  | JsonBool v => le_bytes 4 kJsonBoolTypeId ++ fput tbool v
  | JsonNumber bits => le_bytes 4 kJsonNumberTypeId ++ le_bytes 8 bits
  | JsonString v => le_bytes 4 kJsonStringTypeId ++ enc_bytes v
  | JsonArray l => le_bytes 4 kJsonArrayTypeId ++ enc_vector_header (zlen l) ++
      concat (map enc_json l)
  | JsonObject l => le_bytes 4 kJsonObjectTypeId ++ enc_vector_header (zlen l) ++
      concat (map (fun '(k, v) =>
        le_bytes 4 kJsonObjectValueTypeId ++ enc_bytes k ++ enc_json v) l)
  end.

(** Lengths fit their fields. *)
Fixpoint json_ok (j : json) : Prop :=
  match j with
  | JsonString v => zlen v < 2 ^ 24
  | JsonArray l => zlen l < 2 ^ 31 /\ foldr (fun x P => json_ok x /\ P) True l
  | JsonObject l => zlen l < 2 ^ 31 /\
      foldr (fun '(k, v) P => zlen k < 2 ^ 24 /\ json_ok v /\ P) True l
  | _ => True
  end.

Fixpoint json_depth (j : json) : nat :=
  match j with
  | JsonArray l => S (foldr (fun x n => Nat.max (json_depth x) n) 0%nat l)
  | JsonObject l => S (foldr (fun '(_, v) n => Nat.max (json_depth v) n) 0%nat l)
  | _ => 1%nat
  end.

Lemma parses_times {A} (m : M bytes unit) (enc : A -> bytes) l :
  (forall a, a ∈ l -> parses m (enc a) tt) ->
  parses (times (length l) m) (concat (map enc l)) tt.
Proof.
  induction l as [|x t IH]; intros H; [apply parses_ret|]. cbn [length times map concat].
  apply (parses_bind _ _ _ _ tt); [apply H; left | apply IH; intros; apply H; by right].
Qed.

(** An id, then what the branch of that id reads. *)
Lemma parses_id {A} (k : Z -> M bytes A) id e a :
  is_u32 id -> parses (k id) e a ->
  parses (x <- PeekID ;; ConsumeID x ;;; k x) (le_bytes 4 id ++ e) a.
Proof.
  intros Hid H. apply parses_peek. rewrite u32_id by done.
  eapply parses_bind; [by apply parses_ConsumeID | done].
Qed.

Lemma parses_count m e n :
  0 <= n < 2 ^ 31 -> parses (times (Z.to_nat n) m) e tt ->
  parses (count <- VectorHeader ;; times (Z.to_nat count) m) (enc_vector_header n ++ e) tt.
Proof.
  intros Hn H. eapply parses_bind; [apply parses_VectorHeader_id; split; lia | done].
Qed.

Lemma json_in_array l x : x ∈ l -> json_ok (JsonArray l) ->
  json_ok x /\ (json_depth x < json_depth (JsonArray l))%nat.
Proof.
  intros Hx [_ H]. cbn [json_depth]. induction l as [|y l IH]; [by apply elem_of_nil in Hx|].
  cbn [foldr] in *. destruct H as [Hy H]. apply elem_of_cons in Hx as [->|Hx]; [split; [done|lia]|].
  destruct (IH Hx H) as [Hok Hd]. split; [done|lia].
Qed.

Lemma json_in_object l k x : (k, x) ∈ l -> json_ok (JsonObject l) ->
  zlen k < 2 ^ 24 /\ json_ok x /\ (json_depth x < json_depth (JsonObject l))%nat.
Proof.
  intros Hx [_ H]. cbn [json_depth]. induction l as [|[k' y] l IH]; [by apply elem_of_nil in Hx|].
  cbn [foldr] in *. destruct H as (Hk & Hy & H).
  apply elem_of_cons in Hx as [[= -> ->]|Hx]; [repeat split; [done|done|lia]|].
  destruct (IH Hx H) as (Hk' & Hok & Hd). repeat split; [done|done|lia].
Qed.

Lemma SkipJson_parses fuel j :
  json_ok j -> (json_depth j <= fuel)%nat -> parses (SkipJson fuel) (enc_json j) tt.
Proof.
  revert j. induction fuel as [|fuel IH]; intros j Hok Hd; [destruct j; cbn in Hd; lia|].
  destruct j as [|v|bits|v|l|l].
  - apply (parses_eq _ (le_bytes 4 kJsonNullTypeId ++ [])); [|apply app_nil_r].
    apply parses_id; [done|]. apply parses_ret.
  - apply parses_id; [done|]. cbn [fput tbool].
    apply (parses_eq _ (le_bytes 4 (if v then bool_true_id else bool_false_id) ++ []));
      [|apply app_nil_r]. apply parses_peek. rewrite app_nil_r, u32_id by (by destruct v).
    apply parses_ConsumeID. by destruct v.
  - apply parses_id; [done|].
    apply (parses_bind_ret _ (fun _ => tt) _ (u64 bits)), parses_Uint64.
  - apply parses_id; [done|]. by apply (parses_bind_ret _ (fun _ => tt) _ v), parses_GetBytes.
  - apply parses_id; [done|]. apply (parses_count _ _ (zlen l)).
    { destruct Hok. split; [apply zlen_nonneg | done]. }
    unfold zlen. rewrite Nat2Z.id. apply parses_times. intros x Hx.
    destruct (json_in_array l x Hx Hok). apply IH; [done|lia].
  - apply parses_id; [done|]. apply (parses_count _ _ (zlen l)).
    { destruct Hok. split; [apply zlen_nonneg | done]. }
    unfold zlen. rewrite Nat2Z.id. apply parses_times. intros [k x] Hx.
    destruct (json_in_object l k x Hx Hok) as (Hk & Hx' & Hdx).
    eapply parses_bind; [by apply parses_ConsumeID|].
    eapply parses_bind; [by apply parses_GetBytes|]. apply IH; [done|lia].
Qed.

(** Each level adds an id, so the buffer is longer than the value is deep. *)
Lemma json_depth_length j : (json_depth j <= length (enc_json j))%nat.
Proof.
  revert j. fix IH 1. intros [|v|bits|v|l|l]; cbn [enc_json json_depth];
    rewrite ?length_app, ?length_le_bytes; try lia.
  - enough (foldr (fun x n => Nat.max (json_depth x) n) 0 l <=
      length (concat (map enc_json l)))%nat by lia.
    induction l as [|x l IHl]; cbn; [lia|]. rewrite length_app. specialize (IH x). lia.
  - enough (foldr (fun '(_, v) n => Nat.max (json_depth v) n) 0 l <=
      length (concat (map (fun '(k, v) =>
        le_bytes 4 kJsonObjectValueTypeId ++ enc_bytes k ++ enc_json v) l)))%nat by lia.
    induction l as [|[k x] l IHl]; cbn [foldr map concat]; [cbn; lia|]. rewrite !length_app.
    specialize (IH x). lia.
Qed.

Lemma SkipJsonValue_parses j : json_ok j -> parses SkipJsonValue (enc_json j) tt.
Proof.
  intros Hok rest. unfold SkipJsonValue. apply SkipJson_parses; [done|].
  rewrite length_app. pose proof (json_depth_length j). lia.
Qed.

(** What a client puts around a call. *)
Record init_connection : Type := InitConnection {
  ic_flags : Z; ic_api_id : Z;
  ic_device_model : bytes; ic_system_version : bytes; ic_app_version : bytes;
  ic_system_lang_code : bytes; ic_lang_pack : bytes; ic_lang_code : bytes;
  ic_proxy : option (bytes * Z); ic_params : option json }.

Inductive wrapper : Type :=
  | InvokeWithLayer (layer : Z)
  | InvokeWithoutUpdates
  | InvokeAfterMsg (msg_id : Z)
  | InitConn (c : init_connection).

Definition enc_init (c : init_connection) : bytes :=
  le_bytes 4 (ic_flags c) ++ le_bytes 4 (ic_api_id c) ++
  enc_bytes (ic_device_model c) ++ enc_bytes (ic_system_version c) ++
  enc_bytes (ic_app_version c) ++ enc_bytes (ic_system_lang_code c) ++
  enc_bytes (ic_lang_pack c) ++ enc_bytes (ic_lang_code c) ++
  match ic_proxy c with
  | Some (address, port) => le_bytes 4 0x75588b3f ++ enc_bytes address ++ le_bytes 4 port
  | None => []
  end ++
  match ic_params c with Some j => enc_json j | None => [] end.

Definition enc_wrapper (w : wrapper) : bytes :=
  match w with
  | InvokeWithLayer layer => le_bytes 4 kInvokeWithLayerTypeId ++ le_bytes 4 layer
  | InvokeWithoutUpdates => le_bytes 4 kInvokeWithoutUpdatesTypeId
  | InvokeAfterMsg id => le_bytes 4 kInvokeAfterMsgTypeId ++ le_bytes 8 id
  | InitConn c => le_bytes 4 kInitConnectionTypeId ++ enc_init c
  end.

Definition short (v : bytes) : Prop := zlen v < 2 ^ 24.

(** The conditional fields are there exactly when their flag is set. *)
Definition init_ok (c : init_connection) : Prop :=
  is_u32 (ic_flags c) /\
  Forall short [ic_device_model c; ic_system_version c; ic_app_version c;
                ic_system_lang_code c; ic_lang_pack c; ic_lang_code c] /\
  match ic_proxy c with
  | Some (address, _) => Z.testbit (ic_flags c) 0 = true /\ short address
  | None => Z.testbit (ic_flags c) 0 = false
  end /\
  match ic_params c with
  | Some j => Z.testbit (ic_flags c) 1 = true /\ json_ok j
  | None => Z.testbit (ic_flags c) 1 = false
  end.

Definition wrapper_ok (w : wrapper) : Prop :=
  match w with InitConn c => init_ok c | _ => True end.

Lemma SkipInitConnection_parses c :
  init_ok c -> parses SkipInitConnection (enc_init c) tt.
Proof.
  intros (Hf & Hs & Hp & Hj). unfold short in Hs.
  repeat match goal with H : Forall _ (_ :: _) |- _ => apply Forall_cons in H as [? H] end.
  unfold SkipInitConnection, enc_init.
  eapply parses_bind; [by apply parses_Uint32_id|].
  eapply parses_bind; [apply parses_Int32|].
  do 6 (eapply parses_bind; [by apply parses_GetBytes|]).
  apply (parses_bind _ _ _ _ tt).
  - destruct (ic_proxy c) as [[address port]|].
    + destruct Hp as [-> Ha]. unfold short in Ha. cbn [when].
      eapply parses_bind; [by apply parses_ConsumeID|].
      eapply parses_bind; [by apply parses_GetBytes|].
      apply (parses_bind_ret _ (fun _ => tt) _ (s32 port)), parses_Int32.
    + rewrite Hp. apply parses_ret.
  - destruct (ic_params c) as [j|].
    + destruct Hj as [-> Hj]. by apply SkipJsonValue_parses.
    + rewrite Hj. apply parses_ret.
Qed.

Lemma bind_PeekID {A} (k : Z -> M bytes A) id e :
  is_u32 id -> bind PeekID k (le_bytes 4 id ++ e) = k id (le_bytes 4 id ++ e).
Proof. intros H. erewrite bind_Ok by apply PeekID_run. by rewrite u32_id. Qed.

(** One iteration takes one wrapper off. *)
Lemma UnwrapLoop_step fuel w rest :
  wrapper_ok w -> UnwrapLoop (S fuel) (enc_wrapper w ++ rest) = UnwrapLoop fuel rest.
Proof.
  intros Hw. cbn [UnwrapLoop]. destruct w as [layer| |id|c]; cbn [enc_wrapper];
    rewrite <- ?app_assoc; rewrite bind_PeekID by done.
  - change (kInvokeWithLayerTypeId =? kInvokeWithLayerTypeId) with true; cbv iota.
    erewrite bind_Ok by (by apply parses_ConsumeID). by erewrite bind_Ok by apply parses_Int32.
  - change (kInvokeWithoutUpdatesTypeId =? kInvokeWithLayerTypeId) with false.
    change (kInvokeWithoutUpdatesTypeId =? kInvokeWithoutUpdatesTypeId) with true. cbv iota.
    by erewrite bind_Ok by (by apply parses_ConsumeID).
  - change (kInvokeAfterMsgTypeId =? kInvokeWithLayerTypeId) with false.
    change (kInvokeAfterMsgTypeId =? kInvokeWithoutUpdatesTypeId) with false.
    change (kInvokeAfterMsgTypeId =? kInvokeAfterMsgTypeId) with true. cbv iota.
    erewrite bind_Ok by (by apply parses_ConsumeID). by erewrite bind_Ok by apply parses_Long.
  - change (kInitConnectionTypeId =? kInvokeWithLayerTypeId) with false.
    change (kInitConnectionTypeId =? kInvokeWithoutUpdatesTypeId) with false.
    change (kInitConnectionTypeId =? kInvokeAfterMsgTypeId) with false.
    change (kInitConnectionTypeId =? kInitConnectionTypeId) with true. cbv iota.
    erewrite bind_Ok by (by apply parses_ConsumeID).
    by erewrite bind_Ok by (by apply SkipInitConnection_parses).
Qed.

Lemma UnwrapLoop_call fuel call :
  (0 < fuel)%nat -> 4 <= zlen call -> is_wrapper_id (ReadU32LE call) = false ->
  UnwrapLoop fuel call = (Ok tt, call).
Proof.
  intros Hf Hl Hid. destruct fuel as [|fuel]; [lia|]. cbn [UnwrapLoop].
  erewrite bind_Ok by (by apply PeekID_ok). unfold is_wrapper_id in Hid.
  rewrite !orb_false_iff in Hid. destruct Hid as (((-> & ->) & ->) & ->). done.
Qed.

Lemma UnwrapLoop_wrappers ws fuel call :
  (length ws < fuel)%nat -> Forall wrapper_ok ws -> 4 <= zlen call ->
  is_wrapper_id (ReadU32LE call) = false ->
  UnwrapLoop fuel (concat (map enc_wrapper ws) ++ call) = (Ok tt, call).
Proof.
  intros Hf Hws Hl Hid. revert fuel Hf. induction Hws as [|w ws Hw Hws IH]; intros fuel Hf.
  - apply UnwrapLoop_call; [cbn in Hf; lia | done | done].
  - destruct fuel as [|fuel]; [lia|]. cbn [map concat]. rewrite <- app_assoc, UnwrapLoop_step by done.
    apply IH. cbn in Hf. lia.
Qed.

Lemma wrappers_length ws :
  (length ws <= length (concat (map enc_wrapper ws)))%nat.
Proof.
  induction ws as [|w ws IH]; [done|]. cbn [map concat length]. rewrite length_app.
  enough (0 < length (enc_wrapper w))%nat by lia.
  destruct w; cbn [enc_wrapper]; rewrite ?length_app, length_le_bytes; lia.
Qed.

(** ** Properties *)

(** Unwrapping is transparent: around any call whose own id is not a
    wrapper's, any nesting of [invokeWithLayer], [invokeWithoutUpdates],
    [invokeAfterMsg] and [initConnection] (with or without its proxy and its
    arbitrarily nested JSON parameters) is removed, and exactly the call is
    left in the buffer. *)
Theorem UnwrapInvokeWrappers_transparent (ws : list wrapper) (call : bytes)
    (Hws : Forall wrapper_ok ws) (Hcall : 4 <= zlen call)
    (Hid : is_wrapper_id (ReadU32LE call) = false) :
  UnwrapInvokeWrappers (concat (map enc_wrapper ws) ++ call) = (Ok tt, call).
Proof.
  apply UnwrapLoop_wrappers; [|done..]. rewrite length_app.
  pose proof (wrappers_length ws). unfold zlen in Hcall. lia.
Qed.

Definition sample_wrappers : list wrapper :=
  [InvokeWithLayer 214;
   InitConn (InitConnection 3 6 (lit "Pixel") (lit "14") (lit "1.0") (lit "en") [] (lit "en")
     (Some (lit "10.0.0.1", 443))
     (Some (JsonObject [(lit "tz_offset", JsonNumber 3600); (lit "perf", JsonArray [JsonNull;
       JsonBool true; JsonString (lit "x")])])));
   InvokeAfterMsg 77; InvokeWithoutUpdates].

Lemma UnwrapInvokeWrappers_transparent_witness :
  UnwrapInvokeWrappers (concat (map enc_wrapper sample_wrappers) ++ le_bytes 4 0xc4f9186b) =
  (Ok tt, le_bytes 4 0xc4f9186b).
Proof.
  apply UnwrapInvokeWrappers_transparent; [|done|done].
  repeat constructor; unfold short; done.
Defined.

(** C35. On any buffer whatever the loop ends (the length of the buffer
    bounds the iterations and the JSON nesting), having taken a prefix of it;
    it throws nothing but an unexpected-id or an underrun error, and if it
    does not throw, what is left starts with a complete id that is not a
    wrapper's. *)
Theorem UnwrapInvokeWrappers_total (b : bytes) :
  exists r b' taken, UnwrapInvokeWrappers b = (r, b') /\ b = taken ++ b' /\
    (forall e, r = Throw e -> tl_exn e = true) /\
    (r = Ok tt -> 4 <= zlen b' /\ is_wrapper_id (ReadU32LE b') = false).
Proof.
  destruct (UnwrapInvokeWrappers b) as [r b'] eqn:E.
  destruct (consumes_UnwrapLoop _ _ _ _ E) as [taken Htaken].
  exists r, b', taken. split; [done|]. split; [done|]. split.
  - intros e ->. by apply (UnwrapInvokeWrappers_exn b e b').
  - intros ->. by apply (UnwrapLoop_stops _ _ _ E).
Qed.
