(* ===== verification/Cipher.v ===== *)
(** * Message encryption

    [aes_ige.cpp], [message_cipher.cpp], [kdf_v1.cpp] and [bind.cpp] over the
    primitives of [OpenSSL].  The theorems: IGE decryption undoes encryption,
    a message encrypted by one side is what the other decrypts, what
    [DecryptMessage] accepts is authenticated and well-formed, and the same
    for the binding envelope. *)

From Stdlib Require Import ZArith Lia Strings.Byte Strings.String.
From stdpp Require Import base decidable list.
From S2P Require Import Prelude TL OpenSSL Schema Messages.
Import TLBuffer.

Section Cipher.
Context {ssl : OpenSSL}.

(** ** AES-IGE ([aes_ige.cpp]) *)

Definition kBlockSize : Z := 16.

Definition XorBlock (a b : bytes) : bytes := xor_bytes a b.

Definition CheckIgeArgs (iv data : bytes) : res unit :=
  if negb (zlen iv =? 2 * kBlockSize) then
    Throw (InvalidArgument "IGE iv must be 32 bytes (two block IVs)")
  else if negb (zlen data mod kBlockSize =? 0) then
    Throw (InvalidArgument "IGE data must be a multiple of the block size")
  else Ok tt.

(** The constructor of [RawAesBlock]. *)
Definition CheckAesKey (key : bytes) : res unit :=
  if aes_key_size (zlen key) then Ok tt
  else Throw (InvalidArgument "AES key must be 16, 24 or 32 bytes").

(** [for (o = 0; o < data.size(); o += kBlockSize)], over [n] blocks. *)
Fixpoint IgeEncryptBlocks (key : bytes) (n : nat) (c m data : bytes) : bytes :=
  match n with
  | O => []
  | S n =>
      let d := ztake kBlockSize data in
      let block := XorBlock d c in
      let block := aes_encrypt_block key block in
      let out := XorBlock block m in
      out ++ IgeEncryptBlocks key n out d (zdrop kBlockSize data)
  end.

Fixpoint IgeDecryptBlocks (key : bytes) (n : nat) (c m data : bytes) : bytes :=
  match n with
  | O => []
  | S n =>
      let t := ztake kBlockSize data in
      let block := XorBlock t m in
      let block := aes_decrypt_block key block in
      let out := XorBlock block c in
      out ++ IgeDecryptBlocks key n t out (zdrop kBlockSize data)
  end.

Definition block_count (data : bytes) : nat := Z.to_nat (zlen data / kBlockSize).

Definition IgeEncrypt (key iv data : bytes) : res bytes :=
  _ <-? CheckIgeArgs iv data ;;
  _ <-? CheckAesKey key ;;
  Ok (IgeEncryptBlocks key (block_count data) (ztake kBlockSize iv) (zdrop kBlockSize iv) data).

Definition IgeDecrypt (key iv data : bytes) : res bytes :=
  _ <-? CheckIgeArgs iv data ;;
  _ <-? CheckAesKey key ;;
  Ok (IgeDecryptBlocks key (block_count data) (ztake kBlockSize iv) (zdrop kBlockSize iv) data).

(** ** MTProto 2.0 messages ([message_cipher.cpp]) *)

Inductive Side : Type := kClient | kServer.

Definition OppositeSide (s : Side) : Side :=
  match s with kClient => kServer | kServer => kClient end.

Definition SideOffset (side : Side) : Z :=
  match side with kClient => 0 | kServer => 8 end.

Definition Sha256A (auth_key msg_key : bytes) (x : Z) : bytes :=
  sha256 (msg_key ++ zslice x 36 auth_key).
Definition Sha256B (auth_key msg_key : bytes) (x : Z) : bytes :=
  sha256 (zslice (40 + x) 36 auth_key ++ msg_key).

Definition ComposeKeyOrIv (a b : bytes) : bytes :=
  ztake 8 a ++ zslice 8 16 b ++ zslice 24 8 a.

Definition AuthKeyId (auth_key : bytes) : bytes := zdrop 12 (sha1 auth_key).
Definition AuthKeyAuxHash (auth_key : bytes) : bytes := ztake 8 (sha1 auth_key).

Definition MessageKey (auth_key plaintext_padded : bytes) (side : Side) : bytes :=
  let x := SideOffset side in
  let large := sha256 (zslice (88 + x) 32 auth_key ++ plaintext_padded) in
  zslice 8 16 large.

(** The key and the iv. *)
Definition DeriveMessageKeys (auth_key msg_key : bytes) (side : Side) : bytes * bytes :=
  let x := SideOffset side in
  let a := Sha256A auth_key msg_key x in
  let b := Sha256B auth_key msg_key x in
  (ComposeKeyOrIv a b, ComposeKeyOrIv b a).

(** [%] of C++ on [int]. *)
Definition CountPadding (plaintext_len : Z) (rand_byte : byte) : Z :=
  let padding := Z.rem (16 - Z.rem plaintext_len 16) 16 in
  let padding := if padding <? 12 then padding + 16 else padding in
  padding + Z.land (bz rand_byte) 0x0F * 16.

Record EncryptedMessageData : Type := MkData {
  salt : Z; session_id : Z; message_id : Z; seq_no : Z; message_data : bytes }.

Record EncryptedMessage : Type := MkEncrypted {
  auth_key_id : bytes; msg_key : bytes; encrypted_data : bytes }.

Definition EncryptedMessage_Encode (m : EncryptedMessage) (b : bytes) : bytes :=
  let b := Put (auth_key_id m) b in
  let b := PutInt128 (msg_key m) b in
  Put (encrypted_data m) b.

Definition EncryptedMessage_Decode : M bytes EncryptedMessage :=
  b <- get ;;
  guard (24 <=? zlen b) BufferUnderrunError ;;;
  erase 8 ;;;
  msg_key <- GetInt128 ;;
  encrypted_data <- get ;;
  put [] ;;;
  ret (MkEncrypted (ztake 8 b) msg_key encrypted_data).

(** The plaintext before its padding. *)
Definition EncryptHeader (d : EncryptedMessageData) : bytes :=
  let b := PutLong (salt d) [] in
  let b := PutLong (session_id d) b in
  let b := PutLong (message_id d) b in
  let b := PutInt32 (seq_no d) b in
  let b := PutInt32 (s32 (zlen (message_data d))) b in
  Put (message_data d) b.

Definition EncryptMessage {S} (rand : RandomFill S) (auth_key : bytes)
    (d : EncryptedMessageData) (encrypt_as : Side) : M S EncryptedMessage :=
  let plaintext := EncryptHeader d in
  let offset := zlen plaintext in
  rand_byte <- rand 1 ;;
  let padding := CountPadding (s32 offset) (hd x00 rand_byte) in
  tail <- rand padding ;;
  let plaintext := plaintext ++ tail in
  let msg_key := MessageKey auth_key plaintext encrypt_as in
  let '(key, iv) := DeriveMessageKeys auth_key msg_key encrypt_as in
  encrypted_data <- lift (IgeEncrypt key iv plaintext) ;;
  ret (MkEncrypted (AuthKeyId auth_key) msg_key encrypted_data).

Definition kMaxPadding : Z := 1024.

(** The checks on the decrypted plaintext, from [TLBuffer b] on. *)
Definition ReadPlaintext : M bytes EncryptedMessageData :=
  salt <- Long ;;
  session_id <- Long ;;
  message_id <- Long ;;
  seq_no <- Int32 ;;
  message_data_len <- Int32 ;;
  b <- get ;;
  let remaining := s32 (zlen b) in
  guard (0 <=? message_data_len) (RuntimeError "message length is invalid: negative") ;;;
  guard (Z.rem message_data_len 4 =? 0)
    (RuntimeError "message length is invalid: not divisible by 4") ;;;
  guard (message_data_len <=? remaining)
    (RuntimeError "message length exceeds available data") ;;;
  guard (remaining - message_data_len <=? kMaxPadding)
    (RuntimeError "padding of message is too big") ;;;
  ret (MkData salt session_id message_id seq_no (ztake message_data_len b)).

Definition DecryptMessage (auth_key : bytes) (encrypted : EncryptedMessage)
    (decrypt_as : Side) : res EncryptedMessageData :=
  if bool_decide (auth_key_id encrypted <> AuthKeyId auth_key) then
    Throw (RuntimeError "unknown auth key id")
  else if negb (zlen (encrypted_data encrypted) mod 16 =? 0) then
    Throw (RuntimeError "invalid encrypted data padding")
  else
    let sender_side := OppositeSide decrypt_as in
    let '(key, iv) := DeriveMessageKeys auth_key (msg_key encrypted) sender_side in
    plaintext <-? IgeDecrypt key iv (encrypted_data encrypted) ;;
    if bool_decide (MessageKey auth_key plaintext sender_side <> msg_key encrypted) then
      Throw (RuntimeError "msg_key is invalid")
    else if zlen plaintext <? 32 then Throw (RuntimeError "encrypted message data too short")
    else fst (ReadPlaintext plaintext).

(** ** The binding envelope ([kdf_v1.cpp], [bind.cpp]) *)

Definition Sha1a (auth_key msg_key : bytes) : bytes := sha1 (msg_key ++ ztake 32 auth_key).
Definition Sha1b (auth_key msg_key : bytes) : bytes :=
  sha1 (zslice 32 16 auth_key ++ msg_key ++ zslice 48 16 auth_key).
Definition Sha1c (auth_key msg_key : bytes) : bytes := sha1 (zslice 64 32 auth_key ++ msg_key).
Definition Sha1d (auth_key msg_key : bytes) : bytes := sha1 (msg_key ++ zslice 96 32 auth_key).

Definition MessageKeyV1 (plaintext : bytes) : bytes := zslice 4 16 (sha1 plaintext).

Definition KeysV1 (auth_key msg_key : bytes) : bytes * bytes :=
  let a := Sha1a auth_key msg_key in
  let b := Sha1b auth_key msg_key in
  let c := Sha1c auth_key msg_key in
  let d := Sha1d auth_key msg_key in
  (ztake 8 a ++ zslice 8 12 b ++ zslice 4 12 c,
   zslice 8 12 a ++ ztake 8 b ++ zslice 16 4 c ++ ztake 8 d).

Definition kEnvelopeHeaderLen : Z := 16 + 8 + 4 + 4.

Definition is_zero_byte (b : byte) : bool := bool_decide (b = x00).

Definition EncryptBindMessage {S} (rand : RandomFill S) (perm_key : bytes) (msg_id : Z)
    (inner : BindAuthKeyInner.t) : M S bytes :=
  if forallb is_zero_byte perm_key then
    throw (InvalidArgument "permanent key is zero")
  else
    let payload := BindAuthKeyInner.Encode inner [] in
    random_prefix <- rand 16 ;;
    let plaintext := Put random_prefix [] in
    let plaintext := PutLong msg_id plaintext in
    let plaintext := PutInt32 0 plaintext in
    let plaintext := PutInt32 (s32 (zlen payload)) plaintext in
    let plaintext := Put payload plaintext in
    let msg_key := MessageKeyV1 plaintext in
    let rem := zlen plaintext mod kBlockSize in
    plaintext <- (if negb (rem =? 0) then
                    padding <- rand (kBlockSize - rem) ;; ret (plaintext ++ padding)
                  else ret plaintext) ;;
    let '(key, iv) := KeysV1 perm_key msg_key in
    encrypted_data <- lift (IgeEncrypt key iv plaintext) ;;
    ret (EncryptedMessage_Encode (MkEncrypted (AuthKeyId perm_key) msg_key encrypted_data) []).

(** The second [try] block: its own exception passes, any other becomes it. *)
Definition ReadBindPlaintext (msg_key plaintext : bytes) : M bytes BindAuthKeyInner.t :=
  ConsumeN 16 ;;;
  Long ;;;
  Int32 ;;;
  msg_len <- Int32 ;;
  guard (0 <? msg_len) BindEncryptedMessageInvalidError ;;;
  let body_end := kEnvelopeHeaderLen + msg_len in
  guard (body_end <=? zlen plaintext) BindEncryptedMessageInvalidError ;;;
  guard (bool_decide (msg_key = MessageKeyV1 (ztake body_end plaintext)))
    BindEncryptedMessageInvalidError ;;;
  local (zdrop kEnvelopeHeaderLen (ztake body_end plaintext))
    (id <- PeekID ;;
     guard (id =? BindAuthKeyInner.kTypeId) BindEncryptedMessageInvalidError ;;;
     ConsumeID BindAuthKeyInner.kTypeId ;;;
     BindAuthKeyInner.DecodeBare).

Definition DecryptBindAuthKeyInner (perm_key encrypted_message : bytes)
    : res BindAuthKeyInner.t :=
  match fst (EncryptedMessage_Decode encrypted_message) with
  | Throw _ => Throw BindEncryptedMessageInvalidError
  | Ok msg =>
      if bool_decide (auth_key_id msg <> AuthKeyId perm_key) ||
         bool_decide (encrypted_data msg = []) ||
         negb (zlen (encrypted_data msg) mod kBlockSize =? 0)
      then Throw BindEncryptedMessageInvalidError
      else
        let '(key, iv) := KeysV1 perm_key (msg_key msg) in
        plaintext <-? IgeDecrypt key iv (encrypted_data msg) ;;
        if zlen plaintext <? kEnvelopeHeaderLen then Throw BindEncryptedMessageInvalidError
        else match fst (ReadBindPlaintext (msg_key msg) plaintext plaintext) with
             | Ok inner => Ok inner
             | Throw _ => Throw BindEncryptedMessageInvalidError
             end
  end.

(** ** IGE *)

Context {laws : OpenSSLLaws}.

Lemma ztake_app_lt n (a b : bytes) : zlen a = n -> ztake n (a ++ b) = a.
Proof. apply ztake_app. Qed.

(** Decrypting undoes encrypting, block by block with the same chaining. *)
Lemma Ige_blocks key n c m data :
  aes_key_size (zlen key) = true -> zlen c = 16 -> zlen m = 16 ->
  zlen data = 16 * Z.of_nat n ->
  zlen (IgeEncryptBlocks key n c m data) = 16 * Z.of_nat n /\
  IgeDecryptBlocks key n c m (IgeEncryptBlocks key n c m data) = data.
Proof.
  intros Hk. revert c m data. induction n as [|n IH]; intros c m data Hc Hm Hd.
  { cbn. split; [done|]. symmetry. apply zlen_0_inv. lia. }
  cbn [IgeEncryptBlocks IgeDecryptBlocks]. unfold XorBlock, kBlockSize.
  set (d := ztake 16 data). assert (Hd1 : zlen d = 16) by (apply zlen_ztake; lia).
  assert (Hx : zlen (xor_bytes d c) = 16) by (rewrite zlen_xor_bytes; lia).
  set (out := xor_bytes (aes_encrypt_block key (xor_bytes d c)) m).
  assert (He : zlen (aes_encrypt_block key (xor_bytes d c)) = 16)
    by (by apply zlen_aes_encrypt_block).
  assert (Ho : zlen out = 16) by (unfold out; rewrite zlen_xor_bytes; lia).
  destruct (IH out d (zdrop 16 data) Ho Hd1) as [Hlen Hdec]; [rewrite zlen_zdrop; lia|].
  rewrite ztake_app, zdrop_app by done.
  assert (Hblock : xor_bytes (aes_decrypt_block key (xor_bytes out m)) c = d).
  { unfold out. rewrite xor_bytes_cancel by lia. rewrite aes_decrypt_encrypt by done.
    apply xor_bytes_cancel. lia. }
  rewrite Hblock, Hdec. split; [rewrite zlen_app; lia|].
  unfold d. apply ztake_zdrop.
Qed.

Lemma IgeEncrypt_run key iv data :
  aes_key_size (zlen key) = true -> zlen iv = 32 -> zlen data mod 16 = 0 ->
  exists enc, IgeEncrypt key iv data = Ok enc /\ zlen enc = zlen data /\
    IgeDecrypt key iv enc = Ok data.
Proof.
  intros Hk Hiv Hd. unfold IgeEncrypt, IgeDecrypt, CheckIgeArgs, CheckAesKey, kBlockSize.
  rewrite Hk, Hiv, Hd. cbn [negb Z.eqb Z.mul Pos.mul Pos.eqb rbind].
  pose proof (zlen_nonneg data). pose proof (Z.div_mod (zlen data) 16 ltac:(lia)).
  pose proof (Z.div_pos (zlen data) 16 ltac:(lia) ltac:(lia)).
  destruct (Ige_blocks key (block_count data) (ztake 16 iv) (zdrop 16 iv) data) as [Hl Hr].
  - done.
  - apply zlen_ztake. lia.
  - rewrite zlen_zdrop; lia.
  - unfold block_count, kBlockSize. lia.
  - unfold block_count, kBlockSize in *. eexists. split; [done|].
    set (enc := IgeEncryptBlocks _ _ _ _ _) in *.
    assert (Hel : zlen enc = zlen data) by lia. split; [done|].
    rewrite Hel, Hd. cbn [negb Z.eqb rbind]. by rewrite Hr.
Qed.

(** What decryption accepts, it decrypts to as many bytes. *)
Lemma zlen_IgeDecryptBlocks key n c m data :
  zlen c = 16 -> zlen m = 16 -> zlen data = 16 * Z.of_nat n ->
  zlen (IgeDecryptBlocks key n c m data) = 16 * Z.of_nat n.
Proof.
  revert c m data. induction n as [|n IH]; intros c m data Hc Hm Hd; [done|].
  cbn [IgeDecryptBlocks]. unfold XorBlock, kBlockSize.
  assert (Ht : zlen (ztake 16 data) = 16) by (apply zlen_ztake; lia).
  assert (Ho : zlen (xor_bytes (aes_decrypt_block key (xor_bytes (ztake 16 data) m)) c) = 16).
  { rewrite zlen_xor_bytes; rewrite zlen_aes_decrypt_block; rewrite ?zlen_xor_bytes; lia. }
  rewrite zlen_app, IH by (done || rewrite zlen_zdrop; lia). lia.
Qed.

Lemma IgeDecrypt_zlen key iv data p : IgeDecrypt key iv data = Ok p -> zlen p = zlen data.
Proof.
  unfold IgeDecrypt, CheckIgeArgs, CheckAesKey, kBlockSize.
  destruct (zlen iv =? 2 * 16) eqn:Ei; [|done]. destruct (zlen data mod 16 =? 0) eqn:Ed; [|done].
  cbn [negb rbind]. destruct (aes_key_size (zlen key)); [|done]. cbn [rbind].
  intros [= <-]. apply Z.eqb_eq in Ei, Ed.
  pose proof (zlen_nonneg data). pose proof (Z.div_mod (zlen data) 16 ltac:(lia)).
  pose proof (Z.div_pos (zlen data) 16 ltac:(lia) ltac:(lia)).
  rewrite zlen_IgeDecryptBlocks; unfold block_count, kBlockSize.
  - lia.
  - apply zlen_ztake. lia.
  - rewrite zlen_zdrop; lia.
  - lia.
Qed.

(** ** Padding *)

Lemma CountPadding_spec len r :
  0 <= len ->
  12 <= CountPadding len r <= 267 /\ (len + CountPadding len r) mod 16 = 0.
Proof.
  intros Hlen. unfold CountPadding.
  assert (Hr : 0 <= Z.land (bz r) 15 < 16).
  { change 15 with (Z.ones 4). rewrite Z.land_ones by lia. apply Z.mod_pos_bound. lia. }
  rewrite (Z.rem_mod_nonneg len 16) by lia. pose proof (Z.mod_pos_bound len 16 ltac:(lia)) as Hm.
  rewrite Z.rem_mod_nonneg by lia. pose proof (Z.div_mod len 16 ltac:(lia)) as Hd.
  set (k := Z.land (bz r) 15) in *. set (q := len / 16) in *. set (m := len mod 16) in *.
  destruct (Z.eq_dec m 0) as [E|E].
  - rewrite E. change ((16 - 0) mod 16) with 0. cbn [Z.ltb Z.compare]. split; [lia|].
    replace (len + (0 + 16 + k * 16)) with ((q + 1 + k) * 16) by lia. by apply Z.mod_mul.
  - rewrite (Z.mod_small (16 - m)) by lia. destruct (Z.ltb_spec (16 - m) 12).
    + split; [lia|]. replace (len + (16 - m + 16 + k * 16)) with ((q + 2 + k) * 16) by lia.
      by apply Z.mod_mul.
    + split; [lia|]. replace (len + (16 - m + k * 16)) with ((q + 1 + k) * 16) by lia.
      by apply Z.mod_mul.
Qed.

(** ** Keys *)

Lemma zlen_ComposeKeyOrIv a b : zlen a = 32 -> zlen b = 32 -> zlen (ComposeKeyOrIv a b) = 32.
Proof.
  intros Ha Hb. unfold ComposeKeyOrIv. rewrite !zlen_app, zlen_ztake, !zlen_zslice by lia. done.
Qed.

Lemma DeriveMessageKeys_zlen auth_key mk side key iv :
  DeriveMessageKeys auth_key mk side = (key, iv) -> zlen key = 32 /\ zlen iv = 32.
Proof.
  unfold DeriveMessageKeys. intros [= <- <-].
  split; apply zlen_ComposeKeyOrIv; apply zlen_sha256.
Qed.

Lemma zlen_AuthKeyId auth_key : zlen (AuthKeyId auth_key) = 8.
Proof. unfold AuthKeyId. rewrite zlen_zdrop; rewrite zlen_sha1; lia. Qed.

Lemma zlen_MessageKey auth_key p side : zlen (MessageKey auth_key p side) = 16.
Proof. unfold MessageKey. apply zlen_zslice; rewrite ?zlen_sha256; lia. Qed.

Lemma KeysV1_zlen auth_key mk key iv :
  KeysV1 auth_key mk = (key, iv) -> zlen key = 32 /\ zlen iv = 32.
Proof.
  unfold KeysV1. intros [= <- <-].
  assert (H : forall d, zlen (sha1 d) = 20) by apply zlen_sha1.
  unfold Sha1a, Sha1b, Sha1c, Sha1d.
  split; rewrite !zlen_app; rewrite ?zlen_ztake, ?zlen_zslice by (rewrite ?H; lia); done.
Qed.

(** ** The envelope *)

Lemma EncryptedMessage_Encode_app m b :
  EncryptedMessage_Encode m b = b ++ auth_key_id m ++ msg_key m ++ encrypted_data m.
Proof. unfold EncryptedMessage_Encode. by put_norm. Qed.

Lemma EncryptedMessage_Decode_run m :
  zlen (auth_key_id m) = 8 -> zlen (msg_key m) = 16 ->
  EncryptedMessage_Decode (EncryptedMessage_Encode m []) = (Ok m, []).
Proof.
  intros Ha Hm. rewrite EncryptedMessage_Encode_app. cbn [app].
  pose proof (zlen_nonneg (encrypted_data m)). unfold EncryptedMessage_Decode.
  rewrite bind_get, bind_guard by (apply Z.leb_le; rewrite !zlen_app; lia).
  unfold erase. erewrite bind_Ok by done. rewrite zdrop_app by done.
  erewrite bind_Ok by (by apply parses_GetInt128). rewrite bind_get.
  erewrite bind_Ok by done. rewrite ztake_app by done. by destruct m.
Qed.

(** ** Encrypting, then decrypting *)

Definition header_bytes (d : EncryptedMessageData) : bytes :=
  le_bytes 8 (salt d) ++ le_bytes 8 (session_id d) ++ le_bytes 8 (message_id d) ++
  le_bytes 4 (seq_no d) ++ le_bytes 4 (zlen (message_data d)).

Lemma EncryptHeader_app d : EncryptHeader d = header_bytes d ++ message_data d.
Proof.
  unfold EncryptHeader, header_bytes. put_norm. rewrite UnencryptedMessage.le_bytes_s32.
  by rewrite <- ?app_assoc.
Qed.

Lemma zlen_header_bytes d : zlen (header_bytes d) = 32.
Proof. unfold header_bytes. rewrite !zlen_app, !zlen_le_bytes. done. Qed.

(** Values an [EncryptedMessageData] can hold, with a payload of whole words
    (every TL object) that leaves room for the padding. *)
Definition data_ok (d : EncryptedMessageData) : Prop :=
  is_s64 (salt d) /\ is_s64 (session_id d) /\ is_s64 (message_id d) /\ is_s32 (seq_no d) /\
  zlen (message_data d) < 2 ^ 31 - 2048 /\ zlen (message_data d) mod 4 = 0.

Lemma ReadPlaintext_run d pad :
  data_ok d -> zlen pad <= 1024 ->
  fst (ReadPlaintext (EncryptHeader d ++ pad)) = Ok d.
Proof.
  intros (Hs & Hi & Hm & Hq & Hl & H4) Hp. rewrite EncryptHeader_app. unfold header_bytes.
  rewrite <- !app_assoc. pose proof (zlen_nonneg (message_data d)). pose proof (zlen_nonneg pad).
  unfold ReadPlaintext.
  do 3 (erewrite bind_Ok by (by apply parses_Long_id)).
  do 2 (erewrite bind_Ok by (apply parses_Int32_id; done || (split; lia))).
  rewrite bind_get, zlen_app, s32_id by (split; lia).
  rewrite !bind_guard by (unfold kMaxPadding; lia ||
    (apply Z.eqb_eq; by rewrite Z.rem_mod_nonneg by lia)).
  unfold ret. cbn [fst]. rewrite ztake_app by done. by destruct d.
Qed.

Lemma EncryptMessage_run {S T} (rand : RandomFill S) (keep : S -> T) `{!RandomSource rand keep}
    auth_key d side s :
  data_ok d ->
  exists pad enc s', zlen pad <= 267 /\ 12 <= zlen pad /\ keep s' = keep s /\
    zlen (encrypted_data enc) mod 16 = 0 /\
    EncryptMessage rand auth_key d side s = (Ok enc, s') /\
    auth_key_id enc = AuthKeyId auth_key /\
    msg_key enc = MessageKey auth_key (EncryptHeader d ++ pad) side /\
    zlen (encrypted_data enc) = zlen (EncryptHeader d ++ pad) /\
    (let '(key, iv) := DeriveMessageKeys auth_key (msg_key enc) side in
     IgeDecrypt key iv (encrypted_data enc) = Ok (EncryptHeader d ++ pad)).
Proof.
  intros Hd. unfold EncryptMessage.
  destruct (random_fill 1 s ltac:(lia)) as (r & s1 & E1 & Hr & Hk1).
  cbv zeta. erewrite bind_Ok by exact E1.
  assert (Ho : zlen (EncryptHeader d) = 32 + zlen (message_data d))
    by (rewrite EncryptHeader_app, zlen_app, zlen_header_bytes; done).
  pose proof (zlen_nonneg (message_data d)). destruct Hd as (_ & _ & _ & _ & Hl & _).
  rewrite s32_id by (unfold is_s32; lia).
  destruct (CountPadding_spec (zlen (EncryptHeader d)) (hd x00 r) ltac:(lia)) as [Hp1 Hp2].
  destruct (random_fill (CountPadding (zlen (EncryptHeader d)) (hd x00 r)) s1 ltac:(lia))
    as (pad & s2 & E & Hpad & Hk2).
  erewrite bind_Ok by exact E.
  set (p := EncryptHeader d ++ pad). set (mk := MessageKey auth_key p side).
  destruct (DeriveMessageKeys auth_key mk side) as [key iv] eqn:Ek.
  destruct (DeriveMessageKeys_zlen _ _ _ _ _ Ek) as [Hkey Hiv].
  assert (Hp16 : zlen p mod 16 = 0) by (unfold p; rewrite zlen_app, Hpad; done).
  destruct (IgeEncrypt_run key iv p) as (enc & Hok & Hel & Hdec);
    [by rewrite Hkey | done | done |].
  exists pad, (MkEncrypted (AuthKeyId auth_key) mk enc), s2.
  split; [lia|]. split; [lia|]. split; [by rewrite Hk2|].
  rewrite bind_lift, Hok. cbn [auth_key_id msg_key encrypted_data]. rewrite Ek, Hel.
  split; [exact Hp16|]. repeat split; done.
Qed.

(** A sealed message opens as the other side. *)
Lemma DecryptMessage_run auth_key d side enc pad :
  data_ok d -> zlen pad <= 1024 -> zlen (encrypted_data enc) mod 16 = 0 ->
  auth_key_id enc = AuthKeyId auth_key ->
  msg_key enc = MessageKey auth_key (EncryptHeader d ++ pad) side ->
  (let '(key, iv) := DeriveMessageKeys auth_key (msg_key enc) side in
   IgeDecrypt key iv (encrypted_data enc) = Ok (EncryptHeader d ++ pad)) ->
  DecryptMessage auth_key enc (OppositeSide side) = Ok d.
Proof.
  intros Hd Hp H16 Hid Hmk Hdec.
  assert (Hside : OppositeSide (OppositeSide side) = side) by (by destruct side).
  assert (Hz : zlen (EncryptHeader d ++ pad) = 32 + zlen (message_data d) + zlen pad)
    by (rewrite EncryptHeader_app, !zlen_app, zlen_header_bytes; done).
  pose proof (zlen_nonneg (message_data d)). pose proof (zlen_nonneg pad).
  unfold DecryptMessage. rewrite Hid, bool_decide_eq_false_2 by tauto.
  rewrite H16, Hside. cbn [negb Z.eqb].
  destruct (DeriveMessageKeys auth_key (msg_key enc) side) as [key iv]. rewrite Hdec. cbn [rbind].
  rewrite bool_decide_eq_false_2 by (rewrite Hmk; tauto).
  destruct (Z.ltb_spec (zlen (EncryptHeader d ++ pad)) 32); [lia|].
  by apply ReadPlaintext_run.
Qed.

(** Decomposing a successful check of the plaintext. *)
Lemma guard_inv {S A} (c : bool) e (k : unit -> M S A) s r s' :
  bind (guard c e) k s = (Ok r, s') -> c = true /\ k tt s = (Ok r, s').
Proof. unfold bind, guard, ret, throw. by destruct c. Qed.

Lemma ReadPlaintext_inv p d s' :
  zlen p < 2 ^ 31 -> ReadPlaintext p = (Ok d, s') ->
  exists pad, p = header_bytes d ++ message_data d ++ pad /\ zlen pad <= 1024 /\
    zlen (message_data d) mod 4 = 0.
Proof.
  intros Hp. unfold ReadPlaintext. intros H.
  do 5 (apply bind_Ok_inv in H as (? & ? & ?Hr & H)).
  apply Long_inv in Hr as [-> _], Hr0 as [-> _], Hr1 as [-> _].
  apply Int32_inv in Hr2 as [-> _], Hr3 as [-> _].
  rewrite bind_get in H. do 4 (apply guard_inv in H as [? H]). injection H as <- <-.
  rewrite !zlen_app, !zlen_le_bytes in Hp. pose proof (zlen_nonneg x8).
  assert (E : s32 (zlen x8) = zlen x8) by (apply s32_id; split; lia).
  rewrite E in *. unfold kMaxPadding in *.
  assert (Hl : zlen (ztake x7 x8) = x7) by (apply zlen_ztake; lia).
  exists (zdrop x7 x8). unfold header_bytes. cbn [salt session_id message_id seq_no message_data].
  rewrite Hl, <- !app_assoc, ztake_zdrop. split; [done|]. split; [rewrite zlen_zdrop; lia|].
  apply Z.eqb_eq in H1. by rewrite Z.rem_mod_nonneg in H1 by lia.
Qed.

(** ** Properties *)

(** C31. What one side encrypts, the other decrypts: any message (payload of
    whole words) goes through [EncryptMessage] and [DecryptMessage] as the
    opposite side unchanged, whatever the random bytes; the ciphertext is a
    whole number of AES blocks, 12 to 267 bytes longer than header and
    payload. *)
Theorem EncryptMessage_DecryptMessage {S T} (rand : RandomFill S) (keep : S -> T)
    (Hrand : RandomSource rand keep) (auth_key : bytes) (d : EncryptedMessageData)
    (side : Side) (s : S) (Hd : data_ok d) :
  exists enc s', EncryptMessage rand auth_key d side s = (Ok enc, s') /\ keep s' = keep s /\
    DecryptMessage auth_key enc (OppositeSide side) = Ok d /\
    zlen (encrypted_data enc) mod 16 = 0 /\
    12 <= zlen (encrypted_data enc) - (32 + zlen (message_data d)) <= 267.
Proof.
  destruct (EncryptMessage_run rand keep auth_key d side s Hd)
    as (pad & enc & s' & Hp & Hp' & Hk & H16 & E & Hid & Hmk & Hlen & Hdec).
  exists enc, s'. split; [done|]. split; [done|].
  assert (Hz : zlen (EncryptHeader d ++ pad) = 32 + zlen (message_data d) + zlen pad)
    by (rewrite EncryptHeader_app, !zlen_app, zlen_header_bytes; done).
  split; [apply (DecryptMessage_run _ _ _ _ pad); done || lia|].
  split; [done | rewrite Hlen, Hz; lia].
Qed.

(** C30. What [DecryptMessage] accepts is authenticated and well-formed: it
    was sealed for this auth key, by the opposite side (its [msg_key] is that
    side's hash of the decrypted plaintext), and the plaintext is exactly the
    returned header and payload, a whole number of words, followed by at most
    1024 bytes of padding. *)
Theorem DecryptMessage_accepts (auth_key : bytes) (e : EncryptedMessage) (side : Side)
    (d : EncryptedMessageData) (Hsize : zlen (encrypted_data e) < 2 ^ 31)
    (Hok : DecryptMessage auth_key e side = Ok d) :
  auth_key_id e = AuthKeyId auth_key /\
  exists pad,
    let plaintext := header_bytes d ++ message_data d ++ pad in
    (let '(key, iv) := DeriveMessageKeys auth_key (msg_key e) (OppositeSide side) in
     IgeDecrypt key iv (encrypted_data e) = Ok plaintext) /\
    msg_key e = MessageKey auth_key plaintext (OppositeSide side) /\
    zlen pad <= 1024 /\ zlen (message_data d) mod 4 = 0.
Proof.
  unfold DecryptMessage in Hok. case_bool_decide as Hid; [done|].
  destruct (zlen (encrypted_data e) mod 16 =? 0); [|done]. cbn [negb] in Hok.
  split; [by destruct (decide (auth_key_id e = AuthKeyId auth_key))|].
  destruct (DeriveMessageKeys auth_key (msg_key e) (OppositeSide side)) as [key iv] eqn:Ek.
  destruct (IgeDecrypt key iv (encrypted_data e)) as [p|] eqn:Ep; [|done]. cbn [rbind] in Hok.
  pose proof (IgeDecrypt_zlen _ _ _ _ Ep) as Hp.
  case_bool_decide as Hmk; [done|]. destruct (zlen p <? 32); [done|].
  destruct (ReadPlaintext p) as [r s'] eqn:Er. cbn [fst] in Hok. subst r.
  destruct (ReadPlaintext_inv p d s') as (pad & Hpad & Hl & H4); [lia|done|].
  exists pad. cbv zeta. rewrite <- Hpad.
  destruct (decide (MessageKey auth_key p (OppositeSide side) = msg_key e)); done.
Qed.

Lemma IgeDecrypt_total key iv data :
  zlen key = 32 -> zlen iv = 32 -> zlen data mod 16 = 0 ->
  exists p, IgeDecrypt key iv data = Ok p /\ zlen p = zlen data.
Proof.
  intros Hk Hi Hd. destruct (IgeDecrypt key iv data) as [p|e] eqn:E.
  - exists p. split; [done|]. by apply IgeDecrypt_zlen in E.
  - revert E. unfold IgeDecrypt, CheckIgeArgs, CheckAesKey, kBlockSize. rewrite Hk, Hi, Hd. done.
Qed.

(** *** The binding envelope *)

Definition inner_ok (i : BindAuthKeyInner.t) : Prop :=
  is_s64 (BindAuthKeyInner.nonce i) /\ is_s64 (BindAuthKeyInner.temp_auth_key_id i) /\
  is_s64 (BindAuthKeyInner.perm_auth_key_id i) /\ is_s64 (BindAuthKeyInner.temp_session_id i) /\
  is_s32 (BindAuthKeyInner.expires_at i).

Definition enc_inner (i : BindAuthKeyInner.t) : bytes :=
  le_bytes 4 BindAuthKeyInner.kTypeId ++ le_bytes 8 (BindAuthKeyInner.nonce i) ++
  le_bytes 8 (BindAuthKeyInner.temp_auth_key_id i) ++
  le_bytes 8 (BindAuthKeyInner.perm_auth_key_id i) ++
  le_bytes 8 (BindAuthKeyInner.temp_session_id i) ++ le_bytes 4 (BindAuthKeyInner.expires_at i).

Lemma zlen_enc_inner i : zlen (enc_inner i) = 40.
Proof. unfold enc_inner. by rewrite !zlen_app, !zlen_le_bytes. Qed.

Lemma BindInner_parses i : inner_ok i -> parses (
    id <- PeekID ;;
    guard (id =? BindAuthKeyInner.kTypeId) BindEncryptedMessageInvalidError ;;;
    ConsumeID BindAuthKeyInner.kTypeId ;;; BindAuthKeyInner.DecodeBare) (enc_inner i) i.
Proof.
  intros (H1 & H2 & H3 & H4 & H5). unfold enc_inner, BindAuthKeyInner.DecodeBare.
  destruct i. cbn [BindAuthKeyInner.nonce BindAuthKeyInner.temp_auth_key_id
    BindAuthKeyInner.perm_auth_key_id BindAuthKeyInner.temp_session_id
    BindAuthKeyInner.expires_at] in *. parse.
Qed.

(** The envelope's plaintext without padding. *)
Definition bind_plain (prefix : bytes) (msg_id : Z) (i : BindAuthKeyInner.t) : bytes :=
  prefix ++ le_bytes 8 msg_id ++ le_bytes 4 0 ++ le_bytes 4 40 ++ enc_inner i.

Lemma zlen_bind_plain prefix msg_id i :
  zlen prefix = 16 -> zlen (bind_plain prefix msg_id i) = 72.
Proof.
  intros H. unfold bind_plain. by rewrite !zlen_app, !zlen_le_bytes, zlen_enc_inner, H.
Qed.

Lemma ReadBindPlaintext_run prefix msg_id i pad :
  zlen prefix = 16 -> is_s64 msg_id -> inner_ok i ->
  let plain := bind_plain prefix msg_id i in
  fst (ReadBindPlaintext (MessageKeyV1 plain) (plain ++ pad) (plain ++ pad)) = Ok i.
Proof.
  intros Hp Hm Hi plain. pose proof (zlen_bind_plain prefix msg_id i Hp) as Hl.
  fold plain in Hl. pose proof (zlen_nonneg pad).
  assert (Hq : plain ++ pad = prefix ++ le_bytes 8 msg_id ++ le_bytes 4 0 ++ le_bytes 4 40 ++
    enc_inner i ++ pad) by (unfold plain, bind_plain; by rewrite <- !app_assoc).
  rewrite Hq at 2. unfold ReadBindPlaintext.
  erewrite bind_Ok by (by apply parses_ConsumeN).
  erewrite bind_Ok by (by apply parses_Long_id).
  do 2 (erewrite bind_Ok by (by apply parses_Int32_id)).
  change (kEnvelopeHeaderLen + 40) with 72. rewrite ztake_app by done.
  rewrite bind_guard by done. cbv zeta. rewrite zlen_app, Hl.
  rewrite bind_guard by (apply Z.leb_le; lia).
  rewrite bind_guard by (by apply bool_decide_eq_true).
  unfold local, lift. cbn [fst].
  assert (E : zdrop kEnvelopeHeaderLen plain = enc_inner i).
  { unfold plain, bind_plain. rewrite !app_assoc. apply zdrop_app.
    by rewrite !zlen_app, !zlen_le_bytes, Hp. }
  rewrite E, <- (app_nil_r (enc_inner i)). by rewrite BindInner_parses.
Qed.

Lemma EncryptBindMessage_run {S T} (rand : RandomFill S) (keep : S -> T)
    (Hrand : RandomSource rand keep) (perm_key : bytes) (msg_id : Z)
    (inner : BindAuthKeyInner.t) (s : S)
    (Hkey : forallb is_zero_byte perm_key = false) (Hid : is_s64 msg_id)
    (Hinner : inner_ok inner) :
  exists enc s', EncryptBindMessage rand perm_key msg_id inner s = (Ok enc, s') /\
    DecryptBindAuthKeyInner perm_key enc = Ok inner.
Proof.
  unfold EncryptBindMessage. rewrite Hkey.
  destruct (random_fill 16 s ltac:(lia)) as (prefix & s1 & E1 & Hp & _).
  cbv zeta. erewrite bind_Ok by exact E1.
  assert (Hplain : Put (BindAuthKeyInner.Encode inner []) (PutInt32 (s32 (zlen
    (BindAuthKeyInner.Encode inner []))) (PutInt32 0 (PutLong msg_id (Put prefix [])))) =
    bind_plain prefix msg_id inner).
  { assert (E : BindAuthKeyInner.Encode inner [] = enc_inner inner)
      by (unfold BindAuthKeyInner.Encode, enc_inner; by put_norm).
    rewrite E, zlen_enc_inner. put_norm. done. }
  rewrite Hplain, zlen_bind_plain by done. change (72 mod kBlockSize) with 8. cbn [negb Z.eqb].
  change (kBlockSize - 8) with 8.
  destruct (random_fill 8 s1 ltac:(lia)) as (pad & s2 & E2 & Hpad & _).
  set (plain := bind_plain prefix msg_id inner).
  assert (Ep : (padding <- rand 8 ;; ret (plain ++ padding)) s1 = (Ok (plain ++ pad), s2))
    by (by erewrite bind_Ok by exact E2).
  erewrite bind_Ok by exact Ep.
  destruct (KeysV1 perm_key (MessageKeyV1 plain)) as [key iv] eqn:Ek.
  destruct (KeysV1_zlen _ _ _ _ Ek) as [Hk Hi].
  assert (Hz : zlen (plain ++ pad) = 80)
    by (rewrite zlen_app, Hpad; unfold plain; by rewrite zlen_bind_plain).
  destruct (IgeEncrypt_run key iv (plain ++ pad)) as (enc & He & Hel & Hdec);
    [by rewrite Hk | done | by rewrite Hz |].
  rewrite bind_lift, He. eexists _, s2. split; [done|].
  unfold DecryptBindAuthKeyInner. rewrite EncryptedMessage_Decode_run;
    cbn [fst auth_key_id msg_key encrypted_data];
    [|apply zlen_AuthKeyId|unfold MessageKeyV1; apply zlen_zslice; rewrite ?zlen_sha1; lia].
  rewrite bool_decide_eq_false_2 by tauto.
  rewrite bool_decide_eq_false_2 by (intros ->; rewrite Hz in Hel; discriminate Hel).
  rewrite Hel, Hz. change (negb (80 mod kBlockSize =? 0)) with false. cbn [orb].
  rewrite Ek, Hdec. cbn [rbind]. rewrite Hz. change (80 <? kEnvelopeHeaderLen) with false. cbv iota.
  unfold plain. by rewrite ReadBindPlaintext_run.
Qed.

(** The envelope a client builds with [EncryptBindMessage] under its
    (non-zero) permanent key is opened by [DecryptBindAuthKeyInner] with that
    key to the same [bind_auth_key_inner], whatever the random bytes. *)
Theorem EncryptBindMessage_opens {S T} (rand : RandomFill S) (keep : S -> T)
    (Hrand : RandomSource rand keep) (perm_key : bytes) (msg_id : Z)
    (inner : BindAuthKeyInner.t) (s : S)
    (Hkey : forallb is_zero_byte perm_key = false) (Hid : is_s64 msg_id)
    (Hinner : inner_ok inner) :
  exists enc s', EncryptBindMessage rand perm_key msg_id inner s = (Ok enc, s') /\
    DecryptBindAuthKeyInner perm_key enc = Ok inner.
Proof. exact (EncryptBindMessage_run rand keep Hrand perm_key msg_id inner s Hkey Hid Hinner). Qed.

Lemma DecryptBindAuthKeyInner_result (perm_key encrypted_message : bytes) :
  match DecryptBindAuthKeyInner perm_key encrypted_message with
  | Throw e => e = BindEncryptedMessageInvalidError
  | Ok _ => exists msg plaintext body_end,
      fst (EncryptedMessage_Decode encrypted_message) = Ok msg /\
      auth_key_id msg = AuthKeyId perm_key /\
      (let '(key, iv) := KeysV1 perm_key (msg_key msg) in
       IgeDecrypt key iv (encrypted_data msg) = Ok plaintext) /\
      kEnvelopeHeaderLen < body_end <= zlen plaintext /\
      msg_key msg = MessageKeyV1 (ztake body_end plaintext)
  end.
Proof.
  unfold DecryptBindAuthKeyInner.
  destruct (fst (EncryptedMessage_Decode encrypted_message)) as [msg|] eqn:Em; [|done].
  destruct (_ || _) eqn:Ec; [done|]. apply orb_false_iff in Ec as [Ec H16].
  apply orb_false_iff in Ec as [Hid _]. apply bool_decide_eq_false in Hid.
  apply negb_false_iff, Z.eqb_eq in H16.
  destruct (KeysV1 perm_key (msg_key msg)) as [key iv] eqn:Ek.
  destruct (KeysV1_zlen _ _ _ _ Ek) as [Hk Hi].
  destruct (IgeDecrypt_total key iv (encrypted_data msg) Hk Hi H16) as (p & Ep & Hp).
  rewrite Ep. cbn [rbind]. destruct (zlen p <? kEnvelopeHeaderLen); [done|].
  destruct (ReadBindPlaintext (msg_key msg) p p) as [[inner|e] s'] eqn:Er; cbn [fst]; [|done].
  unfold ReadBindPlaintext in Er.
  do 4 (apply bind_Ok_inv in Er as (? & ? & _ & Er)).
  apply guard_inv in Er as [H0 Er]. cbv zeta in Er.
  do 2 (apply guard_inv in Er as [? Er]). apply bool_decide_eq_true in H1.
  eexists msg, p, (kEnvelopeHeaderLen + x5). rewrite Ek.
  split; [done|]. split; [by destruct (decide (auth_key_id msg = AuthKeyId perm_key))|].
  split; [done|]. split; [lia|done].
Qed.

(** On any bytes at all [DecryptBindAuthKeyInner] either returns or
    throws [BindEncryptedMessageInvalidError]; it returns only for an envelope
    addressed to this permanent key whose [msg_key] is the hash of the
    decrypted header and body. *)
Theorem DecryptBindAuthKeyInner_sound (perm_key encrypted_message : bytes) :
  match DecryptBindAuthKeyInner perm_key encrypted_message with
  | Throw e => e = BindEncryptedMessageInvalidError
  | Ok _ => exists msg plaintext body_end,
      fst (EncryptedMessage_Decode encrypted_message) = Ok msg /\
      auth_key_id msg = AuthKeyId perm_key /\
      (let '(key, iv) := KeysV1 perm_key (msg_key msg) in
       IgeDecrypt key iv (encrypted_data msg) = Ok plaintext) /\
      kEnvelopeHeaderLen < body_end <= zlen plaintext /\
      msg_key msg = MessageKeyV1 (ztake body_end plaintext)
  end.
Proof. exact (DecryptBindAuthKeyInner_result perm_key encrypted_message). Qed.

End Cipher.

(** ** Witnesses *)

Section Witnesses.
#[local] Existing Instances Toy.toy Toy.toy_laws.

Definition sample_key : bytes := replicate 256 x05.
Definition sample_data : EncryptedMessageData := MkData 1 2 3 4 (lit "abcdefgh").
Definition sample_inner : BindAuthKeyInner.t := BindAuthKeyInner.Mk 11 12 13 14 15.

Lemma EncryptMessage_DecryptMessage_witness :
  exists enc s', EncryptMessage Toy.zeros sample_key sample_data kClient tt = (Ok enc, s') /\
    id s' = id tt /\ DecryptMessage sample_key enc kServer = Ok sample_data /\
    zlen (encrypted_data enc) mod 16 = 0 /\
    12 <= zlen (encrypted_data enc) - (32 + zlen (message_data sample_data)) <= 267.
Proof.
  apply (EncryptMessage_DecryptMessage Toy.zeros id Toy.zeros_random sample_key sample_data
    kClient tt).
  repeat split; discriminate || reflexivity.
Defined.

Definition sample_encrypted : EncryptedMessage :=
  match fst (EncryptMessage Toy.zeros sample_key sample_data kClient tt) with
  | Ok e => e
  | Throw _ => MkEncrypted [] [] []
  end.

Lemma DecryptMessage_accepts_witness :
  auth_key_id sample_encrypted = AuthKeyId sample_key /\
  exists pad,
    let plaintext := header_bytes sample_data ++ message_data sample_data ++ pad in
    (let '(key, iv) := DeriveMessageKeys sample_key (msg_key sample_encrypted) kClient in
     IgeDecrypt key iv (encrypted_data sample_encrypted) = Ok plaintext) /\
    msg_key sample_encrypted = MessageKey sample_key plaintext kClient /\
    zlen pad <= 1024 /\ zlen (message_data sample_data) mod 4 = 0.
Proof.
  apply (DecryptMessage_accepts sample_key sample_encrypted kServer sample_data);
    vm_compute; reflexivity.
Defined.

Lemma EncryptBindMessage_opens_witness :
  exists enc s', EncryptBindMessage Toy.zeros sample_key 99 sample_inner tt = (Ok enc, s') /\
    DecryptBindAuthKeyInner sample_key enc = Ok sample_inner.
Proof.
  apply (EncryptBindMessage_opens Toy.zeros id Toy.zeros_random sample_key 99 sample_inner tt).
  - reflexivity.
  - split; [discriminate | reflexivity].
  - repeat split; discriminate || reflexivity.
Defined.

Definition sample_envelope : bytes :=
  match fst (EncryptBindMessage Toy.zeros sample_key 99 sample_inner tt) with
  | Ok e => e
  | Throw _ => []
  end.

Lemma DecryptBindAuthKeyInner_sound_witness :
  match DecryptBindAuthKeyInner sample_key sample_envelope with
  | Throw e => e = BindEncryptedMessageInvalidError
  | Ok _ => exists msg plaintext body_end,
      fst (EncryptedMessage_Decode sample_envelope) = Ok msg /\
      auth_key_id msg = AuthKeyId sample_key /\
      (let '(key, iv) := KeysV1 sample_key (msg_key msg) in
       IgeDecrypt key iv (encrypted_data msg) = Ok plaintext) /\
      kEnvelopeHeaderLen < body_end <= zlen plaintext /\
      msg_key msg = MessageKeyV1 (ztake body_end plaintext)
  end.
Proof. apply (DecryptBindAuthKeyInner_sound sample_key sample_envelope). Defined.

End Witnesses.
