(* ===== verification/Dh.v ===== *)
(** * Big numbers, RSA and the Diffie-Hellman primitives

    [bignum_util.hpp], [rsa.cpp] (the DER reader, the raw operations, the
    fingerprint), [rsa_pad.cpp] and [dh.cpp].  A BIGNUM is a [Z]; key
    generation and PEM framing stay in OpenSSL. *)

From Stdlib Require Import ZArith Lia Strings.Byte Strings.String.
From stdpp Require Import base decidable list.
From S2P Require Import Prelude TL OpenSSL Cipher.

(** ** [bignum_util.hpp] *)

Module Bignum.

Definition BytesToBignum (b : bytes) : Z := be_val b.

Definition BignumToMinimalBytes (bn : Z) : bytes := be_bytes (Z.to_nat (bn_num_bytes bn)) bn.

Definition BignumToFixedBytes (bn fixed_len : Z) : res bytes :=
  if fixed_len <? bn_num_bytes bn then
    Throw (RuntimeError "value does not fit in the requested fixed length")
  else Ok (be_bytes (Z.to_nat fixed_len) bn).

Section ModExp.
Context {ssl : OpenSSL}.

Definition mod_exp (base exponent modulus : bytes) : res Z :=
  match bn_mod_exp (BytesToBignum base) (BytesToBignum exponent) (BytesToBignum modulus) with
  | Some r => Ok r
  | None => Throw (RuntimeError "BN_mod_exp failed")
  end.

Definition ModPow (base exponent modulus : bytes) : res bytes :=
  r <-? mod_exp base exponent modulus ;;
  Ok (BignumToMinimalBytes r).

End ModExp.

(** [BN_mod_mul], [BN_mod_add] and [BN_mod_sub] (the result is the
    non-negative remainder) fail only for a zero modulus. *)
Definition mod_op (op : Z -> Z -> Z) (a b modulus : bytes) : res bytes :=
  let n := BytesToBignum modulus in
  if n =? 0 then Throw (RuntimeError "BN_mod operation failed")
  else Ok (BignumToMinimalBytes (op (BytesToBignum a) (BytesToBignum b) mod n)).

Definition MulMod : bytes -> bytes -> bytes -> res bytes := mod_op Z.mul.
Definition AddMod : bytes -> bytes -> bytes -> res bytes := mod_op Z.add.
Definition SubMod : bytes -> bytes -> bytes -> res bytes := mod_op Z.sub.

Definition Add (a b : bytes) : bytes := BignumToMinimalBytes (BytesToBignum a + BytesToBignum b).
Definition Mul (a b : bytes) : bytes := BignumToMinimalBytes (BytesToBignum a * BytesToBignum b).

Definition IsGoodLarge (n modulus : bytes) : bool :=
  let nn := BytesToBignum n in
  let mm := BytesToBignum modulus in
  negb (nn =? 0) && negb (nn <? 0) && (nn <? mm).

(** Minimal bytes denote their number. *)
Lemma be_val_minimal v : 0 <= v -> be_val (BignumToMinimalBytes v) = v.
Proof.
  intros Hv. unfold BignumToMinimalBytes. rewrite be_val_be_bytes.
  pose proof (bn_num_bytes_nonneg v Hv). rewrite Z2Nat.id by done.
  apply Z.mod_small. split; [done|]. by apply bn_num_bytes_fits.
Qed.

Lemma FixedBytes_run v n :
  0 <= n -> 0 <= v < 256 ^ n ->
  exists b, BignumToFixedBytes v n = Ok b /\ zlen b = n /\ be_val b = v.
Proof.
  intros Hn Hv. unfold BignumToFixedBytes.
  pose proof (bn_num_bytes_le v n Hn Hv). destruct (Z.ltb_spec n (bn_num_bytes v)); [lia|].
  eexists. split; [done|]. rewrite zlen_be_bytes, be_val_be_bytes, Z2Nat.id by done.
  split; [done|]. by apply Z.mod_small.
Qed.

(** The bytes of a fixed length are determined by the value. *)
Lemma be_val_inj a b : zlen a = zlen b -> be_val a = be_val b -> a = b.
Proof.
  intros Hl Hv. rewrite <- (be_bytes_be_val a), <- (be_bytes_be_val b), Hv.
  unfold zlen in Hl. f_equal. lia.
Qed.

End Bignum.

Import Bignum.

(** ** RSA ([rsa.cpp]) *)

Definition kRsaKeyBits : Z := 2048.
Definition kRsaByteLen : Z := kRsaKeyBits / 8.

Module RsaPublicKey.
Record t : Type := Mk { n_ : bytes; e_ : bytes }.
End RsaPublicKey.

(** The CRT fields [p_] … [qinv_] are only written out to PEM. *)
Module RsaPrivateKey.
Record t : Type := Mk {
  n_ : bytes; e_ : bytes; d_ : bytes; p_ : bytes; q_ : bytes; dp_ : bytes; dq_ : bytes; qinv_ : bytes }.
End RsaPrivateKey.

Definition PublicKey (key : RsaPrivateKey.t) : RsaPublicKey.t :=
  RsaPublicKey.Mk (RsaPrivateKey.n_ key) (RsaPrivateKey.e_ key).

Module DerReader.

(** The buffer [p_[0..len_)] is an argument; the state is [pos_]. *)
Definition ReadTag (p_ : bytes) : M Z byte := fun pos_ =>
  match nth_error p_ (Z.to_nat pos_) with
  | Some b => (Ok b, pos_ + 1)
  | None => (Throw (RuntimeError "DER: unexpected end reading tag"), pos_)
  end.

(** [for (i < n) out = (out << 8) | ReadTag()] on a [size_t]. *)
Fixpoint ReadLengthBytes (p_ : bytes) (n : nat) (out : Z) : M Z Z :=
  match n with
  | O => ret out
  | S n => b <- ReadTag p_ ;; ReadLengthBytes p_ n (Z.lor (u64 (Z.shiftl out 8)) (bz b))
  end.

Definition ReadLength (p_ : bytes) : M Z Z :=
  first <- ReadTag p_ ;;
  if bz first <? 0x80 then ret (bz first)
  else ReadLengthBytes p_ (Z.to_nat (Z.land (bz first) 0x7F)) 0.

(** [pos_ + len] wraps; a wrapped sum lets a huge length through, and the
    [vector] constructor then refuses it. *)
Definition ReadInteger (p_ : bytes) : M Z bytes :=
  tag <- ReadTag p_ ;;
  guard (bool_decide (tag = x02)) (RuntimeError "DER: expected INTEGER tag") ;;;
  len <- ReadLength p_ ;;
  pos_ <- get ;;
  guard (u64 (pos_ + len) <=? zlen p_) (RuntimeError "DER: INTEGER length exceeds buffer") ;;;
  guard (pos_ + len <=? zlen p_) LengthError ;;;
  let '(start, n) :=
    if (1 <? len) && bool_decide (ztake 1 (zdrop pos_ p_) = [x00])
    then (pos_ + 1, len - 1) else (pos_, len) in
  put (pos_ + len) ;;;
  ret (zslice start n p_).

Definition EnterSequence (p_ : bytes) : M Z unit :=
  tag <- ReadTag p_ ;;
  guard (bool_decide (tag = x30)) (RuntimeError "DER: expected SEQUENCE tag") ;;;
  _ <- ReadLength p_ ;;
  ret tt.

End DerReader.

(** [pem_read] is [PEM_read_bio]: the decoded body of the block. *)
Definition FromPkcs1Pem (pem_read : bytes -> option bytes) (pem : bytes) : res RsaPublicKey.t :=
  match pem_read pem with
  | None => Throw (RuntimeError "failed to parse RSA public key PEM framing")
  | Some der =>
      fst ((DerReader.EnterSequence der ;;;
            n <- DerReader.ReadInteger der ;;
            e <- DerReader.ReadInteger der ;;
            ret (RsaPublicKey.Mk n e)) 0)
  end.

(** *** What the reader accepts *)

(** [m] reads [enc] wherever it stands in the buffer. *)
Definition der_reads {A} (m : bytes -> M Z A) (enc : bytes) (a : A) : Prop :=
  forall pre post, zlen (pre ++ enc ++ post) < 2 ^ 62 ->
    m (pre ++ enc ++ post) (zlen pre) = (Ok a, zlen (pre ++ enc)).

Lemma der_bind {A B} (m : bytes -> M Z A) (k : A -> bytes -> M Z B) e1 e2 a b :
  der_reads m e1 a -> der_reads (k a) e2 b ->
  der_reads (fun p => x <- m p ;; k x p) (e1 ++ e2) b.
Proof.
  intros H1 H2 pre post Hl. rewrite <- app_assoc in *. erewrite bind_Ok by (by apply H1).
  rewrite !app_assoc in *. rewrite <- app_assoc with (l := pre ++ e1) in *.
  by apply H2.
Qed.

Lemma der_ret {A} (a : A) : der_reads (fun _ => ret a) [] a.
Proof. intros pre post _. by rewrite app_nil_r. Qed.

Lemma der_tag b : der_reads DerReader.ReadTag [b] b.
Proof.
  intros pre post _. unfold DerReader.ReadTag, zlen. rewrite Nat2Z.id.
  rewrite nth_error_app2 by done. rewrite Nat.sub_diag. cbn [nth_error app].
  rewrite length_app. cbn. f_equal. lia.
Qed.

(** The definite-length encoding, up to two length bytes. *)
Definition der_length (l : Z) : bytes :=
  if l <? 128 then [u8 l]
  else if l <? 256 then [x81; u8 l]
  else [x82; u8 (Z.shiftr l 8); u8 l].

Lemma der_ReadLength l : 0 <= l < 2 ^ 16 -> der_reads DerReader.ReadLength (der_length l) l.
Proof.
  intros Hl. unfold DerReader.ReadLength, der_length.
  destruct (Z.ltb_spec l 128) as [H1|H1]; [|destruct (Z.ltb_spec l 256) as [H2|H2]].
  - rewrite <- (app_nil_r [u8 l]). apply (der_bind _ (fun f p => if bz f <? 128 then ret (bz f) else
      DerReader.ReadLengthBytes p (Z.to_nat (Z.land (bz f) 127)) 0) _ _ (u8 l) _ (der_tag _)).
    rewrite bz_u8, Z.mod_small by lia. destruct (Z.ltb_spec l 128); [apply der_ret|lia].
  - change [x81; u8 l] with ([x81] ++ [u8 l] ++ []).
    apply (der_bind _ (fun f p => if bz f <? 128 then ret (bz f) else
      DerReader.ReadLengthBytes p (Z.to_nat (Z.land (bz f) 127)) 0) _ _ x81 _ (der_tag _)).
    cbn [bz]. change (bz x81 <? 128) with false. cbv iota.
    change (Z.to_nat (Z.land (bz x81) 127)) with 1%nat. cbn [DerReader.ReadLengthBytes].
    apply (der_bind _ (fun b _ => ret (Z.lor (u64 (Z.shiftl 0 8)) (bz b))) _ _ (u8 l) _ (der_tag _)).
    rewrite bz_u8, Z.mod_small by lia. change (u64 (Z.shiftl 0 8)) with 0. apply der_ret.
  - change [x82; u8 (Z.shiftr l 8); u8 l] with ([x82] ++ [u8 (Z.shiftr l 8)] ++ [u8 l] ++ []).
    apply (der_bind _ (fun f p => if bz f <? 128 then ret (bz f) else
      DerReader.ReadLengthBytes p (Z.to_nat (Z.land (bz f) 127)) 0) _ _ x82 _ (der_tag _)).
    change (bz x82 <? 128) with false. cbv iota.
    change (Z.to_nat (Z.land (bz x82) 127)) with 2%nat. cbn [DerReader.ReadLengthBytes].
    apply (der_bind _ (fun b p => b0 <- DerReader.ReadTag p ;;
      ret (Z.lor (u64 (Z.shiftl (Z.lor (u64 (Z.shiftl 0 8)) (bz b)) 8)) (bz b0))) _ _ _ _ (der_tag _)).
    apply (der_bind _ (fun b0 _ =>
      ret (Z.lor (u64 (Z.shiftl (Z.lor (u64 (Z.shiftl 0 8)) (bz (u8 (Z.shiftr l 8)))) 8)) (bz b0)))
      _ _ _ _ (der_tag _)).
    change (u64 (Z.shiftl 0 8)) with 0. rewrite Z.lor_0_l, !bz_u8, Z.shiftr_div_pow2 by lia.
    change (2 ^ 8) with 256. pose proof (Z.div_mod l 256 ltac:(lia)).
    pose proof (Z.mod_pos_bound l 256 ltac:(lia)).
    assert (0 <= l / 256 < 256) by (split; [apply Z.div_pos; lia | apply Z.div_lt_upper_bound; lia]).
    rewrite (Z.mod_small (l / 256)) by lia. rewrite Z.shiftl_mul_pow2 by lia.
    rewrite u64_id by (unfold is_u64; lia). rewrite <- (Z.shiftl_mul_pow2 _ 8) by lia.
    rewrite Z.lor_comm, lor_shiftl_add by lia.
    replace (l mod 256 + l / 256 * 2 ^ 8) with l by lia. apply der_ret.
Qed.

(** A positive integer given by its minimal big-endian bytes: DER puts a zero
    byte in front when the first one has its high bit set. *)
Definition der_content (v : bytes) : bytes :=
  match v with
  | [] => []
  | b :: _ => if 128 <=? bz b then x00 :: v else v
  end.
Definition der_integer (v : bytes) : bytes :=
  [x02] ++ der_length (zlen (der_content v)) ++ der_content v.
Definition minimal (v : bytes) : Prop := match v with [] => False | b :: _ => b <> x00 end.

Lemma der_ReadInteger v :
  minimal v -> zlen v < 2 ^ 15 -> der_reads DerReader.ReadInteger (der_integer v) v.
Proof.
  intros Hm Hv. unfold DerReader.ReadInteger, der_integer.
  apply (der_bind DerReader.ReadTag (fun tag p =>
    guard (bool_decide (tag = x02)) (RuntimeError "DER: expected INTEGER tag") ;;;
    len <- DerReader.ReadLength p ;;
    pos_ <- get ;;
    guard (u64 (pos_ + len) <=? zlen p) (RuntimeError "DER: INTEGER length exceeds buffer") ;;;
    guard (pos_ + len <=? zlen p) LengthError ;;;
    let '(start, n) := if (1 <? len) && bool_decide (ztake 1 (zdrop pos_ p) = [x00])
                       then (pos_ + 1, len - 1) else (pos_, len) in
    put (pos_ + len) ;;; ret (zslice start n p)) _ _ x02 _ (der_tag x02)).
  rewrite bool_decide_eq_true_2 by done.
  set (c := der_content v).
  assert (Hc : 1 <= zlen c < 2 ^ 16).
  { unfold c, der_content. destruct v as [|b v]; [done|]. pose proof (zlen_nonneg v).
    case_match; rewrite !zlen_cons in *; lia. }
  apply (der_bind DerReader.ReadLength (fun len p =>
    pos_ <- get ;;
    guard (u64 (pos_ + len) <=? zlen p) (RuntimeError "DER: INTEGER length exceeds buffer") ;;;
    guard (pos_ + len <=? zlen p) LengthError ;;;
    let '(start, n) := if (1 <? len) && bool_decide (ztake 1 (zdrop pos_ p) = [x00])
                       then (pos_ + 1, len - 1) else (pos_, len) in
    put (pos_ + len) ;;; ret (zslice start n p)) _ _ (zlen c) _ (der_ReadLength (zlen c) ltac:(lia))).
  intros pre post Hl. rewrite bind_get. pose proof (zlen_nonneg pre). pose proof (zlen_nonneg post).
  assert (Hlen : zlen (pre ++ c ++ post) = zlen pre + zlen c + zlen post)
    by (rewrite !zlen_app; lia).
  rewrite u64_id by (unfold is_u64; lia). rewrite !bind_guard by (apply Z.leb_le; lia).
  rewrite zdrop_app by done.
  assert (Hcase : (1 <? zlen c) && bool_decide (ztake 1 (c ++ post) = [x00]) = true /\
      c = x00 :: v \/
    (1 <? zlen c) && bool_decide (ztake 1 (c ++ post) = [x00]) = false /\ c = v).
  { unfold c, der_content. destruct v as [|b v']; [done|]. cbn [minimal] in Hm.
    destruct (128 <=? bz b).
    - left. split; [|done]. rewrite !zlen_cons. pose proof (zlen_nonneg v').
      destruct (Z.ltb_spec 1 (zlen v' + 1 + 1)); [done|lia].
    - right. split; [|done]. change (ztake 1 ((b :: v') ++ post)) with [b].
      rewrite bool_decide_eq_false_2 by (by intros [= ->]). apply andb_false_r. }
  destruct Hcase as [[-> ->]|[-> ->]]; unfold put; (erewrite bind_Ok by done); unfold ret.
  - f_equal; [f_equal|by rewrite zlen_app]. unfold zslice.
    change ((x00 :: v) ++ post) with ([x00] ++ v ++ post). rewrite app_assoc.
    rewrite zdrop_app by (by rewrite zlen_app). apply ztake_app. rewrite zlen_cons. lia.
  - f_equal; [f_equal|by rewrite zlen_app]. unfold zslice. rewrite zdrop_app by done.
    by apply ztake_app.
Qed.

(** [RSAPublicKey ::= SEQUENCE { modulus INTEGER, publicExponent INTEGER }] *)
Definition der_rsa_public_key (n e : bytes) : bytes :=
  [x30] ++ der_length (zlen (der_integer n ++ der_integer e)) ++ der_integer n ++ der_integer e.

Lemma zlen_der_integer v : zlen (der_integer v) <= zlen v + 5.
Proof.
  unfold der_integer, der_length, der_content. destruct v as [|b v]; [done|].
  repeat case_match; rewrite ?zlen_app, ?zlen_cons, ?zlen_nil; lia.
Qed.

Section Dh.
Context {ssl : OpenSSL}.

Definition ModExp (base exponent modulus : bytes) (fixed_len : Z) : res bytes :=
  r <-? mod_exp base exponent modulus ;;
  BignumToFixedBytes r fixed_len.

Definition EncryptRaw (key : RsaPublicKey.t) (data : bytes) : res bytes :=
  ModExp data (RsaPublicKey.e_ key) (RsaPublicKey.n_ key) kRsaByteLen.
Definition DecryptRaw (key : RsaPrivateKey.t) (data : bytes) : res bytes :=
  ModExp data (RsaPrivateKey.d_ key) (RsaPrivateKey.n_ key) kRsaByteLen.

Definition Fingerprint (key : RsaPublicKey.t) : Z :=
  let buf := TLBuffer.PutBytes (RsaPublicKey.e_ key) (TLBuffer.PutBytes (RsaPublicKey.n_ key) []) in
  let digest := sha1 buf in
  s64 (or_bytes 0 0 (zslice 12 8 digest)).

(** ** RSA_PAD ([rsa_pad.cpp]) *)

Definition kRsaPadDataLimit : Z := 144.
Definition kDataWithPaddingLen : Z := 192.
Definition kTempKeySize : Z := 32.

Fixpoint first_difference (a b : bytes) : bool :=
  match a, b with
  | x :: a', y :: b' => if bz x =? bz y then first_difference a' b' else bz y <? bz x
  | _, _ => true
  end.

Definition GreaterOrEqual (a b : bytes) : res bool :=
  if negb (zlen a =? zlen b) then
    Throw (RuntimeError "RSA_PAD modulus comparison length mismatch")
  else Ok (first_difference a b).

Definition zero_iv : bytes := replicate 32 x00.

(** Steps 4 to 7 for a [temp_key]. *)
Definition RsaPadBlock (data_with_padding temp_key : bytes) : res bytes :=
  let data_pad_reversed := rev data_with_padding in
  let data_with_hash := data_pad_reversed ++ sha256 (temp_key ++ data_with_padding) in
  aes_encrypted <-? IgeEncrypt temp_key zero_iv data_with_hash ;;
  let temp_key_xor := xor_bytes temp_key (sha256 aes_encrypted) in
  Ok (temp_key_xor ++ aes_encrypted).

(** [for (;;)] : one unit of fuel per drawn [temp_key]. *)
Fixpoint RsaPadLoop {S} (rand : RandomFill S) (key : RsaPublicKey.t) (data_with_padding : bytes)
    (fuel : nat) : M S bytes :=
  match fuel with
  | O => throw (RuntimeError "out of fuel")
  | Datatypes.S fuel =>
      temp_key <- rand kTempKeySize ;;
      key_aes_encrypted <- lift (RsaPadBlock data_with_padding temp_key) ;;
      retry <- lift (GreaterOrEqual key_aes_encrypted (RsaPublicKey.n_ key)) ;;
      if retry : bool then RsaPadLoop rand key data_with_padding fuel
      else lift (EncryptRaw key key_aes_encrypted)
  end.

Definition RsaPad {S} (rand : RandomFill S) (fuel : nat) (data : bytes) (key : RsaPublicKey.t)
    : M S bytes :=
  if kRsaPadDataLimit <? zlen data then
    throw (InvalidArgument "RSA_PAD: data longer than 144 bytes")
  else
    padding <- rand (kDataWithPaddingLen - zlen data) ;;
    RsaPadLoop rand key (data ++ padding) fuel.

Definition RsaUnpad (data : bytes) (key : RsaPrivateKey.t) : res bytes :=
  encrypted_data <-? DecryptRaw key data ;;
  let temp_key_xor := ztake kTempKeySize encrypted_data in
  let aes_encrypted := zdrop kTempKeySize encrypted_data in
  let temp_key := xor_bytes temp_key_xor (sha256 aes_encrypted) in
  data_with_hash <-? IgeDecrypt temp_key zero_iv aes_encrypted ;;
  let data_with_padding := rev (ztake kDataWithPaddingLen data_with_hash) in
  let hash := zdrop kDataWithPaddingLen data_with_hash in
  if bool_decide (hash <> sha256 (temp_key ++ data_with_padding)) then
    Throw (RuntimeError "RSA_PAD: hash mismatch (wrong key or corrupted data)")
  else Ok data_with_padding.

(** ** [dh.cpp] *)

Definition ModPowFixed (base exponent modulus : bytes) (fixed_len : Z) : res bytes :=
  ModExp base exponent modulus fixed_len.

Definition CheckSubgroup (p divider : Z) (expected : list Z) : bool :=
  existsb (fun e => p mod divider =? e) expected.

Definition InRange (x lo hi : Z) : bool := (lo <? x) && (x <? hi).

Definition CheckGP (g : Z) (p : bytes) : res unit :=
  let bn_p := BytesToBignum p in
  ok <-? (if g =? 2 then Ok (CheckSubgroup bn_p 8 [7])
          else if g =? 3 then Ok (CheckSubgroup bn_p 3 [2])
          else if g =? 4 then Ok true
          else if g =? 5 then Ok (CheckSubgroup bn_p 5 [1; 4])
          else if g =? 6 then Ok (CheckSubgroup bn_p 24 [19; 23])
          else if g =? 7 then Ok (CheckSubgroup bn_p 7 [3; 5; 6])
          else Throw (InvalidArgument "CheckGP: g must be 2, 3, 4, 5, 6 or 7")) ;;
  if ok : bool then Ok tt
  else Throw (RuntimeError "CheckGP: g is not a quadratic residue mod p").

Definition safety_min : Z := Z.shiftl 1 (kRsaKeyBits - 64).

(** [static_cast<BN_ULONG>(g)]: a negative [g] is sign-extended. *)
Definition CheckDHParams (dh_prime : bytes) (g : Z) (g_a g_b : bytes) : res unit :=
  let p := BytesToBignum dh_prime in
  let ga := BytesToBignum g_a in
  let gb := BytesToBignum g_b in
  let p_minus_one := p - 1 in
  let g_bn := u64 g in
  let safety_max := p - safety_min in
  if negb (InRange g_bn 1 p_minus_one) then
    Throw (RuntimeError "CheckDHParams: bad g, g must be 1 < g < dh_prime - 1")
  else if negb (InRange ga 1 p_minus_one) then
    Throw (RuntimeError "CheckDHParams: bad g_a, g_a must be 1 < g_a < dh_prime - 1")
  else if negb (InRange gb 1 p_minus_one) then
    Throw (RuntimeError "CheckDHParams: bad g_b, g_b must be 1 < g_b < dh_prime - 1")
  else if negb (InRange ga safety_min safety_max) then
    Throw (RuntimeError "CheckDHParams: bad g_a, out of the recommended safety range")
  else if negb (InRange gb safety_min safety_max) then
    Throw (RuntimeError "CheckDHParams: bad g_b, out of the recommended safety range")
  else Ok tt.

(** The key and the iv. *)
Definition TempAesKeys (new_nonce server_nonce : bytes) : bytes * bytes :=
  let nn_sn := sha1 (new_nonce ++ server_nonce) in
  let sn_nn := sha1 (server_nonce ++ new_nonce) in
  let nn_nn := sha1 (new_nonce ++ new_nonce) in
  (nn_sn ++ ztake 12 sn_nn, zslice 12 8 sn_nn ++ nn_nn ++ ztake 4 new_nonce).

Definition ServerSalt (new_nonce server_nonce : bytes) : Z :=
  s64 (or_bytes 0 0 (xor_bytes (ztake 8 new_nonce) (ztake 8 server_nonce))).

Definition NonceHash1 (new_nonce auth_key : bytes) : bytes :=
  let key_hash := sha1 auth_key in
  let buf := new_nonce ++ [x01] ++ ztake 8 key_hash in
  let digest := sha1 buf in
  zslice 4 16 digest.

Definition PaddedLen16 (l : Z) : Z :=
  let n := 16 * (l / 16) in
  if n <? l then n + 16 else n.

Definition DataWithHash {S} (rand : RandomFill S) (data : bytes) : M S bytes :=
  let size := PaddedLen16 (zlen data + 20) in
  let hash := sha1 data in
  let pad_start := 20 + zlen data in
  if pad_start <? size then
    padding <- rand (size - pad_start) ;; ret (hash ++ data ++ padding)
  else ret (hash ++ data).

(** [for (i = 0; i < 16; ++i)], from [i] on with [n] iterations left. *)
Fixpoint GuessLoop (n : nat) (i : Z) (data_with_hash : bytes) : res bytes :=
  match n with
  | O => Throw (RuntimeError "GuessDataWithHash: no padding length matched the stored hash")
  | S n =>
      if zlen data_with_hash - i <? 20 then
        Throw (RuntimeError "GuessDataWithHash: no padding length matched the stored hash")
      else
        let candidate := zslice 20 (zlen data_with_hash - i - 20) data_with_hash in
        if bool_decide (sha1 candidate = ztake 20 data_with_hash) then Ok candidate
        else GuessLoop n (i + 1) data_with_hash
  end.

Definition GuessDataWithHash (data_with_hash : bytes) : res bytes :=
  if zlen data_with_hash <=? 20 then
    Throw (RuntimeError "GuessDataWithHash: input too small")
  else GuessLoop 16 0 data_with_hash.

Definition EncryptExchangeAnswer {S} (rand : RandomFill S) (answer key iv : bytes) : M S bytes :=
  d <- DataWithHash rand answer ;;
  lift (IgeEncrypt key iv d).

Definition DecryptExchangeAnswer (data key iv : bytes) : res bytes :=
  d <-? IgeDecrypt key iv data ;;
  GuessDataWithHash d.

(** ** Big numbers *)

Context {laws : OpenSSLLaws}.

Lemma mod_exp_run base exponent modulus :
  1 < be_val modulus -> Z.odd (be_val modulus) = true ->
  mod_exp base exponent modulus = Ok (be_val base ^ be_val exponent mod be_val modulus).
Proof.
  intros H1 Ho. unfold mod_exp, BytesToBignum.
  rewrite bn_mod_exp_odd; [done| | |done|done]; apply be_val_range.
Qed.

Lemma ModExp_run base exponent modulus n :
  1 < be_val modulus -> Z.odd (be_val modulus) = true -> zlen modulus <= n ->
  exists r, ModExp base exponent modulus n = Ok r /\ zlen r = n /\
    be_val r = be_val base ^ be_val exponent mod be_val modulus.
Proof.
  intros H1 Ho Hn. unfold ModExp. rewrite mod_exp_run by done. cbn [rbind].
  pose proof (zlen_nonneg modulus). pose proof (be_val_range modulus).
  pose proof (Z.mod_pos_bound (be_val base ^ be_val exponent) (be_val modulus) ltac:(lia)).
  assert (256 ^ zlen modulus <= 256 ^ n) by (apply Z.pow_le_mono_r; lia).
  destruct (FixedBytes_run (be_val base ^ be_val exponent mod be_val modulus) n)
    as (r & E & Hr & Hv); [lia|lia|]. by exists r.
Qed.

Lemma be_val_cons x l : be_val (x :: l) = bz x * 256 ^ zlen l + be_val l.
Proof.
  change (x :: l) with ([x] ++ l). rewrite be_val_app. f_equal.
Qed.

(** Comparing equally long strings compares the numbers. *)
Lemma GreaterOrEqual_spec a b :
  zlen a = zlen b -> GreaterOrEqual a b = Ok (be_val b <=? be_val a).
Proof.
  intros Hl. unfold GreaterOrEqual. rewrite Hl, Z.eqb_refl. cbn [negb]. f_equal.
  revert b Hl. induction a as [|x a IH]; intros [|y b] Hl; rewrite ?zlen_cons, ?zlen_nil in Hl;
    try (pose proof (zlen_nonneg a)); try (pose proof (zlen_nonneg b)); try lia; [done|].
  cbn [first_difference]. rewrite !be_val_cons. assert (Hl' : zlen a = zlen b) by lia.
  rewrite Hl'. pose proof (be_val_range a) as Ha. rewrite Hl' in Ha.
  pose proof (be_val_range b) as Hb. destruct (Z.eqb_spec (bz x) (bz y)) as [->|Hne].
  - rewrite IH by done. destruct (Z.leb_spec (be_val b) (be_val a)), (Z.leb_spec
      (bz y * 256 ^ zlen b + be_val b) (bz y * 256 ^ zlen b + be_val a)); lia.
  - destruct (Z.ltb_spec (bz y) (bz x)); symmetry; [apply Z.leb_le | apply Z.leb_gt]; nia.
Qed.

(** ** RSA_PAD *)

(** What makes (n, e, d) a 2048-bit RSA key pair: decryption undoes
    encryption below the modulus. *)
Definition rsa_key_ok (key : RsaPrivateKey.t) : Prop :=
  let n := be_val (RsaPrivateKey.n_ key) in
  let e := be_val (RsaPrivateKey.e_ key) in
  let d := be_val (RsaPrivateKey.d_ key) in
  zlen (RsaPrivateKey.n_ key) = kRsaByteLen /\ 1 < n /\ Z.odd n = true /\
  forall m, 0 <= m < n -> (m ^ e mod n) ^ d mod n = m.

Lemma RsaRaw_run key b :
  rsa_key_ok key -> zlen b = kRsaByteLen -> be_val b < be_val (RsaPrivateKey.n_ key) ->
  exists c, EncryptRaw (PublicKey key) b = Ok c /\ DecryptRaw key c = Ok b.
Proof.
  intros (Hn & H1 & Ho & Hinv) Hb Hlt. unfold EncryptRaw, DecryptRaw, PublicKey.
  cbn [RsaPublicKey.n_ RsaPublicKey.e_].
  destruct (ModExp_run b (RsaPrivateKey.e_ key) (RsaPrivateKey.n_ key) kRsaByteLen)
    as (c & Ec & Hc & Hvc); [done|done|lia|].
  destruct (ModExp_run c (RsaPrivateKey.d_ key) (RsaPrivateKey.n_ key) kRsaByteLen)
    as (m & Em & Hm & Hvm); [done|done|lia|].
  exists c. split; [done|]. rewrite Em. f_equal. apply be_val_inj; [lia|].
  rewrite Hvm, Hvc. apply Hinv. pose proof (be_val_range b). lia.
Qed.

Lemma RsaPadBlock_run padded temp_key :
  zlen padded = 192 -> zlen temp_key = 32 ->
  exists b, RsaPadBlock padded temp_key = Ok b /\ zlen b = kRsaByteLen /\
    forall key c, DecryptRaw key c = Ok b -> RsaUnpad c key = Ok padded.
Proof.
  intros Hp Ht. unfold RsaPadBlock.
  set (h := sha256 (temp_key ++ padded)). assert (Hh : zlen h = 32) by apply zlen_sha256.
  assert (Hr : zlen (rev padded) = 192) by (by rewrite zlen_rev).
  destruct (IgeEncrypt_run temp_key zero_iv (rev padded ++ h)) as (enc & E & He & Hdec).
  - by rewrite Ht.
  - done.
  - by rewrite zlen_app, Hr, Hh.
  - rewrite E. cbn [rbind]. rewrite zlen_app, Hr, Hh in He.
    assert (Hs : zlen temp_key = zlen (sha256 enc)) by (by rewrite zlen_sha256).
    assert (Hx : zlen (xor_bytes temp_key (sha256 enc)) = 32) by (by rewrite zlen_xor_bytes).
    eexists. split; [done|]. split; [by rewrite zlen_app, Hx, He|].
    intros key c Hc. unfold RsaUnpad, kTempKeySize, kDataWithPaddingLen. rewrite Hc. cbn [rbind].
    rewrite ztake_app, zdrop_app by done. rewrite xor_bytes_cancel by done.
    rewrite Hdec. cbn [rbind]. rewrite ztake_app, zdrop_app by done.
    rewrite rev_involutive, bool_decide_eq_false_2 by tauto. done.
Qed.

(** [n] draws from [s], every one refused for not being below the modulus. *)
Fixpoint all_rejected {S} (rand : RandomFill S) (modulus padded : bytes) (n : nat) (s : S)
    : Prop :=
  match n with
  | O => True
  | Datatypes.S n => exists temp_key s' b,
      rand kTempKeySize s = (Ok temp_key, s') /\ RsaPadBlock padded temp_key = Ok b /\
      be_val modulus <= be_val b /\ all_rejected rand modulus padded n s'
  end.

Lemma RsaPadLoop_run {S T} (rand : RandomFill S) (keep : S -> T) `{!RandomSource rand keep}
    key padded fuel s :
  rsa_key_ok key -> zlen padded = 192 ->
  (exists c s', RsaPadLoop rand (PublicKey key) padded fuel s = (Ok c, s') /\
    RsaUnpad c key = Ok padded) \/
  (fst (RsaPadLoop rand (PublicKey key) padded fuel s) = Throw (RuntimeError "out of fuel") /\
    all_rejected rand (RsaPrivateKey.n_ key) padded fuel s).
Proof.
  intros Hkey Hp. revert s. induction fuel as [|fuel IH]; intros s; [by right|].
  cbn [RsaPadLoop all_rejected]. unfold kTempKeySize.
  destruct (random_fill 32 s ltac:(lia)) as (tk & s1 & E1 & Htk & _).
  erewrite bind_Ok by exact E1.
  destruct (RsaPadBlock_run padded tk Hp Htk) as (b & Eb & Hb & Hun).
  rewrite bind_lift, Eb, bind_lift. destruct Hkey as (Hn & Hkey').
  rewrite GreaterOrEqual_spec by (cbn [PublicKey RsaPublicKey.n_]; lia).
  cbn [PublicKey RsaPublicKey.n_].
  destruct (Z.leb_spec (be_val (RsaPrivateKey.n_ key)) (be_val b)) as [Hge|Hlt].
  - destruct (IH s1) as [(c & s' & E & Hc)|[E Hrej]].
    + left. by exists c, s'.
    + right. split; [done|]. by exists tk, s1, b.
  - left. destruct (RsaRaw_run key b (conj Hn Hkey') Hb Hlt) as (c & Ec & Hc).
    exists c, s1. unfold lift. change (RsaPublicKey.Mk (RsaPrivateKey.n_ key) (RsaPrivateKey.e_ key)) with (PublicKey key).
    rewrite Ec. split; [done|]. by apply Hun.
Qed.

(** ** Data with its hash *)

Lemma PaddedLen16_spec l :
  0 <= l -> l <= PaddedLen16 l < l + 16 /\ PaddedLen16 l mod 16 = 0.
Proof.
  intros Hl. unfold PaddedLen16. pose proof (Z.div_mod l 16 ltac:(lia)).
  pose proof (Z.mod_pos_bound l 16 ltac:(lia)).
  destruct (Z.ltb_spec (16 * (l / 16)) l); split; try lia.
  - replace (16 * (l / 16) + 16) with ((l / 16 + 1) * 16) by lia. by apply Z.mod_mul.
  - rewrite Z.mul_comm. by apply Z.mod_mul.
Qed.

Lemma DataWithHash_run {S T} (rand : RandomFill S) (keep : S -> T) `{!RandomSource rand keep}
    data s :
  exists pad s', DataWithHash rand data s = (Ok (sha1 data ++ data ++ pad), s') /\
    keep s' = keep s /\ zlen pad < 16 /\ zlen (sha1 data ++ data ++ pad) mod 16 = 0.
Proof.
  pose proof (zlen_nonneg data).
  destruct (PaddedLen16_spec (zlen data + 20) ltac:(lia)) as [Hb Hm]. unfold DataWithHash.
  assert (Hh : zlen (sha1 data) = 20) by apply zlen_sha1.
  destruct (Z.ltb_spec (20 + zlen data) (PaddedLen16 (zlen data + 20))).
  - destruct (random_fill (PaddedLen16 (zlen data + 20) - (20 + zlen data)) s ltac:(lia))
      as (pad & s' & E & Hp & Hk).
    exists pad, s'. erewrite bind_Ok by exact E. split; [done|]. split; [done|].
    split; [lia|]. rewrite !zlen_app, Hh, Hp.
    by replace (20 + (zlen data + (PaddedLen16 (zlen data + 20) - (20 + zlen data))))
      with (PaddedLen16 (zlen data + 20)) by lia.
  - exists [], s. rewrite app_nil_r. split; [done|]. split; [done|]. split; [done|].
    rewrite zlen_app, Hh. by replace (20 + zlen data) with (PaddedLen16 (zlen data + 20)) by lia.
Qed.

(** The guess stops at the true length at the latest. *)
Lemma GuessLoop_run data pad n i :
  0 <= i <= zlen pad -> zlen pad - i < Z.of_nat n ->
  exists pad', GuessLoop n i (sha1 data ++ data ++ pad) = Ok (data ++ pad') /\
    (exists suffix, pad = pad' ++ suffix) /\ sha1 (data ++ pad') = sha1 data.
Proof.
  revert i. induction n as [|n IH]; intros i Hi Hn; [lia|]. cbn [GuessLoop].
  pose proof (zlen_nonneg data). pose proof (zlen_nonneg pad).
  assert (Hh : zlen (sha1 data) = 20) by apply zlen_sha1.
  rewrite !zlen_app, Hh. destruct (Z.ltb_spec (20 + (zlen data + zlen pad) - i) 20); [lia|].
  replace (20 + (zlen data + zlen pad) - i - 20) with (zlen (data ++ ztake (zlen pad - i) pad))
    by (rewrite zlen_app, zlen_ztake; lia).
  assert (Hc : zslice 20 (zlen (data ++ ztake (zlen pad - i) pad)) (sha1 data ++ data ++ pad) =
    data ++ ztake (zlen pad - i) pad).
  { unfold zslice. rewrite zdrop_app by done.
    transitivity (ztake (zlen (data ++ ztake (zlen pad - i) pad))
      ((data ++ ztake (zlen pad - i) pad) ++ zdrop (zlen pad - i) pad)).
    - by rewrite <- app_assoc, ztake_zdrop.
    - by apply ztake_app. }
  rewrite Hc, ztake_app by done. case_bool_decide as Heq.
  - exists (ztake (zlen pad - i) pad). split; [done|]. split; [|done].
    exists (zdrop (zlen pad - i) pad). by rewrite ztake_zdrop.
  - destruct (Z.eq_dec i (zlen pad)) as [->|]; [|apply IH; lia].
    exfalso. apply Heq. rewrite Z.sub_diag. unfold ztake. cbn. by rewrite app_nil_r.
Qed.

Lemma GuessDataWithHash_run data pad :
  data <> [] -> zlen pad < 16 ->
  exists pad', GuessDataWithHash (sha1 data ++ data ++ pad) = Ok (data ++ pad') /\
    (exists suffix, pad = pad' ++ suffix) /\ sha1 (data ++ pad') = sha1 data.
Proof.
  intros Hd Hp. unfold GuessDataWithHash. pose proof (zlen_nonneg pad).
  assert (Hh : zlen (sha1 data) = 20) by apply zlen_sha1.
  assert (0 < zlen data) by (destruct data; [done|]; rewrite zlen_cons; pose proof (zlen_nonneg data); lia).
  rewrite !zlen_app, Hh. destruct (Z.leb_spec (20 + (zlen data + zlen pad)) 20); [lia|].
  apply GuessLoop_run; lia.
Qed.

Lemma EncryptExchangeAnswer_run {S T} (rand : RandomFill S) (keep : S -> T)
    `{!RandomSource rand keep} answer key iv s :
  zlen key = 32 -> zlen iv = 32 -> answer <> [] ->
  exists enc s' extra, EncryptExchangeAnswer rand answer key iv s = (Ok enc, s') /\
    keep s' = keep s /\
    DecryptExchangeAnswer enc key iv = Ok (answer ++ extra) /\
    zlen extra < 16 /\ sha1 (answer ++ extra) = sha1 answer.
Proof.
  intros Hkey Hiv Hanswer.   unfold EncryptExchangeAnswer, DecryptExchangeAnswer.
  destruct (DataWithHash_run rand keep answer s) as (pad & s' & E & Hk & Hp & H16).
  erewrite bind_Ok by exact E.
  destruct (IgeEncrypt_run key iv (sha1 answer ++ answer ++ pad)) as (enc & Ee & _ & Hdec);
    [by rewrite Hkey|done|done|].
  destruct (GuessDataWithHash_run answer pad Hanswer Hp) as (pad' & Eg & [suffix ->] & Hsha).
  exists enc, s', pad'. unfold lift. rewrite Ee, Hdec. cbn [rbind].
  split; [done|]. split; [done|]. split; [done|]. split; [|done].
  rewrite zlen_app in Hp. pose proof (zlen_nonneg suffix). lia.
Qed.

Lemma TempAesKeys_zlen nn sn key iv :
  zlen nn = 32 -> TempAesKeys nn sn = (key, iv) -> zlen key = 32 /\ zlen iv = 32.
Proof.
  unfold TempAesKeys. intros Hn [= <- <-].
  rewrite !zlen_app, !zlen_ztake, zlen_zslice, !zlen_sha1 by (rewrite ?zlen_sha1; lia). done.
Qed.

(** ** Properties *)

(** C36. RSA_PAD is undone: for a 2048-bit key pair and at most 144 bytes of
    data, [RsaPad] pads the data to 192 bytes and either returns a ciphertext
    from which [RsaUnpad] recovers exactly the padded data, or has drawn [fuel]
    temporary keys every one of which gave a block not below the modulus (the
    only reason the loop retries). *)
Theorem RsaPad_RsaUnpad {S T} (rand : RandomFill S) (keep : S -> T)
    (Hrand : RandomSource rand keep) (key : RsaPrivateKey.t) (data : bytes) (fuel : nat) (s : S)
    (Hkey : rsa_key_ok key) (Hdata : zlen data <= kRsaPadDataLimit) :
  exists padding s1, zlen (data ++ padding) = kDataWithPaddingLen /\
    ((exists c s', RsaPad rand fuel data (PublicKey key) s = (Ok c, s') /\
       RsaUnpad c key = Ok (data ++ padding)) \/
     (fst (RsaPad rand fuel data (PublicKey key) s) = Throw (RuntimeError "out of fuel") /\
      all_rejected rand (RsaPrivateKey.n_ key) (data ++ padding) fuel s1)).
Proof.
  unfold RsaPad. pose proof (zlen_nonneg data). unfold kRsaPadDataLimit, kDataWithPaddingLen in *.
  destruct (Z.ltb_spec 144 (zlen data)); [lia|].
  destruct (random_fill (192 - zlen data) s ltac:(lia)) as (pad & s1 & E & Hp & _).
  exists pad, s1. split; [rewrite zlen_app; lia|]. erewrite bind_Ok by exact E.
  apply (RsaPadLoop_run rand keep); [done|]. rewrite zlen_app. lia.
Qed.

(** The hand-written DER reader parses every well-formed PKCS#1 public
    key of up to 32000 bytes a number, with the short and long length forms
    and the sign byte, to exactly the minimal modulus and exponent, whatever
    follows the structure. *)
Theorem FromPkcs1Pem_reads (pem_read : bytes -> option bytes) (pem n e rest : bytes)
    (Hpem : pem_read pem = Some (der_rsa_public_key n e ++ rest))
    (Hn : minimal n) (He : minimal e) (Hsize : zlen n + zlen e < 32000)
    (Hrest : zlen rest < 2 ^ 60) :
  FromPkcs1Pem pem_read pem = Ok (RsaPublicKey.Mk n e).
Proof.
  unfold FromPkcs1Pem. rewrite Hpem.
  pose proof (zlen_nonneg n). pose proof (zlen_nonneg e). pose proof (zlen_nonneg rest).
  pose proof (zlen_der_integer n). pose proof (zlen_der_integer e).
  pose proof (zlen_nonneg (der_integer n)). pose proof (zlen_nonneg (der_integer e)).
  set (body := der_integer n ++ der_integer e) in *.
  assert (Hb : zlen body < 2 ^ 16) by (unfold body; rewrite zlen_app; lia).
  assert (Hseq : der_reads DerReader.EnterSequence ([x30] ++ der_length (zlen body) ++ []) tt).
  { apply (der_bind DerReader.ReadTag (fun tag p =>
      guard (bool_decide (tag = x30)) (RuntimeError "DER: expected SEQUENCE tag") ;;;
      _ <- DerReader.ReadLength p ;; ret tt) _ _ x30 _ (der_tag x30)).
    rewrite bool_decide_eq_true_2 by done.
    apply (der_bind DerReader.ReadLength (fun _ _ => ret tt) _ _ (zlen body)); [|apply der_ret].
    apply der_ReadLength. pose proof (zlen_nonneg body). lia. }
  assert (Hall : der_reads (fun p => DerReader.EnterSequence p ;;;
      n <- DerReader.ReadInteger p ;; e <- DerReader.ReadInteger p ;; ret (RsaPublicKey.Mk n e))
    (([x30] ++ der_length (zlen body) ++ []) ++ der_integer n ++ der_integer e ++ [])
    (RsaPublicKey.Mk n e)).
  { eapply (der_bind _ (fun _ p => n <- DerReader.ReadInteger p ;;
      e <- DerReader.ReadInteger p ;; ret (RsaPublicKey.Mk n e)) _ _ tt _ Hseq).
    eapply (der_bind _ (fun n p => e <- DerReader.ReadInteger p ;; ret (RsaPublicKey.Mk n e))
      _ _ n _ (der_ReadInteger n Hn ltac:(lia))).
    eapply (der_bind _ (fun e _ => ret (RsaPublicKey.Mk n e)) _ _ e _
      (der_ReadInteger e He ltac:(lia))). apply der_ret. }
  specialize (Hall [] rest). rewrite !app_nil_r in Hall. cbn [app] in Hall.
  unfold der_rsa_public_key. fold body. rewrite <- !app_assoc in *. cbn [app] in *.
  assert (Hl : zlen (x30 :: der_length (zlen body) ++ body ++ rest) < 2 ^ 62).
  { rewrite zlen_cons, !zlen_app. assert (zlen (der_length (zlen body)) <= 3).
    { unfold der_length. repeat case_match; done. }
    lia. }
  unfold body in *. rewrite <- !app_assoc in *. change (zlen []) with 0 in Hall. by rewrite Hall.
Qed.

(** An exchange answer goes through: decrypting what
    [EncryptExchangeAnswer] produced returns the answer, or an extension of
    it by random padding bytes with the same SHA-1 (the guess of the padding
    length stops at the true length at the latest). *)
Theorem EncryptExchangeAnswer_decrypts {S T} (rand : RandomFill S) (keep : S -> T)
    (Hrand : RandomSource rand keep) (answer key iv : bytes) (s : S)
    (Hkey : zlen key = 32) (Hiv : zlen iv = 32) (Hanswer : answer <> []) :
  exists enc s' extra, EncryptExchangeAnswer rand answer key iv s = (Ok enc, s') /\
    keep s' = keep s /\
    DecryptExchangeAnswer enc key iv = Ok (answer ++ extra) /\
    zlen extra < 16 /\ sha1 (answer ++ extra) = sha1 answer.
Proof. by apply EncryptExchangeAnswer_run. Qed.

(** [CheckDHParams] accepts exactly the parameters of its comment:
    1 < g, g_a, g_b < dh_prime - 1 and both public values in the safety range
    2^(2048-64) < x < dh_prime - 2^(2048-64); it throws otherwise. *)
Theorem CheckDHParams_spec (dh_prime : bytes) (g : Z) (g_a g_b : bytes) :
  let p := be_val dh_prime in
  let range x := 1 < x < p - 1 in
  let safe x := 2 ^ (2048 - 64) < x < p - 2 ^ (2048 - 64) in
  CheckDHParams dh_prime g g_a g_b = Ok tt <->
  range (u64 g) /\ range (be_val g_a) /\ range (be_val g_b) /\
  safe (be_val g_a) /\ safe (be_val g_b).
Proof.
  unfold CheckDHParams, InRange, BytesToBignum, safety_min, kRsaKeyBits.
  rewrite Z.shiftl_1_l. set (k := 2 ^ (2048 - 64)). clearbody k.
  repeat match goal with |- context [Z.ltb ?a ?b] => destruct (Z.ltb_spec a b) end;
    cbn [andb negb]; split; try done; intros; lia.
Qed.

End Dh.

(** ** Witnesses *)

Section Witnesses.
#[local] Existing Instances Toy.toy Toy.toy_laws.

(** A key pair with exponents one: encryption is the identity below the
    modulus. *)
Definition sample_rsa : RsaPrivateKey.t := RsaPrivateKey.Mk (replicate 256 xff) [x01] [x01] [] [] [] [] [].

Lemma sample_rsa_ok : rsa_key_ok sample_rsa.
Proof.
  unfold rsa_key_ok. cbn [RsaPrivateKey.n_ RsaPrivateKey.e_ RsaPrivateKey.d_ sample_rsa].
  split; [reflexivity|]. split; [vm_compute; reflexivity|]. split; [vm_compute; reflexivity|].
  change (be_val [x01]) with 1. intros m Hm. rewrite !Z.pow_1_r.
  rewrite Z.mod_mod by lia. by apply Z.mod_small.
Qed.

Lemma RsaPad_RsaUnpad_witness :
  exists padding (s1 : unit), zlen (lit "secret" ++ padding) = kDataWithPaddingLen /\
    ((exists c s', RsaPad Toy.zeros 3 (lit "secret") (PublicKey sample_rsa) tt = (Ok c, s') /\
       RsaUnpad c sample_rsa = Ok (lit "secret" ++ padding)) \/
     (fst (RsaPad Toy.zeros 3 (lit "secret") (PublicKey sample_rsa) tt) =
        Throw (RuntimeError "out of fuel") /\
      all_rejected Toy.zeros (RsaPrivateKey.n_ sample_rsa) (lit "secret" ++ padding) 3 s1)).
Proof.
  apply (RsaPad_RsaUnpad Toy.zeros id Toy.zeros_random sample_rsa (lit "secret") 3 tt);
    [apply sample_rsa_ok | discriminate].
Defined.

Lemma FromPkcs1Pem_reads_witness :
  FromPkcs1Pem Some (der_rsa_public_key (replicate 256 xc7) [x01; x00; x01] ++ lit "tail") =
  Ok (RsaPublicKey.Mk (replicate 256 xc7) [x01; x00; x01]).
Proof.
  apply (FromPkcs1Pem_reads Some _ (replicate 256 xc7) [x01; x00; x01] (lit "tail"));
    [reflexivity | discriminate | discriminate | reflexivity | reflexivity].
Defined.

Lemma EncryptExchangeAnswer_decrypts_witness :
  exists enc s' extra,
    EncryptExchangeAnswer Toy.zeros (lit "answer") (replicate 32 x01) (replicate 32 x02) tt =
      (Ok enc, s') /\ id s' = id tt /\
    DecryptExchangeAnswer enc (replicate 32 x01) (replicate 32 x02) = Ok (lit "answer" ++ extra) /\
    zlen extra < 16 /\ sha1 (lit "answer" ++ extra) = sha1 (lit "answer").
Proof.
  apply (EncryptExchangeAnswer_decrypts Toy.zeros id Toy.zeros_random (lit "answer")
    (replicate 32 x01) (replicate 32 x02) tt); [reflexivity | reflexivity | discriminate].
Defined.

End Witnesses.
