(* ===== verification/RsaKey.v ===== *)
(** * The server's RSA key and its file: [rsa.cpp]

    [RsaPrivateKey::LoadOrGenerate] reads the key from a file, or generates one
    and writes it there.  An [EVP_PKEY] is the numbers it holds by name; what
    OpenSSL does with it, and the file system, are parameters. *)

From Stdlib Require Import ZArith Lia Strings.Byte Strings.String.
From stdpp Require Import base decidable list strings gmap.
From S2P Require Import Prelude Text OpenSSL Dh.
Import Bignum.

(** [EVP_PKEY]: its BIGNUM parameters. *)
Definition pkey : Type := gmap string Z.

Class KeyTools (W : Type) : Type := {
  (** [EVP_PKEY_CTX_new_from_name], [EVP_PKEY_keygen_init] and
      [EVP_PKEY_CTX_set_rsa_keygen_bits] all succeed *)
  keygen_init : Z -> W -> bool;
  EVP_PKEY_generate : Z -> W -> option pkey * W;
  PEM_read_bio_PrivateKey : bytes -> option pkey;
  (** [EVP_PKEY_fromdata] on the parameters, and
      [PEM_write_bio_PrivateKey_traditional] *)
  EVP_PKEY_fromdata : pkey -> option pkey;
  PEM_write_traditional : pkey -> option bytes;
  (** [fopen(path, "rb")]: the open stream is what can be read from it;
      [fread]: up to so many bytes of it *)
  fopen_rb : bytes -> W -> option bytes;
  (** [fopen(path, "wb")], which truncates the file, and [fwrite], [fclose] *)
  fopen_wb : bytes -> W -> bool * W;
  fwrite_all : bytes -> bytes -> W -> W }.

Section KeyFile.
Context {W : Type} {tools : KeyTools W}.

Definition GetBnParamBytes (k : pkey) (param_name : string) : res bytes :=
  match k !! param_name with
  | None => Throw (RuntimeError ("EVP_PKEY_get_bn_param(" +:+ param_name +:+ ") failed"))
  | Some bn => Ok (BignumToMinimalBytes bn)
  end.

(** [OSSL_PKEY_PARAM_RSA_N] … *)
Definition kN : string := "n".
Definition kE : string := "e".
Definition kD : string := "d".
Definition kFactor1 : string := "rsa-factor1".
Definition kFactor2 : string := "rsa-factor2".
Definition kExponent1 : string := "rsa-exponent1".
Definition kExponent2 : string := "rsa-exponent2".
Definition kCoefficient1 : string := "rsa-coefficient1".

(** [return RsaPrivateKey(GetBnParamBytes(…), …)]; C++ leaves the order of the
    arguments open, on which only the text of an error depends. *)
Definition ReadKey (k : pkey) : res RsaPrivateKey.t :=
  n <-? GetBnParamBytes k kN ;;
  e <-? GetBnParamBytes k kE ;;
  d <-? GetBnParamBytes k kD ;;
  p <-? GetBnParamBytes k kFactor1 ;;
  q <-? GetBnParamBytes k kFactor2 ;;
  dp <-? GetBnParamBytes k kExponent1 ;;
  dq <-? GetBnParamBytes k kExponent2 ;;
  qinv <-? GetBnParamBytes k kCoefficient1 ;;
  Ok (RsaPrivateKey.Mk n e d p q dp dq qinv).

Definition Generate (bits : Z) : M W RsaPrivateKey.t := fun w =>
  if negb (keygen_init bits w) then (Throw (RuntimeError "failed to initialize RSA keygen"), w)
  else
    match EVP_PKEY_generate bits w with
    | (None, w) => (Throw (RuntimeError "RSA key generation failed"), w)
    | (Some k, w) => (ReadKey k, w)
    end.

Definition PrivateKeyFromPem (pem : bytes) : res RsaPrivateKey.t :=
  match PEM_read_bio_PrivateKey pem with
  | None => Throw (RuntimeError "failed to parse RSA private key PEM")
  | Some k => ReadKey k
  end.

(** The parameters pushed to [OSSL_PARAM_BLD]. *)
Definition KeyParams (key : RsaPrivateKey.t) : pkey :=
  <[kN := BytesToBignum (RsaPrivateKey.n_ key)]> (<[kE := BytesToBignum (RsaPrivateKey.e_ key)]>
  (<[kD := BytesToBignum (RsaPrivateKey.d_ key)]> (<[kFactor1 := BytesToBignum (RsaPrivateKey.p_ key)]>
  (<[kFactor2 := BytesToBignum (RsaPrivateKey.q_ key)]> (<[kExponent1 := BytesToBignum (RsaPrivateKey.dp_ key)]>
  (<[kExponent2 := BytesToBignum (RsaPrivateKey.dq_ key)]>
  (<[kCoefficient1 := BytesToBignum (RsaPrivateKey.qinv_ key)]> ∅))))))).

Definition ToPkcs1Pem (key : RsaPrivateKey.t) : res bytes :=
  match EVP_PKEY_fromdata (KeyParams key) with
  | None => Throw (RuntimeError "failed to rebuild RSA key for PEM export")
  | Some k =>
      match PEM_write_traditional k with
      | None => Throw (RuntimeError "failed to write RSA private key PEM")
      | Some text => Ok text
      end
  end.

(** [while ((n = fread(chunk, 1, sizeof(chunk), f)) > 0) pem.append(chunk, n);]
    with one unit of fuel a turn *)
Fixpoint ReadFile (fuel : nat) (stream pem : bytes) : bytes :=
  match fuel with
  | O => pem
  | S fuel =>
      let chunk := ztake 4096 stream in
      if decide (chunk = []) then pem else ReadFile fuel (zdrop 4096 stream) (pem ++ chunk)
  end.

Definition LoadOrGenerate (path : bytes) : M W RsaPrivateKey.t :=
  opened <- gets (fopen_rb path) ;;
  match opened with
  | Some stream => lift (PrivateKeyFromPem (ReadFile (S (length stream)) stream []))
  | None =>
      key <- Generate kRsaKeyBits ;;
      pem <- lift (ToPkcs1Pem key) ;;
      can <- (fun w => let '(ok, w) := fopen_wb path w in (Ok ok, w)) ;;
      if can : bool then modify (fwrite_all path pem) ;;; ret key
      else throw (RuntimeError ("failed to write RSA key to " +:+ string_of_list_byte path))
  end.

End KeyFile.

(** ** What the tools promise *)

(** The numbers of a key are not negative; a key rebuilt from numbers has
    them; a text that was written is read back; generating a key leaves the
    files alone, and [fwrite] may write less than it is given. *)
Class KeyToolsLaws {W} `{!KeyTools W} (files : W -> gmap bytes bytes) : Prop := {
  generate_law : forall bits w, let '(k, w') := EVP_PKEY_generate bits w in
    files w' = files w /\ forall k' name v, k = Some k' -> k' !! name = Some v -> 0 <= v;
  pem_read_law : forall text k name v, PEM_read_bio_PrivateKey text = Some k -> k !! name = Some v -> 0 <= v;
  fromdata_law : forall ps k name v, EVP_PKEY_fromdata ps = Some k -> ps !! name = Some v -> k !! name = Some v;
  pem_write_law : forall k text, PEM_write_traditional k = Some text -> PEM_read_bio_PrivateKey text = Some k;
  fopen_rb_law : forall path w stream, fopen_rb path w = Some stream -> files w !! path = Some stream;
  fopen_wb_law : forall path w, let '(ok, w') := fopen_wb path w in
    files w' = if ok then <[path := []]> (files w) else files w;
  fwrite_law : forall path data w, exists n, files (fwrite_all path data w) = <[path := ztake n data]> (files w) }.

Lemma ReadFile_all fuel : forall stream pem, (length stream < fuel)%nat -> ReadFile fuel stream pem = pem ++ stream.
Proof.
  induction fuel as [|fuel IH]; intros stream pem Hf; [lia|]. cbn [ReadFile].
  destruct (decide (ztake 4096 stream = [])) as [E|E].
  - destruct stream; [by rewrite app_nil_r|]. by unfold ztake in E.
  - rewrite IH, <- app_assoc; [by rewrite ztake_zdrop|]. unfold zdrop. rewrite length_drop.
    destruct stream; [by destruct E|]. cbn [length] in *. lia.
Qed.

(** The numbers a key was made of. *)
Definition key_fields (key : RsaPrivateKey.t) : list (string * bytes) :=
  [(kN, RsaPrivateKey.n_ key); (kE, RsaPrivateKey.e_ key); (kD, RsaPrivateKey.d_ key);
   (kFactor1, RsaPrivateKey.p_ key); (kFactor2, RsaPrivateKey.q_ key); (kExponent1, RsaPrivateKey.dp_ key);
   (kExponent2, RsaPrivateKey.dq_ key); (kCoefficient1, RsaPrivateKey.qinv_ key)].
Definition made_of (k : pkey) (key : RsaPrivateKey.t) : Prop :=
  Forall (fun '(name, field) => GetBnParamBytes k name = Ok field) (key_fields key).

Lemma rbind_Ok_inv {A B} (r : res A) (k : A -> res B) b : rbind r k = Ok b -> exists a, r = Ok a /\ k a = Ok b.
Proof. destruct r as [a|e]; [by exists a|done]. Qed.

Lemma ReadKey_made_of k key : ReadKey k = Ok key <-> made_of k key.
Proof.
  unfold made_of, key_fields. rewrite !Forall_cons. split.
  - unfold ReadKey. intros H. repeat (apply rbind_Ok_inv in H as (? & ? & H)). injection H as <-. cbn.
    split_and!; try assumption. apply Forall_nil_2.
  - destruct key. cbn. intros (H1 & H2 & H3 & H4 & H5 & H6 & H7 & H8 & _). unfold ReadKey.
    by rewrite H1, H2, H3, H4, H5, H6, H7, H8.
Qed.

Lemma KeyParams_fields key name field : (name, field) ∈ key_fields key -> KeyParams key !! name = Some (be_val field).
Proof.
  unfold key_fields. rewrite !elem_of_cons, elem_of_nil.
  intros H. unfold KeyParams. destruct_or!; simplify_eq; reflexivity.
Qed.

Section Saving.
Context {W : Type} `{!KeyTools W} (files : W -> gmap bytes bytes) {laws : KeyToolsLaws files}.

(** A key that was read or generated is what its text denotes. *)
Lemma saved_key k key text : made_of k key -> (forall name v, k !! name = Some v -> 0 <= v) ->
  ToPkcs1Pem key = Ok text -> PrivateKeyFromPem text = Ok key.
Proof.
  intros Hk Hpos Ht. unfold ToPkcs1Pem in Ht. destruct (EVP_PKEY_fromdata (KeyParams key)) as [k2|] eqn:E2; [|done].
  destruct (PEM_write_traditional k2) as [t|] eqn:Et; [|done]. injection Ht as ->.
  unfold PrivateKeyFromPem. rewrite (pem_write_law _ _ Et). apply ReadKey_made_of. unfold made_of in *.
  rewrite Forall_forall in Hk |- *. intros [name field] Hin. specialize (Hk _ Hin). cbn in Hk.
  unfold GetBnParamBytes in *. destruct (k !! name) as [v|] eqn:Ev; [|done]. injection Hk as <-.
  rewrite (fromdata_law _ _ name _ E2 (KeyParams_fields _ _ _ Hin)). unfold BytesToBignum.
  rewrite be_val_minimal; [done|]. by eapply Hpos.
Qed.

Lemma LoadOrGenerate_existing path w stream : fopen_rb path w = Some stream ->
  LoadOrGenerate path w = (PrivateKeyFromPem stream, w).
Proof.
  intros E. unfold LoadOrGenerate. rewrite bind_gets, E, ReadFile_all by lia. done.
Qed.

(** What a run that has to generate its key does. *)
Definition generates (path : bytes) (w : W) (r : res RsaPrivateKey.t) (w' : W) : Prop :=
  match r with
  | Ok key => exists pem n, ToPkcs1Pem key = Ok pem /\ PrivateKeyFromPem pem = Ok key /\
      files w' = <[path := ztake n pem]> (files w)
  | Throw e => files w' = files w /\ exists what, e = RuntimeError what
  end.

Lemma GetBnParamBytes_throws k name e : GetBnParamBytes k name = Throw e -> exists what, e = RuntimeError what.
Proof. unfold GetBnParamBytes. destruct (k !! name); [done|]. intros [= <-]. by eexists. Qed.
Lemma ReadKey_throws k e : ReadKey k = Throw e -> exists what, e = RuntimeError what.
Proof.
  unfold ReadKey. assert (Hstep : forall name (next : bytes -> res RsaPrivateKey.t),
    (forall b, next b = Throw e -> exists what, e = RuntimeError what) ->
    rbind (GetBnParamBytes k name) next = Throw e -> exists what, e = RuntimeError what).
  { intros name next Hn. destruct (GetBnParamBytes k name) eqn:E; [apply Hn|]. intros [= ->]. by eapply GetBnParamBytes_throws. }
  repeat (apply Hstep; intros ?). done.
Qed.

Lemma LoadOrGenerate_new path w : fopen_rb path w = None ->
  let '(r, w') := LoadOrGenerate path w in generates path w r w'.
Proof.
  intros E. unfold LoadOrGenerate. rewrite bind_gets, E. unfold bind at 1, Generate.
  destruct (keygen_init kRsaKeyBits w); cbn [negb]; [|cbn; by eauto].
  pose proof (generate_law kRsaKeyBits w) as Hg. destruct (EVP_PKEY_generate kRsaKeyBits w) as [[k|] w1]; [|cbn; destruct Hg as [-> _]; by eauto].
  destruct Hg as [Hf Hpos]. destruct (ReadKey k) as [key|e] eqn:Ek; [|cbn; rewrite Hf; split; [done|]; by eapply ReadKey_throws].
  apply ReadKey_made_of in Ek. rewrite bind_lift.
  destruct (ToPkcs1Pem key) as [pem|e] eqn:Ep; cycle 1.
  { cbn. split; [done|]. unfold ToPkcs1Pem in Ep. repeat case_match; simplify_eq; by eauto. }
  unfold bind at 1. pose proof (fopen_wb_law path w1) as Hw. destruct (fopen_wb path w1) as [[|] w2]; cbn.
  - destruct (fwrite_law path pem w2) as [n Hn]. exists pem, n. split; [done|]. split.
    + by eapply saved_key; [exact Ek|intros; by eapply Hpos|].
    + by rewrite Hn, Hw, insert_insert_eq, Hf.
  - rewrite Hw, Hf. by eauto.
Qed.

End Saving.

(** ** A concrete disk *)

Module ToyDisk.

(** The files, and how many bytes still fit. *)
Record disk : Type := MkDisk { d_files : gmap bytes bytes; room : Z }.

Definition the_key : pkey :=
  <[kN := 3233]> (<[kE := 17]> (<[kD := 2753]> (<[kFactor1 := 61]> (<[kFactor2 := 53]>
  (<[kExponent1 := 53]> (<[kExponent2 := 49]> (<[kCoefficient1 := 38]> (∅ : pkey)))))))).

#[export] Instance toy_tools : KeyTools disk := {|
  keygen_init := fun _ _ => true;
  EVP_PKEY_generate := fun _ d => (Some the_key, d);
  PEM_read_bio_PrivateKey := fun text => if decide (text = lit "-----KEY-----") then Some the_key else None;
  EVP_PKEY_fromdata := Some;
  PEM_write_traditional := fun k => if decide (k = the_key) then Some (lit "-----KEY-----") else None;
  fopen_rb := fun path d => d_files d !! path;
  fopen_wb := fun path d =>
    if decide (path = lit "key.pem") then (true, MkDisk (<[path := []]> (d_files d)) (room d)) else (false, d);
  fwrite_all := fun path data d => MkDisk (<[path := ztake (room d) data]> (d_files d)) (room d) |}.

Lemma the_key_positive name v : the_key !! name = Some v -> 0 <= v.
Proof.
  assert (H : map_Forall (fun _ v => 0 <= v) (the_key : gmap string Z)).
  { apply (bool_decide_unpack _). vm_compute. exact I. }
  apply H.
Qed.

#[export] Instance toy_tools_laws : KeyToolsLaws d_files.
Proof.
  split; cbn.
  - intros _ d. split; [done|]. intros k name v [= <-]. apply the_key_positive.
  - intros text k name v. case_decide; [intros [= <-]; apply the_key_positive|done].
  - by intros ps k name v [= ->].
  - intros k text. case_decide; [intros [= <-]; by subst|done].
  - done.
  - intros path d. by case_decide.
  - intros path data d. by exists (room d).
Qed.

Definition roomy : disk := MkDisk ∅ 1000.
Definition full : disk := MkDisk ∅ 5.
End ToyDisk.

(** ** Properties *)

(** C22. The server keeps its key. If the key file can be opened, the key is
    what its text denotes and nothing is written. If not, a new key is
    generated and its text is written to the file, of which the disk may take
    only a part; if no key can be made or the file cannot be opened for writing
    the call throws and the files are as they were. Whichever way a key was got,
    a later start that finds its whole text in the file gets the same key:
    all eight numbers survive the text. *)
Theorem LoadOrGenerate_keeps_key {W} `{!KeyTools W} (files : W -> gmap bytes bytes) {laws : KeyToolsLaws files}
    (path : bytes) (w : W) :
  (forall stream, fopen_rb path w = Some stream -> LoadOrGenerate path w = (PrivateKeyFromPem stream, w)) /\
  (fopen_rb path w = None -> let '(r, w') := LoadOrGenerate path w in generates files path w r w') /\
  (forall key w', LoadOrGenerate path w = (Ok key, w') ->
     forall pem w2, ToPkcs1Pem key = Ok pem -> fopen_rb path w2 = Some pem -> LoadOrGenerate path w2 = (Ok key, w2)).
Proof.
  split; [apply LoadOrGenerate_existing|]. split; [by apply LoadOrGenerate_new|].
  intros key w' Hrun pem w2 Hpem Hopen. rewrite (LoadOrGenerate_existing path w2 pem Hopen). f_equal.
  destruct (fopen_rb path w) as [stream|] eqn:E.
  - rewrite (LoadOrGenerate_existing path w stream E) in Hrun. injection Hrun as Hkey _.
    unfold PrivateKeyFromPem in Hkey. destruct (PEM_read_bio_PrivateKey stream) as [k|] eqn:Ek; [|done].
    eapply (saved_key files); [by apply ReadKey_made_of|intros name v; by eapply pem_read_law|done].
  - pose proof (LoadOrGenerate_new files path w E) as H. rewrite Hrun in H.
    destruct H as (pem' & n & Hp & Hkey & _). congruence.
Qed.

Section Witness.
#[local] Existing Instances ToyDisk.toy_tools ToyDisk.toy_tools_laws.
Import ToyDisk.

(** The second start finds the key of the first.  On a full disk the first
    start succeeds all the same, and the second fails. *)
Definition first_start : res RsaPrivateKey.t * disk := LoadOrGenerate (lit "key.pem") roomy.
Definition after_first : disk := snd first_start.
Definition cut_short : res RsaPrivateKey.t * disk := LoadOrGenerate (lit "key.pem") full.
Definition toy_key : RsaPrivateKey.t := RsaPrivateKey.Mk [x0c; xa1] [x11] [x0a; xc1] [x3d] [x35] [x35] [x31] [x26].

Lemma LoadOrGenerate_keeps_key_witness :
  first_start = (Ok toy_key, after_first) /\
  LoadOrGenerate (lit "key.pem") after_first = (Ok toy_key, after_first) /\
  fst cut_short = Ok toy_key /\
  fst (LoadOrGenerate (lit "key.pem") (snd cut_short)) = Throw (RuntimeError "failed to parse RSA private key PEM").
Proof.
  assert (Hrun : LoadOrGenerate (lit "key.pem") roomy = (Ok toy_key, after_first)) by (vm_compute; reflexivity).
  assert (Hpem : ToPkcs1Pem toy_key = Ok (lit "-----KEY-----")) by (vm_compute; reflexivity).
  assert (Hopen : fopen_rb (lit "key.pem") after_first = Some (lit "-----KEY-----")) by (vm_compute; reflexivity).
  split; [exact Hrun|]. split; [|split; vm_compute; reflexivity].
  exact (proj2 (proj2 (LoadOrGenerate_keeps_key d_files (lit "key.pem") roomy)) toy_key after_first Hrun
    (lit "-----KEY-----") after_first Hpem Hopen).
Defined.

End Witness.
