(* ===== verification/Params.v ===== *)
(** * The fixed parameters of the key exchange

    [FixedPq] and [FixedDhPrime] of [server_exchange.cpp]; the SRP code shares
    the prime.  The facts about the prime the theorems need are evaluated
    here. *)

From Stdlib Require Import ZArith Lia Strings.Byte Strings.String Strings.Ascii.
From stdpp Require Import base decidable list.
From S2P Require Import Prelude OpenSSL.

(** The digit [std::stoul(..., 16)] reads. *)
Definition hex_digit (b : byte) : Z :=
  let c := bz b in
  if (48 <=? c) && (c <=? 57) then c - 48
  else if (65 <=? c) && (c <=? 70) then c - 55
  else c - 87.

(** [for (i = 0; i + 1 < hex.size(); i += 2)] *)
Fixpoint HexToBytes (hex : bytes) : bytes :=
  match hex with
  | h :: l :: t => u8 (hex_digit h * 16 + hex_digit l) :: HexToBytes t
  | _ => []
  end.

Definition FixedPq : bytes := [x17; xed; x48; x94; x1a; x08; xf9; x81].

Definition FixedDhPrime : bytes := HexToBytes (lit (
  "C71CAEB9C6B1C9048E6C522F70F13F73" ++
  "980D40238E3E21C14934D037563D930F" ++
  "48198A0AA7C14058229493D22530F4DB" ++
  "FA336F6E0AC925139543AED44CCE7C37" ++
  "20FD51F69458705AC68CD4FE6B6B13AB" ++
  "DC9746512969328454F18FAF8C595F64" ++
  "2477FE96BB2A941D5BCD1D4AC8CC4988" ++
  "0708FA9B378E3C4F3A9060BEE67CF9A4" ++
  "A4A695811051907E162753B56B0F6B41" ++
  "0DBA74D8A84B2A14B3144E0EF1284754" ++
  "FD17ED950D5965B4B9DD46582DB1178D" ++
  "169C6BC465B0D6FF9CA3928FEF5B9AE4" ++
  "E418FC15E83EBEA0F87FA9FF5EED7005" ++
  "0DED2849F47BF959D956850CE929851F" ++
  "0D8115F635B105EE2E4E15D04B2454BF" ++
  "6F4FADF034B10403119CD8E3B92FCC5B")%string).

Lemma zlen_FixedDhPrime : zlen FixedDhPrime = 256.
Proof. vm_compute. reflexivity. Qed.

Lemma FixedDhPrime_odd : Z.odd (be_val FixedDhPrime) = true.
Proof. vm_compute. reflexivity. Qed.

Lemma FixedDhPrime_mod3 : be_val FixedDhPrime mod 3 = 2.
Proof. vm_compute. reflexivity. Qed.

Lemma FixedDhPrime_big : 2 ^ 2047 < be_val FixedDhPrime < 2 ^ 2048.
Proof. vm_compute. split; reflexivity. Qed.

(** The generator 3 is invertible modulo the prime, so no power of it is
    zero. *)
Lemma pow3_nonzero a : 0 <= a -> 3 ^ a mod be_val FixedDhPrime <> 0.
Proof.
  set (p := be_val FixedDhPrime). intros Ha H0.
  assert (Hp : 1 < p) by (pose proof FixedDhPrime_big as [H _]; fold p in H; lia).
  assert (Hg : Z.gcd p 3 = 1).
  { rewrite Z.gcd_comm, <- Z.gcd_mod by lia. unfold p. rewrite FixedDhPrime_mod3. reflexivity. }
  apply Z.mod_divide in H0; [|lia].
  assert (Hrel : forall n, Z.gcd p (3 ^ Z.of_nat n) = 1).
  { induction n as [|n IH]; [apply Z.gcd_1_r|].
    rewrite Nat2Z.inj_succ, Z.pow_succ_r by lia.
    apply Znumtheory.Zgcd_1_rel_prime, Znumtheory.rel_prime_mult;
      by apply Znumtheory.Zgcd_1_rel_prime. }
  specialize (Hrel (Z.to_nat a)). rewrite Z2Nat.id in Hrel by done.
  assert (Z.divide p 1) as Hd.
  { rewrite <- Hrel. apply Z.gcd_greatest; [apply Z.divide_refl | done]. }
  apply Z.divide_1_r_nonneg in Hd; lia.
Qed.
