(* ===== verification/Srp.v ===== *)
(** * Two-step verification: SRP ([crypto/srp.cpp])

    The server's challenge and expected proof, the client's proof, and their
    agreement: the proof a client computes from the right password is the one
    the server expects. *)

From Stdlib Require Import ZArith Zpow_facts Lia Strings.Byte Strings.String.
From stdpp Require Import base decidable list.
From S2P Require Import Prelude OpenSSL Dh Params.
Import Bignum.

Module SrpChallenge.
Record t : Type := Mk { b_secret : bytes; b : bytes }.
End SrpChallenge.

Module SrpClientAnswer.
Record t : Type := Mk { a : bytes; m1 : bytes }.
End SrpClientAnswer.

Section Srp.
Context {ssl : OpenSSL}.

Definition kSrpBaseG : Z := 3.
Definition SrpBaseP : bytes := FixedDhPrime.
Definition SrpBaseSalt2 : bytes :=
  [xbe; xde; x48; x88; x8c; x0f; x42; xac; x34; xff; xd1; xd4; x93; x5d; x8b; x21].

Definition Sha256Concat (parts : list bytes) : bytes := sha256 (concat parts).

Definition SaltHash (data salt : bytes) : bytes := sha256 (salt ++ data ++ salt).
Definition Ph1 (password salt1 salt2 : bytes) : bytes := SaltHash (SaltHash password salt1) salt2.
Definition Ph2 (password salt1 salt2 : bytes) : bytes :=
  let ph1 := Ph1 password salt1 salt2 in
  let derived := pbkdf2_sha512 ph1 salt1 100000 64 in
  SaltHash derived salt2.

Definition GBytes : bytes := [u8 kSrpBaseG].

Definition SrpPadToHash (in_ : bytes) : bytes :=
  let kSize := 256 in
  if kSize <=? zlen in_ then zdrop (zlen in_ - kSize) in_
  else replicate (Z.to_nat (kSize - zlen in_)) x00 ++ in_.

Definition SrpMakeChallenge {S} (rand : RandomFill S) (verifier : bytes) : M S SrpChallenge.t :=
  let p := SrpBaseP in
  guard (IsGoodLarge verifier p) (RuntimeError "srp: verifier out of range") ;;;
  b_secret <- rand 256 ;;
  let g_padded := SrpPadToHash GBytes in
  let k := Sha256Concat [p; g_padded] in
  lift (
    kv <-? MulMod k verifier p ;;
    g_b <-? ModPow GBytes b_secret p ;;
    b_value <-? AddMod kv g_b p ;;
    Ok (SrpChallenge.Mk b_secret (SrpPadToHash b_value))).

(** The last hash, the same on both sides. *)
Definition SrpM1 (salt1 salt2 a_padded b_padded k_value : bytes) : bytes :=
  let g_padded := SrpPadToHash GBytes in
  let xor_hpg := xor_bytes (sha256 SrpBaseP) (sha256 g_padded) in
  Sha256Concat [xor_hpg; sha256 salt1; sha256 salt2; a_padded; b_padded; k_value].

Definition is_zero (u : bytes) : bool := forallb (fun x => bool_decide (x = x00)) u.

Definition SrpCalcM1 (salt1 verifier b_secret srp_b client_a : bytes) : res bytes :=
  let p := SrpBaseP in
  if negb (IsGoodLarge client_a p) then Throw (RuntimeError "srp: A out of range")
  else if negb (IsGoodLarge verifier p) then Throw (RuntimeError "srp: verifier out of range")
  else
    let a_padded := SrpPadToHash client_a in
    let b_padded := SrpPadToHash srp_b in
    let u := Sha256Concat [a_padded; b_padded] in
    if is_zero u then Throw (RuntimeError "srp: u is zero")
    else
      v_pow_u <-? ModPow verifier u p ;;
      a_times_v_pow_u <-? MulMod client_a v_pow_u p ;;
      s_value <-? ModPow a_times_v_pow_u b_secret p ;;
      let k_value := sha256 (SrpPadToHash s_value) in
      Ok (SrpM1 salt1 SrpBaseSalt2 a_padded b_padded k_value).

Definition SrpComputeVerifier (password salt1 salt2 : bytes) : res bytes :=
  let x := Ph2 password salt1 salt2 in
  v <-? ModPow GBytes x SrpBaseP ;;
  Ok (SrpPadToHash v).

Definition SrpClientProof (password salt1 salt2 srp_b random : bytes) : res SrpClientAnswer.t :=
  let p := SrpBaseP in
  let g_padded := SrpPadToHash GBytes in
  g_a <-? ModPow GBytes random p ;;
  let g_a := SrpPadToHash g_a in
  let g_b := SrpPadToHash srp_b in
  let u := Sha256Concat [g_a; g_b] in
  let x := Ph2 password salt1 salt2 in
  v <-? ModPow GBytes x p ;;
  let k := Sha256Concat [p; g_padded] in
  kv <-? MulMod k v p ;;
  t <-? SubMod srp_b kv p ;;
  let exponent := Add random (Mul u x) in
  s_a <-? ModPow t exponent p ;;
  let k_a := sha256 (SrpPadToHash s_a) in
  Ok (SrpClientAnswer.Mk g_a (SrpM1 salt1 salt2 g_a g_b k_a)).

(** ** Numbers *)

Context {laws : OpenSSLLaws}.

Definition P : Z := be_val SrpBaseP.

Lemma P_gt_1 : 1 < P.
Proof. pose proof FixedDhPrime_big. unfold P, SrpBaseP. lia. Qed.

Lemma ModPow_run base exponent :
  exists r, ModPow base exponent SrpBaseP = Ok r /\
    be_val r = be_val base ^ be_val exponent mod P /\ zlen r <= 256.
Proof.
  unfold ModPow. pose proof P_gt_1.
  rewrite mod_exp_run by (done || apply FixedDhPrime_odd). cbn [rbind].
  pose proof (Z.mod_pos_bound (be_val base ^ be_val exponent) P ltac:(lia)).
  eexists. split; [done|]. split; [apply be_val_minimal; unfold P in *; lia|].
  unfold BignumToMinimalBytes. rewrite zlen_be_bytes.
  set (v := be_val base ^ be_val exponent mod be_val SrpBaseP) in *.
  pose proof (bn_num_bytes_nonneg v ltac:(unfold P in *; lia)). rewrite Z2Nat.id by done.
  apply bn_num_bytes_le; [done|]. pose proof FixedDhPrime_big as [_ HP].
  change (2 ^ 2048) with (256 ^ 256) in HP. unfold P, SrpBaseP in *. lia.
Qed.

Lemma mod_op_run op x y :
  exists r, mod_op op x y SrpBaseP = Ok r /\
    be_val r = op (be_val x) (be_val y) mod P /\ zlen r <= 256.
Proof.
  unfold mod_op, BytesToBignum. pose proof P_gt_1. fold P.
  destruct (Z.eqb_spec P 0); [lia|].
  pose proof (Z.mod_pos_bound (op (be_val x) (be_val y)) P ltac:(lia)).
  eexists. split; [done|]. split; [apply be_val_minimal; lia|].
  unfold BignumToMinimalBytes. rewrite zlen_be_bytes.
  set (v := op (be_val x) (be_val y) mod P) in *.
  pose proof (bn_num_bytes_nonneg v ltac:(lia)). rewrite Z2Nat.id by done.
  apply bn_num_bytes_le; [done|]. pose proof FixedDhPrime_big as [_ HP].
  change (2 ^ 2048) with (256 ^ 256) in HP. unfold P, SrpBaseP in *. lia.
Qed.

Lemma be_val_zeros n l : be_val (replicate n x00 ++ l) = be_val l.
Proof.
  induction n as [|n IH]; [done|]. cbn [replicate app]. rewrite be_val_cons, IH.
  change (bz x00) with 0. lia.
Qed.

Lemma be_val_pad v : zlen v <= 256 -> be_val (SrpPadToHash v) = be_val v.
Proof.
  intros Hv. unfold SrpPadToHash. destruct (Z.leb_spec 256 (zlen v)).
  - by replace (zlen v - 256) with 0 by lia.
  - apply be_val_zeros.
Qed.

Lemma zlen_pad v : zlen (SrpPadToHash v) = 256.
Proof.
  unfold SrpPadToHash. pose proof (zlen_nonneg v). destruct (Z.leb_spec 256 (zlen v)).
  - rewrite zlen_zdrop; lia.
  - rewrite zlen_app, zlen_replicate. lia.
Qed.

(** Padding a padded value changes nothing. *)
Lemma pad_id v : zlen v = 256 -> SrpPadToHash v = v.
Proof.
  intros Hv. unfold SrpPadToHash. rewrite Hv. by change (256 <=? 256) with true.
Qed.

(** Minimal-length values with the same number pad to the same bytes. *)
Lemma pad_inj v w :
  zlen v <= 256 -> zlen w <= 256 -> be_val v = be_val w -> SrpPadToHash v = SrpPadToHash w.
Proof.
  intros Hv Hw E. apply be_val_inj; [by rewrite !zlen_pad|]. by rewrite !be_val_pad.
Qed.

Lemma IsGoodLarge_spec v : IsGoodLarge v SrpBaseP = true <-> be_val v <> 0 /\ be_val v < P.
Proof.
  unfold IsGoodLarge, BytesToBignum. fold P. pose proof (be_val_range v).
  destruct (Z.eqb_spec (be_val v) 0), (Z.ltb_spec (be_val v) 0), (Z.ltb_spec (be_val v) P);
    cbn; split; try done; lia.
Qed.

Lemma GBytes_val : be_val GBytes = 3.
Proof. done. Qed.

(** A power of the generator is in range. *)
Lemma pow_good e v : be_val v = 3 ^ be_val e mod P -> IsGoodLarge v SrpBaseP = true.
Proof.
  intros E. apply IsGoodLarge_spec. rewrite E. pose proof P_gt_1. pose proof (be_val_range e).
  split; [apply pow3_nonzero; lia | apply Z.mod_pos_bound; lia].
Qed.

(** The shared secret: (g^a * (g^x)^u)^b = (B - k v)^(a + u x). *)
Lemma shared_secret a b u x k :
  0 <= a -> 0 <= b -> 0 <= u -> 0 <= x ->
  let v := 3 ^ x mod P in
  let B := (k * v mod P + 3 ^ b mod P) mod P in
  ((3 ^ a mod P) * (v ^ u mod P) mod P) ^ b mod P =
  ((B - k * v mod P) mod P) ^ (a + u * x) mod P.
Proof.
  intros Ha Hb Hu Hx v B. pose proof P_gt_1.
  assert (Hpow : forall y n, 0 <= n -> (y mod P) ^ n mod P = y ^ n mod P).
  { intros y n Hn. by rewrite <- Zpower_mod by lia. }
  assert (HB : (B - k * v mod P) mod P = 3 ^ b mod P).
  { unfold B. rewrite Zminus_mod, Z.mod_mod, <- Zminus_mod by lia.
    replace (k * v mod P + 3 ^ b mod P - k * v mod P) with (3 ^ b mod P) by lia.
    by apply Z.mod_mod; lia. }
  assert (Hvu : v ^ u mod P = 3 ^ (x * u) mod P)
    by (unfold v; rewrite Hpow, <- Z.pow_mul_r by lia; done).
  rewrite HB, Hvu, <- Zmult_mod, !Hpow by nia. f_equal.
  rewrite <- Z.pow_add_r, <- !Z.pow_mul_r by nia. f_equal. ring.
Qed.

(** ** The two sides agree *)

Lemma SrpMakeChallenge_run {S T} (rand : RandomFill S) (keep : S -> T)
    `{!RandomSource rand keep} verifier s :
  IsGoodLarge verifier SrpBaseP = true ->
  exists bs bv s',
    SrpMakeChallenge rand verifier s = (Ok (SrpChallenge.Mk bs (SrpPadToHash bv)), s') /\
    keep s' = keep s /\ zlen bs = 256 /\ zlen bv <= 256 /\
    be_val bv = (be_val (Sha256Concat [SrpBaseP; SrpPadToHash GBytes]) * be_val verifier mod P +
                 3 ^ be_val bs mod P) mod P.
Proof.
  intros Hg. unfold SrpMakeChallenge. rewrite bind_guard by done.
  destruct (random_fill 256 s ltac:(lia)) as (bs & s' & E & Hbs & Hk).
  erewrite bind_Ok by exact E. cbv zeta.
  set (k := Sha256Concat [SrpBaseP; SrpPadToHash GBytes]).
  destruct (mod_op_run Z.mul k verifier) as (kv & Ekv & Hkv & _).
  destruct (ModPow_run GBytes bs) as (gb & Egb & Hgb & _).
  destruct (mod_op_run Z.add kv gb) as (bv & Ebv & Hbv & Hl).
  exists bs, bv, s'. unfold MulMod, AddMod. rewrite Ekv, Egb. cbn [rbind]. rewrite Ebv.
  cbn [rbind]. unfold lift. repeat split; [done|done|done|].
  by rewrite Hbv, Hkv, Hgb, GBytes_val.
Qed.

Lemma SrpClientProof_run password salt1 salt2 srp_b random :
  let x := be_val (Ph2 password salt1 salt2) in
  let k := be_val (Sha256Concat [SrpBaseP; SrpPadToHash GBytes]) in
  exists ga sa,
    let a := SrpPadToHash ga in
    let u := Sha256Concat [a; SrpPadToHash srp_b] in
    SrpClientProof password salt1 salt2 srp_b random =
      Ok (SrpClientAnswer.Mk a (SrpM1 salt1 salt2 a (SrpPadToHash srp_b)
        (sha256 (SrpPadToHash sa)))) /\
    zlen ga <= 256 /\ zlen sa <= 256 /\ be_val ga = 3 ^ be_val random mod P /\
    be_val sa = ((be_val srp_b - k * (3 ^ x mod P) mod P) mod P) ^
      (be_val random + be_val u * x) mod P.
Proof.
  intros x k. unfold SrpClientProof.
  destruct (ModPow_run GBytes random) as (ga & Ega & Hga & Lga). rewrite Ega. cbn [rbind].
  destruct (ModPow_run GBytes (Ph2 password salt1 salt2)) as (v & Ev & Hv & _).
  rewrite Ev. cbn [rbind].
  destruct (mod_op_run Z.mul (Sha256Concat [SrpBaseP; SrpPadToHash GBytes]) v)
    as (kv & Ekv & Hkv & _). unfold MulMod. rewrite Ekv. cbn [rbind].
  destruct (mod_op_run Z.sub srp_b kv) as (t & Et & Ht & _). unfold SubMod. rewrite Et. cbn [rbind].
  set (u := Sha256Concat [SrpPadToHash ga; SrpPadToHash srp_b]).
  destruct (ModPow_run t (Add random (Mul u (Ph2 password salt1 salt2)))) as (sa & Esa & Hsa & Lsa).
  rewrite Esa. cbn [rbind]. exists ga, sa. cbv zeta.
  split; [done|]. split; [done|]. split; [done|]. rewrite Hga, GBytes_val. split; [done|].
  fold u. rewrite Hsa, Ht, Hkv, Hv, GBytes_val. unfold Add, Mul, BytesToBignum.
  pose proof (be_val_range random). pose proof (be_val_range u).
  pose proof (be_val_range (Ph2 password salt1 salt2)).
  rewrite !be_val_minimal by (rewrite ?be_val_minimal by nia; nia). done.
Qed.

Lemma SrpComputeVerifier_run password salt1 : exists verifier,
  SrpComputeVerifier password salt1 SrpBaseSalt2 = Ok verifier /\ zlen verifier = 256 /\
  be_val verifier = 3 ^ be_val (Ph2 password salt1 SrpBaseSalt2) mod P.
Proof.
  destruct (ModPow_run GBytes (Ph2 password salt1 SrpBaseSalt2)) as (v & Ev & Hv & Lv).
  rewrite GBytes_val in Hv. exists (SrpPadToHash v). unfold SrpComputeVerifier. rewrite Ev.
  split; [done|]. split; [apply zlen_pad|]. by rewrite be_val_pad.
Qed.

(** A challenge made from a verifier accepts the proof of its password. *)
Lemma SrpChallenge_accepts {S T} (rand : RandomFill S) (keep : S -> T)
    `{!RandomSource rand keep} (password salt1 verifier : bytes) (s : S) :
  SrpComputeVerifier password salt1 SrpBaseSalt2 = Ok verifier ->
  exists bs B s', SrpMakeChallenge rand verifier s = (Ok (SrpChallenge.Mk bs B), s') /\
    keep s' = keep s /\ zlen bs = 256 /\ zlen B = 256 /\
    forall random, exists answer,
      SrpClientProof password salt1 SrpBaseSalt2 B random = Ok answer /\
      zlen (SrpClientAnswer.a answer) = 256 /\
      SrpCalcM1 salt1 verifier bs B (SrpClientAnswer.a answer) =
        (if is_zero (Sha256Concat [SrpClientAnswer.a answer; B])
         then Throw (RuntimeError "srp: u is zero") else Ok (SrpClientAnswer.m1 answer)).
Proof.
  intros Ev. set (x := Ph2 password salt1 SrpBaseSalt2).
  destruct (SrpComputeVerifier_run password salt1) as (verifier' & Ev' & _ & Hver).
  rewrite Ev in Ev'. injection Ev' as <-. assert (Hgood := pow_good x _ Hver).
  destruct (SrpMakeChallenge_run rand keep verifier s Hgood)
    as (bs & bv & s' & Ech & Hk & Hbs & Lbv & Hbv).
  set (B := SrpPadToHash bv) in *. assert (HB : zlen B = 256) by apply zlen_pad.
  exists bs, B, s'. do 4 (split; [done|]). intros random.
  destruct (SrpClientProof_run password salt1 SrpBaseSalt2 B random)
    as (ga & sa & Ecl & Lga & Lsa & Hga & Hsa). fold x in Hsa.
  assert (HA := zlen_pad ga). assert (HAv := be_val_pad ga Lga). rewrite Hga in HAv.
  set (A := SrpPadToHash ga) in *. rewrite (pad_id B HB) in *.
  eexists. split; [exact Ecl|]. cbn [SrpClientAnswer.a SrpClientAnswer.m1].
  split; [done|]. unfold SrpCalcM1. rewrite Hgood, (pow_good random A HAv). cbn [negb].
  rewrite (pad_id A HA), (pad_id B HB). set (u := Sha256Concat [A; B]) in *.
  destruct (is_zero u); [done|].
  destruct (ModPow_run verifier u) as (vu & Evu & Hvu & _). rewrite Evu. cbn [rbind].
  unfold MulMod. destruct (mod_op_run Z.mul A vu) as (avu & Eavu & Havu & _). rewrite Eavu.
  cbn [rbind]. destruct (ModPow_run avu bs) as (sv & Esv & Hsv & Lsv). rewrite Esv. cbn [rbind].
  do 3 f_equal. apply pad_inj; [done|done|].
  rewrite Hsv, Havu, Hvu, Hver, HAv, Hsa. unfold B. rewrite be_val_pad, Hbv, Hver by done.
  apply shared_secret; apply be_val_range.
Qed.

(** Two-step verification works: for a verifier computed from a password,
    the challenge the server makes from it and the proof the client computes
    from the same password, [SrpCalcM1] returns exactly the client's M1,
    whatever the server's random secret and the client's exponent (unless the
    scrambling hash u is zero, which the server refuses). *)
Theorem SrpCalcM1_accepts_client {S T} (rand : RandomFill S) (keep : S -> T)
    (Hrand : RandomSource rand keep) (password salt1 random : bytes) (s : S) :
  exists verifier challenge s' answer,
    SrpComputeVerifier password salt1 SrpBaseSalt2 = Ok verifier /\
    SrpMakeChallenge rand verifier s = (Ok challenge, s') /\ keep s' = keep s /\
    SrpClientProof password salt1 SrpBaseSalt2 (SrpChallenge.b challenge) random = Ok answer /\
    zlen (SrpChallenge.b challenge) = 256 /\ zlen (SrpClientAnswer.a answer) = 256 /\
    SrpCalcM1 salt1 verifier (SrpChallenge.b_secret challenge) (SrpChallenge.b challenge)
        (SrpClientAnswer.a answer) =
      (if is_zero (Sha256Concat [SrpClientAnswer.a answer; SrpChallenge.b challenge])
       then Throw (RuntimeError "srp: u is zero") else Ok (SrpClientAnswer.m1 answer)).
Proof.
  destruct (SrpComputeVerifier_run password salt1) as (verifier & Ev & _).
  destruct (SrpChallenge_accepts rand keep password salt1 verifier s Ev)
    as (bs & B & s' & Ech & Hk & _ & HB & H). destruct (H random) as (answer & Ecl & HA & Em).
  by exists verifier, (SrpChallenge.Mk bs B), s', answer.
Qed.

End Srp.

Section Witnesses.
#[local] Existing Instances Toy.toy Toy.toy_laws.

Lemma SrpCalcM1_accepts_client_witness :
  exists verifier challenge s' answer,
    SrpComputeVerifier (lit "hunter2") (lit "salt") SrpBaseSalt2 = Ok verifier /\
    SrpMakeChallenge Toy.zeros verifier tt = (Ok challenge, s') /\ id s' = id tt /\
    SrpClientProof (lit "hunter2") (lit "salt") SrpBaseSalt2 (SrpChallenge.b challenge)
      (lit "exponent") = Ok answer /\
    zlen (SrpChallenge.b challenge) = 256 /\ zlen (SrpClientAnswer.a answer) = 256 /\
    SrpCalcM1 (lit "salt") verifier (SrpChallenge.b_secret challenge)
        (SrpChallenge.b challenge) (SrpClientAnswer.a answer) =
      (if is_zero (Sha256Concat [SrpClientAnswer.a answer; SrpChallenge.b challenge])
       then Throw (RuntimeError "srp: u is zero") else Ok (SrpClientAnswer.m1 answer)).
Proof.
  exact (SrpCalcM1_accepts_client Toy.zeros id Toy.zeros_random (lit "hunter2") (lit "salt")
    (lit "exponent") tt).
Defined.

End Witnesses.
