(* ===== verification/Session.v ===== *)
(** * Encrypted sessions: [mtproto::MtprotoSession]

    [rpc_dispatch.hpp] and [session.cpp].  The world [W] a handler acts on
    (the databases, the clock, the random generator) is a parameter; so are
    the clock and the generator themselves.  The debug log
    (SHUZAGRAM_DEBUG_TRANSPORT) is off. *)

From Stdlib Require Import ZArith Lia Strings.Byte Strings.String Sorting.Sorted.
From stdpp Require Import base decidable list gmap.
From S2P Require Import Prelude TL Schema OpenSSL Messages Invoke Cipher.
Import TLBuffer.

(** ** The registry ([rpc_dispatch.hpp]) *)

Record RpcContext : Type := MkContext { ctx_auth_key_id : bytes; ctx_session_id : Z }.

(** A handler gets the id, the fields after it and the context, and returns
    the encoded response. *)
Definition RpcHandler (W : Type) : Type := Z -> bytes -> RpcContext -> M W bytes.

Definition RpcHandlerRegistry (W : Type) : Type := gmap Z (RpcHandler W).

Definition Register {W} (constructor_id : Z) (handler : RpcHandler W)
    (handlers_ : RpcHandlerRegistry W) : RpcHandlerRegistry W :=
  <[ constructor_id := handler ]> handlers_.
Definition Find {W} (constructor_id : Z) (handlers_ : RpcHandlerRegistry W)
    : option (RpcHandler W) := handlers_ !! constructor_id.

(** ** The session *)

Record MtprotoSession : Type := MkSession {
  auth_key_ : bytes; session_id_ : Z; server_salt_ : Z; my_side_ : Side;
  last_seen_msg_id_ : Z; content_seq_counter_ : Z }.

(** The constructor. *)
Definition NewSession (auth_key : bytes) (session_id server_salt : Z) (my_side : Side)
    : MtprotoSession := MkSession auth_key session_id server_salt my_side 0 0.

Definition set_session_id (v : Z) (s : MtprotoSession) : MtprotoSession :=
  MkSession (auth_key_ s) v (server_salt_ s) (my_side_ s) (last_seen_msg_id_ s)
    (content_seq_counter_ s).
Definition set_last_seen (v : Z) (s : MtprotoSession) : MtprotoSession :=
  MkSession (auth_key_ s) (session_id_ s) (server_salt_ s) (my_side_ s) v
    (content_seq_counter_ s).
Definition set_counter (v : Z) (s : MtprotoSession) : MtprotoSession :=
  MkSession (auth_key_ s) (session_id_ s) (server_salt_ s) (my_side_ s) (last_seen_msg_id_ s) v.

Definition NextSeqNo (content_related : bool) : M MtprotoSession Z :=
  s <- get ;;
  if content_related then
    let seq := 2 * content_seq_counter_ s + 1 in
    put (set_counter (content_seq_counter_ s + 1) s) ;;;
    ret seq
  else ret (2 * content_seq_counter_ s).

(** [snprintf("0x%08x", id)] *)
Definition hex8 (id : Z) : bytes :=
  lit "0x" ++ map (fun i => hex_char (Z.land (Z.shiftr id (28 - 4 * Z.of_nat i)) 15)) (List.seq 0 8).

(** [TLBuffer out; m.Encode(out); out.buf] *)
Definition encode_error (error_code : Z) (error_message : bytes) : bytes :=
  RpcError.Encode (RpcError.Mk error_code error_message) [].
Definition wrap_result (msg_id : Z) (result : bytes) : bytes :=
  RpcResult.Encode (RpcResult.Mk msg_id result) [].
Definition encode_pong (msg_id ping_id : Z) : bytes := Pong.Encode (Pong.Mk msg_id ping_id) [].

Section Session.
Context {ssl : OpenSSL} {W : Type} (now : Clock W) (rand : RandomFill W).
Context (registry_ : option (RpcHandlerRegistry W)).

Definition State : Type := MtprotoSession * W.

Definition EncryptOutgoing (body : bytes) : M State EncryptedMessage :=
  t <- on_snd now ;;
  let msg_id := MessageId.NewFromNanos t MessageId.kServerResponse in
  seq_no <- on_fst (NextSeqNo true) ;;
  st <- gets fst ;;
  on_snd (EncryptMessage rand (auth_key_ st)
    (MkData (server_salt_ st) (session_id_ st) msg_id (s32 seq_no) body) (my_side_ st)).

(** What follows the unwrapping. *)
Definition DispatchCall (msg_id : Z) (body : bytes) : M State bytes :=
  id <- local body PeekID ;;
  if id =? Ping.kTypeId then
    local body (ConsumeID id ;;; ping <- Ping.DecodeBare ;;
             ret (encode_pong msg_id (Ping.ping_id ping)))
  else if id =? PingDelayDisconnect.kTypeId then
    local body (ConsumeID id ;;; ping <- PingDelayDisconnect.DecodeBare ;;
             ret (encode_pong msg_id (PingDelayDisconnect.ping_id ping)))
  else if id =? MsgsAck.kTypeId then ret []
  else
    result <- match registry_ with
              | Some handlers =>
                  match Find id handlers with
                  | Some handler =>
                      fields <- local body (ConsumeID id ;;; get) ;;
                      st <- gets fst ;;
                      on_snd (handler id fields (MkContext (AuthKeyId (auth_key_ st)) (session_id_ st)))
                  | None => ret []
                  end
              | None => ret []
              end ;;
    let result := if decide (result = []) then encode_error 400 (lit "METHOD_NOT_FOUND " ++ hex8 id)
                  else result in
    ret (wrap_result msg_id result).

Definition DispatchOne (msg_id : Z) (body : bytes) : M State bytes :=
  match UnwrapInvokeWrappers body with
  | (Throw e, _) => ret (wrap_result msg_id (encode_error 500 (lit ("INTERNAL " ++ what e))))
  | (Ok _, b) => DispatchCall msg_id b
  end.

(** The inner messages: id and body. *)
Definition SplitMessages (data : EncryptedMessageData) : res (list (Z * bytes)) :=
  fst ((id <- PeekID ;;
        if id =? MsgContainer.kTypeId then
          ConsumeID id ;;;
          container <- MsgContainer.DecodeBare ;;
          ret (map (fun m => (ContainerMessage.msg_id m, ContainerMessage.body m))
                 (MsgContainer.messages container))
        else ret [(message_id data, message_data data)]) (message_data data)).

(** [for (const auto& m : inner)] *)
Fixpoint HandleInner (inner : list (Z * bytes)) : M State (list EncryptedMessage) :=
  match inner with
  | [] => ret []
  | (msg_id, body) :: rest =>
      response <- DispatchOne msg_id body ;;
      if decide (response = []) then HandleInner rest
      else
        reply <- EncryptOutgoing response ;;
        replies <- HandleInner rest ;;
        ret (reply :: replies)
  end.

Definition HandleEncrypted (incoming : EncryptedMessage) : M State (list EncryptedMessage) :=
  st <- gets fst ;;
  data <- lift (DecryptMessage (auth_key_ st) incoming (my_side_ st)) ;;
  on_fst (modify (set_session_id (session_id data))) ;;;
  guard (last_seen_msg_id_ st <? message_id data)
    (RuntimeError "msg_id is not strictly increasing (possible replay)") ;;;
  on_fst (modify (set_last_seen (message_id data))) ;;;
  inner <- lift (SplitMessages data) ;;
  HandleInner inner.

(** The connection's loop over the envelopes it receives, whatever each
    call gives. *)
Fixpoint HandleAll (incoming : list EncryptedMessage) (s : State) : State :=
  match incoming with
  | [] => s
  | m :: rest => HandleAll rest (snd (HandleEncrypted m s))
  end.

(** ** What the calls leave alone *)

(** Key, side and salt stay; the replay mark and the counter never go back. *)
Definition extends (st st' : MtprotoSession) : Prop :=
  auth_key_ st' = auth_key_ st /\ my_side_ st' = my_side_ st /\
  server_salt_ st' = server_salt_ st /\
  last_seen_msg_id_ st <= last_seen_msg_id_ st' /\
  content_seq_counter_ st <= content_seq_counter_ st'.

#[local] Instance extends_preorder : PreOrder extends.
Proof.
  split; [intros st; repeat split; lia|].
  intros a b c (H1 & H2 & H3 & H4 & H5) (K1 & K2 & K3 & K4 & K5).
  repeat split; congruence || lia.
Qed.

Definition steady {A} (m : M State A) : Prop :=
  forall s r s', m s = (r, s') -> extends (fst s) (fst s').

Lemma steady_bind {A B} (m : M State A) (k : A -> M State B) :
  steady m -> (forall a, steady (k a)) -> steady (bind m k).
Proof.
  intros Hm Hk s r s'. unfold bind. destruct (m s) as [[a|e] s1] eqn:E; intros H.
  - etransitivity; [by eapply Hm | by eapply Hk].
  - injection H as _ <-. by eapply Hm.
Qed.
Lemma steady_ret {A} (a : A) : steady (ret a).
Proof. by intros s r s' [= _ <-]. Qed.
Lemma steady_lift {A} (x : res A) : steady (lift x).
Proof. by intros s r s' [= _ <-]. Qed.
Lemma steady_gets {A} (f : State -> A) : steady (gets f).
Proof. by intros s r s' [= _ <-]. Qed.
Lemma steady_on_snd {A} (m : M W A) : steady (on_snd m).
Proof. intros [st w] r s'. unfold on_snd. destruct (m w). by intros [= _ <-]. Qed.
Lemma steady_NextSeqNo c : steady (on_fst (NextSeqNo c)).
Proof. intros [st w] r s'. destruct c; intros [= _ <-]; repeat split; cbn; lia. Qed.
Create HintDb steady discriminated.
#[local] Hint Resolve steady_bind steady_ret steady_lift steady_gets steady_on_snd
  steady_NextSeqNo : steady.

Lemma steady_EncryptOutgoing body : steady (EncryptOutgoing body).
Proof. unfold EncryptOutgoing. eauto 6 with steady. Qed.
Lemma steady_DispatchOne msg_id body : steady (DispatchOne msg_id body).
Proof.
  intros s r s'. unfold DispatchOne. destruct (UnwrapInvokeWrappers body) as [[u|e] b].
  - revert s r s'. change (steady (DispatchCall msg_id b)). unfold DispatchCall, local.
    apply steady_bind; [auto with steady|]. intros id. repeat case_match; eauto 6 with steady.
  - by intros [= _ <-].
Qed.
#[local] Hint Resolve steady_EncryptOutgoing steady_DispatchOne : steady.
Lemma steady_HandleInner inner : steady (HandleInner inner).
Proof.
  induction inner as [|[id body] rest IH]; cbn [HandleInner]; [auto with steady|].
  apply steady_bind; [auto with steady|]. intros response. case_match; eauto 6 with steady.
Qed.

Definition replay_error : exn :=
  RuntimeError "msg_id is not strictly increasing (possible replay)".

(** The session once it has taken a message. *)
Definition accept (data : EncryptedMessageData) (st : MtprotoSession) : MtprotoSession :=
  set_last_seen (message_id data) (set_session_id (session_id data) st).

Lemma HandleEncrypted_unfold m st w data :
  DecryptMessage (auth_key_ st) m (my_side_ st) = Ok data ->
  HandleEncrypted m (st, w) =
    if last_seen_msg_id_ st <? message_id data then
      match SplitMessages data with
      | Ok inner => HandleInner inner (accept data st, w)
      | Throw e => (Throw e, (accept data st, w))
      end
    else (Throw replay_error, (set_session_id (session_id data) st, w)).
Proof.
  intros E. unfold HandleEncrypted. rewrite bind_gets. cbn [fst]. rewrite bind_lift, E.
  erewrite bind_Ok by done. destruct (last_seen_msg_id_ st <? message_id data).
  - rewrite bind_guard by done. erewrite bind_Ok by done. rewrite bind_lift. by destruct (SplitMessages data).
  - by rewrite bind_guard_false.
Qed.

Lemma steady_HandleEncrypted m : steady (HandleEncrypted m).
Proof.
  intros [st w] r s' H. cbn [fst]. destruct (DecryptMessage (auth_key_ st) m (my_side_ st)) as [data|e] eqn:E.
  - rewrite (HandleEncrypted_unfold _ _ _ _ E) in H.
    destruct (Z.ltb_spec (last_seen_msg_id_ st) (message_id data)).
    + transitivity (accept data st); [repeat split; cbn; lia|].
      destruct (SplitMessages data); [by apply steady_HandleInner in H | by injection H as _ <-].
    + injection H as _ <-. repeat split; cbn; lia.
  - unfold HandleEncrypted in H. rewrite bind_gets, bind_lift in H. cbn [fst] in H.
    rewrite E in H. by injection H as _ <-.
Qed.

Lemma HandleAll_extends incoming s : extends (fst s) (fst (HandleAll incoming s)).
Proof.
  revert s. induction incoming as [|m rest IH]; intros s; [done|]. cbn [HandleAll].
  etransitivity; [|apply IH].
  destruct (HandleEncrypted m s) as [r s'] eqn:E. by eapply steady_HandleEncrypted.
Qed.

(** C1. Replay protection: once a session has handled a message, neither
    that message nor any message with an id not above its own is ever
    dispatched again, whatever it receives in between and whatever became of
    the first one.  The call throws the replay error, sends nothing, reaches no
    handler and leaves the world alone. *)
Theorem HandleEncrypted_rejects_replay (st : MtprotoSession) (w : W)
    (m again : EncryptedMessage) (data data' : EncryptedMessageData)
    (later : list EncryptedMessage)
    (Hm : DecryptMessage (auth_key_ st) m (my_side_ st) = Ok data)
    (Hagain : DecryptMessage (auth_key_ st) again (my_side_ st) = Ok data')
    (Hid : message_id data' <= message_id data) :
  let '(st2, w2) := HandleAll later (snd (HandleEncrypted m (st, w))) in
  HandleEncrypted again (st2, w2) =
    (Throw (RuntimeError "msg_id is not strictly increasing (possible replay)"),
     (set_session_id (session_id data') st2, w2)).
Proof.
  set (s1 := snd (HandleEncrypted m (st, w))).
  pose proof (HandleAll_extends later s1) as Hl.
  destruct (HandleAll later s1) as [st2 w2].
  assert (H1 : extends st (fst s1)).
  { unfold s1. destruct (HandleEncrypted m (st, w)) as [r s] eqn:E.
    by apply steady_HandleEncrypted in E. }
  assert (Hseen : message_id data <= last_seen_msg_id_ (fst s1)).
  { unfold s1. rewrite (HandleEncrypted_unfold _ _ _ _ Hm).
    destruct (Z.ltb_spec (last_seen_msg_id_ st) (message_id data)); [|cbn; lia].
    destruct (SplitMessages data) as [inner|e]; [|cbn; lia].
    destruct (HandleInner inner (accept data st, w)) as [r s] eqn:E.
    apply steady_HandleInner in E as (_ & _ & _ & E & _). exact E. }
  destruct (transitivity H1 Hl) as (Hk & Hs & _ & _ & _). destruct Hl as (_ & _ & _ & Hl & _).
  cbn [fst] in *. rewrite (HandleEncrypted_unfold _ _ _ data') by (by rewrite Hk, Hs).
  destruct (Z.ltb_spec (last_seen_msg_id_ st2) (message_id data')); [lia|done].
Qed.

(** ** What a message is answered with *)

(** The calls a client can make. *)
Inductive request : Type :=
  | PingRequest (ping_id : Z)
  | PingDelayRequest (ping_id disconnect_delay : Z)
  | AckRequest (msg_ids : list Z)
  | RpcRequest (id : Z) (fields : bytes).

Definition enc_request (q : request) : bytes :=
  match q with
  | PingRequest p => fput (ctor Ping.kTypeId SessionSchema.ping) p
  | PingDelayRequest p d =>
      fput (ctor PingDelayDisconnect.kTypeId SessionSchema.ping_delay_disconnect) (p, d)
  | AckRequest ids => fput (ctor MsgsAck.kTypeId SessionSchema.msgs_ack) ids
  | RpcRequest id fields => le_bytes 4 id ++ fields
  end.

Definition is_core_id (id : Z) : bool :=
  (id =? Ping.kTypeId) || (id =? PingDelayDisconnect.kTypeId) || (id =? MsgsAck.kTypeId).

Definition request_ok (q : request) : Prop :=
  match q with
  | PingRequest p => is_s64 p
  | PingDelayRequest p d => is_s64 p /\ is_s32 d
  | AckRequest _ => True
  | RpcRequest id _ => is_u32 id /\ is_wrapper_id id = false /\ is_core_id id = false
  end.

(** [rpc_error#2144ca19 error_code:int error_message:string] and
    [rpc_result#f35c6d01 req_msg_id:long result:Object]. *)
Definition rpc_error_of (code : Z) (text : bytes) : bytes :=
  fput (ctor RpcError.kTypeId SessionSchema.rpc_error) (code, text).
Definition rpc_result_of (msg_id : Z) (result : bytes) : bytes :=
  le_bytes 4 RpcResult.kTypeId ++ le_bytes 8 msg_id ++ result.

(** The answer the protocol asks for. *)
Definition answer (st : MtprotoSession) (msg_id : Z) (q : request) : M W bytes :=
  match q with
  | PingRequest p | PingDelayRequest p _ =>
      ret (fput (ctor Pong.kTypeId SessionSchema.pong) (msg_id, p))
  | AckRequest _ => ret []
  | RpcRequest id fields =>
      match registry_ ≫= Find id with
      | Some handler =>
          result <- handler id fields (MkContext (AuthKeyId (auth_key_ st)) (session_id_ st)) ;;
          ret (rpc_result_of msg_id
            (if decide (result = []) then rpc_error_of 400 (lit "METHOD_NOT_FOUND " ++ hex8 id)
             else result))
      | None =>
          ret (rpc_result_of msg_id (rpc_error_of 400 (lit "METHOD_NOT_FOUND " ++ hex8 id)))
      end
  end.

Lemma encode_error_eq code text : encode_error code text = rpc_error_of code text.
Proof.
  unfold encode_error, RpcError.Encode, rpc_error_of, SessionSchema.rpc_error. put_norm.
  fput_norm. by rewrite <- ?app_assoc.
Qed.
Lemma wrap_result_eq msg_id result : wrap_result msg_id result = rpc_result_of msg_id result.
Proof. unfold wrap_result, RpcResult.Encode, rpc_result_of. by put_norm. Qed.
Lemma encode_pong_eq msg_id p :
  encode_pong msg_id p = fput (ctor Pong.kTypeId SessionSchema.pong) (msg_id, p).
Proof. unfold encode_pong, Pong.Encode, SessionSchema.pong. put_norm. by fput_norm. Qed.

Lemma enc_request_id q :
  request_ok q -> exists id fields, enc_request q = le_bytes 4 id ++ fields /\ is_u32 id /\
    is_wrapper_id id = false.
Proof.
  destruct q as [p|p d|ids|id fields]; cbn; intros H; eexists _, _; (split; [reflexivity|]); try done.
  tauto.
Qed.

Lemma PeekID_request id fields : is_u32 id -> fst (PeekID (le_bytes 4 id ++ fields)) = Ok id.
Proof. intros H. rewrite PeekID_run, u32_id by done. done. Qed.

Lemma ping_parses msg_id p : is_s64 p ->
  parses (ConsumeID Ping.kTypeId ;;; ping <- Ping.DecodeBare ;;
          ret (encode_pong msg_id (Ping.ping_id ping)))
    (enc_request (PingRequest p)) (encode_pong msg_id p).
Proof.
  intros Hp. unfold Ping.DecodeBare. cbn [enc_request].
  unfold SessionSchema.ping. fput_norm.
  eapply parses_bind; [by apply parses_ConsumeID|].
  apply (parses_bind_ret _ (fun x => encode_pong msg_id (Ping.ping_id x)) _ (Ping.Mk p)). parse.
Qed.

Lemma ping_delay_parses msg_id p d : is_s64 p -> is_s32 d ->
  parses (ConsumeID PingDelayDisconnect.kTypeId ;;; ping <- PingDelayDisconnect.DecodeBare ;;
          ret (encode_pong msg_id (PingDelayDisconnect.ping_id ping)))
    (enc_request (PingDelayRequest p d)) (encode_pong msg_id p).
Proof.
  intros Hp Hd. unfold PingDelayDisconnect.DecodeBare. cbn [enc_request].
  unfold SessionSchema.ping_delay_disconnect. fput_norm.
  eapply parses_bind; [by apply parses_ConsumeID|].
  apply (parses_bind_ret _ (fun x => encode_pong msg_id (PingDelayDisconnect.ping_id x)) _
    (PingDelayDisconnect.Mk p d)).
  parse.
Qed.

Lemma DispatchCall_rpc st w msg_id id fields :
  request_ok (RpcRequest id fields) ->
  DispatchCall msg_id (le_bytes 4 id ++ fields) (st, w) =
    on_snd (answer st msg_id (RpcRequest id fields)) (st, w).
Proof.
  intros (Hid & _ & Hcore). unfold is_core_id in Hcore. rewrite !orb_false_iff in Hcore.
  destruct Hcore as ((H1 & H2) & H3). unfold DispatchCall, local.
  rewrite bind_lift, PeekID_request by done. rewrite H1, H2, H3. cbn [answer].
  destruct registry_ as [handlers|]; cbn [option_bind mbind]; [destruct (Find id handlers) as [h|]|].
  - rewrite bind_assoc, bind_lift. erewrite bind_Ok by (by apply parses_ConsumeID).
    unfold get. cbn [fst]. unfold bind, gets, on_snd. cbn [fst].
    destruct (h id fields _ w) as [[result|e] w']; [|done].
    unfold ret. by rewrite <- encode_error_eq, <- wrap_result_eq.
  - unfold ret at 2. by rewrite <- encode_error_eq, <- wrap_result_eq.
  - unfold ret at 2. by rewrite <- encode_error_eq, <- wrap_result_eq.
Qed.

Lemma DispatchCall_answers st w msg_id q :
  request_ok q ->
  DispatchCall msg_id (enc_request q) (st, w) = on_snd (answer st msg_id q) (st, w).
Proof.
  intros Hq. destruct q as [p|p d|ids|id fields]; [| | |by apply DispatchCall_rpc];
    unfold DispatchCall, local; rewrite bind_lift; cbn [enc_request];
    cbn [fput ctor]; rewrite PeekID_request by done.
  - cbn [Z.eqb Pos.eqb Ping.kTypeId]. unfold lift. 
    pose proof (ping_parses msg_id p Hq []) as E. rewrite app_nil_r in E.
    unfold enc_request in E. cbn [fput ctor] in E. rewrite E.
    cbn [answer]. by rewrite <- encode_pong_eq.
  - destruct Hq. cbn [Z.eqb Pos.eqb Ping.kTypeId PingDelayDisconnect.kTypeId]. unfold lift.
    pose proof (ping_delay_parses msg_id p d ltac:(done) ltac:(done) []) as E.
    rewrite app_nil_r in E. unfold enc_request in E. cbn [fput ctor] in E. rewrite E.
    cbn [answer]. by rewrite <- encode_pong_eq.
  - done.
Qed.

(** C27. Each message is answered as the protocol asks, however many invoke
    wrappers are around it: a ping of either kind with a [pong] that carries
    the message's own id, an acknowledgement with nothing, a call with an
    [rpc_result] around what its registered handler returned, run once with the
    fields, the key id and the session id; a call nobody registered, or whose
    handler returned nothing, with an [rpc_error] 400 naming the method.  A
    message whose wrappers do not parse reaches no handler and is answered
    with an [rpc_error] 500. *)
Theorem DispatchOne_answers (st : MtprotoSession) (w : W) (msg_id : Z) :
  (forall ws q, Forall wrapper_ok ws -> request_ok q ->
    DispatchOne msg_id (concat (map enc_wrapper ws) ++ enc_request q) (st, w) =
      on_snd (answer st msg_id q) (st, w)) /\
  (forall body e b, UnwrapInvokeWrappers body = (Throw e, b) ->
    tl_exn e = true /\
    DispatchOne msg_id body (st, w) =
      (Ok (rpc_result_of msg_id (rpc_error_of 500 (lit ("INTERNAL " ++ what e)))), (st, w))).
Proof.
  split.
  - intros ws q Hws Hq. destruct (enc_request_id q Hq) as (id & fields & E & Hid & Hw).
    unfold DispatchOne, UnwrapInvokeWrappers. rewrite UnwrapLoop_wrappers; [..|done| |].
    + by apply DispatchCall_answers.
    + rewrite length_app. pose proof (wrappers_length ws). lia.
    + rewrite E, zlen_app, zlen_le_bytes. pose proof (zlen_nonneg fields). lia.
    + by rewrite E, ReadU32LE_le_bytes, u32_id.
  - intros body e b E. split; [by eapply UnwrapInvokeWrappers_exn|].
    unfold DispatchOne. rewrite E. unfold ret. by rewrite encode_error_eq, wrap_result_eq.
Qed.

(** ** The replies *)

Context {laws : OpenSSLLaws} {T : Type} (keep : W -> T).
Context {random : RandomSource rand keep} {clock : ClockSource now keep}.

(** Handlers return whole TL objects, small enough to send. *)
Definition sendable (r : bytes) : Prop := zlen r mod 4 = 0 /\ zlen r < 2 ^ 31 - 4096.
Definition handlers_ok : Prop := forall id handler fields ctx w r w',
  registry_ ≫= Find id = Some handler ->
  handler id fields ctx w = (Ok r, w') -> sendable r.

(** [reply] opens, on the other side, as [body] with the session's salt and
    id, a server-response message id and the sequence number [2n + 1]. *)
Definition opens_as (st : MtprotoSession) (n : Z) (body : bytes) (reply : EncryptedMessage) : Prop :=
  exists msg_id, 0 <= msg_id < 2 ^ 63 /\ MessageId.Type_ msg_id = MessageId.kServerResponse /\
    DecryptMessage (auth_key_ st) reply (OppositeSide (my_side_ st)) =
      Ok (MkData (server_salt_ st) (session_id_ st) msg_id (2 * n + 1) body).

(** The messages are answered one after the other: each is dispatched in the
    world its predecessors left, and its answer, if it has one, is sealed
    under the next sequence number. *)
Inductive served : MtprotoSession -> W -> list (Z * bytes) -> list EncryptedMessage ->
    MtprotoSession -> W -> Prop :=
  | served_nil st w : served st w [] [] st w
  | served_silent st w id body w1 rest replies st' w' :
      DispatchOne id body (st, w) = (Ok [], (st, w1)) ->
      served st w1 rest replies st' w' ->
      served st w ((id, body) :: rest) replies st' w'
  | served_reply st w id body response w1 w2 reply rest replies st' w' :
      DispatchOne id body (st, w) = (Ok response, (st, w1)) -> response <> [] ->
      opens_as st (content_seq_counter_ st) response reply -> keep w2 = keep w1 ->
      served (set_counter (content_seq_counter_ st + 1) st) w2 rest replies st' w' ->
      served st w ((id, body) :: rest) (reply :: replies) st' w'.

Lemma rpc_error_sendable msg_id code text :
  zlen text < 1000 -> sendable (rpc_result_of msg_id (rpc_error_of code text)).
Proof.
  intros Ht. unfold sendable, rpc_result_of, rpc_error_of, SessionSchema.rpc_error. fput_norm.
  rewrite !zlen_app, !zlen_le_bytes, zlen_enc_bytes. pose proof (zlen_nonneg text).
  assert (0 <= header_len_of (zlen text) <= 4) by (unfold header_len_of; case_match; lia).
  destruct (NearestPaddedLength_spec (header_len_of (zlen text) + zlen text) ltac:(lia)) as [Hl H4].
  set (n := NearestPaddedLength _) in *. split; [|lia].
  replace (_ + _) with (n + 5 * 4) by lia. rewrite Z.mod_add by lia. exact H4.
Qed.

(** What [EncryptMessage] can send. *)
Definition fits (r : bytes) : Prop := zlen r mod 4 = 0 /\ zlen r < 2 ^ 31 - 2048.

Lemma sendable_fits r : sendable r -> fits r.
Proof. intros [H4 Hl]. split; [done|lia]. Qed.

Lemma result_fits msg_id r : sendable r -> fits (rpc_result_of msg_id r).
Proof.
  intros [H4 Hl]. unfold fits, rpc_result_of. rewrite !zlen_app, !zlen_le_bytes. split; [|lia].
  replace (_ + _) with (zlen r + 3 * 4) by lia. rewrite Z.mod_add by lia. exact H4.
Qed.

Lemma pong_fits msg_id p : fits (encode_pong msg_id p).
Proof.
  rewrite encode_pong_eq. unfold SessionSchema.pong, fits. fput_norm.
  by rewrite !zlen_app, !zlen_le_bytes.
Qed.

(** A dispatch leaves the session as it is and answers something that fits. *)
Definition answers (m : M State bytes) : Prop := forall st w r st' w',
  m (st, w) = (r, (st', w')) -> st' = st /\ forall response, r = Ok response -> fits response.

Lemma answers_ret r : fits r -> answers (ret r).
Proof. intros Hr st w ? st' w' [= <- <- <-]. split; [done|]. by intros ? [= <-]. Qed.

Lemma answers_local (m : M bytes bytes) b :
  (forall r s', m b = (Ok r, s') -> fits r) -> answers (local b m).
Proof.
  intros Hm st w r st' w' [= <- <- <-]. split; [done|]. intros response E.
  destruct (m b) as [x s'] eqn:Em. cbn in E. subst x. by eapply Hm.
Qed.

Lemma answers_not_found msg_id id :
  answers (ret (wrap_result msg_id (encode_error 400 (lit "METHOD_NOT_FOUND " ++ hex8 id)))).
Proof.
  apply answers_ret, sendable_fits. rewrite encode_error_eq, wrap_result_eq.
  by apply rpc_error_sendable.
Qed.

Lemma answers_DispatchCall msg_id body : handlers_ok -> answers (DispatchCall msg_id body).
Proof.
  intros Hh st w r st' w'. unfold DispatchCall. unfold local at 1. rewrite bind_lift.
  destruct (fst (PeekID body)) as [id|]; [|by intros [= <- <- <-]].
  destruct (id =? Ping.kTypeId); [apply answers_local; intros; inv_ok; apply pong_fits|].
  destruct (id =? PingDelayDisconnect.kTypeId);
    [apply answers_local; intros; inv_ok; apply pong_fits|].
  destruct (id =? MsgsAck.kTypeId); [by apply answers_ret|].
  destruct registry_ as [handlers|] eqn:Er; [|apply answers_not_found].
  destruct (Find id handlers) as [h|] eqn:Eh; [|apply answers_not_found].
  unfold local. rewrite bind_assoc, bind_lift. destruct (fst _) as [fields|]; [|by intros [= <- <- <-]].
  unfold bind, gets, on_snd. cbn [fst].
  destruct (h id fields _ w) as [[result|e] w1] eqn:E; [|by intros [= <- <- <-]].
  case_decide; [apply answers_not_found|]. apply answers_ret. rewrite wrap_result_eq.
  apply result_fits. eapply (Hh id h); [|exact E]. by rewrite Er.
Qed.

Lemma answers_DispatchOne msg_id body : handlers_ok -> answers (DispatchOne msg_id body).
Proof.
  intros Hh. unfold DispatchOne. destruct (UnwrapInvokeWrappers body) as [[u|e] b] eqn:Eu.
  - by apply answers_DispatchCall.
  - apply answers_ret, sendable_fits. rewrite encode_error_eq, wrap_result_eq.
    apply rpc_error_sendable. apply UnwrapInvokeWrappers_exn in Eu. by destruct e.
Qed.

(** Sealing an answer works and opens as specified. *)
Definition session_ok (st : MtprotoSession) (n : Z) : Prop :=
  is_s64 (server_salt_ st) /\ is_s64 (session_id_ st) /\ 0 <= content_seq_counter_ st /\
  2 * (content_seq_counter_ st + n) < 2 ^ 31.

Lemma EncryptOutgoing_run st w body :
  session_ok st 1 -> fits body ->
  exists reply w', EncryptOutgoing body (st, w) =
      (Ok reply, (set_counter (content_seq_counter_ st + 1) st, w')) /\
    opens_as st (content_seq_counter_ st) body reply /\ keep w' = keep w.
Proof.
  intros (Hsalt & Hsid & Hc & Hc') [H4 Hl]. unfold EncryptOutgoing.
  destruct (clock_now w) as (t & w1 & Et & Ht & Hk1).
  erewrite bind_Ok by (unfold on_snd; rewrite Et; reflexivity).
  cbv zeta. unfold NextSeqNo. erewrite bind_Ok by reflexivity. rewrite bind_gets. cbn [fst].
  rewrite s32_id by (split; lia).
  set (msg_id := MessageId.NewFromNanos t MessageId.kServerResponse).
  assert (Em : msg_id = MessageId.Compute t 1)
    by (apply MessageId.NewFromNanos_server; [exact Ht | by left]).
  pose proof (MessageId.Compute_range t 1 Ht ltac:(lia)) as Hr. rewrite <- Em in Hr.
  set (d := MkData (server_salt_ st) (session_id_ st) msg_id (2 * content_seq_counter_ st + 1) body).
  assert (Hd : data_ok d) by (repeat split; cbn; try apply Hsalt; try apply Hsid; lia).
  destruct (EncryptMessage_run rand keep (auth_key_ st) d (my_side_ st) w1 Hd)
    as (pad & reply & w2 & Hp & _ & Hk2 & H16 & E & Hid & Hmk & _ & Hdec).
  exists reply, w2. unfold on_snd.
  change (EncryptMessage rand (auth_key_ (set_counter _ st)) _ _ w1)
    with (EncryptMessage rand (auth_key_ st) d (my_side_ st) w1). rewrite E.
  split; [done|]. split; [|by rewrite Hk2].
  exists msg_id. split; [lia|]. split; [|apply (DecryptMessage_run _ _ _ _ pad); done || lia].
  rewrite Em. by apply (MessageId.Type_Compute t MessageId.kServerResponse).
Qed.

Lemma HandleInner_serves inner st w :
  handlers_ok -> session_ok st (zlen inner) ->
  (exists replies st' w', HandleInner inner (st, w) = (Ok replies, (st', w')) /\
     served st w inner replies st' w') \/
  (exists e s' id body s, HandleInner inner (st, w) = (Throw e, s') /\
     (id, body) ∈ inner /\ fst (DispatchOne id body s) = Throw e).
Proof.
  intros Hh. revert st w. induction inner as [|[id body] rest IH]; intros st w Hst.
  { left. exists [], st, w. split; [done | constructor]. }
  rewrite zlen_cons in Hst. pose proof (zlen_nonneg rest). cbn [HandleInner].
  destruct (DispatchOne id body (st, w)) as [r [st0 w1]] eqn:E.
  destruct (answers_DispatchOne id body Hh st w r st0 w1 E) as [-> Hfit].
  destruct r as [response|e].
  2: { right. exists e, (st, w1), id, body, (st, w). erewrite bind_Throw by exact E.
       split; [done|]. split; [left | by rewrite E]. }
  erewrite bind_Ok by exact E. destruct Hst as (H1 & H2 & H3 & H4). case_decide as Hempty.
  - subst response. destruct (IH st w1) as [(replies & st' & w' & E' & Hs)|(e & s' & i & b & s & E' & Hin & Ht)].
    + repeat split; apply H1 || apply H2 || lia.
    + left. exists replies, st', w'. split; [done|]. by eapply served_silent.
    + right. exists e, s', i, b, s. split; [done|]. split; [by right|done].
  - destruct (EncryptOutgoing_run st w1 response) as (reply & w2 & E2 & Hop & Hk).
    { repeat split; apply H1 || apply H2 || lia. }
    { by apply Hfit. }
    erewrite bind_Ok by exact E2.
    destruct (IH (set_counter (content_seq_counter_ st + 1) st) w2)
      as [(replies & st' & w' & E' & Hs)|(e & s' & i & b & s & E' & Hin & Ht)].
    + repeat split; cbn; apply H1 || apply H2 || lia.
    + left. exists (reply :: replies), st', w'. erewrite bind_Ok by exact E'.
      split; [done|]. by eapply served_reply.
    + right. exists e, s', i, b, s. erewrite bind_Throw by exact E'.
      split; [done|]. split; [by right|done].
Qed.

Lemma DecryptMessage_session_id key e side data :
  DecryptMessage key e side = Ok data -> is_s64 (session_id data).
Proof.
  unfold DecryptMessage. repeat case_match; try done.
  destruct (IgeDecrypt _ _ _) as [p|]; [|done]. cbn [rbind]. repeat case_match; try done.
  destruct (ReadPlaintext p) as [r s'] eqn:E. cbn [fst]. intros ->. unfold ReadPlaintext in E.
  do 5 (apply bind_Ok_inv in E as (? & ? & ?Hr & E)). apply Long_inv in Hr0 as [_ Hs].
  rewrite bind_get in E. do 4 (apply guard_inv in E as [? E]). by injection E as <- <-.
Qed.

(** C7. A fresh message is served: every message in it (in a container, or
    on its own) is dispatched in order, and each answer becomes one reply that
    the client opens with its own key to exactly that answer, with the
    session's salt, the session id the client chose, a server-response message
    id, and the next odd sequence number.  Nothing else is sent, the only
    other outcome is an exception out of a dispatch, and sealing never fails. *)
Theorem HandleEncrypted_serves (st : MtprotoSession) (w : W) (m : EncryptedMessage)
    (data : EncryptedMessageData) (inner : list (Z * bytes))
    (Hm : DecryptMessage (auth_key_ st) m (my_side_ st) = Ok data)
    (Hfresh : last_seen_msg_id_ st < message_id data)
    (Hinner : SplitMessages data = Ok inner)
    (Hh : handlers_ok) (Hsalt : is_s64 (server_salt_ st)) (Hcount : 0 <= content_seq_counter_ st)
    (Hroom : 2 * (content_seq_counter_ st + zlen inner) < 2 ^ 31) :
  (exists replies st' w', HandleEncrypted m (st, w) = (Ok replies, (st', w')) /\
     served (accept data st) w inner replies st' w') \/
  (exists e s' id body s, HandleEncrypted m (st, w) = (Throw e, s') /\
     (id, body) ∈ inner /\ fst (DispatchOne id body s) = Throw e).
Proof.
  rewrite (HandleEncrypted_unfold _ _ _ _ Hm), Hinner.
  destruct (Z.ltb_spec (last_seen_msg_id_ st) (message_id data)); [|lia].
  apply HandleInner_serves; [done|]. apply DecryptMessage_session_id in Hm.
  by repeat split; cbn; try apply Hsalt; try apply Hm.
Qed.

End Session.

(** ** Witnesses *)

Section Witnesses.
#[local] Existing Instances Toy.toy Toy.toy_laws Toy.zeros_random Toy.clock_source.

Definition sample_seal (message_id : Z) (body : bytes) : EncryptedMessage :=
  match fst (EncryptMessage Toy.zeros sample_key (MkData 1 2 message_id 1 body) kClient tt) with
  | Ok e => e
  | Throw _ => MkEncrypted [] [] []
  end.

Definition sample_session : MtprotoSession := NewSession sample_key 0 77 kServer.

(** A registry with one method. *)
Definition sample_registry : RpcHandlerRegistry unit :=
  Register 0xc4f9186b (fun id _ ctx => ret (le_bytes 4 id ++ le_bytes 8 (ctx_session_id ctx))) ∅.

Definition sample_body : bytes :=
  MsgContainer.Encode (MsgContainer.Mk
    [ContainerMessage.Mk 101 1 (enc_request (PingRequest 5));
     ContainerMessage.Mk 105 3 (enc_request (RpcRequest 0xc4f9186b (le_bytes 4 9)));
     ContainerMessage.Mk 109 4 (enc_request (AckRequest [7]))]) [].

Lemma HandleEncrypted_rejects_replay_witness :
  let '(st2, w2) := HandleAll Toy.clock Toy.zeros (Some sample_registry)
      [sample_seal 999 (enc_request (PingRequest 3)); sample_seal 5 []]
      (snd (HandleEncrypted Toy.clock Toy.zeros (Some sample_registry)
        (sample_seal 200 sample_body) (sample_session, tt))) in
  HandleEncrypted Toy.clock Toy.zeros (Some sample_registry) (sample_seal 200 sample_body)
      (st2, w2) =
    (Throw (RuntimeError "msg_id is not strictly increasing (possible replay)"),
     (set_session_id 2 st2, w2)).
Proof.
  apply (HandleEncrypted_rejects_replay Toy.clock Toy.zeros (Some sample_registry) sample_session
    tt (sample_seal 200 sample_body) (sample_seal 200 sample_body)
    (MkData 1 2 200 1 sample_body) (MkData 1 2 200 1 sample_body)); [vm_compute; reflexivity..|].
  discriminate.
Defined.

Lemma DispatchOne_answers_witness :
  DispatchOne (Some sample_registry) 105
    (concat (map enc_wrapper sample_wrappers) ++
     enc_request (RpcRequest 0xc4f9186b (le_bytes 4 9))) (sample_session, tt) =
  on_snd (answer (Some sample_registry) sample_session 105
    (RpcRequest 0xc4f9186b (le_bytes 4 9))) (sample_session, tt).
Proof.
  apply (DispatchOne_answers (Some sample_registry) sample_session tt 105).
  - repeat constructor; unfold short; done.
  - repeat split; done.
Defined.

Definition sample_inner_messages : list (Z * bytes) :=
  [(101, enc_request (PingRequest 5)); (105, enc_request (RpcRequest 0xc4f9186b (le_bytes 4 9)));
   (109, enc_request (AckRequest [7]))].

Lemma sample_registry_ok : handlers_ok (Some sample_registry).
Proof.
  intros id handler fields ctx w r w' Hf Hr. change ((<[0xc4f9186b := fun i _ c => ret (le_bytes 4 i ++ le_bytes 8 (ctx_session_id c))]>
    (∅ : gmap Z (RpcHandler unit))) !! id = Some handler) in Hf.
  destruct (decide (id = 0xc4f9186b)) as [->|Hid].
  - rewrite lookup_insert in Hf. injection Hf as <-. by injection Hr as <- _.
  - rewrite lookup_insert_ne in Hf by done. by rewrite lookup_empty in Hf.
Qed.

Lemma HandleEncrypted_serves_witness :
  let accepted := MkSession sample_key 2 77 kServer 200 0 in
  (exists replies st' w', HandleEncrypted Toy.clock Toy.zeros (Some sample_registry)
       (sample_seal 200 sample_body) (sample_session, tt) = (Ok replies, (st', w')) /\
     served (Some sample_registry) id accepted tt sample_inner_messages replies st' w') \/
  (exists e s' i body s, HandleEncrypted Toy.clock Toy.zeros (Some sample_registry)
       (sample_seal 200 sample_body) (sample_session, tt) = (Throw e, s') /\
     (i, body) ∈ sample_inner_messages /\
     fst (DispatchOne (Some sample_registry) i body s) = Throw e).
Proof.
  apply (HandleEncrypted_serves Toy.clock Toy.zeros (Some sample_registry) id sample_session tt
    (sample_seal 200 sample_body) (MkData 1 2 200 1 sample_body) sample_inner_messages).
  - vm_compute. reflexivity.
  - reflexivity.
  - vm_compute. reflexivity.
  - apply sample_registry_ok.
  - split; [discriminate|reflexivity].
  - discriminate.
  - reflexivity.
Defined.

End Witnesses.
