(* ===== verification/Handshake.v ===== *)
(** * The key exchange: [mtproto::ServerExchange]

    [server_exchange.cpp].  Frames come from [read] and go to [write]
    ([ReadFrame], [WriteFrame]), which act on a world [W] together with the
    clock and the random generator.  The three loops (discarding
    acknowledgements, resending ResPQ, drawing the secret exponent) take fuel;
    the agreement theorem says how much is enough. *)

From Stdlib Require Import ZArith Zpow_facts Lia Strings.Byte Strings.String.
From stdpp Require Import base decidable list.
From S2P Require Import Prelude TL Schema OpenSSL Messages Invoke Cipher Dh Params.
Import TLBuffer.

Definition kCodeAuthKeyNotFound : Z := 404.
Definition kDhGenerator : Z := 3.

Record ServerExchangeResult : Type := MkResult {
  auth_key : bytes; server_salt : Z; expires_at : Z }.

Definition zero_key_id : bytes := replicate 8 x00.


(** The bounds [GenerateGa] puts on a public share. *)
Definition GaInRange (dh_prime g_a : bytes) : bool :=
  let p := Bignum.BytesToBignum dh_prime in
  let ga := Bignum.BytesToBignum g_a in
  (1 <? ga) && (ga <? p - 1) && (safety_min <? ga) && (ga <? p - safety_min).

Section Exchange.
Context {ssl : OpenSSL} {W : Type} (now : Clock W) (rand : RandomFill W).
Context (read : M W bytes) (write : bytes -> M W unit).

Definition ReadHandshakeMessage : M W UnencryptedMessage.t :=
  frame <- read ;;
  guard (negb ((8 <=? zlen frame) && bool_decide (ztake 8 frame <> zero_key_id)))
    (UnexpectedEncryptedFrameError (ztake 8 frame) frame) ;;;
  msg <- local frame UnencryptedMessage.Decode ;;
  guard (bool_decide (MessageId.Type_ (UnencryptedMessage.message_id msg) = MessageId.kFromClient))
    (RuntimeError "handshake message has an unexpected message_id type") ;;;
  ret msg.

(** [for (;;)] *)
Fixpoint ReadNextRealHandshakeMessage (fuel : nat) : M W UnencryptedMessage.t :=
  match fuel with
  | O => throw out_of_fuel
  | S fuel =>
      msg <- ReadHandshakeMessage ;;
      id <- local (UnencryptedMessage.message_data msg) PeekID ;;
      if id =? MsgsAck.kTypeId then ReadNextRealHandshakeMessage fuel else ret msg
  end.

Definition WriteHandshakeMessage (type : MessageId.MessageType) (payload : bytes) : M W unit :=
  t <- now ;;
  write (UnencryptedMessage.Encode
    (UnencryptedMessage.Mk (MessageId.NewFromNanos t type) payload) []).

(** [for (;;)] of [GenerateGa]: the secret exponent and its public share. *)
Fixpoint GenerateGaLoop (fuel : nat) (g_bytes dh_prime : bytes) : M W (bytes * bytes) :=
  match fuel with
  | O => throw out_of_fuel
  | S fuel =>
      a <- rand kRsaByteLen ;;
      g_a <- lift (Bignum.ModPow g_bytes a dh_prime) ;;
      if GaInRange dh_prime g_a then ret (a, g_a) else GenerateGaLoop fuel g_bytes dh_prime
  end.

Definition GenerateGa (fuel : nat) (g : Z) (dh_prime : bytes) : M W (bytes * bytes) :=
  lift (CheckGP g dh_prime) ;;;
  GenerateGaLoop fuel [u8 g] dh_prime.

(** ** [ServerExchange::Run], in its numbered steps *)

(** 1. The first request. *)
Definition ReadReqPq (fuel : nat) : M W ReqPq.t :=
  first <- ReadNextRealHandshakeMessage fuel ;;
  local (UnencryptedMessage.message_data first) ReqPq.Decode.

Definition res_pq_payload (key : RsaPrivateKey.t) (req : ReqPq.t) (server_nonce : bytes) : bytes :=
  ResPq.Encode (ResPq.Mk (ReqPq.nonce req) server_nonce FixedPq [Fingerprint (PublicKey key)]) [].

(** 2. [while (!got_dh_params)]: the last request and the DH request. *)
Fixpoint AnswerReqPq (fuel read_fuel : nat) (key : RsaPrivateKey.t) (req : ReqPq.t)
    (server_nonce : bytes) : M W (ReqPq.t * ReqDhParams.t) :=
  match fuel with
  | O => throw out_of_fuel
  | S fuel =>
      WriteHandshakeMessage MessageId.kServerResponse (res_pq_payload key req server_nonce) ;;;
      next <- ReadNextRealHandshakeMessage read_fuel ;;
      let b := UnencryptedMessage.message_data next in
      id <- local b PeekID ;;
      if (id =? kReqPqRequestTypeId) || (id =? kReqPqMultiRequestTypeId) then
        req <- local b ReqPq.Decode ;;
        AnswerReqPq fuel read_fuel key req server_nonce
      else
        dh_params <- local b ReqDhParams.Decode ;;
        ret (req, dh_params)
  end.

(** [try { m } catch (e) { throw ServerExchangeError(404, prefix + e.what()) }] *)
Definition or_exchange_error {A} (prefix : string) (r : res A) : res A :=
  match r with
  | Ok a => Ok a
  | Throw e => Throw (ServerExchangeError kCodeAuthKeyNotFound (prefix ++ what e))
  end.

(** 3. What the client sealed for the server's RSA key. *)
Definition DecodePqInner (key : RsaPrivateKey.t) (encrypted_data : bytes) : res PqInnerData.t :=
  or_exchange_error "decode req_DH_params: "
    (data_with_padding <-? RsaUnpad encrypted_data key ;;
     fst (PqInnerData.Decode data_with_padding)).

Definition is_temp (inner : PqInnerData.t) : bool :=
  bool_decide (PqInnerData.kind inner = PqInnerData.kTempDc).

Definition CheckExpiresIn (inner : PqInnerData.t) : res unit :=
  if is_temp inner && (PqInnerData.expires_in inner <=? 0) then
    Throw (ServerExchangeError kCodeAuthKeyNotFound
      "p_q_inner_data temporary key expires_in must be positive")
  else Ok tt.

Definition AuthKeyExpiresAt (inner : PqInnerData.t) (handshake_time : Z) : res Z :=
  if is_temp inner then
    let auth_key_expires_at := seconds_of handshake_time + PqInnerData.expires_in inner in
    if (auth_key_expires_at <=? 0) || (int32_max <? auth_key_expires_at) then
      Throw (ServerExchangeError kCodeAuthKeyNotFound
        "temporary auth key expiry is out of int32 range")
    else Ok auth_key_expires_at
  else Ok 0.

(** 4, 5. Server_DH_Params. *)
Definition SendDhParams (req : ReqPq.t) (server_nonce g_a temp_key temp_iv : bytes) : M W unit :=
  t <- now ;;
  let inner_encoded := ServerDhInnerData.Encode
    (ServerDhInnerData.Mk (ReqPq.nonce req) server_nonce kDhGenerator FixedDhPrime g_a
      (s32 (seconds_of t))) [] in
  encrypted_answer <- EncryptExchangeAnswer rand inner_encoded temp_key temp_iv ;;
  WriteHandshakeMessage MessageId.kServerResponse
    (ServerDhParamsOk.Encode (ServerDhParamsOk.Mk (ReqPq.nonce req) server_nonce
      encrypted_answer) []).

(** 6. Set_client_DH_params. *)
Definition ReadClientDh (fuel : nat) (temp_key temp_iv : bytes) : M W ClientDhInnerData.t :=
  msg <- ReadNextRealHandshakeMessage fuel ;;
  client_params <- local (UnencryptedMessage.message_data msg) SetClientDhParams.Decode ;;
  lift (or_exchange_error "decrypt Set_client_DH_params: "
    (decrypted <-? DecryptExchangeAnswer (SetClientDhParams.encrypted_data client_params)
       temp_key temp_iv ;;
     fst (ClientDhInnerData.Decode decrypted))).

(** 7. The key. *)
Definition MakeResult (inner : PqInnerData.t) (server_nonce a g_b : bytes) (auth_key_expires_at : Z)
    : res ServerExchangeResult :=
  auth_key_bytes <-? ModPowFixed g_b a FixedDhPrime 256 ;;
  Ok (MkResult auth_key_bytes (ServerSalt (PqInnerData.new_nonce inner) server_nonce)
    (s32 auth_key_expires_at)).

(** 8. dh_gen_ok. *)
Definition SendDhGenOk (req : ReqPq.t) (server_nonce : bytes) (inner : PqInnerData.t)
    (result : ServerExchangeResult) : M W unit :=
  WriteHandshakeMessage MessageId.kServerResponse
    (DhGenOk.Encode (DhGenOk.Mk (ReqPq.nonce req) server_nonce
      (NonceHash1 (PqInnerData.new_nonce inner) (auth_key result))) []).

Definition Run (fuel : nat) (key : RsaPrivateKey.t) : M W ServerExchangeResult :=
  req <- ReadReqPq fuel ;;
  server_nonce <- rand 16 ;;
  answered <- AnswerReqPq fuel fuel key req server_nonce ;;
  let '(req, dh_params) := answered in
  inner <- lift (DecodePqInner key (ReqDhParams.encrypted_data dh_params)) ;;
  lift (CheckExpiresIn inner) ;;;
  handshake_time <- now ;;
  auth_key_expires_at <- lift (AuthKeyExpiresAt inner handshake_time) ;;
  secret <- GenerateGa fuel kDhGenerator FixedDhPrime ;;
  let '(a, g_a) := secret in
  let '(temp_key, temp_iv) := TempAesKeys (PqInnerData.new_nonce inner) server_nonce in
  SendDhParams req server_nonce g_a temp_key temp_iv ;;;
  client_inner <- ReadClientDh fuel temp_key temp_iv ;;
  result <- lift (MakeResult inner server_nonce a (ClientDhInnerData.g_b client_inner)
    auth_key_expires_at) ;;
  SendDhGenOk req server_nonce inner result ;;;
  ret result.

End Exchange.

(** ** The other end

    What a connection shows: the frames still to come from the peer, each a
    function of what it has received by then, and the frames sent to it. *)

Record view : Type := View { pending : list (list bytes -> bytes); sent : list bytes }.

Class Channel {W} (read : M W bytes) (write : bytes -> M W unit) (look : W -> view) : Prop := {
  channel_read : forall w f rest out, look w = View (f :: rest) out ->
    exists w', read w = (Ok (f out), w') /\ look w' = View rest out;
  channel_write : forall frame w, exists w', write frame w = (Ok tt, w') /\
    look w' = View (pending (look w)) (sent (look w) ++ [frame]) }.

(** A plaintext message of the client, and what it does in one turn: some
    acknowledgements, then the message. *)
Definition client_id (id : Z) : Prop :=
  0 <= id < 2 ^ 63 /\ MessageId.Type_ id = MessageId.kFromClient.
Definition plain_frame (id : Z) (payload : bytes) : bytes :=
  UnencryptedMessage.Encode (UnencryptedMessage.Mk id payload) [].
Definition payload_ok (is_ack : bool) (payload : bytes) : Prop :=
  4 <= zlen payload < 2 ^ 31 /\ (ReadU32LE payload =? MsgsAck.kTypeId) = is_ack.

Record turn : Type := Turn { t_acks : list (Z * bytes); t_id : Z }.
Definition turn_ok (t : turn) : Prop :=
  client_id (t_id t) /\ Forall (fun '(i, p) => client_id i /\ payload_ok true p) (t_acks t).
Definition turn_frames (t : turn) (payload : list bytes -> bytes) : list (list bytes -> bytes) :=
  map (fun '(i, p) _ => plain_frame i p) (t_acks t) ++
  [fun out => plain_frame (t_id t) (payload out)].

(** A frame the server sends: a server-response id around the payload. *)
Definition server_frame (payload frame : bytes) : Prop :=
  exists id, 0 <= id < 2 ^ 63 /\ MessageId.Type_ id = MessageId.kServerResponse /\
    frame = plain_frame id payload.

Section Agreement.
Context {ssl : OpenSSL} {laws : OpenSSLLaws} {W : Type} (now : Clock W) (rand : RandomFill W).
Context (read : M W bytes) (write : bytes -> M W unit) (look : W -> view).
Context {channel : Channel read write look} {random : RandomSource rand look}.
Context {clock : ClockSource now look}.

Lemma ReadHandshakeMessage_run w f rest out id payload :
  look w = View (f :: rest) out -> f out = plain_frame id payload -> client_id id ->
  zlen payload < 2 ^ 31 ->
  exists w', ReadHandshakeMessage read w = (Ok (UnencryptedMessage.Mk id payload), w') /\
    look w' = View rest out.
Proof.
  intros Hw Hf [Hid Ht] Hl. destruct (channel_read w f rest out Hw) as (w' & E & Hv).
  exists w'. split; [|done]. unfold ReadHandshakeMessage. erewrite bind_Ok by exact E.
  rewrite Hf. unfold plain_frame. rewrite bind_guard.
  2: { rewrite UnencryptedMessage.Encode_app. cbn [app]. rewrite ztake_app by done.
       rewrite bool_decide_eq_false_2 by (intros H; by apply H). by rewrite andb_false_r. }
  unfold local. rewrite bind_lift.
  rewrite <- (app_nil_r (UnencryptedMessage.Encode _ _)), UnencryptedMessage.Encode_parses
    by (cbn; done || (split; lia)). cbn [fst UnencryptedMessage.message_id].
  by rewrite Ht, bind_guard.
Qed.

Lemma PeekID_fst b : 4 <= zlen b -> fst (PeekID b) = Ok (ReadU32LE b).
Proof. intros H. by rewrite PeekID_ok. Qed.

(** A turn is read as its message, its acknowledgements are dropped. *)
Lemma ReadNextReal_turn fuel t payload w rest out :
  look w = View (turn_frames t payload ++ rest) out -> turn_ok t ->
  payload_ok false (payload out) -> (length (t_acks t) < fuel)%nat ->
  exists w', ReadNextRealHandshakeMessage read fuel w =
      (Ok (UnencryptedMessage.Mk (t_id t) (payload out)), w') /\ look w' = View rest out.
Proof.
  destruct t as [acks id]. unfold turn_frames, turn_ok. cbn [t_acks t_id].
  intros Hw [Hid Hacks] [Hp Hna]. revert fuel w Hw.
  induction Hacks as [|[i p] acks [Hi [Hpl Hpa]] Hacks IH]; intros fuel w Hw Hf;
    (destruct fuel as [|fuel]; [cbn in Hf; lia|]); cbn [map app] in Hw;
    cbn [ReadNextRealHandshakeMessage].
  - destruct (ReadHandshakeMessage_run w _ _ _ id (payload out) Hw eq_refl Hid) as (w' & E & Hv);
      [lia|]. exists w'. split; [|done]. erewrite bind_Ok by exact E.
    unfold local. rewrite bind_lift. cbn [UnencryptedMessage.message_data].
    by rewrite PeekID_fst, Hna by lia.
  - destruct (ReadHandshakeMessage_run w _ _ _ i p Hw eq_refl Hi) as (w' & E & Hv); [lia|].
    erewrite bind_Ok by exact E. unfold local. rewrite bind_lift.
    cbn [UnencryptedMessage.message_data]. rewrite PeekID_fst, Hpa by lia.
    apply IH; [done|]. cbn in Hf. lia.
Qed.

Lemma WriteHandshakeMessage_run w payload :
  exists f w', WriteHandshakeMessage now write MessageId.kServerResponse payload w = (Ok tt, w') /\
    server_frame payload f /\ look w' = View (pending (look w)) (sent (look w) ++ [f]).
Proof.
  unfold WriteHandshakeMessage. destruct (clock_now w) as (t & w1 & E & Ht & Hv).
  erewrite bind_Ok by exact E. set (id := MessageId.NewFromNanos t MessageId.kServerResponse).
  destruct (channel_write (plain_frame id payload) w1) as (w2 & E2 & Hv2).
  exists (plain_frame id payload), w2. split; [exact E2|]. split; [|by rewrite Hv2, Hv].
  assert (Em : id = MessageId.Compute t 1)
    by (apply MessageId.NewFromNanos_server; [exact Ht | by left]).
  pose proof (MessageId.Compute_range t 1 Ht ltac:(lia)) as Hr. exists id. rewrite Em.
  split; [lia|]. split; [|done]. by apply (MessageId.Type_Compute t MessageId.kServerResponse).
Qed.

(** *** The secret exponent *)

Lemma FixedDhPrime_pos : 1 < be_val FixedDhPrime.
Proof. pose proof FixedDhPrime_big. lia. Qed.

(** A share in range, with its exponent. *)
Definition share (a g_a : bytes) : Prop :=
  zlen g_a <= 256 /\ be_val g_a = 3 ^ be_val a mod be_val FixedDhPrime /\
  2 ^ 1984 < be_val g_a < be_val FixedDhPrime - 2 ^ 1984.

Lemma GenerateGaLoop_run fuel w :
  (exists a g_a w', GenerateGaLoop rand fuel [u8 kDhGenerator] FixedDhPrime w = (Ok (a, g_a), w') /\
     look w' = look w /\ share a g_a) \/
  fst (GenerateGaLoop rand fuel [u8 kDhGenerator] FixedDhPrime w) = Throw out_of_fuel.
Proof.
  revert w. induction fuel as [|fuel IH]; intros w; [by right|]. cbn [GenerateGaLoop].
  destruct (random_fill kRsaByteLen w ltac:(done)) as (a & w1 & E & Ha & Hv).
  erewrite bind_Ok by exact E. unfold Bignum.ModPow.
  rewrite mod_exp_run by (apply FixedDhPrime_pos || apply FixedDhPrime_odd). cbn [rbind].
  change (be_val [u8 kDhGenerator]) with 3.
  set (v := 3 ^ be_val a mod be_val FixedDhPrime).
  assert (Hr : 0 <= v < be_val FixedDhPrime) by (apply Z.mod_pos_bound; pose proof FixedDhPrime_pos; lia).
  rewrite bind_lift. destruct (GaInRange FixedDhPrime (Bignum.BignumToMinimalBytes v)) eqn:Eg.
  - left. exists a, (Bignum.BignumToMinimalBytes v), w1. split; [done|]. split; [done|].
    unfold share. rewrite Bignum.be_val_minimal by lia. split; [|split; [done|]].
    + unfold Bignum.BignumToMinimalBytes. rewrite zlen_be_bytes.
      pose proof (bn_num_bytes_nonneg v ltac:(lia)). rewrite Z2Nat.id by done.
      apply bn_num_bytes_le; [lia|]. pose proof FixedDhPrime_big. lia.
    + unfold GaInRange, Bignum.BytesToBignum, safety_min, kRsaKeyBits in Eg.
      rewrite Bignum.be_val_minimal, Z.shiftl_1_l in Eg by lia.
      change (2048 - 64) with 1984 in Eg. lia.
  - destruct (IH w1) as [(a' & g' & w' & E' & Hv' & Hs)|Hf]; [left|by right].
    exists a', g', w'. split; [done|]. split; [by rewrite Hv'|done].
Qed.

Lemma CheckGP_fixed : CheckGP kDhGenerator FixedDhPrime = Ok tt.
Proof. unfold CheckGP. cbn [Z.eqb Pos.eqb kDhGenerator]. unfold CheckSubgroup, Bignum.BytesToBignum.
  rewrite FixedDhPrime_mod3. done. Qed.

(** *** ResPQ, as often as it is asked for *)

(** [req_pq] or [req_pq_multi], and its nonce. *)
Definition hello : Type := bool * bytes.
Definition hello_payload (h : hello) : bytes :=
  fput (if h.1 then HandshakeSchema.req_pq_multi else HandshakeSchema.req_pq) h.2.
Definition hello_req (h : hello) : ReqPq.t :=
  ReqPq.Mk (if h.1 then kReqPqMultiRequestTypeId else kReqPqRequestTypeId) h.2.
Definition hello_frames (th : turn * hello) : list (list bytes -> bytes) :=
  turn_frames th.1 (fun _ => hello_payload th.2).
Definition hello_ok (fuel : nat) (th : turn * hello) : Prop :=
  turn_ok th.1 /\ (length (t_acks th.1) < fuel)%nat /\ zlen th.2.2 = 16.

Lemma hello_decodes h : zlen h.2 = 16 ->
  payload_ok false (hello_payload h) /\
  fst (PeekID (hello_payload h)) = Ok (ReqPq.type_id (hello_req h)) /\
  fst (ReqPq.Decode (hello_payload h)) = Ok (hello_req h).
Proof.
  destruct h as [multi nonce]. unfold hello_payload, hello_req. cbn [fst snd ReqPq.type_id].
  intros Hn. destruct handshake_requests_read as (H1 & H2 & _).
  assert (Hp : forall id, zlen (le_bytes 4 id ++ nonce) = 20)
    by (intros id; by rewrite zlen_app, zlen_le_bytes, Hn).
  destruct multi; [specialize (H2 nonce) | specialize (H1 nonce)].
  - assert (Hok : fok HandshakeSchema.req_pq_multi nonce) by (split; done).
    specialize (H2 Hok []). rewrite app_nil_r in H2. rewrite H2. split; [|split; [|done]].
    + unfold payload_ok, HandshakeSchema.req_pq_multi. fput_norm. rewrite Hp. split; [lia|].
      by rewrite ReadU32LE_le_bytes.
    + unfold HandshakeSchema.req_pq_multi. fput_norm. by rewrite PeekID_run.
  - assert (Hok : fok HandshakeSchema.req_pq nonce) by (split; done).
    specialize (H1 Hok []). rewrite app_nil_r in H1. rewrite H1. split; [|split; [|done]].
    + unfold payload_ok, HandshakeSchema.req_pq. fput_norm. rewrite Hp. split; [lia|].
      by rewrite ReadU32LE_le_bytes.
    + unfold HandshakeSchema.req_pq. fput_norm. by rewrite PeekID_run.
Qed.

(** The server's nonce as the client finds it in ResPQ (or in
    server_DH_params_ok): after the envelope, the id and its own nonce. *)
Definition server_nonce_of (out : list bytes) : bytes := zslice 40 16 (List.last out []).

Lemma server_nonce_in_frame out f id nonce sn tail :
  zlen nonce = 16 -> zlen sn = 16 ->
  server_frame (le_bytes 4 id ++ nonce ++ sn ++ tail) f -> server_nonce_of (out ++ [f]) = sn.
Proof.
  intros Hn Hs (mid & _ & _ & ->). unfold server_nonce_of. rewrite last_last. unfold plain_frame.
  rewrite UnencryptedMessage.Encode_app. cbn [app UnencryptedMessage.message_data UnencryptedMessage.message_id].
  unfold zslice. rewrite !app_assoc, <- (app_assoc _ sn). rewrite zdrop_app; [by apply ztake_app|].
  rewrite !zlen_app, !zlen_le_bytes, Hn. done.
Qed.

Lemma res_pq_nonce key req sn out f :
  zlen (ReqPq.nonce req) = 16 -> zlen sn = 16 -> server_frame (res_pq_payload key req sn) f ->
  server_nonce_of (out ++ [f]) = sn.
Proof.
  intros Hn Hs. unfold res_pq_payload, ResPq.Encode.
  cbn [ResPq.nonce ResPq.server_nonce ResPq.pq ResPq.server_public_key_fingerprints PutAll].
  put_norm. by apply server_nonce_in_frame.
Qed.

Lemma last_cons {A} (x : A) l d : List.last (x :: l) d = List.last l x.
Proof.
  revert x d. induction l as [|y l IH]; intros x d; [done|].
  change (List.last (x :: y :: l) d) with (List.last (y :: l) d). by rewrite !IH.
Qed.

Lemma AnswerReqPq_run fuel read_fuel key sn h retries dt dh dp w rest out :
  look w = View (concat (map hello_frames retries) ++
    turn_frames dt (fun out => dh (server_nonce_of out)) ++ rest) out ->
  zlen sn = 16 -> zlen h.2 = 16 -> Forall (hello_ok read_fuel) retries -> turn_ok dt ->
  (length (t_acks dt) < read_fuel)%nat -> payload_ok false (dh sn) ->
  ReadU32LE (dh sn) = ReqDhParams.kTypeId -> fst (ReqDhParams.Decode (dh sn)) = Ok dp ->
  (length retries < fuel)%nat ->
  exists frames w', AnswerReqPq now read write fuel read_fuel key (hello_req h) sn w =
      (Ok (hello_req (List.last (map snd retries) h), dp), w') /\
    look w' = View rest (out ++ frames) /\
    Forall2 (fun h f => server_frame (res_pq_payload key (hello_req h) sn) f)
      (h :: map snd retries) frames.
Proof.
  intros Hw Hs Hh Hre Hdt Hacks Hdh Hid Hdp Hf. revert fuel h out w Hh Hw Hf.
  induction Hre as [|[t h'] retries (Ht & Hta & Hn) Hre IH]; intros fuel h out w Hh Hw Hf;
    (destruct fuel as [|fuel]; [cbn in Hf; lia|]); cbn [map concat app] in Hw;
    cbn [AnswerReqPq];
    destruct (WriteHandshakeMessage_run w (res_pq_payload key (hello_req h) sn))
      as (f & w1 & E & Hframe & Hv); rewrite Hw in Hv; cbn [pending sent] in Hv;
    erewrite bind_Ok by exact E.
  - assert (Hsn : server_nonce_of (out ++ [f]) = sn) by (by apply (res_pq_nonce key (hello_req h))).
    destruct (ReadNextReal_turn read_fuel dt _ w1 rest (out ++ [f]) Hv Hdt) as (w2 & E2 & Hv2);
      [cbv beta; by rewrite Hsn|done|]. cbv beta in E2. rewrite Hsn in E2.
    exists [f], w2. split; [|by split; [|repeat constructor]].
    erewrite bind_Ok by exact E2. unfold local. rewrite bind_lift.
    cbn [UnencryptedMessage.message_data]. rewrite PeekID_fst by (destruct Hdh; lia). rewrite Hid.
    cbn [kReqPqRequestTypeId kReqPqMultiRequestTypeId ReqDhParams.kTypeId Z.eqb Pos.eqb orb].
    by rewrite bind_lift, Hdp.
  - cbn [fst snd] in *. destruct (hello_decodes h' Hn) as (Hpl & Hpk & Hdec).
    unfold hello_frames in Hv at 1. cbn [fst snd] in Hv. rewrite <- app_assoc in Hv.
    destruct (ReadNextReal_turn read_fuel t _ w1 _ (out ++ [f]) Hv Ht Hpl Hta) as (w2 & E2 & Hv2).
    destruct (IH fuel h' (out ++ [f]) w2 Hn Hv2) as (frames & w3 & E3 & Hv3 & Hfr); [cbn in Hf; lia|].
    exists (f :: frames), w3. split; [|split].
    + erewrite bind_Ok by exact E2. unfold local. rewrite bind_lift.
      cbn [UnencryptedMessage.message_data]. rewrite Hpk.
      replace (_ || _) with true by (by destruct h' as [[] ?]).
      rewrite bind_lift, Hdec, E3. cbn [map snd].
      by rewrite last_cons.
    + by rewrite Hv3, <- app_assoc.
    + by constructor.
Qed.

(** *** The DH messages *)

(** The server's answer, as the client opens it. *)
Definition dh_answer (nonce sn new_nonce g_a frame : bytes) : Prop :=
  exists time answer extra,
    server_frame (ServerDhParamsOk.Encode (ServerDhParamsOk.Mk nonce sn answer) []) frame /\
    (let '(key, iv) := TempAesKeys new_nonce sn in
     DecryptExchangeAnswer answer key iv = Ok (ServerDhInnerData.Encode
       (ServerDhInnerData.Mk nonce sn kDhGenerator FixedDhPrime g_a time) [] ++ extra)) /\
    zlen extra < 16.

Lemma dh_answer_nonce nonce sn new_nonce g_a out f :
  zlen nonce = 16 -> zlen sn = 16 -> dh_answer nonce sn new_nonce g_a f ->
  server_nonce_of (out ++ [f]) = sn.
Proof.
  intros Hn Hs (time & answer & extra & Hf & _). unfold ServerDhParamsOk.Encode in Hf.
  cbn [ServerDhParamsOk.nonce ServerDhParamsOk.server_nonce ServerDhParamsOk.encrypted_answer] in Hf.
  autorewrite with put in Hf. rewrite <- ?app_assoc in Hf. cbn [app] in Hf.
  by eapply server_nonce_in_frame in Hf.
Qed.

Lemma SendDhParams_run req sn g_a new_nonce w :
  zlen new_nonce = 32 ->
  exists f w', (let '(key, iv) := TempAesKeys new_nonce sn in
      SendDhParams now rand write req sn g_a key iv w = (Ok tt, w')) /\
    look w' = View (pending (look w)) (sent (look w) ++ [f]) /\
    dh_answer (ReqPq.nonce req) sn new_nonce g_a f.
Proof.
  intros Hn. unfold dh_answer, SendDhParams.
  destruct (TempAesKeys new_nonce sn) as [key iv] eqn:Ek.
  destruct (TempAesKeys_zlen _ _ _ _ Hn Ek) as [Hkey Hiv].
  destruct (clock_now w) as (t & w1 & E1 & _ & Hv1).
  set (inner := ServerDhInnerData.Encode (ServerDhInnerData.Mk (ReqPq.nonce req) sn kDhGenerator
    FixedDhPrime g_a (s32 (seconds_of t))) []).
  assert (Hne : inner <> []) by (unfold inner, ServerDhInnerData.Encode; by put_norm).
  destruct (EncryptExchangeAnswer_run rand look inner key iv w1 Hkey Hiv Hne)
    as (answer & w2 & extra & E2 & Hv2 & Hdec & Hx & _).
  destruct (WriteHandshakeMessage_run w2 (ServerDhParamsOk.Encode
    (ServerDhParamsOk.Mk (ReqPq.nonce req) sn answer) [])) as (f & w3 & E3 & Hf & Hv3).
  exists f, w3. split; [|split].
  - erewrite bind_Ok by exact E1. cbv zeta. erewrite bind_Ok by exact E2. exact E3.
  - by rewrite Hv3, Hv2, Hv1.
  - by exists (s32 (seconds_of t)), answer, extra.
Qed.

Lemma set_dh_decodes nonce sn sealed :
  zlen nonce = 16 -> zlen sn = 16 -> zlen sealed < 2 ^ 24 ->
  let b := fput HandshakeSchema.set_client_DH_params (nonce, (sn, sealed)) in
  payload_ok false b /\ fst (SetClientDhParams.Decode b) = Ok (SetClientDhParams.Mk nonce sn sealed).
Proof.
  intros Hn Hs Hl b. destruct handshake_requests_read as (_ & _ & _ & H & _).
  assert (Hok : fok HandshakeSchema.set_client_DH_params (nonce, (sn, sealed)))
    by (repeat split; done).
  specialize (H _ Hok []). rewrite app_nil_r in H. unfold b. rewrite H. split; [|done].
  unfold HandshakeSchema.set_client_DH_params, payload_ok. fput_norm.
  rewrite ReadU32LE_le_bytes. split; [|done].
  rewrite !zlen_app, zlen_le_bytes, Hn, Hs, zlen_enc_bytes. pose proof (zlen_nonneg sealed).
  assert (0 <= header_len_of (zlen sealed) <= 4) by (unfold header_len_of; case_match; lia).
  destruct (NearestPaddedLength_spec (header_len_of (zlen sealed) + zlen sealed)); lia.
Qed.

Lemma ReadClientDh_run fuel st w rest out nonce sn sealed key iv data inner :
  look w = View (turn_frames st (fun out => fput HandshakeSchema.set_client_DH_params
    (nonce, (server_nonce_of out, sealed (server_nonce_of out)))) ++ rest) out ->
  server_nonce_of out = sn -> turn_ok st -> (length (t_acks st) < fuel)%nat ->
  zlen nonce = 16 -> zlen sn = 16 -> zlen (sealed sn) < 2 ^ 24 ->
  DecryptExchangeAnswer (sealed sn) key iv = Ok data ->
  fst (ClientDhInnerData.Decode data) = Ok inner ->
  exists w', ReadClientDh read fuel key iv w = (Ok inner, w') /\ look w' = View rest out.
Proof.
  intros Hw <- Hst Ha Hn Hs Hl Hdec Hinner. destruct (set_dh_decodes _ _ _ Hn Hs Hl) as [Hp Hd].
  destruct (ReadNextReal_turn fuel st _ w rest out Hw Hst Hp Ha) as (w' & E & Hv).
  exists w'. split; [|done]. unfold ReadClientDh. erewrite bind_Ok by exact E.
  cbn [UnencryptedMessage.message_data]. unfold local. rewrite bind_lift, Hd. unfold lift.
  cbn [SetClientDhParams.encrypted_data]. rewrite Hdec. cbn [rbind]. by rewrite Hinner.
Qed.

(** Both sides compute the same key. *)
Lemma MakeResult_run inner sn a g_a b g_b expires :
  share a g_a -> 0 <= b -> be_val g_b = 3 ^ b mod be_val FixedDhPrime ->
  exists key, MakeResult inner sn a g_b expires =
      Ok (MkResult key (ServerSalt (PqInnerData.new_nonce inner) sn) (s32 expires)) /\
    zlen key = 256 /\ be_val key = be_val g_a ^ b mod be_val FixedDhPrime.
Proof.
  intros (_ & Hga & _) Hb Hgb. unfold MakeResult, ModPowFixed.
  destruct (ModExp_run g_b a FixedDhPrime 256) as (key & E & Hl & Hv);
    [apply FixedDhPrime_pos | apply FixedDhPrime_odd | by rewrite zlen_FixedDhPrime |].
  exists key. rewrite E. split; [done|]. split; [done|]. rewrite Hv, Hga, Hgb.
  pose proof (be_val_range a).
  pose proof FixedDhPrime_pos.
  rewrite <- !Zpow_facts.Zpower_mod by lia. rewrite <- !Z.pow_mul_r by lia. by rewrite Z.mul_comm.
Qed.

Lemma req_dh_decodes nonce sn p q fp sealed :
  zlen nonce = 16 -> zlen sn = 16 -> zlen p < 2 ^ 24 -> zlen q < 2 ^ 24 -> is_s64 fp ->
  zlen sealed < 2 ^ 24 ->
  let b := fput HandshakeSchema.req_DH_params (nonce, (sn, (p, (q, (fp, sealed))))) in
  payload_ok false b /\ ReadU32LE b = ReqDhParams.kTypeId /\
  fst (ReqDhParams.Decode b) = Ok (ReqDhParams.Mk nonce sn p q fp sealed).
Proof.
  intros Hn Hs Hp Hq Hfp Hl b. destruct handshake_requests_read as (_ & _ & H & _).
  assert (Hok : fok HandshakeSchema.req_DH_params (nonce, (sn, (p, (q, (fp, sealed))))))
    by (repeat split; done || apply Hfp).
  specialize (H _ Hok []). rewrite app_nil_r in H. unfold b. rewrite H.
  assert (He : forall v, zlen v < 2 ^ 24 -> 0 <= zlen (enc_bytes v) < 2 ^ 25).
  { intros v Hv. rewrite zlen_enc_bytes. pose proof (zlen_nonneg v).
    assert (0 <= header_len_of (zlen v) <= 4) by (unfold header_len_of; case_match; lia).
    destruct (NearestPaddedLength_spec (header_len_of (zlen v) + zlen v)); lia. }
  pose proof (He p Hp). pose proof (He q Hq). pose proof (He sealed Hl).
  unfold HandshakeSchema.req_DH_params, payload_ok. fput_norm.
  rewrite ReadU32LE_le_bytes. split; [|done]. split; [|done].
  rewrite !zlen_app, !zlen_le_bytes, Hn, Hs. lia.
Qed.

(** *** An honest client *)

(** The turns it takes; what it seals for the server's RSA key and, once it
    knows [server_nonce], with the temporary keys; its secrets. *)
Record client : Type := Client {
  c_first : turn * hello; c_retries : list (turn * hello);
  c_dh_turn : turn; c_p : bytes; c_q : bytes; c_fingerprint : Z; c_sealed_inner : bytes -> bytes;
  c_set_turn : turn; c_retry_id : Z; c_sealed_dh : bytes -> bytes;
  c_kind : PqInnerData.PqInnerDataKind; c_dc : Z; c_expires_in : Z;
  c_new_nonce : bytes; c_b : Z }.

(** The nonce of the request it went on with. *)
Definition c_hello (c : client) : hello := List.last (map snd (c_retries c)) (c_first c).2.
Definition c_nonce (c : client) : bytes := (c_hello c).2.

Definition dh_request (c : client) (sn : bytes) : bytes :=
  fput HandshakeSchema.req_DH_params
    (c_nonce c, (sn, (c_p c, (c_q c, (c_fingerprint c, c_sealed_inner c sn))))).

(** Every frame it sends, in order. *)
Definition script (c : client) : list (list bytes -> bytes) :=
  hello_frames (c_first c) ++ concat (map hello_frames (c_retries c)) ++
  turn_frames (c_dh_turn c) (fun out => dh_request c (server_nonce_of out)) ++
  turn_frames (c_set_turn c) (fun out => fput HandshakeSchema.set_client_DH_params
    (c_nonce c, (server_nonce_of out, c_sealed_dh c (server_nonce_of out)))).

(** The contents of its two sealed messages. *)
Definition seals_inner (key : RsaPrivateKey.t) (c : client) (sn : bytes) : Prop :=
  zlen (c_sealed_inner c sn) < 2 ^ 24 /\
  exists data, RsaUnpad (c_sealed_inner c sn) key = Ok data /\
    fst (PqInnerData.Decode data) = Ok (PqInnerData.Mk (c_kind c) FixedPq (c_p c) (c_q c)
      (c_nonce c) sn (c_new_nonce c) (c_dc c) (c_expires_in c)).
Definition seals_dh (c : client) (sn : bytes) : Prop :=
  zlen (c_sealed_dh c sn) < 2 ^ 24 /\
  exists data g_b, be_val g_b = 3 ^ c_b c mod be_val FixedDhPrime /\
    (let '(key, iv) := TempAesKeys (c_new_nonce c) sn in
     DecryptExchangeAnswer (c_sealed_dh c sn) key iv = Ok data) /\
    fst (ClientDhInnerData.Decode data) =
      Ok (ClientDhInnerData.Mk (c_nonce c) sn (c_retry_id c) g_b).

(** Fewer acknowledgements per turn and retries than the fuel; a temporary
    key with a positive lifetime that ends before 2038 by the server's clock. *)
Definition client_ok (fuel : nat) (key : RsaPrivateKey.t) (c : client) : Prop :=
  Forall (hello_ok fuel) (c_first c :: c_retries c) /\ (length (c_retries c) < fuel)%nat /\
  turn_ok (c_dh_turn c) /\ (length (t_acks (c_dh_turn c)) < fuel)%nat /\
  turn_ok (c_set_turn c) /\ (length (t_acks (c_set_turn c)) < fuel)%nat /\
  zlen (c_p c) < 2 ^ 24 /\ zlen (c_q c) < 2 ^ 24 /\ is_s64 (c_fingerprint c) /\
  zlen (c_new_nonce c) = 32 /\ 0 <= c_b c /\
  (c_kind c = PqInnerData.kTempDc -> 0 < c_expires_in c /\
    forall w t w', now w = (Ok t, w') -> seconds_of t + c_expires_in c < 2 ^ 31).

Lemma c_nonce_zlen fuel c :
  Forall (hello_ok fuel) (c_first c :: c_retries c) -> zlen (c_nonce c) = 16.
Proof.
  unfold c_nonce, c_hello. intros H. apply Forall_cons in H as [(_ & _ & Hf) H].
  revert Hf. generalize ((c_first c).2). induction H as [|[t h'] l (_ & _ & Hn) _ IH]; intros h Hh; [done|].
  cbn [map snd]. rewrite last_cons. by apply IH.
Qed.

(** The expiry the server stores. *)
Definition expiry (kind : PqInnerData.PqInnerDataKind) (expires_in handshake_time : Z) : Z :=
  match kind with
  | PqInnerData.kTempDc => seconds_of handshake_time + expires_in
  | _ => 0
  end.

Lemma expiry_run inner t :
  0 <= t < 2 ^ 31 * 1000000000 ->
  (PqInnerData.kind inner = PqInnerData.kTempDc -> 0 < PqInnerData.expires_in inner /\
    seconds_of t + PqInnerData.expires_in inner < 2 ^ 31) ->
  let e := expiry (PqInnerData.kind inner) (PqInnerData.expires_in inner) t in
  CheckExpiresIn inner = Ok tt /\ AuthKeyExpiresAt inner t = Ok e /\ s32 e = e.
Proof.
  intros Ht H e. unfold CheckExpiresIn, AuthKeyExpiresAt, is_temp, e, expiry.
  destruct (PqInnerData.kind inner) eqn:Ek.
  1,2: (rewrite bool_decide_eq_false_2 by done; done).
  destruct (H eq_refl) as [Hp Hm]. rewrite bool_decide_eq_true_2 by done. cbn [andb].
  assert (0 <= seconds_of t) by (apply Z.quot_pos; lia). unfold int32_max.
  destruct (Z.leb_spec (PqInnerData.expires_in inner) 0); [lia|].
  destruct (Z.leb_spec (seconds_of t + PqInnerData.expires_in inner) 0); [lia|].
  destruct (Z.ltb_spec (2 ^ 31 - 1) (seconds_of t + PqInnerData.expires_in inner)); [lia|].
  cbn [orb]. split; [done|]. split; [done|]. apply s32_id. split; lia.
Qed.

Lemma ReadReqPq_run fuel th w rest out :
  look w = View (hello_frames th ++ rest) out -> hello_ok fuel th ->
  exists w', ReadReqPq read fuel w = (Ok (hello_req th.2), w') /\ look w' = View rest out.
Proof.
  intros Hw (Ht & Ha & Hn). destruct (hello_decodes th.2 Hn) as (Hp & _ & Hdec).
  destruct (ReadNextReal_turn fuel th.1 _ w rest out Hw Ht Hp Ha) as (w' & E & Hv).
  exists w'. split; [|done]. unfold ReadReqPq. erewrite bind_Ok by exact E.
  unfold local, lift. cbn [UnencryptedMessage.message_data]. by rewrite Hdec.
Qed.

(** An honest client's run, from the first frame to the last. *)
Lemma Run_honest (fuel : nat) (key : RsaPrivateKey.t) (c : client)
    (rest : list (list bytes -> bytes)) (w : W) (out : list bytes)
    (Hw : look w = View (script c ++ rest) out)
    (Hc : client_ok fuel key c)
    (Hseal : forall sn w w', rand 16 w = (Ok sn, w') -> seals_inner key c sn /\ seals_dh c sn)
    (Hdraws : forall w, fst (GenerateGaLoop rand fuel [u8 kDhGenerator] FixedDhPrime w) <>
       Throw out_of_fuel) :
  exists result w' sn g_a t respqs f_dh f_ok,
    Run now rand read write fuel key w = (Ok result, w') /\
    look w' = View rest (out ++ respqs ++ [f_dh; f_ok]) /\
    Forall2 (fun h f => server_frame (res_pq_payload key (hello_req h) sn) f)
      (map snd (c_first c :: c_retries c)) respqs /\
    dh_answer (c_nonce c) sn (c_new_nonce c) g_a f_dh /\
    2 ^ 1984 < be_val g_a < be_val FixedDhPrime - 2 ^ 1984 /\
    zlen (auth_key result) = 256 /\
    be_val (auth_key result) = be_val g_a ^ c_b c mod be_val FixedDhPrime /\
    server_frame (DhGenOk.Encode (DhGenOk.Mk (c_nonce c) sn
      (NonceHash1 (c_new_nonce c) (auth_key result))) []) f_ok /\
    server_salt result = ServerSalt (c_new_nonce c) sn /\
    expires_at result = expiry (c_kind c) (c_expires_in c) t.
Proof.
  destruct Hc as (Hhello & Hretries & Hdt & Hda & Hst & Hsa & Hp & Hq & Hfp & Hnn & Hb & Htemp).
  pose proof (c_nonce_zlen fuel c Hhello) as Hnonce. apply Forall_cons in Hhello as [Hh0 Hre].
  unfold script in Hw. rewrite <- !app_assoc in Hw.
  destruct (ReadReqPq_run fuel _ w _ out Hw Hh0) as (w1 & E1 & Hv1).
  destruct (random_fill 16 w1 ltac:(lia)) as (sn & w2 & E2 & Hsn & Hv2).
  destruct (Hseal _ _ _ E2) as [(Hl1 & data & Hun & Hdec) (Hl2 & data2 & g_b & Hgb & Hdx & Hdec2)].
  destruct (req_dh_decodes _ sn _ _ _ _ Hnonce Hsn Hp Hq Hfp Hl1) as (Hpd & Hid & Hdp).
  rewrite Hv1 in Hv2.
  destruct (AnswerReqPq_run fuel fuel key sn _ _ _ (dh_request c) _ w2 _ out Hv2 Hsn (proj2 (proj2 Hh0)) Hre
    Hdt Hda Hpd Hid Hdp Hretries) as (respqs & w3 & E3 & Hv3 & Hres).
  destruct (clock_now w3) as (t & w4 & E4 & Ht & Hv4).
  set (inner := PqInnerData.Mk (c_kind c) FixedPq (c_p c) (c_q c) (c_nonce c) sn (c_new_nonce c)
    (c_dc c) (c_expires_in c)) in *.
  destruct (expiry_run inner t Ht) as (Hx1 & Hx2 & Hx3).
  { intros Hk. destruct (Htemp Hk) as [Hpos Hmax]. split; [done|by eapply Hmax]. }
  destruct (GenerateGaLoop_run fuel w4) as [(a & g_a & w5 & E5 & Hv5 & Hshare)|Hbad];
    [|by apply Hdraws in Hbad].
  destruct (SendDhParams_run (hello_req (c_hello c)) sn g_a (c_new_nonce c) w5 Hnn)
    as (f_dh & w6 & E6 & Hv6 & Hans).
  rewrite Hv5, Hv4, Hv3 in Hv6. cbn [pending sent] in Hv6.
  destruct (TempAesKeys (c_new_nonce c) sn) as [tk tiv] eqn:Ek.
  destruct (ReadClientDh_run fuel (c_set_turn c) w6 rest ((out ++ respqs) ++ [f_dh]) (c_nonce c) sn
    (c_sealed_dh c) tk tiv data2 _ Hv6 (dh_answer_nonce _ _ _ _ _ _ Hnonce Hsn Hans)
    Hst Hsa Hnonce Hsn Hl2 Hdx Hdec2) as (w7 & E7 & Hv7).
  destruct (MakeResult_run inner sn a g_a (c_b c) g_b
    (expiry (PqInnerData.kind inner) (PqInnerData.expires_in inner) t) Hshare Hb Hgb) as (k & Ek2 & Hkl & Hkv).
  set (result := MkResult k _ _) in Ek2.
  destruct (WriteHandshakeMessage_run w7 (DhGenOk.Encode (DhGenOk.Mk (c_nonce c) sn
    (NonceHash1 (c_new_nonce c) k)) [])) as (f_ok & w8 & E8 & Hf8 & Hv8).
  exists result, w8, sn, g_a, t, respqs, f_dh, f_ok. split; [|split].
  - unfold Run. erewrite bind_Ok by exact E1. erewrite bind_Ok by exact E2.
    erewrite bind_Ok by exact E3. cbn [ReqDhParams.encrypted_data].
    unfold DecodePqInner. rewrite bind_lift, Hun. cbn [rbind]. rewrite Hdec. cbn [or_exchange_error].
    fold inner. rewrite bind_lift, Hx1. erewrite bind_Ok by exact E4. rewrite bind_lift, Hx2.
    unfold GenerateGa. rewrite bind_assoc, bind_lift, CheckGP_fixed. erewrite bind_Ok by exact E5.
    cbn [PqInnerData.new_nonce inner]. rewrite Ek. erewrite bind_Ok by exact E6.
    erewrite bind_Ok by exact E7. cbn [ClientDhInnerData.g_b]. rewrite bind_lift, Ek2.
    erewrite bind_Ok by exact E8. done.
  - rewrite Hv8, Hv7. cbn [pending sent]. by rewrite <- !app_assoc.
  - destruct Hshare as (_ & _ & Hrange). split; [exact Hres|]. split; [exact Hans|].
    split; [exact Hrange|]. split; [exact Hkl|]. split; [exact Hkv|]. split; [exact Hf8|].
    split; [done | exact Hx3].
Qed.

(** C18. The key exchange agrees: a client that follows the protocol (with
    any number of plaintext acknowledgements before each message and any number
    of repeated [req_pq]s, fewer than the fuel) completes it, and both ends
    hold the same key.  The server answers every [req_pq] with a ResPQ of that
    request's nonce and one server nonce; sends the client a share [g_a] in the
    safety range that the client decrypts; returns the key [g_a ^ b mod p] the
    client computes from its own secret [b], the salt and, for a temporary
    key, handshake time plus lifetime (0 for a permanent one); and its last
    frame is dh_gen_ok with the hash of that key under the client's new nonce. *)
Theorem Run_agrees (fuel : nat) (key : RsaPrivateKey.t) (c : client)
    (rest : list (list bytes -> bytes)) (w : W) (out : list bytes)
    (Hw : look w = View (script c ++ rest) out)
    (Hc : client_ok fuel key c)
    (Hseal : forall sn w w', rand 16 w = (Ok sn, w') -> seals_inner key c sn /\ seals_dh c sn)
    (Hdraws : forall w, fst (GenerateGaLoop rand fuel [u8 kDhGenerator] FixedDhPrime w) <>
       Throw out_of_fuel) :
  exists result w' sn g_a t respqs f_dh f_ok,
    Run now rand read write fuel key w = (Ok result, w') /\
    look w' = View rest (out ++ respqs ++ [f_dh; f_ok]) /\
    Forall2 (fun h f => server_frame (res_pq_payload key (hello_req h) sn) f)
      (map snd (c_first c :: c_retries c)) respqs /\
    dh_answer (c_nonce c) sn (c_new_nonce c) g_a f_dh /\
    2 ^ 1984 < be_val g_a < be_val FixedDhPrime - 2 ^ 1984 /\
    zlen (auth_key result) = 256 /\
    be_val (auth_key result) = be_val g_a ^ c_b c mod be_val FixedDhPrime /\
    server_frame (DhGenOk.Encode (DhGenOk.Mk (c_nonce c) sn
      (NonceHash1 (c_new_nonce c) (auth_key result))) []) f_ok /\
    server_salt result = ServerSalt (c_new_nonce c) sn /\
    expires_at result = expiry (c_kind c) (c_expires_in c) t.
Proof. by apply Run_honest. Qed.


End Agreement.

(** ** Witnesses *)

Section Witnesses.
#[local] Existing Instances Toy.toy Toy.toy_laws Toy.clock_source.

(** A connection that is just what it shows. *)
Definition view_read : M view bytes := fun v =>
  match pending v with
  | f :: rest => (Ok (f (sent v)), View rest (sent v))
  | [] => (Throw ConnectionClosedError, v)
  end.
Definition view_write (frame : bytes) : M view unit := fun v =>
  (Ok tt, View (pending v) (sent v ++ [frame])).

#[local] Instance view_channel : Channel view_read view_write id.
Proof.
  split.
  - intros w f rest out E. cbn in E. subst w. by eexists.
  - intros frame w. by eexists.
Qed.

(** A generator whose draws are the number 1260. *)
Definition fixed_random {S} : RandomFill S := fun n s => (Ok (be_bytes (Z.to_nat n) 1260), s).

#[local] Instance fixed_random_source {S} : RandomSource (@fixed_random S) id.
Proof.
  intros n s Hn. eexists _, s. split; [done|]. split; [|done]. rewrite zlen_be_bytes. lia.
Qed.

Definition or_nil (r : res bytes) : bytes := match r with Ok b => b | Throw _ => [] end.
Definition or_empty {S} (m : M S bytes) (s : S) : bytes := or_nil (fst (m s)).

Definition sample_nonce : bytes := replicate 16 x21.
Definition sample_new_nonce : bytes := replicate 32 x22.
Definition sample_ack : bytes := fput (ctor MsgsAck.kTypeId SessionSchema.msgs_ack) [4].
(** The server nonce it will be given, and what it seals then. *)
Definition sample_sn : bytes := be_bytes 16 1260.
Definition sample_inner_plain : bytes := Eval vm_compute in
  fput HandshakeSchema.p_q_inner_data_temp_dc
    (FixedPq, (lit "p", (lit "q", (sample_nonce, (sample_sn, (sample_new_nonce, (2, 86400))))))).
Definition sample_sealed_inner : bytes := Eval vm_compute in
  or_empty (RsaPad fixed_random 1 sample_inner_plain (PublicKey sample_rsa)) tt.
Definition sample_unsealed_inner : bytes := Eval vm_compute in
  or_nil (RsaUnpad sample_sealed_inner sample_rsa).
Definition sample_keys : bytes * bytes := Eval vm_compute in TempAesKeys sample_new_nonce sample_sn.
Definition sample_sealed_dh : bytes := Eval vm_compute in
  or_empty (EncryptExchangeAnswer fixed_random (fput HandshakeSchema.client_DH_inner_data
    (sample_nonce, (sample_sn, (0, [xf3])))) (fst sample_keys) (snd sample_keys)) tt.
Definition sample_unsealed_dh : bytes := Eval vm_compute in
  or_nil (DecryptExchangeAnswer sample_sealed_dh (fst sample_keys) (snd sample_keys)).

(** A client after a temporary key for one day: it repeats its first request
    once, with another nonce, and acknowledges ResPQ. *)
Definition sample_client : client := Client
  (Turn [(40, sample_ack)] 44, (false, replicate 16 x20)) [(Turn [] 48, (true, sample_nonce))]
  (Turn [(52, sample_ack); (56, sample_ack)] 60) (lit "p") (lit "q") 7
  (fun _ => sample_sealed_inner) (Turn [] 64) 0 (fun _ => sample_sealed_dh)
  PqInnerData.kTempDc 2 86400 sample_new_nonce 5.

Lemma sample_look : id (View (script sample_client) []) = View (script sample_client ++ []) [].
Proof. cbn [id]. by rewrite app_nil_r. Qed.

Lemma sample_client_ok : client_ok (W := view) Toy.clock 4 sample_rsa sample_client.
Proof.
  unfold client_ok. repeat split; try discriminate; try reflexivity; try (cbn; lia).
  - repeat constructor; try discriminate; try reflexivity; cbn; lia.
  - repeat constructor; discriminate.
  - repeat constructor; discriminate.
  - intros w t w' [= <- _]. reflexivity.
Qed.

Lemma sample_seals sn (w w' : view) : fixed_random 16 w = (Ok sn, w') ->
  seals_inner sample_rsa sample_client sn /\ seals_dh sample_client sn.
Proof.
  intros [= <- _]. change (be_bytes (Z.to_nat 16) 1260) with sample_sn. split.
  - split; [reflexivity|]. exists sample_unsealed_inner. split; vm_compute; reflexivity.
  - split; [reflexivity|]. exists sample_unsealed_dh, [xf3]. split; [vm_compute; reflexivity|].
    split; vm_compute; reflexivity.
Qed.

Lemma sample_draws (w : view) :
  fst (GenerateGaLoop fixed_random 4 [u8 kDhGenerator] FixedDhPrime w) <> Throw out_of_fuel.
Proof. vm_compute. discriminate. Qed.

Lemma Run_agrees_witness :
  exists result w' sn g_a t respqs f_dh f_ok,
    Run Toy.clock fixed_random view_read view_write 4 sample_rsa (View (script sample_client) []) =
      (Ok result, w') /\
    w' = View [] (respqs ++ [f_dh; f_ok]) /\
    Forall2 (fun h f => server_frame (res_pq_payload sample_rsa (hello_req h) sn) f)
      (map snd (c_first sample_client :: c_retries sample_client)) respqs /\
    dh_answer sample_nonce sn sample_new_nonce g_a f_dh /\
    2 ^ 1984 < be_val g_a < be_val FixedDhPrime - 2 ^ 1984 /\
    zlen (auth_key result) = 256 /\
    be_val (auth_key result) = be_val g_a ^ 5 mod be_val FixedDhPrime /\
    server_frame (DhGenOk.Encode (DhGenOk.Mk sample_nonce sn
      (NonceHash1 sample_new_nonce (auth_key result))) []) f_ok /\
    server_salt result = ServerSalt sample_new_nonce sn /\
    expires_at result = expiry PqInnerData.kTempDc 86400 t.
Proof.
  apply (Run_agrees Toy.clock fixed_random view_read view_write id 4 sample_rsa sample_client []
    (View (script sample_client) []) []).
  - apply sample_look.
  - apply sample_client_ok.
  - apply sample_seals.
  - apply sample_draws.
Defined.

#[local] Abbreviation sample_run :=
  (Run Toy.clock fixed_random view_read view_write 4 sample_rsa (View (script sample_client) [])).


End Witnesses.
