(* ===== verification/Server.v ===== *)
(** * One connection: [mtproto::TcpHandshakeServer]

    The body of the thread [tcp_handshake_server.cpp] starts for each accepted
    socket: detect the transport, run key exchanges until traffic under a key
    arrives (or a known key is resolved), then serve an encrypted session.
    The accept loop and the threads are in [Process], the debug log in [Program].  The loops
    that only the peer ends take fuel. *)

From Stdlib Require Import ZArith Lia Strings.Byte Strings.String.
From stdpp Require Import base decidable list gmap.
From S2P Require Import Prelude TL OpenSSL Transport Detect Schema Messages Invoke Cipher Dh.
From S2P Require Import Handshake Session.
Import TLBuffer.

Definition is_zero (b : byte) : bool := bz b =? 0.

Definition IsPlaintextMsgsAck (frame : bytes) : bool :=
  if zlen frame <? 8 then false
  else if negb (forallb is_zero (ztake 8 frame)) then false
  else match (msg <-? fst (UnencryptedMessage.Decode frame) ;;
              fst (PeekID (UnencryptedMessage.message_data msg))) with
       | Ok id => id =? MsgsAck.kTypeId
       | Throw _ => false
       end.

Record ResolvedAuthKey : Type := MkResolved { r_auth_key : bytes; r_server_salt : Z }.

(** [AuthKeyResolver] and [SuccessHandler], acting on the world. *)
Definition AuthKeyResolver (W : Type) : Type := bytes -> M W (option ResolvedAuthKey).
Definition SuccessHandler (W : Type) : Type := ServerExchangeResult -> M W unit.

Section Serve.
Context {ssl : OpenSSL} {W : Type} (now : Clock W) (rand : RandomFill W).
(** [detected.codec->Read(detected.read)] and [->Write(detected.write, frame)] *)
Context (read : M W bytes) (write : bytes -> M W unit).
Context (key_ : RsaPrivateKey.t) (rpc_registry_ : option (RpcHandlerRegistry W)).
Context (auth_key_resolver_ : option (AuthKeyResolver W)) (on_success : SuccessHandler W).

(** What the exchanges end with: key, salt, [pending_first_frame]. *)
Record established : Type := MkEstablished {
  session_auth_key : bytes; session_server_salt : Z; pending_first_frame : option bytes }.

(** The [catch] clause. *)
Definition OnEncryptedFrame (have_key : bool) (session_auth_key : bytes) (session_server_salt : Z)
    (e : exn) : M W (ServerExchangeResult + established) :=
  match e with
  | UnexpectedEncryptedFrameError id frame =>
      if have_key && bool_decide (id = AuthKeyId session_auth_key) then
        ret (inr (MkEstablished session_auth_key session_server_salt (Some frame)))
      else
        match rpc_registry_, auth_key_resolver_ with
        | Some _, Some resolver =>
            resolved <- resolver id ;;
            match resolved with
            | None =>
                write (PutInt32 (- kCodeAuthKeyNotFound) []) ;;;
                throw e
            | Some r => ret (inr (MkEstablished (r_auth_key r) (r_server_salt r) (Some frame)))
            end
        | _, _ => throw e
        end
  | _ => throw e
  end.

(** [for (;;)] around [exchange.Run]. *)
Fixpoint EstablishKey (fuel run_fuel : nat) (have_key : bool) (session_auth_key : bytes)
    (session_server_salt : Z) : M W established :=
  match fuel with
  | O => throw out_of_fuel
  | S fuel =>
      outcome <- try_catch
        (result <- Run now rand read write run_fuel key_ ;;
         on_success result ;;;
         ret (inl result))
        (OnEncryptedFrame have_key session_auth_key session_server_salt) ;;
      match outcome with
      | inl result =>
          if decide (rpc_registry_ = None) then
            ret (MkEstablished (auth_key result) (server_salt result) None)
          else EstablishKey fuel run_fuel true (auth_key result) (server_salt result)
      | inr e => ret e
      end
  end.

(** The lambda [handle_frame], on the session and the world. *)
Definition handle_frame (frame : bytes) : M (MtprotoSession * W) unit :=
  encrypted <- local frame EncryptedMessage_Decode ;;
  replies <- HandleEncrypted now rand rpc_registry_ encrypted ;;
  for_each (fun reply => on_snd (write (EncryptedMessage_Encode reply []))) replies.

(** [do { frame = read(); } while (IsPlaintextMsgsAck(frame));] *)
Fixpoint ReadSessionFrame (fuel : nat) : M W bytes :=
  match fuel with
  | O => throw out_of_fuel
  | S fuel =>
      frame <- read ;;
      if IsPlaintextMsgsAck frame then ReadSessionFrame fuel else ret frame
  end.

(** [for (;;)]: only an exception ends it. *)
Fixpoint ServeFrames (fuel read_fuel : nat) : M (MtprotoSession * W) unit :=
  match fuel with
  | O => throw out_of_fuel
  | S fuel =>
      frame <- on_snd (ReadSessionFrame read_fuel) ;;
      handle_frame frame ;;;
      ServeFrames fuel read_fuel
  end.

Definition ServeSession (fuel : nat) (e : established) : M W unit := fun w =>
  let session := NewSession (session_auth_key e) 0 (session_server_salt e) kServer in
  let '(r, (_, w')) :=
    (match pending_first_frame e with
     | Some frame => handle_frame frame
     | None => ret tt
     end ;;;
     ServeFrames fuel fuel) (session, w) in
  (r, w').

(** From the detected transport on. *)
Definition ServeConnection (fuel : nat) : M W unit :=
  e <- EstablishKey fuel fuel false (replicate 256 x00) 0 ;;
  if decide (rpc_registry_ = None) then ret tt
  else ServeSession fuel e.

End Serve.

(** ** The connection thread

    The world of the exchange and the session is the world of the server
    below the codec and the closures of the detected transport. *)

Section Thread.
Context {ssl : OpenSSL} {W : Type} (now : Clock W) (rand : RandomFill W).
Context (raw_read : ReadExact W) (raw_write : WriteBytes W).
Context (key_ : RsaPrivateKey.t) (rpc_registry_ : option (RpcHandlerRegistry W)).
Context (auth_key_resolver_ : option (AuthKeyResolver W)).
Context (on_success : SuccessHandler W) (on_failure : string -> M W unit).

Definition Connection : Type := Codec * (Wrap * W).

Definition in_world {A} (m : M W A) : M Connection A := on_snd (on_snd m).
Definition on_connection (registry : RpcHandlerRegistry W) : RpcHandlerRegistry Connection :=
  (fun handler id body ctx => in_world (handler id body ctx)) <$> (registry : gmap Z (RpcHandler W)).

Definition ConnectionThread (fuel : nat) : M W unit :=
  try_catch
    (detected <- DetectTransport raw_read [] ;;
     fun w =>
       let '(r, (_, (_, w'))) :=
         ServeConnection (fun c => in_world now c) (fun n => in_world (rand n))
           (Codec_Read (wrapped_read raw_read))
           (Codec_Write (wrapped_write raw_write) (fun n => on_snd (rand n)))
           key_ (on_connection <$> rpc_registry_)
           ((fun resolver id => in_world (resolver id)) <$> auth_key_resolver_)
           (fun result => in_world (on_success result)) fuel
           (fst detected, (snd detected, w)) in
       (r, w'))
    (fun e => on_failure (what e)).

End Thread.

(** ** A client that reconnects *)

Section Resume.
Context {ssl : OpenSSL} {laws : OpenSSLLaws} {W : Type} (now : Clock W) (rand : RandomFill W).
Context (read : M W bytes) (write : bytes -> M W unit) (look : W -> view).
Context {channel : Channel read write look} {random : RandomSource rand look}.
Context {clock : ClockSource now look}.
Context (key_ : RsaPrivateKey.t) (handlers : RpcHandlerRegistry W) (resolver : AuthKeyResolver W).
Context (on_success : SuccessHandler W).

(** The handlers do not write to the connection themselves. *)
Definition handlers_quiet : Prop := forall id handler fields ctx w,
  Find id handlers = Some handler -> look (snd (handler id fields ctx w)) = look w.

Lemma DispatchOne_quiet id body st w r st' w' :
  handlers_quiet -> DispatchOne (Some handlers) id body (st, w) = (r, (st', w')) ->
  look w' = look w.
Proof.
  intros Hq. unfold DispatchOne. destruct (UnwrapInvokeWrappers body) as [[u|e] b];
    [|by intros [= _ _ <-]].
  unfold DispatchCall, local. rewrite bind_lift.
  destruct (fst (PeekID b)) as [rid|]; [|by intros [= _ _ <-]].
  destruct (rid =? Ping.kTypeId); [by intros [= _ _ <-]|].
  destruct (rid =? PingDelayDisconnect.kTypeId); [by intros [= _ _ <-]|].
  destruct (rid =? MsgsAck.kTypeId); [by intros [= _ _ <-]|].
  destruct (Find rid handlers) as [h|] eqn:Eh; [|by intros [= _ _ <-]].
  rewrite bind_assoc, bind_lift. destruct (fst _) as [fields|]; [|by intros [= _ _ <-]].
  unfold bind, gets, on_snd. cbn [fst].
  pose proof (Hq rid h fields (MkContext (AuthKeyId (auth_key_ st)) (session_id_ st)) w Eh) as H.
  destruct (h rid fields _ w) as [[result|e] w1]; cbn in H; [|by intros [= _ _ <-]].
  case_decide; by intros [= _ _ <-].
Qed.

Lemma served_quiet st w inner replies st' w' :
  handlers_quiet -> served (Some handlers) look st w inner replies st' w' -> look w' = look w.
Proof.
  intros Hq. induction 1 as [st w|st w id body w1 rest replies st' w' Hd _ IH
    |st w id body response w1 w2 reply rest replies st' w' Hd _ _ Hk _ IH]; [done| |].
  - rewrite IH. by eapply DispatchOne_quiet in Hd.
  - rewrite IH, Hk. by eapply DispatchOne_quiet in Hd.
Qed.

Lemma write_replies replies st w :
  exists w', for_each (S := MtprotoSession * W)
      (fun reply => on_snd (write (EncryptedMessage_Encode reply []))) replies (st, w) =
      (Ok tt, (st, w')) /\
    look w' = View (pending (look w))
      (sent (look w) ++ map (fun reply => EncryptedMessage_Encode reply []) replies).
Proof.
  revert w. induction replies as [|reply rest IH]; intros w; cbn [for_each map].
  - exists w. rewrite app_nil_r. by destruct (look w).
  - destruct (channel_write (EncryptedMessage_Encode reply []) w) as (w1 & E1 & Hv1).
    destruct (IH w1) as (w2 & E2 & Hv2). exists w2. split.
    + erewrite bind_Ok by (unfold on_snd; rewrite E1; reflexivity). exact E2.
    + rewrite Hv2, Hv1. cbn [pending sent]. by rewrite <- app_assoc.
Qed.

(** A frame under a key ends the exchange at once. *)
Lemma Run_encrypted fuel w f rest out :
  look w = View (f :: rest) out -> 8 <= zlen (f out) -> ztake 8 (f out) <> zero_key_id ->
  (0 < fuel)%nat ->
  exists w', Run now rand read write fuel key_ w =
      (Throw (UnexpectedEncryptedFrameError (ztake 8 (f out)) (f out)), w') /\
    look w' = View rest out.
Proof.
  intros Hw H8 Hne Hf. destruct fuel as [|fuel]; [lia|].
  destruct (channel_read w f rest out Hw) as (w' & E & Hv). exists w'. split; [|done].
  unfold Run. apply bind_Throw. unfold ReadReqPq. apply bind_Throw. cbn [ReadNextRealHandshakeMessage].
  apply bind_Throw. unfold ReadHandshakeMessage. erewrite bind_Ok by exact E.
  apply bind_guard_false. rewrite bool_decide_eq_true_2 by done.
  by destruct (Z.leb_spec 8 (zlen (f out))); [|lia].
Qed.

Lemma EstablishKey_resolves fuel w enc rest out resolved :
  look w = View ((fun _ => EncryptedMessage_Encode enc []) :: rest) out ->
  zlen (auth_key_id enc) = 8 -> auth_key_id enc <> zero_key_id -> (0 < fuel)%nat ->
  (forall w, exists w', resolver (auth_key_id enc) w = (Ok resolved, w') /\ look w' = look w) ->
  let frame := EncryptedMessage_Encode enc [] in
  let establish := EstablishKey now rand read write key_ (Some handlers) (Some resolver) on_success
    fuel fuel false (replicate 256 x00) 0 w in
  exists w2, look w2 = View rest out /\
    match resolved with
    | Some r => establish = (Ok (MkEstablished (r_auth_key r) (r_server_salt r) (Some frame)), w2)
    | None => exists w3, establish =
        (Throw (UnexpectedEncryptedFrameError (auth_key_id enc) frame), w3) /\
        look w3 = View (pending (look w2)) (sent (look w2) ++ [le_bytes 4 (-404)])
    end.
Proof.
  intros Hw Hid Hnz Hf Hres frame establish.
  assert (Hhead : ztake 8 frame = auth_key_id enc).
  { unfold frame. rewrite EncryptedMessage_Encode_app. cbn [app]. by apply ztake_app. }
  assert (H8 : 8 <= zlen frame).
  { unfold frame. rewrite EncryptedMessage_Encode_app. cbn [app]. rewrite zlen_app, Hid.
    pose proof (zlen_nonneg (msg_key enc ++ encrypted_data enc)). lia. }
  destruct (Run_encrypted fuel w _ rest out Hw H8) as (w1 & E1 & Hv1); [by fold frame; rewrite Hhead|done|].
  cbv beta in E1. fold frame in E1. rewrite Hhead in E1.
  destruct (Hres w1) as (w2 & E2 & Hv2). exists w2. split; [by rewrite Hv2|].
  destruct fuel as [|n]; [lia|]. unfold establish. cbn [EstablishKey].
  destruct (channel_write (PutInt32 (- kCodeAuthKeyNotFound) []) w2) as (w3 & E3 & Hv3).
  assert (Ecatch : forall (k : ServerExchangeResult -> M W (ServerExchangeResult + established)),
    try_catch (result <- Run now rand read write (S n) key_ ;; k result)
      (OnEncryptedFrame write (Some handlers) (Some resolver) false (replicate 256 x00) 0) w =
    match resolved with
    | Some r => (Ok (inr (MkEstablished (r_auth_key r) (r_server_salt r) (Some frame))), w2)
    | None => (Throw (UnexpectedEncryptedFrameError (auth_key_id enc) frame), w3)
    end).
  { intros k. unfold try_catch. erewrite bind_Throw by exact E1. cbn [OnEncryptedFrame andb].
    erewrite bind_Ok by exact E2. destruct resolved as [r|]; [done|].
    by erewrite bind_Ok by exact E3. }
  destruct resolved as [r|].
  - by erewrite bind_Ok by apply Ecatch.
  - exists w3. erewrite bind_Throw by apply Ecatch. split; [done|]. exact Hv3.
Qed.

Lemma handle_first_frame enc r w data inner :
  zlen (auth_key_id enc) = 8 -> zlen (msg_key enc) = 16 -> handlers_quiet ->
  handlers_ok (Some handlers) ->
  DecryptMessage (r_auth_key r) enc kServer = Ok data -> 0 < message_id data ->
  SplitMessages data = Ok inner -> is_s64 (r_server_salt r) -> zlen inner < 2 ^ 30 ->
  let session := NewSession (r_auth_key r) 0 (r_server_salt r) kServer in
  let handle := handle_frame now rand write (Some handlers) (EncryptedMessage_Encode enc [])
    (session, w) in
  (exists replies st2 w3 w4, served (Some handlers) look (accept data session) w inner replies st2 w3 /\
     handle = (Ok tt, (st2, w4)) /\
     look w4 = View (pending (look w))
       (sent (look w) ++ map (fun reply => EncryptedMessage_Encode reply []) replies)) \/
  (exists e w' id body s, handle = (Throw e, w') /\ (id, body) ∈ inner /\
     fst (DispatchOne (Some handlers) id body s) = Throw e).
Proof.
  intros Hid Hmk Hq Hok Hdec Hfresh Hsplit Hsalt Hn session handle.
  assert (Hhandle : forall r s', HandleEncrypted now rand (Some handlers) enc (session, w) = (r, s') ->
    handle = match r with
             | Ok replies => for_each (fun reply => on_snd (write (EncryptedMessage_Encode reply [])))
                 replies s'
             | Throw e => (Throw e, s')
             end).
  { intros r0 s' E. unfold handle, handle_frame, local.
    rewrite EncryptedMessage_Decode_run, bind_lift by done. cbn [fst].
    unfold bind. rewrite E. by destruct r0. }
  rewrite (HandleEncrypted_unfold now rand (Some handlers) enc session w data Hdec), Hsplit in Hhandle.
  cbn [session NewSession last_seen_msg_id_] in Hhandle.
  destruct (Z.ltb_spec 0 (message_id data)); [|lia].
  destruct (HandleInner_serves now rand (Some handlers) look inner (accept data session) w Hok)
    as [(replies & st2 & w3 & E & Hs)|(e & s' & id & body & s & E & Hin & Ht)].
  { apply DecryptMessage_session_id in Hdec. repeat split; cbn; try apply Hsalt; try apply Hdec; lia. }
  - left. destruct (write_replies replies st2 w3) as (w4 & E4 & Hv4).
    exists replies, st2, w3, w4. split; [done|]. split.
    + erewrite Hhandle by exact E. exact E4.
    + rewrite Hv4. by rewrite (served_quiet _ _ _ _ _ _ Hq Hs).
  - right. exists e, s', id, body, s. split; [by erewrite Hhandle by exact E | done].
Qed.

(** A client that reconnects with a key it already has is served without
    an exchange.  Its first frame, encrypted under a key id, is looked up: for
    an unknown key the server writes exactly the transport error -404 and ends
    the connection; for a known one, that very frame is the first message of a
    new session under the resolved key and salt, its answers are written in
    order, each sealed for the client, and the session goes on from there
    (unless a dispatch threw). *)
Theorem ServeConnection_resumes (fuel : nat) (w : W) (enc : EncryptedMessage)
    (rest : list (list bytes -> bytes)) (out : list bytes) (resolved : option ResolvedAuthKey)
    (Hw : look w = View ((fun _ => EncryptedMessage_Encode enc []) :: rest) out)
    (Hid : zlen (auth_key_id enc) = 8) (Hnz : auth_key_id enc <> zero_key_id)
    (Hmk : zlen (msg_key enc) = 16) (Hfuel : (0 < fuel)%nat)
    (Hresolve : forall w, exists w', resolver (auth_key_id enc) w = (Ok resolved, w') /\
       look w' = look w)
    (Hquiet : handlers_quiet) (Hok : handlers_ok (Some handlers)) :
  let serve := ServeConnection now rand read write key_ (Some handlers) (Some resolver) on_success in
  match resolved with
  | None => exists w', serve fuel w =
      (Throw (UnexpectedEncryptedFrameError (auth_key_id enc) (EncryptedMessage_Encode enc [])), w') /\
      look w' = View rest (out ++ [le_bytes 4 (-404)])
  | Some r => forall data inner,
      DecryptMessage (r_auth_key r) enc kServer = Ok data -> 0 < message_id data ->
      SplitMessages data = Ok inner -> is_s64 (r_server_salt r) -> zlen inner < 2 ^ 30 ->
      let session := NewSession (r_auth_key r) 0 (r_server_salt r) kServer in
      (exists w1 replies st2 w2 w3, look w1 = View rest out /\
         served (Some handlers) look (accept data session) w1 inner replies st2 w2 /\
         look w3 = View rest (out ++ map (fun reply => EncryptedMessage_Encode reply []) replies) /\
         serve fuel w =
           (let '(r, (_, w')) := ServeFrames now rand read write (Some handlers) fuel fuel (st2, w3)
            in (r, w'))) \/
      (exists e w' id body s, serve fuel w = (Throw e, w') /\ (id, body) ∈ inner /\
         fst (DispatchOne (Some handlers) id body s) = Throw e)
  end.
Proof.
  cbv zeta.
  destruct (EstablishKey_resolves fuel w enc rest out resolved) as (w2 & Hw2 & He); try done.
  destruct resolved as [r|].
  - intros data inner Hdec Hfresh Hsplit Hsalt Hn.
    destruct (handle_first_frame enc r w2 data inner) as
      [(replies & st2 & w3 & w4 & Hs & E & Hv)|(e & [st' w'] & id & body & s & E & Hin & Ht)]; try done.
    + left. exists w2, replies, st2, w3, w4. split; [done|]. split; [done|].
      split; [by rewrite Hv, Hw2|]. unfold ServeConnection. erewrite bind_Ok by exact He.
      rewrite decide_False by done. unfold ServeSession.
      cbn [session_auth_key session_server_salt pending_first_frame].
      by erewrite bind_Ok by exact E.
    + right. exists e, w', id, body, s. split; [|done]. unfold ServeConnection.
      erewrite bind_Ok by exact He. rewrite decide_False by done. unfold ServeSession.
      cbn [session_auth_key session_server_salt pending_first_frame].
      by erewrite bind_Throw by exact E.
  - destruct He as (w3 & E & Hv). exists w3. unfold ServeConnection.
    erewrite bind_Throw by exact E. split; [done|]. by rewrite Hv, Hw2.
Qed.

End Resume.

(** ** Witness *)

Section Witnesses.
#[local] Existing Instances Toy.toy Toy.toy_laws Toy.clock_source Toy.zeros_random view_channel.

Definition no_handlers : RpcHandlerRegistry view := ∅.
Definition sample_resolver : AuthKeyResolver view := fun id =>
  ret (if decide (id = AuthKeyId sample_key) then Some (MkResolved sample_key 77) else None).

Lemma no_handlers_found id : Find id no_handlers = None.
Proof. exact (lookup_empty (M := gmap Z) (A := RpcHandler view) id). Qed.

Lemma ServeConnection_resumes_witness :
  let enc := sample_seal 200 sample_body in
  let w := View [fun _ => EncryptedMessage_Encode enc []] [] in
  let serve := ServeConnection Toy.clock Toy.zeros view_read view_write sample_rsa
    (Some no_handlers) (Some sample_resolver) (fun _ => ret tt) in
  let session := NewSession sample_key 0 77 kServer in
  (exists w1 replies st2 w2 w3, w1 = View [] [] /\
     served (Some no_handlers) id (accept (MkData 1 2 200 1 sample_body) session) w1
       sample_inner_messages replies st2 w2 /\
     w3 = View [] (map (fun reply => EncryptedMessage_Encode reply []) replies) /\
     serve 1%nat w =
       (let '(r, (_, w')) := ServeFrames Toy.clock Toy.zeros view_read view_write
          (Some no_handlers) 1 1 (st2, w3) in (r, w'))) \/
  (exists e w' i body s, serve 1%nat w = (Throw e, w') /\ (i, body) ∈ sample_inner_messages /\
     fst (DispatchOne (Some no_handlers) i body s) = Throw e).
Proof.
  apply (ServeConnection_resumes Toy.clock Toy.zeros view_read view_write id sample_rsa
    no_handlers sample_resolver (fun _ => ret tt) 1
    (View [fun _ => EncryptedMessage_Encode (sample_seal 200 sample_body) []] [])
    (sample_seal 200 sample_body) [] [] (Some (MkResolved sample_key 77))).
  - reflexivity.
  - vm_compute. reflexivity.
  - vm_compute. discriminate.
  - vm_compute. reflexivity.
  - lia.
  - intros w. exists w. split; [|done]. vm_compute. reflexivity.
  - intros id h fields ctx w H. by rewrite no_handlers_found in H.
  - intros id h fields ctx w r w' H. change (Find id no_handlers = Some h) in H.
    by rewrite no_handlers_found in H.
  - vm_compute. reflexivity.
  - reflexivity.
  - vm_compute. reflexivity.
  - split; [discriminate | reflexivity].
  - reflexivity.
Defined.

End Witnesses.
