(* ===== verification/Domain.v ===== *)
(** * Accounts: [shuzagram::domain]

    [user.hpp], [account_deletion.hpp], [phone.cpp].  An [int] of these
    structs is a [Z]; a [time_point] is its count of nanoseconds.
    libphonenumber is a parameter: [e164] is its parse of an international
    number, the test for a possible number and the E.164 formatting, without
    the leading plus. *)

From Stdlib Require Import ZArith Lia Strings.Byte Strings.String.
From stdpp Require Import base decidable list.
From S2P Require Import Prelude Text.

(** ** Deletion sources ([account_deletion.hpp]) *)

Inductive AccountDeletionSource : Type :=
  | DeletionNone | Manual | ForgotPassword | TOSDecline | PasswordResetExpiry | AccountTTL
  | FreezeExpiry.

#[export] Instance AccountDeletionSource_eq_dec : EqDecision AccountDeletionSource.
Proof. solve_decision. Defined.

Definition DeletionToString (source : AccountDeletionSource) : bytes :=
  lit match source with
  | DeletionNone => ""
  | Manual => "manual"
  | ForgotPassword => "forgot_password"
  | TOSDecline => "tos_decline"
  | PasswordResetExpiry => "password_reset_expiry"
  | AccountTTL => "account_ttl"
  | FreezeExpiry => "freeze_expiry"
  end.

Definition AccountDeletionSourceFromString (s : bytes) : AccountDeletionSource :=
  if decide (s = lit "manual") then Manual
  else if decide (s = lit "forgot_password") then ForgotPassword
  else if decide (s = lit "tos_decline") then TOSDecline
  else if decide (s = lit "password_reset_expiry") then PasswordResetExpiry
  else if decide (s = lit "account_ttl") then AccountTTL
  else if decide (s = lit "freeze_expiry") then FreezeExpiry
  else DeletionNone.

(** ** Parts of a user ([user.hpp]) *)

Record PeerColor : Type := MkPeerColor {
  has_color : bool; pc_color : Z; background_emoji_id : Z }.
Definition PeerColor_Empty (c : PeerColor) : bool :=
  negb (has_color c) && (background_emoji_id c =? 0).

Record EmojiStatusCollectible : Type := MkCollectible {
  collectible_id : Z; c_document_id : Z; title : bytes; slug : bytes;
  pattern_document_id : Z; center_color : Z; edge_color : Z; pattern_color : Z; text_color : Z }.

#[export] Instance EmojiStatusCollectible_eq_dec : EqDecision EmojiStatusCollectible.
Proof. solve_decision. Defined.

Definition no_collectible : EmojiStatusCollectible := MkCollectible 0 0 [] [] 0 0 0 0 0.
Definition Collectible_Empty (c : EmojiStatusCollectible) : bool := bool_decide (c = no_collectible).

Definition Collectible_Valid (c : EmojiStatusCollectible) : bool :=
  if (collectible_id c <=? 0) || (c_document_id c <=? 0) || (pattern_document_id c <=? 0) ||
     bool_decide (title c = []) || bool_decide (slug c = []) then false
  else forallb (fun x => negb ((x <? 0) || (0xffffff <? x)))
         [center_color c; edge_color c; pattern_color c; text_color c].

Record UserEmojiStatus : Type := MkEmojiStatus {
  es_document_id : Z; es_until : Z; es_collectible : EmojiStatusCollectible }.
Definition EmojiStatus_Empty (s : UserEmojiStatus) : bool :=
  (es_document_id s =? 0) && Collectible_Empty (es_collectible s).
Definition EmojiStatus_Valid (s : UserEmojiStatus) : bool :=
  if es_until s <? 0 then false
  else if EmojiStatus_Empty s then es_until s =? 0
  else if es_document_id s <=? 0 then false
  else if Collectible_Empty (es_collectible s) then true
  else Collectible_Valid (es_collectible s) &&
       (es_document_id s =? c_document_id (es_collectible s)).

Record UserRestrictionReason : Type := MkRestriction {
  rr_platform : bytes; rr_reason : bytes; rr_text : bytes }.
Definition AccountFrozenRestrictionReasons : list UserRestrictionReason :=
  [MkRestriction (lit "all") (lit "frozen") (lit "This account is frozen.")].

Inductive UserStatusKind : Type :=
  | StatusUnknown | Online | Offline | Recently | LastWeek | LastMonth | StatusEmpty.
Record UserStatus : Type := MkStatus { st_kind : UserStatusKind; st_expires : Z; was_online : Z }.

Definition ApproximateUserStatus (last_seen_at now : Z) : UserStatus :=
  if (last_seen_at <=? 0) || (now <=? 0) || (now <=? last_seen_at) then MkStatus Recently 0 0
  else
    let age := now - last_seen_at in
    if age <=? 3 * 24 * 60 * 60 then MkStatus Recently 0 0
    else if age <=? 7 * 24 * 60 * 60 then MkStatus LastWeek 0 0
    else if age <=? 30 * 24 * 60 * 60 then MkStatus LastMonth 0 0
    else MkStatus StatusEmpty 0 0.

Record Birthday : Type := MkBirthday { day : Z; month : Z; year : Z }.
Definition Birthday_IsSet (b : Birthday) : bool := negb (day b =? 0) && negb (month b =? 0).
Definition ValidBirthday (b : Birthday) : bool :=
  if (month b <? 1) || (12 <? month b) || (day b <? 1) || (31 <? day b) then false
  else if negb (year b =? 0) && ((year b <? 1900) || (2100 <? year b)) then false
  else true.

Record UserProfileUpdate : Type := MkProfileUpdate {
  up_first_name : bytes; has_first_name : bool; up_last_name : bytes; has_last_name : bool;
  up_about : bytes; has_about : bool }.

(** [message_entity.hpp] *)
Inductive MessageEntityType : Type :=
  | Bold | Italic | Underline | Strike | Code | Pre | TextURL | MentionName | Spoiler
  | Blockquote | CustomEmoji | Mention | Hashtag | Cashtag | BotCommand | URL | Email | Phone.
Record MessageEntity : Type := MkEntity {
  me_type : MessageEntityType; me_offset : Z; me_length : Z; me_url : bytes; me_user_id : Z;
  me_language : bytes; me_document_id : Z; me_collapsed : bool }.

(** ** The user *)

Record User : Type := MkUser {
  id : Z; access_hash : Z; phone : bytes; first_name : bytes; last_name : bytes; about : bytes;
  username : bytes; country_code : bytes;
  verified : bool; scam : bool; fake : bool; support : bool; contact : bool; mutual : bool;
  close_friend : bool;
  restriction_reasons : list UserRestrictionReason;
  contact_note : bytes; contact_note_entities : list MessageEntity;
  bot : bool; bot_info_version : Z; premium_until : Z;
  emoji_status_document_id : Z; emoji_status_until : Z;
  emoji_status_collectible : EmojiStatusCollectible;
  birthday : Birthday; personal_channel_id : Z; linked_community_id : Z;
  color : PeerColor; profile_color : PeerColor;
  photo_id : Z; photo_dc_id : Z; photo_stripped : bytes; photo_personal : bool;
  photo_has_video : bool;
  last_seen_at : Z; status : UserStatus;
  deleted : bool; deleted_at : Z; deletion_source : AccountDeletionSource;
  deletion_reason : bytes; created_at : Z; account_delete_at : Z; frozen_for_viewer : bool }.

(** [User tombstone;] with the fields the code assigns. *)
Definition blank_user (id_ access_hash_ : Z) (phone_ first_name_ last_name_ : bytes)
    (status_ : UserStatus) (deleted_ : bool) (deleted_at_ : Z) (source : AccountDeletionSource)
    (reason : bytes) (created_at_ account_delete_at_ : Z) : User :=
  MkUser id_ access_hash_ phone_ first_name_ last_name_ [] [] []
    false false false false false false false [] [] [] false 0 0 0 0 no_collectible
    (MkBirthday 0 0 0) 0 0 (MkPeerColor false 0 0) (MkPeerColor false 0 0) 0 0 [] false false
    0 status_ deleted_ deleted_at_ source reason created_at_ account_delete_at_ false.

Definition PremiumActiveAt (u : User) (now : Z) : bool :=
  negb (bot u) && (0 <? premium_until u) && (now <? premium_until u).

Definition EmojiStatus (u : User) : UserEmojiStatus :=
  MkEmojiStatus (emoji_status_document_id u) (emoji_status_until u) (emoji_status_collectible u).

Definition EmojiStatusActiveAt (u : User) (now : Z) : bool :=
  let status_snapshot := EmojiStatus u in
  if negb (PremiumActiveAt u now) || negb (EmojiStatus_Valid status_snapshot) ||
     (emoji_status_document_id u =? 0) then false
  else (emoji_status_until u =? 0) || (now <? emoji_status_until u).

Definition DeletedTombstone (u : User) : User :=
  if negb (deleted u) then u
  else blank_user (id u) (access_hash u) [] [] [] (MkStatus StatusEmpty 0 0) true (deleted_at u)
         (deletion_source u) (deletion_reason u) (created_at u) (account_delete_at u).

(** ** Phone numbers ([phone.cpp]) *)

Definition is_plus (c : byte) : bool := bz c =? 43.
(** [std::isspace] of the C locale and the accepted punctuation. *)
Definition is_separator (c : byte) : bool :=
  (bz c =? 32) || ((9 <=? bz c) && (bz c <=? 13)) ||
  (bz c =? 45) || (bz c =? 40) || (bz c =? 41) || (bz c =? 46) || (bz c =? 47).

(** The loop, with [out], [seen_digit] and [seen_plus]. *)
Fixpoint PhoneDigitsLoop (phone out : bytes) (seen_digit seen_plus : bool) : bytes :=
  match phone with
  | [] => out
  | c :: rest =>
      if is_digit c then PhoneDigitsLoop rest (out ++ [c]) true seen_plus
      else if is_plus c then
        if seen_plus || seen_digit then [] else PhoneDigitsLoop rest out seen_digit true
      else if is_separator c then PhoneDigitsLoop rest out seen_digit seen_plus
      else []
  end.
Definition PhoneDigits (phone : bytes) : bytes := PhoneDigitsLoop phone [] false false.

Definition kMinCollectiblePhoneLength : Z := 7.
Definition kMaxCollectiblePhoneLength : Z := 15.
Definition kOfficialSystemPhone : bytes := lit "42777".

Section Phone.
Context (e164 : bytes -> option bytes).

Definition NormalizePhone (phone : bytes) : bytes :=
  let digits := PhoneDigits phone in
  if decide (digits = []) then []
  else if (kMinCollectiblePhoneLength <=? zlen digits) &&
          (zlen digits <=? kMaxCollectiblePhoneLength) &&
          bool_decide (ztake 3 digits = lit "888") then digits
  else if decide (digits = kOfficialSystemPhone) then digits
  else match e164 digits with
       | None => []
       | Some formatted =>
           if decide (formatted = []) then [] else if 15 <? zlen formatted then [] else formatted
       end.

Definition ValidPhone (phone : bytes) : bool :=
  let canonical := NormalizePhone phone in
  bool_decide (canonical <> []) && bool_decide (canonical = phone).

(** *** The reading of the digits *)

(** What a client may write: separators, one leading plus, then digits and
    separators. *)
Definition plain (c : byte) : bool := is_digit c || is_separator c.
Fixpoint presentable (phone : bytes) : bool :=
  match phone with
  | [] => true
  | c :: rest =>
      if is_plus c then forallb plain rest
      else if is_digit c then forallb plain rest
      else is_separator c && presentable rest
  end.

Lemma digit_not_plus c : is_digit c = true -> is_plus c = false.
Proof. unfold is_digit, is_plus. lia. Qed.
Lemma separator_not_digit c : is_separator c = true -> is_digit c = false /\ is_plus c = false.
Proof. unfold is_separator, is_digit, is_plus. lia. Qed.

Lemma PhoneDigitsLoop_tail phone out d p :
  d || p = true ->
  PhoneDigitsLoop phone out d p =
    if forallb plain phone then out ++ List.filter is_digit phone else [].
Proof.
  revert out d p. induction phone as [|c rest IH]; intros out d p Hdp; cbn [PhoneDigitsLoop forallb List.filter].
  { by rewrite app_nil_r. }
  unfold plain at 1. destruct (is_digit c) eqn:Ed.
  - rewrite IH by done. cbn [orb andb]. destruct (forallb plain rest); [|done]. by rewrite <- app_assoc.
  - destruct (is_plus c) eqn:Ep.
    + assert (is_separator c = false) as -> by (unfold is_separator, is_plus in *; lia).
      cbn [orb andb]. by rewrite orb_comm, Hdp.
    + destruct (is_separator c); [by rewrite IH|done].
Qed.

Lemma PhoneDigits_eq phone :
  PhoneDigits phone = if presentable phone then List.filter is_digit phone else [].
Proof.
  unfold PhoneDigits. induction phone as [|c rest IH]; [done|].
  cbn [PhoneDigitsLoop presentable List.filter]. destruct (is_digit c) eqn:Ed.
  - rewrite (digit_not_plus c Ed), PhoneDigitsLoop_tail by done. by destruct (forallb plain rest).
  - destruct (is_plus c) eqn:Ep; cbn [orb].
    + by rewrite PhoneDigitsLoop_tail.
    + destruct (is_separator c); [exact IH|done].
Qed.

Lemma PhoneDigits_digits phone : forallb is_digit (PhoneDigits phone) = true.
Proof.
  rewrite PhoneDigits_eq. destruct (presentable phone); [|done].
  induction phone as [|c rest IH]; [done|]. cbn [List.filter].
  destruct (is_digit c) eqn:E; [cbn [forallb]; by rewrite E, IH|done].
Qed.

(** Digits are read as themselves. *)
Lemma PhoneDigits_id digits : forallb is_digit digits = true -> PhoneDigits digits = digits.
Proof.
  intros H. rewrite PhoneDigits_eq.
  assert (Hf : List.filter is_digit digits = digits).
  { induction digits as [|c t IH]; [done|]. cbn [forallb List.filter] in *.
    apply andb_true_iff in H as [-> H]. by rewrite IH. }
  rewrite Hf. destruct digits as [|c t]; [done|]. cbn [presentable forallb] in *.
  apply andb_true_iff in H as [Hc H]. rewrite (digit_not_plus c Hc), Hc.
  replace (forallb plain t) with true; [done|]. symmetry. apply forallb_forall. intros x Hx.
  apply (proj1 (forallb_forall _ _)) with (x := x) in H; [|done]. unfold plain. by rewrite H.
Qed.

(** A number with an identity of its own: virtual, or the service's. *)
Definition special (digits : bytes) : Prop :=
  7 <= zlen digits <= 15 /\ ztake 3 digits = lit "888" \/ digits = kOfficialSystemPhone.

Lemma NormalizePhone_cases phone :
  let r := NormalizePhone phone in
  r <> [] ->
  forallb is_digit r = true /\ special r \/ zlen r <= 15 /\ exists d, e164 d = Some r.
Proof.
  intros r. unfold r, NormalizePhone, kMinCollectiblePhoneLength, kMaxCollectiblePhoneLength.
  pose proof (PhoneDigits_digits phone) as Hd. case_decide; [congruence|].
  destruct (_ && _ && _) eqn:E.
  - intros _. left. split; [done|]. left. rewrite !andb_true_iff in E. destruct E as [[H1 H2] H3].
    apply bool_decide_eq_true_1 in H3. split; [lia|done].
  - destruct (decide (PhoneDigits phone = kOfficialSystemPhone)) as [Hs|Hs].
    { intros _. left. split; [exact Hd|]. right. exact Hs. }
    destruct (e164 (PhoneDigits phone)) as [f|] eqn:Ef; [|congruence].
    destruct (decide (f = [])); [congruence|]. destruct (Z.ltb_spec 15 (zlen f)); [congruence|]. intros _. right. split; [done|].
    by exists (PhoneDigits phone).
Qed.

Lemma NormalizePhone_special d :
  forallb is_digit d = true -> special d -> NormalizePhone d = d.
Proof.
  intros Hd Hs. unfold NormalizePhone, kMinCollectiblePhoneLength, kMaxCollectiblePhoneLength.
  rewrite PhoneDigits_id by done. case_decide as Hn.
  { subst d. by destruct Hs as [[Hl _]|Hs]. }
  destruct Hs as [[Hl H3]| ->].
  - destruct (Z.leb_spec 7 (zlen d)); [|lia]. destruct (Z.leb_spec (zlen d) 15); [|lia].
    by rewrite bool_decide_eq_true_2.
  - by destruct (_ && _ && _); [|rewrite decide_True].
Qed.

Lemma NormalizePhone_formatted f :
  forallb is_digit f = true -> f <> [] -> zlen f <= 15 -> e164 f = Some f ->
  NormalizePhone f = f.
Proof.
  intros Hd Hne Hl He. unfold NormalizePhone. rewrite PhoneDigits_id by done.
  rewrite decide_False by done. destruct (_ && _ && _); [done|].
  destruct (decide (f = kOfficialSystemPhone)); [done|]. rewrite He, decide_False by done. by destruct (Z.ltb_spec 15 (zlen f)); [lia|].
Qed.

End Phone.

(** What libphonenumber promises of E.164: the formatted number is digits,
    and formatting it again changes nothing. *)
Class E164Laws (e164 : bytes -> option bytes) : Prop := {
  e164_digits : forall d f, e164 d = Some f -> forallb is_digit f = true;
  e164_stable : forall d f, e164 d = Some f -> e164 f = Some f }.

(** A numbering plan without trunk prefixes: every string of digits is its own
    E.164 form. *)
Definition Some_digits (digits : bytes) : option bytes :=
  if forallb is_digit digits then Some digits else None.
Lemma Some_digits_laws : E164Laws Some_digits.
Proof.
  unfold Some_digits. split; intros d f.
  - destruct (forallb is_digit d) eqn:E; [|done]. by intros [= <-].
  - destruct (forallb is_digit d) eqn:E; [|done]. intros [= <-]. by rewrite E.
Qed.

(** Phone identities are canonical.  The digits of a number are read
    from any presentation (separators anywhere, one leading plus) and from
    nothing else; and whatever is normalised is a fixed point: the result is
    1 to 15 digits, [ValidPhone] accepts it, so every spelling of a number
    leads to the one persisted form. *)
Theorem NormalizePhone_canonical (e164 : bytes -> option bytes) (laws : E164Laws e164)
    (phone : bytes) :
  PhoneDigits phone = (if presentable phone then List.filter is_digit phone else []) /\
  (NormalizePhone e164 phone <> [] ->
    forallb is_digit (NormalizePhone e164 phone) = true /\
    1 <= zlen (NormalizePhone e164 phone) <= 15 /\
    ValidPhone e164 (NormalizePhone e164 phone) = true).
Proof.
  split; [apply PhoneDigits_eq|]. intros Hne.
  assert (Hshape : forallb is_digit (NormalizePhone e164 phone) = true /\
    1 <= zlen (NormalizePhone e164 phone) <= 15 /\
    NormalizePhone e164 (NormalizePhone e164 phone) = NormalizePhone e164 phone).
  { destruct (NormalizePhone_cases e164 phone Hne) as [[Hd Hv]|[H15 [d He]]].
    - split; [done|]. split; [|by apply NormalizePhone_special].
      destruct Hv as [[Hl _]| ->]; [lia|done].
    - set (f := NormalizePhone e164 phone) in *. pose proof (e164_digits d f He) as Hf.
      split; [done|]. split; [|by apply NormalizePhone_formatted; eauto using e164_stable].
      pose proof (zlen_nonneg f). assert (zlen f <> 0) by (by intros ?%zlen_0_inv). lia. }
  destruct Hshape as (Hd & Hl & Hfix). split; [done|]. split; [done|].
  unfold ValidPhone. by rewrite Hfix, !bool_decide_eq_true_2.
Qed.

Lemma NormalizePhone_canonical_witness :
  E164Laws Some_digits /\
  PhoneDigits (lit "+1 (202) 555-0123") = lit "12025550123" /\
  ValidPhone Some_digits (NormalizePhone Some_digits (lit "+1 (202) 555-0123")) = true.
Proof.
  split; [apply Some_digits_laws|].
  destruct (NormalizePhone_canonical Some_digits Some_digits_laws (lit "+1 (202) 555-0123"))
    as [E H]. split; [exact E|]. apply H. vm_compute. discriminate.
Defined.
