(* ===== verification/Store.v ===== *)
(** * The stores: [shuzagram::store]

    The interfaces of [store/*_store.hpp] as records of operations, the data
    they move, the in-memory [CodeStore] ([store/memory/code_store.cpp]) and
    [MergeAuthKeyLayerObservations] ([auth_key.hpp]).  [CodeStoreSpec] is the
    contract [code_store.hpp] documents: the services are proved against it,
    and [memory_store_spec] shows the in-memory store keeps it. *)

From Stdlib Require Import ZArith Lia Strings.Byte Strings.String.
From stdpp Require Import base decidable list gmap.
From S2P Require Import Prelude Domain.

(** ** Data *)

(** [code_store.hpp]: [PhoneCode] *)
Module PhoneCode.
Record t : Type := Mk {
  issued_user_id : Z; sign_up_verified : bool; phone : bytes; code : bytes;
  attempts : Z; max_attempts : Z }.
End PhoneCode.
#[export] Instance PhoneCode_eq_dec : EqDecision PhoneCode.t.
Proof. solve_decision. Defined.

Inductive LoginCodeVerifyStatus : Type := kMissing | kInvalid | kAccepted.
#[export] Instance status_eq_dec : EqDecision LoginCodeVerifyStatus.
Proof. solve_decision. Defined.
Record LoginCodeVerifyResult : Type := MkVerify {
  lc_status : LoginCodeVerifyStatus; lc_record : PhoneCode.t }.

Definition empty_code : PhoneCode.t := PhoneCode.Mk 0 false [] [] 0 5.

(** [authorization.hpp]; a time point is its count of nanoseconds. *)
Module Authorization.
Record t : Type := Mk {
  auth_key_id : bytes; user_id : Z; hash : Z; layer : Z;
  device_model : bytes; platform : bytes; system_version : bytes;
  api_id : Z; app_version : bytes; ip : bytes;
  password_pending : bool; created_at : Z; active_at : Z }.

(** [a.user_id = …; a.password_pending = …;] *)
Definition with_user (a : t) (user_id_ : Z) (password_pending_ : bool) : t :=
  Mk (auth_key_id a) user_id_ (hash a) (layer a) (device_model a) (platform a) (system_version a)
     (api_id a) (app_version a) (ip a) password_pending_ (created_at a) (active_at a).
End Authorization.

(** [domain::AuthKeyClientInfo] *)
Module ClientInfo.
Record t : Type := Mk {
  layer : Z; layer_observation_id : Z; device_model : bytes; platform : bytes;
  system_version : bytes; api_id : Z; app_version : bytes; ip : bytes }.
End ClientInfo.

(** [auth_key.hpp] *)
Module AuthKeyData.
Record t : Type := Mk {
  id : bytes; value : bytes; server_salt : Z; created_at : Z; expires_at : Z;
  layer : Z; layer_observation_id : Z; device_model : bytes; platform : bytes;
  system_version : bytes; api_id : Z; app_version : bytes }.
End AuthKeyData.

(** [AuthKeyData{}] *)
Definition empty_key_data : AuthKeyData.t :=
  AuthKeyData.Mk (replicate 8 x00) (replicate 256 x00) 0 0 0 0 0 [] [] [] 0 [].

(** [store::AuthKeyClientInfo] *)
Module KeyClientInfo.
Record t : Type := Mk {
  layer : Z; device_model : bytes; platform : bytes; system_version : bytes; api_id : Z;
  app_version : bytes }.
End KeyClientInfo.

Record AuthKeyBindingKeys : Type := MkBindingKeys {
  temporary : AuthKeyData.t; temporary_found : bool;
  permanent : AuthKeyData.t; permanent_found : bool }.

Definition ValidNewAuthKeyProtocolExpiry (expires_at : Z) : bool :=
  (0 <=? expires_at) && (expires_at <=? int32_max).

(** [temp_auth_key.hpp] *)
Module TempAuthKeyBinding.
Record t : Type := Mk {
  temp_auth_key_id : bytes; perm_auth_key_id : Z; nonce : Z; temp_session_id : Z;
  expires_at : Z; encrypted_message : bytes }.
End TempAuthKeyBinding.
Record TempAuthKeyBindingResult : Type := MkBindingResult {
  br_layer : Z; br_layer_observation_id : Z }.

(** [password.hpp] *)
Module PasswordAlgo.
Record t : Type := Mk { salt1 : bytes; salt2 : bytes; g : Z; p : bytes }.
End PasswordAlgo.

Module PasswordSettings.
Record t : Type := Mk {
  has_recovery : bool; has_secure_values : bool; has_password : bool; hint : bytes;
  secure_random : bytes; new_algo : PasswordAlgo.t; current_algo : option PasswordAlgo.t;
  srp_id : Z; srp_verifier : bytes; srp_b_secret : bytes; srp_b : bytes }.
End PasswordSettings.

Module PasswordCheck.
Record t : Type := Mk { empty : bool; srp_id : Z; a : bytes; m1 : bytes }.
End PasswordCheck.

(** ** The interfaces: operations on the world [W] *)

Record ICodeStore (W : Type) : Type := MkCodeStore {
  Set_ : bytes -> PhoneCode.t -> M W unit;
  Get : bytes -> M W (option PhoneCode.t);
  Del : bytes -> M W unit;
  VerifyLogin : bytes -> bytes -> bytes -> bool -> Z -> M W LoginCodeVerifyResult;
  ConsumeSignUpVerified : bytes -> bytes -> M W (option PhoneCode.t) }.
Arguments Set_ {W}. Arguments Get {W}. Arguments Del {W}. Arguments VerifyLogin {W}.
Arguments ConsumeSignUpVerified {W}.

Record IUserStore (W : Type) : Type := MkUserStore {
  ByID : Z -> M W (option User);
  ByIDs : list Z -> M W (list User);
  ByPhone : bytes -> M W (option User);
  ByUsername : bytes -> M W (option User);
  Create : User -> M W User;
  SetPremiumUntil : Z -> Z -> M W User;
  SetVerified : Z -> bool -> M W User;
  SetSupport : Z -> bool -> M W User;
  UpdateLastSeen : Z -> Z -> M W unit;
  UpdateProfile_ : Z -> bytes -> bytes -> bytes -> M W User;
  UpdateUsername_ : Z -> bytes -> M W User;
  UpdatePhone : Z -> bytes -> M W User;
  SetScamFake : Z -> bool -> bool -> M W User;
  SweepExpiredPremium : Z -> Z -> M W (list User);
  UpdateEmojiStatus : Z -> UserEmojiStatus -> M W User;
  UpdateBirthday_ : Z -> Birthday -> M W User;
  UpdatePersonalChannel : Z -> Z -> M W User;
  UpdateColor : Z -> bool -> PeerColor -> M W User }.
Arguments ByID {W}. Arguments ByIDs {W}. Arguments ByPhone {W}. Arguments ByUsername {W}.
Arguments Create {W}. Arguments UpdateLastSeen {W}. Arguments UpdateProfile_ {W}.
Arguments UpdateUsername_ {W}. Arguments UpdateBirthday_ {W}.

Record IAuthorizationStore (W : Type) : Type := MkAuthorizationStore {
  Bind : Authorization.t -> M W unit;
  ByAuthKey : bytes -> M W (option Authorization.t);
  UpdateClientInfo : bytes -> ClientInfo.t -> M W unit;
  ListByUser : Z -> M W (list Authorization.t);
  Delete : bytes -> M W unit;
  DeleteByHash : Z -> Z -> M W (option Authorization.t);
  DeleteByUserExcept : Z -> bytes -> M W (list Authorization.t);
  MarkPasswordPassed : bytes -> Z -> M W unit }.
Arguments Bind {W}. Arguments ByAuthKey {W}. Arguments MarkPasswordPassed {W}. Arguments ListByUser {W}.

Record IAuthKeyStore (W : Type) : Type := MkAuthKeyStore {
  ak_Save : AuthKeyData.t -> M W unit;
  ak_Get : bytes -> M W (option AuthKeyData.t);
  ak_UpdateClientInfo : bytes -> KeyClientInfo.t -> M W unit;
  ak_Delete : bytes -> M W unit;
  Revalidate : bytes -> M W (option AuthKeyData.t);
  LoadBindingKeys : bytes -> bytes -> M W AuthKeyBindingKeys }.
Arguments LoadBindingKeys {W}. Arguments ak_Save {W}. Arguments ak_Get {W}.

Record IPasswordStore (W : Type) : Type := MkPasswordStore {
  GetByUser : Z -> M W (option PasswordSettings.t);
  Save : Z -> PasswordSettings.t -> M W unit }.
Arguments GetByUser {W}. Arguments Save {W}.

Record ITempAuthKeyBindingStore (W : Type) : Type := MkTempStore {
  SaveWithState : TempAuthKeyBinding.t -> M W TempAuthKeyBindingResult;
  GetByTemp : bytes -> M W (option TempAuthKeyBinding.t) }.
Arguments SaveWithState {W}.

(** ** [MergeAuthKeyLayerObservations] *)

Definition MergeAuthKeyLayerObservations
    (temp_layer temp_observation_id perm_layer perm_observation_id : Z) : res (Z * Z) :=
  if (temp_layer <? 0) || (perm_layer <? 0) || (temp_observation_id <? 0) ||
     (perm_observation_id <? 0) ||
     ((0 <? temp_observation_id) && (temp_layer =? 0)) ||
     ((0 <? perm_observation_id) && (perm_layer =? 0))
  then Throw AuthKeySessionLayerInvalidError
  else if perm_observation_id <? temp_observation_id then Ok (temp_layer, temp_observation_id)
  else if temp_observation_id <? perm_observation_id then Ok (perm_layer, perm_observation_id)
  else if (0 <? temp_observation_id) && negb (temp_layer =? perm_layer)
  then Throw AuthKeySessionLayerConflictError
  else if 0 <? temp_observation_id then Ok (temp_layer, temp_observation_id)
  else Ok (perm_layer, 0).

(** ** The in-memory code store ([memory/code_store.cpp])

    [codes_]; every operation holds the mutex from end to end. *)
Module CodeStore.
Abbreviation codes := (gmap bytes PhoneCode.t).

Definition Set_ (phone_code_hash : bytes) (code : PhoneCode.t) : M codes unit :=
  modify (fun codes_ => <[phone_code_hash := code]> codes_).
Definition Get (phone_code_hash : bytes) : M codes (option PhoneCode.t) :=
  gets (fun codes_ => codes_ !! phone_code_hash).
Definition Del (phone_code_hash : bytes) : M codes unit :=
  modify (fun codes_ => delete phone_code_hash codes_).

(** [++it->second.attempts] *)
Definition add_attempt (c : PhoneCode.t) : PhoneCode.t :=
  PhoneCode.Mk (PhoneCode.issued_user_id c) (PhoneCode.sign_up_verified c) (PhoneCode.phone c)
    (PhoneCode.code c) (PhoneCode.attempts c + 1) (PhoneCode.max_attempts c).
(** [it->second.sign_up_verified = true] *)
Definition mark_verified (c : PhoneCode.t) : PhoneCode.t :=
  PhoneCode.Mk (PhoneCode.issued_user_id c) true (PhoneCode.phone c) (PhoneCode.code c)
    (PhoneCode.attempts c) (PhoneCode.max_attempts c).

Definition VerifyLogin (phone_code_hash phone code : bytes) (keep_for_sign_up : bool)
    (default_max_attempts : Z) : M codes LoginCodeVerifyResult :=
  codes_ <- get ;;
  match codes_ !! phone_code_hash with
  | None => ret (MkVerify kMissing empty_code)
  | Some it =>
      if decide (PhoneCode.phone it <> phone) then ret (MkVerify kMissing empty_code)
      else if decide (PhoneCode.code it <> code) then
        let max_attempts :=
          if 0 <? PhoneCode.max_attempts it then PhoneCode.max_attempts it
          else default_max_attempts in
        let it' := add_attempt it in
        put (<[phone_code_hash := it']> codes_) ;;;
        when (max_attempts <=? PhoneCode.attempts it')
          (modify (delete phone_code_hash)) ;;;
        ret (MkVerify kInvalid empty_code)
      else if keep_for_sign_up then
        put (<[phone_code_hash := mark_verified it]> codes_) ;;;
        ret (MkVerify kAccepted (mark_verified it))
      else
        put (delete phone_code_hash codes_) ;;;
        ret (MkVerify kAccepted it)
  end.

Definition ConsumeSignUpVerified (phone_code_hash phone : bytes) : M codes (option PhoneCode.t) :=
  codes_ <- get ;;
  match codes_ !! phone_code_hash with
  | None => ret None
  | Some it =>
      if bool_decide (PhoneCode.phone it <> phone) || negb (PhoneCode.sign_up_verified it)
      then ret None
      else put (delete phone_code_hash codes_) ;;; ret (Some it)
  end.
End CodeStore.

Definition memory_store : ICodeStore CodeStore.codes :=
  MkCodeStore _ CodeStore.Set_ CodeStore.Get CodeStore.Del CodeStore.VerifyLogin
    CodeStore.ConsumeSignUpVerified.

(** ** The contract of a code store *)

Section Contract.
Import CodeStore.

(** The outcomes of [VerifyLogin] on the records [cs], as [code_store.hpp]
    documents them. *)
Inductive verified (cs : codes) (h phone code : bytes) (keep : bool) (dflt : Z)
    : LoginCodeVerifyResult -> codes -> Prop :=
  | verified_missing :
      (forall c, cs !! h = Some c -> PhoneCode.phone c <> phone) ->
      verified cs h phone code keep dflt (MkVerify kMissing empty_code) cs
  | verified_wrong c :
      cs !! h = Some c -> PhoneCode.phone c = phone -> PhoneCode.code c <> code ->
      PhoneCode.attempts c + 1 <
        (if 0 <? PhoneCode.max_attempts c then PhoneCode.max_attempts c else dflt) ->
      verified cs h phone code keep dflt (MkVerify kInvalid empty_code)
        (<[h := add_attempt c]> cs)
  | verified_exhausted c :
      cs !! h = Some c -> PhoneCode.phone c = phone -> PhoneCode.code c <> code ->
      (if 0 <? PhoneCode.max_attempts c then PhoneCode.max_attempts c else dflt) <=
        PhoneCode.attempts c + 1 ->
      verified cs h phone code keep dflt (MkVerify kInvalid empty_code) (delete h cs)
  | verified_kept c :
      cs !! h = Some c -> PhoneCode.phone c = phone -> PhoneCode.code c = code -> keep = true ->
      verified cs h phone code keep dflt (MkVerify kAccepted (mark_verified c))
        (<[h := mark_verified c]> cs)
  | verified_taken c :
      cs !! h = Some c -> PhoneCode.phone c = phone -> PhoneCode.code c = code -> keep = false ->
      verified cs h phone code keep dflt (MkVerify kAccepted c) (delete h cs).

(** The record [ConsumeSignUpVerified] removes. *)
Definition consumable (cs : codes) (h phone : bytes) : option PhoneCode.t :=
  match cs !! h with
  | Some c => if bool_decide (PhoneCode.phone c = phone) && PhoneCode.sign_up_verified c
              then Some c else None
  | None => None
  end.

End Contract.

Class CodeStoreSpec {W} (s : ICodeStore W) (codes : W -> CodeStore.codes) : Prop := {
  Set_spec h c w : exists w', Set_ s h c w = (Ok tt, w') /\ codes w' = <[h := c]> (codes w);
  Get_spec h w : exists w', Get s h w = (Ok (codes w !! h), w') /\ codes w' = codes w;
  Del_spec h w : exists w', Del s h w = (Ok tt, w') /\ codes w' = delete h (codes w);
  Verify_spec h phone code keep dflt w : exists r w',
    VerifyLogin s h phone code keep dflt w = (Ok r, w') /\
    verified (codes w) h phone code keep dflt r (codes w');
  Consume_spec h phone w : exists w',
    ConsumeSignUpVerified s h phone w = (Ok (consumable (codes w) h phone), w') /\
    codes w' = match consumable (codes w) h phone with
               | Some _ => delete h (codes w) | None => codes w end }.

#[export] Instance memory_store_spec : CodeStoreSpec memory_store Datatypes.id.
Proof.
  split; cbn [memory_store Set_ Get Del VerifyLogin ConsumeSignUpVerified].
  - by eexists.
  - by eexists.
  - by eexists.
  - intros h phone code keep dflt cs. unfold CodeStore.VerifyLogin. rewrite bind_get. unfold Datatypes.id.
    destruct (cs !! h) as [c|] eqn:E; [|eexists _, _; split; [done|]; constructor; congruence].
    case_decide as Hp; [eexists _, _; split; [done|]; constructor; congruence|].
    case_decide as Hc.
    + set (limit := if 0 <? _ then _ else _). unfold when.
      destruct (Z.leb_spec limit (PhoneCode.attempts (CodeStore.add_attempt c))) as [Hl|Hl].
      * eexists _, (delete h cs). split; [unfold bind, put, modify, ret; f_equal; apply (delete_insert_eq cs)|]. by apply (verified_exhausted _ _ _ _ _ _ c).
      * eexists _, _. split; [done|]. by apply (verified_wrong _ _ _ _ _ _ c).
    + destruct keep; eexists _, _; (split; [done|]).
      * by constructor.
      * by constructor.
  - intros h phone cs. unfold CodeStore.ConsumeSignUpVerified, consumable. rewrite bind_get.
    unfold Datatypes.id. destruct (cs !! h) as [c|]; [|by eexists].
    rewrite bool_decide_not. destruct (bool_decide _), (PhoneCode.sign_up_verified c); by eexists.
Qed.

(** ** Guessing a code *)

(** The calls a code store gets, and its answers. *)
Inductive code_call : Type :=
  | CallSet (h : bytes) (c : PhoneCode.t)
  | CallGet (h : bytes)
  | CallDel (h : bytes)
  | CallVerify (h phone code : bytes) (keep : bool) (dflt : Z)
  | CallConsume (h phone : bytes).
Inductive code_answer : Type :=
  | Done
  | Found (c : option PhoneCode.t)
  | Verified (r : LoginCodeVerifyResult).

Definition call_code {W} (s : ICodeStore W) (c : code_call) : M W (code_call * code_answer) :=
  match c with
  | CallSet h r => Set_ s h r ;;; ret (c, Done)
  | CallGet h => r <- Get s h ;; ret (c, Found r)
  | CallDel h => Del s h ;;; ret (c, Done)
  | CallVerify h p k keep d => r <- VerifyLogin s h p k keep d ;; ret (c, Verified r)
  | CallConsume h p => r <- ConsumeSignUpVerified s h p ;; ret (c, Found r)
  end.

Definition issues (h : bytes) (c : code_call) : bool :=
  match c with CallSet h' _ => bool_decide (h' = h) | _ => false end.

(** A wrong guess that was compared with the code of [h]. *)
Definition wrong_guess (h : bytes) (a : code_call * code_answer) : Z :=
  match a with
  | (CallVerify h' _ _ _ _, Verified r) =>
      if decide (h' = h) then match lc_status r with kInvalid => 1 | _ => 0 end else 0
  | _ => 0
  end.
(** An answer that used the code of [h] up. *)
Definition uses_up (h : bytes) (a : code_call * code_answer) : Z :=
  match a with
  | (CallVerify h' _ _ false _, Verified r) =>
      if decide (h' = h) then match lc_status r with kAccepted => 1 | _ => 0 end else 0
  | (CallConsume h' _, Found (Some _)) => if decide (h' = h) then 1 else 0
  | _ => 0
  end.
(** An answer that accepted a guess of the code of [h]. *)
Definition accepted (h phone code : bytes) (a : code_call * code_answer) : Prop :=
  match a with
  | (CallVerify h' p k _ _, Verified r) =>
      h' = h -> lc_status r = kAccepted -> p = phone /\ k = code
  | _ => True
  end.

Definition sum {A} (f : A -> Z) (l : list A) : Z := fold_right (fun x n => f x + n) 0 l.

(** Wrong guesses a record still allows. *)
Definition guesses_left (o : option PhoneCode.t) : Z :=
  match o with Some c => Z.max 1 (PhoneCode.max_attempts c - PhoneCode.attempts c) | None => 0 end.
Definition uses_left (o : option PhoneCode.t) : Z := match o with Some _ => 1 | None => 0 end.

(** [o'] is what became of the record [o]: the same code, or nothing. *)
Definition still (o o' : option PhoneCode.t) : Prop :=
  match o' with
  | None => True
  | Some c' => match o with
      | None => False
      | Some c => PhoneCode.phone c' = PhoneCode.phone c /\ PhoneCode.code c' = PhoneCode.code c /\
          PhoneCode.max_attempts c' = PhoneCode.max_attempts c
      end
  end.

Lemma still_refl o : still o o.
Proof. by destruct o. Qed.

Section Guessing.
Context {W : Type} (s : ICodeStore W) (codes : W -> CodeStore.codes) {spec : CodeStoreSpec s codes}.

(** What one answer does to the record of [h], whose code is [phone], [code]. *)
Definition answer_ok (h phone code : bytes) (before after : option PhoneCode.t)
    (a : code_call * code_answer) : Prop :=
  still before after /\
  wrong_guess h a + guesses_left after <= guesses_left before /\
  uses_up h a + uses_left after <= uses_left before /\
  accepted h phone code a.

Definition of_code (phone code : bytes) (o : option PhoneCode.t) : Prop :=
  forall c, o = Some c ->
    PhoneCode.phone c = phone /\ PhoneCode.code c = code /\ 0 < PhoneCode.max_attempts c.

Lemma verified_elsewhere cs h0 p k keep d r cs' h :
  verified cs h0 p k keep d r cs' -> h0 <> h -> cs' !! h = cs !! h.
Proof. intros Hv Hne. destruct Hv; by simplify_map_eq. Qed.

Lemma verified_answer cs h0 p k keep d r cs' h phone code :
  verified cs h0 p k keep d r cs' -> of_code phone code (cs !! h) ->
  answer_ok h phone code (cs !! h) (cs' !! h) (CallVerify h0 p k keep d, Verified r).
Proof.
  intros Hv Hof. destruct (decide (h0 = h)) as [->|Hne].
  2:{ rewrite (verified_elsewhere _ _ _ _ _ _ _ _ _ Hv Hne). split; [apply still_refl|].
      cbn. rewrite !decide_False by done. destruct keep; (split; [lia|]; split; [lia|done]). }
  destruct Hv as [Hm|x E Hp Hk Hl|x E Hp Hk Hl|x E Hp Hk Hkeep|x E Hp Hk Hkeep];
    unfold answer_ok; cbn [wrong_guess uses_up accepted lc_status];
    rewrite !(decide_True (P := h = h)) by done;
    try (destruct (Hof x E) as (Ep & Ek & Hmax); rewrite E;
         destruct (Z.ltb_spec 0 (PhoneCode.max_attempts x)); [|lia]).
  - split; [apply still_refl|]. destruct keep; (split; [lia|]; split; [lia|done]).
  - simplify_map_eq. destruct keep; (split; [done|]; split; [lia|]; split; [lia|done]).
  - simplify_map_eq. destruct keep; (split; [done|]; split; [lia|]; split; [lia|done]).
  - simplify_map_eq. split; [done|]. split; [lia|]. split; [lia|]. done.
  - simplify_map_eq. split; [done|]. split; [lia|]. split; [lia|]. done.
Qed.

Lemma call_code_answer c w h phone code :
  issues h c = false -> of_code phone code (codes w !! h) ->
  exists a w', call_code s c w = (Ok a, w') /\
    answer_ok h phone code (codes w !! h) (codes w' !! h) a.
Proof.
  intros Hi Hof. destruct c as [h0 r|h0|h0|h0 p k keep d|h0 p]; cbn [call_code].
  - destruct (Set_spec h0 r w) as (w' & E & Hc). erewrite bind_Ok by exact E.
    eexists _, w'. split; [done|]. cbn in Hi. apply bool_decide_eq_false_1 in Hi.
    rewrite Hc, lookup_insert_ne by done. split; [apply still_refl|]. cbn. lia.
  - destruct (Get_spec h0 w) as (w' & E & Hc). erewrite bind_Ok by exact E.
    eexists _, w'. split; [done|]. rewrite Hc. split; [apply still_refl|]. cbn. lia.
  - destruct (Del_spec h0 w) as (w' & E & Hc). erewrite bind_Ok by exact E.
    eexists _, w'. split; [done|]. rewrite Hc. destruct (decide (h0 = h)) as [->|Hne].
    + rewrite lookup_delete_eq. unfold answer_ok. cbn. destruct (codes w !! h); cbn; lia.
    + rewrite lookup_delete_ne by done. split; [apply still_refl|]. cbn. lia.
  - destruct (Verify_spec h0 p k keep d w) as (r & w' & E & Hv). erewrite bind_Ok by exact E.
    eexists _, w'. split; [done|]. by apply verified_answer.
  - destruct (Consume_spec h0 p w) as (w' & E & Hc). erewrite bind_Ok by exact E.
    eexists _, w'. split; [done|]. rewrite Hc. unfold consumable, answer_ok, wrong_guess, uses_up.
    destruct (decide (h0 = h)) as [->|Hne].
    + destruct (codes w !! h) as [x|] eqn:Ex; [|by rewrite Ex].
      destruct (_ && _); rewrite ?lookup_delete_eq, ?Ex, ?(decide_True (P := h = h)) by done;
        (split; [done|]); cbn; lia.
    + destruct (codes w !! h0); [|split; [apply still_refl|cbn; lia]].
      destruct (_ && _); rewrite ?lookup_delete_ne by done;         rewrite ?(decide_False (P := h0 = h)) by done; (split; [apply still_refl|cbn; lia]).
Qed.

Lemma run_codes calls w h phone code :
  forallb (fun c => negb (issues h c)) calls = true -> of_code phone code (codes w !! h) ->
  exists answers w', collect (call_code s) calls w = (Ok answers, w') /\
    still (codes w !! h) (codes w' !! h) /\
    sum (wrong_guess h) answers + guesses_left (codes w' !! h) <= guesses_left (codes w !! h) /\
    sum (uses_up h) answers + uses_left (codes w' !! h) <= uses_left (codes w !! h) /\
    Forall (accepted h phone code) answers.
Proof.
  revert w. induction calls as [|c calls IH]; intros w Hi Hof; cbn [collect].
  { eexists _, w. split; [done|]. split; [apply still_refl|]. cbn. repeat split; [lia|lia|done]. }
  cbn in Hi. apply andb_true_iff in Hi as [Hc Hi]. apply negb_true_iff in Hc.
  destruct (call_code_answer c w h phone code Hc Hof) as (a & w1 & E & Hs & Hg & Hu & Ha).
  erewrite bind_Ok by exact E.
  assert (Hof1 : of_code phone code (codes w1 !! h)).
  { intros x Ex. rewrite Ex in Hs. destruct (codes w !! h) as [y|] eqn:Ey; [|done].
    destruct (Hof y eq_refl) as (H1 & H2 & H3). destruct Hs as (-> & -> & ->). done. }
  destruct (IH w1 Hi Hof1) as (answers & w' & E' & Hs' & Hg' & Hu' & Ha').
  erewrite bind_Ok by exact E'. eexists _, w'. split; [done|]. cbn [sum fold_right].
  fold (sum (wrong_guess h) answers) (sum (uses_up h) answers).
  split; [|repeat split; [lia|lia|by constructor]].
  destruct (codes w' !! h) as [z|]; [|done]. destruct (codes w1 !! h) as [y|]; [|done].
  destruct (codes w !! h) as [x|]; [|done]. cbn in *. intuition congruence.
Qed.

End Guessing.

(** C20. A login code cannot be guessed by trying: between two [Set]s of a
    hash, whatever calls are made (for this and any other hash, in any order,
    also on the verified record [keep_for_sign_up] leaves), at most
    [max_attempts] wrong guesses are compared with the code, after the last
    allowed one the record is gone, only the issued code for the issued phone
    is ever accepted, and the code is used up at most once. *)
Theorem code_guesses_bounded {W} (s : ICodeStore W) (codes : W -> CodeStore.codes)
    (spec : CodeStoreSpec s codes) (h : bytes) (c : PhoneCode.t) (w : W)
    (calls : list code_call)
    (Hc : codes w !! h = Some c)
    (Hfresh : PhoneCode.attempts c = 0) (Hmax : 0 < PhoneCode.max_attempts c)
    (Hcalls : forallb (fun call => negb (issues h call)) calls = true) :
  exists answers w',
    collect (call_code s) calls w = (Ok answers, w') /\
    sum (wrong_guess h) answers <= PhoneCode.max_attempts c /\
    (sum (wrong_guess h) answers = PhoneCode.max_attempts c -> codes w' !! h = None) /\
    Forall (accepted h (PhoneCode.phone c) (PhoneCode.code c)) answers /\
    sum (uses_up h) answers <= 1 /\
    (sum (uses_up h) answers = 1 -> codes w' !! h = None).
Proof.
  destruct (run_codes s codes calls w h (PhoneCode.phone c) (PhoneCode.code c) Hcalls)
    as (answers & w' & E & _ & Hg & Hu & Ha).
  { rewrite Hc. by intros ? [= <-]. }
  rewrite Hc in Hg, Hu. cbn [guesses_left uses_left] in Hg, Hu. exists answers, w'.
  split; [done|]. destruct (codes w' !! h) as [c'|]; cbn [guesses_left uses_left] in Hg, Hu;
    repeat split; try lia; done.
Qed.

Lemma code_guesses_bounded_witness :
  exists answers w',
    collect (call_code memory_store)
      [CallVerify (lit "h") (lit "1") (lit "11111") true 5;
       CallVerify (lit "h") (lit "1") (lit "12345") true 5;
       CallVerify (lit "h") (lit "1") (lit "22222") true 5;
       CallConsume (lit "h") (lit "1")]
      {[lit "h" := PhoneCode.Mk 0 false (lit "1") (lit "12345") 0 2]} = (Ok answers, w') /\
    sum (wrong_guess (lit "h")) answers <= 2 /\
    (sum (wrong_guess (lit "h")) answers = 2 -> w' !! lit "h" = None) /\
    Forall (accepted (lit "h") (lit "1") (lit "12345")) answers /\
    sum (uses_up (lit "h")) answers <= 1 /\
    (sum (uses_up (lit "h")) answers = 1 -> w' !! lit "h" = None).
Proof.
  apply (code_guesses_bounded memory_store Datatypes.id memory_store_spec (lit "h")
    (PhoneCode.Mk 0 false (lit "1") (lit "12345") 0 2)); [|done|done|done].
  apply lookup_insert_eq.
Defined.

(** The layer default of a bound temporary key: the observation with the
    greater ordering token wins; with equal positive tokens both sides must
    name the same layer; without tokens the permanent key's layer stands.
    Evidence that cannot exist is refused. *)
Theorem MergeAuthKeyLayerObservations_spec (tl to_ pl po : Z) :
  let valid l o := (0 <= l /\ 0 <= o /\ (0 < o -> l <> 0)) in
  match MergeAuthKeyLayerObservations tl to_ pl po with
  | Ok (l, o) =>
      valid tl to_ /\ valid pl po /\ valid l o /\ o = Z.max to_ po /\
      ((l, o) = (tl, to_) \/ (l, o) = (pl, po)) /\ (to_ = po -> 0 < o -> tl = pl) /\
      (to_ = 0 -> po = 0 -> l = pl)
  | Throw AuthKeySessionLayerConflictError => valid tl to_ /\ valid pl po /\ to_ = po /\ tl <> pl
  | Throw AuthKeySessionLayerInvalidError => ~ (valid tl to_ /\ valid pl po)
  | Throw _ => False
  end.
Proof.
  intros valid. unfold MergeAuthKeyLayerObservations, valid.
  destruct (_ || _) eqn:Ev.
  - rewrite !orb_true_iff, !andb_true_iff in Ev. lia.
  - rewrite !orb_false_iff, !andb_false_iff in Ev.
    destruct (Z.ltb_spec po to_); [repeat split; (lia || (left; done) || idtac)|].
    destruct (Z.ltb_spec to_ po); [repeat split; (lia || (right; done) || idtac)|].
    assert (to_ = po) as -> by lia. destruct (Z.ltb_spec 0 po); cbn [andb].
    + destruct (Z.eqb_spec tl pl) as [->|]; cbn [negb]; repeat split; try lia. by left.
    + assert (po = 0) as -> by lia. repeat split; try lia. by right.
Qed.
