(* ===== verification/Auth.v ===== *)
(** * Logging in: [shuzagram::auth]

    [sign_in.cpp] ([SendCode], [SignIn], [SignUp], [VerifyLoginCode]) and
    [current_user.cpp], over any stores.  The theorems are about a login
    system ([step], [run]): a history of these calls by anyone, with anything
    else that leaves the code store alone in between. *)

From Stdlib Require Import ZArith Lia Strings.Byte Strings.String.
From stdpp Require Import base decidable list gmap.
From S2P Require Import Prelude OpenSSL Domain Store.

(** [otpdelivery::Request], and the sender: [Deliver] of [WebhookSender]. *)
Record OtpRequest : Type := MkOtpRequest {
  delivery_id : bytes; purpose : bytes; channel : bytes; recipient : bytes; otp_code : bytes;
  otp_expires_at : Z }.
Definition OtpSender (W : Type) : Type := OtpRequest -> M W unit.

(** [User{}] *)
Definition empty_user : User :=
  blank_user 0 0 [] [] [] (MkStatus StatusUnknown 0 0) false 0 DeletionNone [] 0 0.

Record SignInResult : Type := MkSignIn { need_sign_up : bool; si_user : User }.
Record VerifiedLogin : Type := MkVerified { found : bool; vl_user : User }.

Module CurrentUser.
Record t : Type := Mk { user_id : Z; authorized : bool }.
End CurrentUser.

Definition HexEncode (data : bytes) : bytes :=
  concat (map (fun b => [hex_char (Z.shiftr (bz b) 4); hex_char (Z.land (bz b) 15)]) data).

Definition kDefaultMaxAttempts : Z := 5.

(** *** Current user ([current_user.cpp]) *)

Definition ResolveCurrentUser {W} (authorizations : IAuthorizationStore W) (auth_key_id : bytes)
    : M W CurrentUser.t :=
  authz <- ByAuthKey authorizations auth_key_id ;;
  match authz with
  | None => ret (CurrentUser.Mk 0 false)
  | Some a => if Authorization.password_pending a then ret (CurrentUser.Mk 0 false)
              else ret (CurrentUser.Mk (Authorization.user_id a) true)
  end.

Section SignIn.
Context {W : Type} (e164 : bytes -> option bytes) (rand : RandomFill W) (now : Clock W).
Context (users : IUserStore W) (authorizations : IAuthorizationStore W) (codes : ICodeStore W).

Definition RandomHex (n : Z) : M W bytes :=
  bytes_ <- rand n ;;
  ret (HexEncode bytes_).

Definition RandomDigits (n : Z) : M W bytes :=
  let len := if 0 <? n then n else 6 in
  bytes_ <- rand len ;;
  ret (map (fun b => u8 (48 + bz b mod 10)) bytes_).

Definition RandomInt64 : M W Z :=
  bytes_ <- rand 8 ;;
  ret (s64 (le_val bytes_)).

Definition NewDeliveryID : M W bytes :=
  raw <- rand 16 ;;
  ret (lit "otp_" ++ HexEncode raw).

Definition CurrentPhoneOwnerId (phone : bytes) : M W Z :=
  owner <- ByPhone users phone ;;
  ret match owner with Some u => id u | None => 0 end.

Definition VerifyLoginCode (phone phone_code_hash phone_code : bytes) : M W VerifiedLogin :=
  rec <- Get codes phone_code_hash ;;
  match rec with
  | None => throw CodeExpiredError
  | Some rec =>
      guard (bool_decide (PhoneCode.phone rec = phone)) CodeInvalidError ;;;
      before_owner <- CurrentPhoneOwnerId phone ;;
      if negb (PhoneCode.issued_user_id rec =? before_owner) then
        Del codes phone_code_hash ;;;
        throw CodeInvalidError
      else if PhoneCode.sign_up_verified rec then
        if negb (before_owner =? 0) || bool_decide (PhoneCode.code rec <> phone_code)
        then throw CodeInvalidError
        else ret (MkVerified false empty_user)
      else
        let keep_for_sign_up := before_owner =? 0 in
        result <- VerifyLogin codes phone_code_hash phone phone_code keep_for_sign_up
                    kDefaultMaxAttempts ;;
        after_owner <- CurrentPhoneOwnerId phone ;;
        if negb (before_owner =? after_owner) then
          Del codes phone_code_hash ;;;
          throw CodeInvalidError
        else match lc_status result with
          | kMissing => throw CodeExpiredError
          | kInvalid => throw CodeInvalidError
          | kAccepted =>
              if after_owner =? 0 then ret (MkVerified false empty_user)
              else
                u <- ByPhone users phone ;;
                match u with
                | Some u => ret (MkVerified true u)
                | None => ret (MkVerified false empty_user)
                end
          end
  end.

Definition SendCode (phone_number fixed_code : bytes) (otp_sender : option (OtpSender W))
    (code_length code_ttl : Z) : M W bytes :=
  let phone := NormalizePhone e164 phone_number in
  guard (ValidPhone e164 phone) PhoneNumberInvalidError ;;;
  hash <- RandomHex 8 ;;
  owner <- CurrentPhoneOwnerId phone ;;
  code <- match otp_sender with
          | Some _ => RandomDigits code_length
          | None => ret fixed_code
          end ;;
  let rec := PhoneCode.Mk owner false phone code 0 5 in
  Set_ codes hash rec ;;;
  match otp_sender with
  | None => ret hash
  | Some Deliver =>
      t <- now ;;
      let expires_at := seconds_of t + code_ttl in
      delivery_id <- NewDeliveryID ;;
      let request := MkOtpRequest delivery_id (lit "login_sms") (lit "sms") phone
                       (PhoneCode.code rec) expires_at in
      try_catch (Deliver request)
        (fun e => match e with
                  | DeliveryFailedError _ => Del codes hash ;;; throw e
                  | _ => throw e
                  end) ;;;
      ret hash
  end.

Definition SignIn (auth_template : Authorization.t)
    (phone_number phone_code_hash phone_code : bytes) (passwords : option (IPasswordStore W))
    : M W SignInResult :=
  let phone := NormalizePhone e164 phone_number in
  verified <- VerifyLoginCode phone phone_code_hash phone_code ;;
  if negb (found verified) then ret (MkSignIn true empty_user)
  else
    password_needed <- match passwords with
      | None => ret false
      | Some store =>
          settings <- GetByUser store (id (vl_user verified)) ;;
          ret match settings with
              | Some s => PasswordSettings.has_password s
              | None => false
              end
      end ;;
    let a := Authorization.with_user auth_template (id (vl_user verified)) password_needed in
    Bind authorizations a ;;;
    if (password_needed : bool) then throw SessionPasswordNeededError
    else ret (MkSignIn false (vl_user verified)).

Definition SignUp (auth_template : Authorization.t)
    (phone_number phone_code_hash first_name last_name : bytes) : M W User :=
  let phone := NormalizePhone e164 phone_number in
  guard (ValidPhone e164 phone) PhoneNumberInvalidError ;;;
  guard (bool_decide (first_name <> [])) FirstNameInvalidError ;;;
  rec <- Get codes phone_code_hash ;;
  match rec with
  | None => throw CodeExpiredError
  | Some rec =>
      if bool_decide (PhoneCode.phone rec <> phone) || negb (PhoneCode.sign_up_verified rec) ||
         negb (PhoneCode.issued_user_id rec =? 0)
      then throw CodeInvalidError
      else
        owner <- CurrentPhoneOwnerId phone ;;
        if negb (owner =? 0) then
          Del codes phone_code_hash ;;;
          throw CodeInvalidError
        else
          consumed <- ConsumeSignUpVerified codes phone_code_hash phone ;;
          match consumed with
          | None => throw CodeExpiredError
          | Some consumed =>
              guard ((PhoneCode.issued_user_id consumed =? 0) &&
                     PhoneCode.sign_up_verified consumed) CodeInvalidError ;;;
              owner <- CurrentPhoneOwnerId phone ;;
              guard (owner =? 0) CodeInvalidError ;;;
              access_hash <- RandomInt64 ;;
              let draft := blank_user 0 access_hash phone first_name last_name
                             (MkStatus StatusUnknown 0 0) false 0 DeletionNone [] 0 0 in
              created <- Create users draft ;;
              let a := Authorization.with_user auth_template (id created)
                         (Authorization.password_pending auth_template) in
              Bind authorizations a ;;;
              ret created
          end
  end.

End SignIn.

(** ** What a call does to a view of the world *)

Section CodeEffects.
Context {W : Type} (codes_of : W -> CodeStore.codes).
Context (codes : ICodeStore W) {spec : CodeStoreSpec codes codes_of}.

Lemma effect_Get {B} h (k : _ -> M W B) cs Q :
  effect codes_of (k (cs !! h)) cs Q -> effect codes_of (bind (Get codes h) k) cs Q.
Proof.
  intros H. apply effect_bind. intros w <-. destruct (Get_spec h w) as (w' & E & Hc).
  rewrite E. cbn. by rewrite Hc.
Qed.
Lemma effect_Set {B} h c (k : _ -> M W B) cs Q :
  effect codes_of (k tt) (<[h := c]> cs) Q -> effect codes_of (bind (Set_ codes h c) k) cs Q.
Proof.
  intros H. apply effect_bind. intros w <-. destruct (Set_spec h c w) as (w' & E & Hc).
  rewrite E. cbn. by rewrite Hc.
Qed.
Lemma effect_Del {B} h (k : _ -> M W B) cs Q :
  effect codes_of (k tt) (delete h cs) Q -> effect codes_of (bind (Del codes h) k) cs Q.
Proof.
  intros H. apply effect_bind. intros w <-. destruct (Del_spec h w) as (w' & E & Hc).
  rewrite E. cbn. by rewrite Hc.
Qed.
Lemma effect_Verify {B} h p c keep d (k : _ -> M W B) cs Q :
  (forall r cs', verified cs h p c keep d r cs' -> effect codes_of (k r) cs' Q) ->
  effect codes_of (bind (VerifyLogin codes h p c keep d) k) cs Q.
Proof.
  intros H. apply effect_bind. intros w <-.
  destruct (Verify_spec h p c keep d w) as (r & w' & E & Hv). rewrite E. by apply H.
Qed.
Lemma effect_Consume {B} h p (k : _ -> M W B) cs (Q : _ -> _ -> Prop) :
  (consumable cs h p = None -> effect codes_of (k None) cs Q) ->
  (forall c, consumable cs h p = Some c -> effect codes_of (k (Some c)) (delete h cs) Q) ->
  effect codes_of (bind (ConsumeSignUpVerified codes h p) k) cs Q.
Proof.
  intros Hn Hs. apply effect_bind. intros w <-. destruct (Consume_spec h p w) as (w' & E & Hc).
  rewrite E. cbn. rewrite Hc. destruct (consumable (codes_of w) h p) as [c|]; auto.
Qed.

End CodeEffects.

Ltac effect_step :=
  lazymatch goal with
  | |- effect _ (ret _) _ _ => apply effect_ret
  | |- effect _ (throw _) _ _ => apply effect_throw
  | |- effect _ (bind (guard _ _) _) _ _ => apply effect_guard; [intros ?|intros ?]
  | |- effect _ (bind (Get _ _) _) _ _ => apply effect_Get; [done|]
  | |- effect _ (bind (Set_ _ _ _) _) _ _ => apply effect_Set; [done|]
  | |- effect _ (bind (Del _ _) _) _ _ => apply effect_Del; [done|]
  | |- effect _ (bind (VerifyLogin _ _ _ _ _ _) _) _ _ => apply effect_Verify; [done|intros ?r ?cs ?Hv]
  | |- effect _ (bind (ConsumeSignUpVerified _ _ _) _) _ _ =>
      apply effect_Consume; [done|intros ?Hn|intros ?c ?Hc]
  | |- effect _ (bind _ _) _ _ => apply effect_bind_frame; [by auto with frames|intros ?|intros ?]
  end.

(** ** The login system *)

(** The other parties of a login leave the code store alone: the user,
    authorization and password stores, the sender, the generator and the
    clock. *)
Class LoginWorld {W} (codes_of : W -> CodeStore.codes) (rand : RandomFill W) (now : Clock W)
    (users : IUserStore W) (authorizations : IAuthorizationStore W)
    (passwords : option (IPasswordStore W)) (otp_sender : option (OtpSender W)) : Prop := {
  lw_rand : RandomSource rand codes_of;
  lw_draw n : frames codes_of (rand n);
  lw_now : ClockSource now codes_of;
  lw_ByPhone p : frames codes_of (ByPhone users p);
  lw_Create u : frames codes_of (Create users u);
  lw_Bind a : frames codes_of (Bind authorizations a);
  lw_GetByUser store i : passwords = Some store -> frames codes_of (GetByUser store i);
  lw_Deliver sender r : otp_sender = Some sender -> frames codes_of (sender r) }.

Section System.
Context {W : Type} (e164 : bytes -> option bytes) (rand : RandomFill W) (now : Clock W).
Context (users : IUserStore W) (authorizations : IAuthorizationStore W) (codes : ICodeStore W).
Context (passwords : option (IPasswordStore W)) (otp_sender : option (OtpSender W)).
Context (fixed_code : bytes) (code_length code_ttl : Z).
Context (codes_of : W -> CodeStore.codes).

(** What happens: a code is issued for a hash, somebody tries a code, somebody
    registers, or anything else that leaves the code store alone.  A request
    for a code that throws may still have issued one: only a
    [DeliveryFailedError] takes the code back. *)
Inductive event : Type :=
  | Issued (phone_number hash code : bytes)
  | Tried (phone_number hash code : bytes) (r : res SignInResult)
  | Registered (phone_number hash : bytes) (r : res User)
  | Other.

Inductive step : W -> event -> W -> Prop :=
  | step_issue phone_number hash c w w' :
      SendCode e164 rand now users codes phone_number fixed_code otp_sender code_length code_ttl w =
        (Ok hash, w') ->
      codes_of w' !! hash = Some c ->
      step w (Issued phone_number hash (PhoneCode.code c)) w'
  | step_undelivered phone_number hash c e w w' :
      SendCode e164 rand now users codes phone_number fixed_code otp_sender code_length code_ttl w =
        (Throw e, w') ->
      codes_of w' !! hash = Some c -> codes_of w !! hash <> Some c ->
      step w (Issued phone_number hash (PhoneCode.code c)) w'
  | step_refuse phone_number e w w' :
      SendCode e164 rand now users codes phone_number fixed_code otp_sender code_length code_ttl w =
        (Throw e, w') ->
      (forall hash c, codes_of w' !! hash = Some c -> codes_of w !! hash = Some c) ->
      step w Other w'
  | step_try template phone_number hash code r w w' :
      SignIn e164 users authorizations codes template phone_number hash code passwords w = (r, w') ->
      step w (Tried phone_number hash code r) w'
  | step_register template phone_number hash first_name last_name r w w' :
      SignUp e164 rand users authorizations codes template phone_number hash first_name last_name w =
        (r, w') ->
      step w (Registered phone_number hash r) w'
  | step_other w w' : codes_of w' = codes_of w -> step w Other w'.

Inductive run : list event -> W -> Prop :=
  | run_start w : codes_of w = ∅ -> run [] w
  | run_step trace w e w' : run trace w -> step w e w' -> run (trace ++ [e]) w'.

(** The events that end what was issued under [h]. *)
Definition ends (h : bytes) (e : event) : Prop :=
  match e with
  | Issued _ h' _ => h' = h
  | Tried _ h' _ (Ok r) => h' = h /\ need_sign_up r = false
  | Registered _ h' (Ok _) => h' = h
  | _ => False
  end.
(** A sign-in presented [code] for [phone]. *)
Definition presents (phone h code : bytes) (e : event) : Prop :=
  exists pn r, e = Tried pn h code r /\ NormalizePhone e164 pn = phone.

(** In [trace], [code] was issued for [phone] under [h] and not used since;
    [since] is what happened after. *)
Definition issued (trace : list event) (phone h code : bytes) (since : list event) : Prop :=
  exists before pn, trace = before ++ Issued pn h code :: since /\
    NormalizePhone e164 pn = phone /\ Forall (fun e => ~ ends h e) since.

(** Each record goes back to its code request; a verified one also to a
    sign-in with the right code. *)
Definition accounted (trace : list event) (cs : CodeStore.codes) : Prop :=
  forall h c, cs !! h = Some c -> exists since,
    issued trace (PhoneCode.phone c) h (PhoneCode.code c) since /\
    (PhoneCode.sign_up_verified c = true ->
     Exists (presents (PhoneCode.phone c) h (PhoneCode.code c)) since).

(** What a successful login must have been preceded by. *)
Definition backed (trace : list event) (e : event) : Prop :=
  match e with
  | Tried pn h code (Ok _) => exists since, issued trace (NormalizePhone e164 pn) h code since
  | Registered pn h (Ok _) => exists code since,
      issued trace (NormalizePhone e164 pn) h code since /\
      Exists (presents (NormalizePhone e164 pn) h code) since
  | _ => True
  end.

Context {spec : CodeStoreSpec codes codes_of}.
Context {world : LoginWorld codes_of rand now users authorizations passwords otp_sender}.

#[local] Hint Extern 0 (CodeStoreSpec _ _) => exact spec : core.

Lemma frames_rand n : frames codes_of (rand n).
Proof. apply lw_draw. Qed.
Lemma frames_owner p : frames codes_of (CurrentPhoneOwnerId users p).
Proof. apply frames_bind; [apply lw_ByPhone|intros ?; apply frames_ret]. Qed.

Lemma frames_ByPhone p : frames codes_of (ByPhone users p).
Proof. apply lw_ByPhone. Qed.
Lemma frames_Create u : frames codes_of (Create users u).
Proof. apply lw_Create. Qed.
Lemma frames_Bind a : frames codes_of (Bind authorizations a).
Proof. apply lw_Bind. Qed.
Lemma frames_RandomInt64 : frames codes_of (RandomInt64 rand).
Proof. apply frames_bind; [apply frames_rand|intros ?; apply frames_ret]. Qed.

#[local] Hint Resolve frames_owner frames_ByPhone frames_Create frames_Bind frames_RandomInt64
  : frames.

(** The record of [h] after a call that tried [code] for [phone]. *)
Definition tried_on (phone h code : bytes) (cs cs' : CodeStore.codes) : Prop :=
  (forall h', h' <> h -> cs' !! h' = cs !! h') /\
  match cs' !! h with
  | None => True
  | Some c' => exists c, cs !! h = Some c /\ PhoneCode.phone c' = PhoneCode.phone c /\
      PhoneCode.code c' = PhoneCode.code c /\
      (PhoneCode.sign_up_verified c' = true ->
       PhoneCode.sign_up_verified c = true \/ PhoneCode.phone c = phone /\ PhoneCode.code c = code)
  end.

Lemma tried_on_refl phone h code cs : tried_on phone h code cs cs.
Proof. split; [done|]. destruct (cs !! h) as [c|]; [|done]. exists c. tauto. Qed.
Lemma tried_on_delete phone h code cs : tried_on phone h code cs (delete h cs).
Proof. split; [intros; by rewrite lookup_delete_ne|]. by rewrite lookup_delete_eq. Qed.
Lemma tried_on_then_delete phone h code cs cs' :
  tried_on phone h code cs cs' -> tried_on phone h code cs (delete h cs').
Proof.
  intros [H _]. split; [intros; rewrite lookup_delete_ne by done; by apply H|].
  by rewrite lookup_delete_eq.
Qed.
Lemma verified_tried_on cs h p k keep d r cs' :
  verified cs h p k keep d r cs' -> tried_on p h k cs cs'.
Proof.
  intros [Hm|c E Hp Hk Hl|c E Hp Hk Hl|c E Hp Hk Hkeep|c E Hp Hk Hkeep];
    [apply tried_on_refl| |apply tried_on_delete| |apply tried_on_delete];
    (split; [intros; by rewrite lookup_insert_ne|]; rewrite lookup_insert_eq; exists c;
     split; [done|]; cbn; tauto).
Qed.

(** What a sign-in's outcome says of the record. *)
Definition try_effect (phone h code : bytes) (cs : CodeStore.codes) (ok : bool) (found_ : bool)
    (cs' : CodeStore.codes) : Prop :=
  tried_on phone h code cs cs' /\
  (ok = true -> exists c, cs !! h = Some c /\ PhoneCode.phone c = phone /\
     PhoneCode.code c = code /\ (found_ = true -> cs' !! h = None)).

Lemma VerifyLoginCode_effect phone h code cs :
  effect codes_of (VerifyLoginCode users codes phone h code) cs
    (fun r cs' => match r with
       | Ok v => try_effect phone h code cs true (found v) cs'
       | Throw _ => try_effect phone h code cs false false cs' end).
Proof.
  assert (Hrefl : try_effect phone h code cs false false cs) by (split; [apply tried_on_refl|done]).
  assert (Hdel : try_effect phone h code cs false false (delete h cs))
    by (split; [apply tried_on_delete|done]).
  unfold VerifyLoginCode. effect_step. destruct (cs !! h) as [c|] eqn:Ec; [|by effect_step].
  effect_step; [|done]. apply bool_decide_eq_true_1 in H. effect_step; [|done].
  destruct (negb _); [by repeat effect_step|]. destruct (PhoneCode.sign_up_verified c).
  { destruct (_ || _) eqn:E; effect_step; [done|]. apply orb_false_iff in E as [_ E].
    apply bool_decide_eq_false_1, dec_stable in E.
    split; [apply tried_on_refl|]. intros _. by exists c. }
  effect_step. pose proof (verified_tried_on _ _ _ _ _ _ _ _ Hv) as Ht.
  assert (Hthrow : try_effect phone h code cs false false cs0) by (by split).
  effect_step; [|done]. destruct (negb _) eqn:Eo.
  { repeat effect_step. split; [by apply tried_on_then_delete|done]. }
  apply negb_false_iff, Z.eqb_eq in Eo. subst a0.
  destruct Hv as [Hm|x E Hp Hk Hl|x E Hp Hk Hl|x E Hp Hk Hkeep|x E Hp Hk Hkeep];
    cbn [lc_status]; [by effect_step..| |].
  - rewrite Hkeep. effect_step. split; [done|]. intros _. exists x. done.
  - rewrite Hkeep. effect_step; [|done].
    assert (Hfin : forall f, try_effect phone h code cs true f (delete h cs)).
    { intros f. split; [done|]. intros _. exists x. rewrite lookup_delete_eq. done. }
    destruct a0; effect_step; apply Hfin.
Qed.

Lemma SignIn_effect template pn h code cs :
  effect codes_of (SignIn e164 users authorizations codes template pn h code passwords) cs
    (fun r cs' => match r with
       | Ok r => try_effect (NormalizePhone e164 pn) h code cs true (negb (need_sign_up r)) cs'
       | Throw _ => tried_on (NormalizePhone e164 pn) h code cs cs' end).
Proof.
  unfold SignIn. set (phone := NormalizePhone e164 pn).
  eapply effect_bind, effect_mono; [apply VerifyLoginCode_effect|]. intros [v|e] cs'.
  2:{ by intros [H _]. }
  intros [Ht Hok]. destruct (found v) eqn:Ef; cbn [negb]; [|by effect_step; split].
  apply effect_bind_frame; [|intros needed|done].
  { destruct passwords as [store|] eqn:Ep; [|apply frames_ret].
    apply frames_bind; [|intros ?; apply frames_ret]. by eapply lw_GetByUser. }
  effect_step; [|done]. destruct needed; effect_step; [done|]. by split.
Qed.

(** A registration takes a verified record of the phone. *)
Lemma SignUp_effect template pn h first_name last_name cs :
  effect codes_of (SignUp e164 rand users authorizations codes template pn h first_name last_name) cs
    (fun r cs' => (cs' = cs \/ cs' = delete h cs) /\ match r with
       | Ok _ => cs' = delete h cs /\ exists c, cs !! h = Some c /\
           PhoneCode.phone c = NormalizePhone e164 pn /\ PhoneCode.sign_up_verified c = true
       | Throw _ => True end).
Proof.
  unfold SignUp. set (phone := NormalizePhone e164 pn).
  effect_step; [|by split; [left|]]. effect_step; [|by split; [left|]].
  effect_step. destruct (cs !! h) as [c|] eqn:Ec; [|effect_step; by split; [left|]].
  destruct (_ || _) eqn:E; [effect_step; by split; [left|]|].
  rewrite !orb_false_iff, negb_false_iff in E. destruct E as [[Hp Hv] _].
  apply bool_decide_eq_false_1, dec_stable in Hp.
  effect_step; [|by split; [left|]]. destruct (negb _); [repeat effect_step; by split; [right|]|].
  effect_step; [effect_step; by split; [left|]|].
  assert (Hend : forall e, (delete h cs = cs \/ delete h cs = delete h cs) /\
    match Throw (A := User) e with Ok _ => False | Throw _ => True end) by (by split; [right|]).
  effect_step; [|by split; [right|]]. effect_step; [|by split; [right|]].
  effect_step; [|by split; [right|]]. effect_step; [|by split; [right|]].
  effect_step; [|by split; [right|]]. effect_step; [|by split; [right|]].
  effect_step. split; [by right|]. split; [done|]. by exists c.
Qed.

Lemma lookup_delete_inv {A} (m : gmap bytes A) i h c :
  delete i m !! h = Some c -> m !! h = Some c /\ i <> h.
Proof. intros H. apply lookup_delete_Some in H. tauto. Qed.

(** A request for a code adds a code, takes one away or changes nothing; it
    adds one whenever it succeeds. *)
Lemma SendCode_effect pn cs :
  effect codes_of
    (SendCode e164 rand now users codes pn fixed_code otp_sender code_length code_ttl) cs
    (fun r cs' =>
       (exists h c, cs' = <[h := c]> cs /\ PhoneCode.phone c = NormalizePhone e164 pn /\
          PhoneCode.sign_up_verified c = false /\ (forall h', r = Ok h' -> h' = h)) \/
       (exists e, r = Throw e) /\ (cs' = cs \/ exists h, cs' = delete h cs)).
Proof.
  pose proof frames_rand as Hrand. unfold SendCode. set (phone := NormalizePhone e164 pn).
  assert (Hnone : forall e, (exists e', Throw (A := bytes) e = Throw e') /\ (cs = cs \/ exists h, cs = delete h cs))
    by (intros e; split; [by eexists|by left]).
  effect_step; [|by right]. apply effect_bind_frame; [|intros h|by right].
  { apply frames_bind; [apply Hrand|intros ?; apply frames_ret]. }
  effect_step; [|by right]. apply effect_bind_frame; [|intros code|by right].
  { destruct otp_sender; [|apply frames_ret].
    apply frames_bind; [apply Hrand|].
    intros ?; apply frames_ret. }
  effect_step. set (c := PhoneCode.Mk a false phone code 0 5).
  destruct otp_sender as [Deliver|] eqn:Eo.
  2:{ effect_step. left. exists h, c. repeat split; congruence. }
  apply effect_bind_total; [intros w; destruct (lw_now w) as (t & w1 & ? & _ & ?); eauto|].
  intros t. apply effect_bind_total; [|intros did].
  { intros w. unfold NewDeliveryID. destruct (lw_rand 16 w ltac:(done)) as (raw & w1 & E & _ & ?).
    eexists _, w1. by erewrite bind_Ok by exact E. }
  apply effect_bind. intros w Hw. set (request := MkOtpRequest _ _ _ _ _ _). unfold try_catch.
  pose proof (lw_Deliver Deliver request eq_refl w) as Hc. destruct (Deliver request w) as [[[]|e] w1].
  { cbn in *. rewrite Hc, Hw. effect_step. left. exists h, c. repeat split; congruence. }
  assert (Hkeep : forall e', exists h0 c0, codes_of w1 = <[h0 := c0]> cs /\ PhoneCode.phone c0 = phone /\
            PhoneCode.sign_up_verified c0 = false /\ (forall h', Throw e' = Ok h' -> h' = h0)).
  { intros e'. exists h, c. cbn in Hc. rewrite Hc, Hw. repeat split; congruence. }
  destruct e; try (left; apply Hkeep). unfold bind. destruct (Del_spec h w1) as (w2 & -> & H2).
  right. split; [by eexists|]. right. exists h. cbn in *. by rewrite H2, Hc, Hw, delete_insert_eq.
Qed.

(** No outcome of a request for a code is left out of the histories. *)
Lemma SendCode_step pn w : exists e, step w e
  (snd (SendCode e164 rand now users codes pn fixed_code otp_sender code_length code_ttl w)).
Proof.
  pose proof (SendCode_effect pn (codes_of w) w eq_refl) as H.
  destruct (SendCode _ _ _ _ _ _ _ _ _ _ w) as [r w'] eqn:E. cbn [fst snd] in *.
  destruct H as [(h & c & H & _ & _ & Hr)|[[e ->] H]].
  - destruct r as [h'|e].
    + exists (Issued pn h' (PhoneCode.code c)). rewrite (Hr h' eq_refl) in *.
      apply (step_issue pn h c w w' E). by rewrite H, lookup_insert_eq.
    + destruct (decide (codes_of w !! h = Some c)) as [Hold|Hnew].
      * exists Other. apply (step_refuse pn e w w' E). intros h' c'. rewrite H, insert_id by done. done.
      * exists (Issued pn h (PhoneCode.code c)). apply (step_undelivered pn h c e w w' E); [|done].
        by rewrite H, lookup_insert_eq.
  - exists Other. apply (step_refuse pn e w w' E). intros h c Hc. destruct H as [H|[h' H]]; rewrite H in Hc; [done|].
    by apply lookup_delete_inv in Hc as [? _].
Qed.

(** *** Histories *)

Lemma issued_snoc trace phone h code since e :
  issued trace phone h code since -> ~ ends h e -> issued (trace ++ [e]) phone h code (since ++ [e]).
Proof.
  intros (before & pn & -> & Hpn & Hq) He. exists before, pn. split; [by rewrite <- app_assoc|].
  split; [done|]. apply Forall_app_2; [done|by constructor].
Qed.

(** A record that an event leaves as it was stays accounted for. *)
Lemma accounted_keep trace cs e h c :
  accounted trace cs -> cs !! h = Some c -> ~ ends h e ->
  exists since, issued (trace ++ [e]) (PhoneCode.phone c) h (PhoneCode.code c) since /\
    (PhoneCode.sign_up_verified c = true ->
     Exists (presents (PhoneCode.phone c) h (PhoneCode.code c)) since).
Proof.
  intros Ha Hc He. destruct (Ha h c Hc) as (since & Hi & Hv). exists (since ++ [e]).
  split; [by apply issued_snoc|]. intros H. apply Exists_app. by left; apply Hv.
Qed.

Lemma accounted_issue trace cs pn h c :
  accounted trace cs -> PhoneCode.phone c = NormalizePhone e164 pn ->
  PhoneCode.sign_up_verified c = false ->
  accounted (trace ++ [Issued pn h (PhoneCode.code c)]) (<[h := c]> cs).
Proof.
  intros Ha Hp Hv h' c' Hc'. destruct (decide (h' = h)) as [->|Hne].
  - rewrite lookup_insert_eq in Hc'. injection Hc' as <-. exists []. split; [|congruence].
    by exists trace, pn.
  - rewrite lookup_insert_ne in Hc' by done. eapply accounted_keep; [done..|]. cbn. congruence.
Qed.

Lemma accounted_subset trace cs cs' e :
  accounted trace cs -> (forall h c, cs' !! h = Some c -> cs !! h = Some c /\ ~ ends h e) ->
  accounted (trace ++ [e]) cs'.
Proof. intros Ha Hs h c Hc. destruct (Hs h c Hc) as [Hc0 He]. by eapply accounted_keep. Qed.

Lemma accounted_try trace cs cs' pn h code r :
  accounted trace cs -> tried_on (NormalizePhone e164 pn) h code cs cs' ->
  (ends h (Tried pn h code r) -> cs' !! h = None) ->
  accounted (trace ++ [Tried pn h code r]) cs'.
Proof.
  intros Ha [Ho Hh] Hend h' c' Hc'. destruct (decide (h' = h)) as [->|Hne].
  2:{ rewrite Ho in Hc' by done. eapply accounted_keep; [done..|]. destruct r; cbn; [|tauto].
      intros [? _]. congruence. }
  rewrite Hc' in Hh. destruct Hh as (c & Hc & Ep & Ek & Hv).
  assert (Hne : ~ ends h (Tried pn h code r)) by (intros H; apply Hend in H; congruence).
  rewrite Ep, Ek. destruct (Ha h c Hc) as (since & Hi & Hs).
  exists (since ++ [Tried pn h code r]). split; [by apply issued_snoc|].
  intros H. apply Exists_app. destruct (Hv H) as [Hc0|[Hp Hk]]; [left; by apply Hs|].
  right. constructor. exists pn, r. by rewrite Hk.
Qed.

Lemma accounted_register trace cs cs' pn h r :
  accounted trace cs -> cs' = cs \/ cs' = delete h cs ->
  (forall u, r = Ok u -> cs' = delete h cs) ->
  accounted (trace ++ [Registered pn h r]) cs'.
Proof.
  intros Ha Hc Hr. apply (accounted_subset trace cs); [done|]. intros h' c Hc'.
  destruct r as [u|e].
  - rewrite (Hr u eq_refl) in Hc'. apply lookup_delete_inv in Hc' as [? ?]. by split.
  - split; [|cbn; tauto]. destruct Hc as [->| ->]; [done|]. by apply lookup_delete_inv in Hc' as [? _].
Qed.

Lemma step_accounted trace w e w' :
  accounted trace (codes_of w) -> step w e w' -> accounted (trace ++ [e]) (codes_of w').
Proof.
  intros Ha Hs. destruct Hs as [pn h c w w' E Hc|pn h c e w w' E Hc Hnew|pn e w w' E Hold|tmpl pn h code r w w' E
    |tmpl pn h fn ln r w w' E|w w' E].
  - pose proof (SendCode_effect pn (codes_of w) w eq_refl) as H. rewrite E in H.
    destruct H as [(h' & c' & H & Hp & Hv & Hr)|[[? ?] _]]; [|done]. cbn [snd fst] in *.
    rewrite (Hr h eq_refl) in *. rewrite H, lookup_insert_eq in Hc. injection Hc as <-.
    rewrite H. by apply accounted_issue.
  - pose proof (SendCode_effect pn (codes_of w) w eq_refl) as H. rewrite E in H. cbn [snd fst] in H.
    destruct H as [(h' & c' & H & Hp & Hv & _)|[_ [H|[h' H]]]]; rewrite H in Hc.
    + destruct (decide (h' = h)) as [->|Hne]; [|by rewrite lookup_insert_ne in Hc].
      rewrite lookup_insert_eq in Hc. injection Hc as <-. rewrite H. by apply accounted_issue.
    + done.
    + by apply lookup_delete_inv in Hc as [? _].
  - apply (accounted_subset trace (codes_of w)); [done|]. intros h c Hc. split; [by apply Hold|cbn; tauto].
  - pose proof (SignIn_effect tmpl pn h code (codes_of w) w eq_refl) as H. rewrite E in H. cbn in H.
    destruct r as [r|e].
    + destruct H as [Ht Hok]. apply (accounted_try trace (codes_of w)); [done..|].
      intros [_ Hn]. destruct (Hok eq_refl) as (c & _ & _ & _ & Hnone). apply Hnone. by rewrite Hn.
    + by apply (accounted_try trace (codes_of w)).
  - pose proof (SignUp_effect tmpl pn h fn ln (codes_of w) w eq_refl) as [H Hr]. rewrite E in H, Hr.
    cbn in H, Hr. apply (accounted_register trace (codes_of w)); [done..|].
    intros u ->. by apply Hr.
  - apply (accounted_subset trace (codes_of w)); [done|]. intros h c. rewrite E. cbn. tauto.
Qed.

Lemma run_accounted trace w : run trace w -> accounted trace (codes_of w).
Proof.
  induction 1 as [w Hw|trace w e w' Hr IH Hs]; [|by eapply step_accounted].
  intros h c. by rewrite Hw, lookup_empty.
Qed.

Lemma accounted_backed trace w e w' :
  accounted trace (codes_of w) -> step w e w' -> backed trace e.
Proof.
  intros Ha Hs. destruct Hs as [| | |tmpl pn h code r w w' E|tmpl pn h fn ln r w w' E|]; try done.
  - pose proof (SignIn_effect tmpl pn h code (codes_of w) w eq_refl) as H. rewrite E in H.
    cbn in H. destruct r as [r|]; [|done]. destruct H as [_ Hok].
    destruct (Hok eq_refl) as (c & Hc & Hp & Hk & _). destruct (Ha h c Hc) as (since & Hi & _).
    exists since. by rewrite <- Hp, <- Hk.
  - pose proof (SignUp_effect tmpl pn h fn ln (codes_of w) w eq_refl) as [_ H]. rewrite E in H.
    cbn in H. destruct r as [u|]; [|done]. destruct H as (_ & c & Hc & Hp & Hv).
    destruct (Ha h c Hc) as (since & Hi & Hpr). exists (PhoneCode.code c), since.
    rewrite <- Hp. by split; [|apply Hpr].
Qed.

End System.

(** C2. Nobody logs in without the code.  In every history of code requests,
    sign-ins and registrations by anyone, interleaved with anything that does
    not touch the code store: a sign-in succeeds only with the very code that
    was issued under its hash for its phone and has not been used since; a
    registration succeeds only if moreover a sign-in presented that code after
    it was issued.  One code serves one login: the event that succeeds ends
    it. *)
Theorem logins_need_codes {W} (e164 : bytes -> option bytes) (rand : RandomFill W) (now : Clock W)
    (users : IUserStore W) (authorizations : IAuthorizationStore W) (codes : ICodeStore W)
    (passwords : option (IPasswordStore W)) (otp_sender : option (OtpSender W))
    (fixed_code : bytes) (code_length code_ttl : Z) (codes_of : W -> CodeStore.codes)
    (spec : CodeStoreSpec codes codes_of)
    (world : LoginWorld codes_of rand now users authorizations passwords otp_sender)
    (trace : list event) (w : W) (e : event) (w' : W)
    (Hrun : run e164 rand now users authorizations codes passwords otp_sender fixed_code code_length
              code_ttl codes_of trace w)
    (Hstep : step e164 rand now users authorizations codes passwords otp_sender fixed_code
               code_length code_ttl codes_of w e w') :
  match e with
  | Tried pn h code (Ok _) => exists since, issued e164 trace (NormalizePhone e164 pn) h code since
  | Registered pn h (Ok _) => exists code since,
      issued e164 trace (NormalizePhone e164 pn) h code since /\
      Exists (presents e164 (NormalizePhone e164 pn) h code) since
  | _ => True
  end.
Proof.
  exact (accounted_backed e164 rand now users authorizations codes passwords otp_sender fixed_code
    code_length code_ttl codes_of trace w e w'
    (run_accounted e164 rand now users authorizations codes passwords otp_sender fixed_code
      code_length code_ttl codes_of trace w Hrun) Hstep).
Qed.

(** ** Two-step verification at sign-in *)

Definition protected (settings : Z -> option PasswordSettings.t) (user_id : Z) : bool :=
  match settings user_id with Some s => PasswordSettings.has_password s | None => false end.

(** The authorization store (the part of its contract a login relies on): the
    authorizations [bound w] and the password [settings w]; whether a store
    reports an error is up to it. *)
Class LoginStores {W} (users : IUserStore W) (authorizations : IAuthorizationStore W)
    (codes : ICodeStore W) (passwords : IPasswordStore W)
    (bound : W -> gmap bytes Authorization.t) (settings : W -> Z -> option PasswordSettings.t)
    : Prop := {
  ls_ByAuthKey k w : exists w', ByAuthKey authorizations k w = (Ok (bound w !! k), w');
  ls_Bind a w : exists r w', Bind authorizations a w = (r, w') /\ settings w' = settings w /\
    match r with
    | Ok _ => exists a', bound w' = <[Authorization.auth_key_id a := a']> (bound w) /\
        Authorization.user_id a' = Authorization.user_id a /\
        Authorization.password_pending a' = Authorization.password_pending a
    | Throw _ => bound w' = bound w
    end;
  ls_GetByUser i w : exists r w', GetByUser passwords i w = (r, w') /\
    bound w' = bound w /\ settings w' = settings w /\ (forall o, r = Ok o -> o = settings w i);
  ls_ByPhone p : frames (fun w => (bound w, settings w)) (ByPhone users p);
  ls_Get h : frames (fun w => (bound w, settings w)) (Get codes h);
  ls_Del h : frames (fun w => (bound w, settings w)) (Del codes h);
  ls_Verify h p c k d : frames (fun w => (bound w, settings w)) (VerifyLogin codes h p c k d) }.

Section PasswordGate.
Context {W : Type} (e164 : bytes -> option bytes).
Context (users : IUserStore W) (authorizations : IAuthorizationStore W) (codes : ICodeStore W).
Context (passwords : IPasswordStore W).
Context (bound : W -> gmap bytes Authorization.t) (settings : W -> Z -> option PasswordSettings.t).
Context {stores : LoginStores users authorizations codes passwords bound settings}.

Definition look (w : W) : gmap bytes Authorization.t * (Z -> option PasswordSettings.t) :=
  (bound w, settings w).

Lemma VerifyLoginCode_frames p h c : frames look (VerifyLoginCode users codes p h c).
Proof.
  assert (Howner : frames look (CurrentPhoneOwnerId users p)).
  { apply frames_bind; [apply ls_ByPhone|intros ?; apply frames_ret]. }
  assert (Hdel : forall e, frames look (bind (Del codes h) (fun _ => @throw W VerifiedLogin e))).
  { intros e. by apply frames_bind; [apply ls_Del|]. }
  apply frames_bind; [apply ls_Get|intros [c0|]; [|done]].
  apply frames_bind; [intros w; by destruct (bool_decide _)|intros _].
  apply frames_bind; [done|intros before]. destruct (negb _); [done|].
  destruct (PhoneCode.sign_up_verified c0); [by destruct (_ || _)|].
  apply frames_bind; [apply ls_Verify|intros r]. apply frames_bind; [done|intros after].
  destruct (negb _); [done|]. destruct (lc_status r); [done|done|]. destruct (_ =? _); [done|].
  apply frames_bind; [apply ls_ByPhone|by intros [u|]].
Qed.

(** How the authorizations may change: not at all, or the key of the template
    is bound to [u], pending if [u] has a password. *)
Definition gate (key : bytes) (before after : gmap bytes Authorization.t)
    (st : Z -> option PasswordSettings.t) (r : res SignInResult) : Prop :=
  match r with
  | Ok res =>
      if need_sign_up res then after = before
      else exists a, after = <[key := a]> before /\ Authorization.user_id a = id (si_user res) /\
             Authorization.password_pending a = false /\ protected st (id (si_user res)) = false
  | Throw e =>
      after = before \/
      e = SessionPasswordNeededError /\
      exists a, after = <[key := a]> before /\ Authorization.password_pending a = true /\
        protected st (Authorization.user_id a) = true
  end.

Lemma SignIn_gate template pn h code b st :
  effect look (SignIn e164 users authorizations codes template pn h code (Some passwords)) (b, st)
    (fun r v => gate (Authorization.auth_key_id template) b (fst v) st r).
Proof.
  unfold SignIn. apply effect_bind_frame; [apply VerifyLoginCode_frames|intros v|by left].
  destruct (found v); cbn [negb]; [|by apply effect_ret].
  set (u := id (vl_user v)).
  assert (Hbind : forall pending, pending = protected st u ->
    effect look (Bind authorizations (Authorization.with_user template u pending) ;;;
      (if pending then throw SessionPasswordNeededError else ret (MkSignIn false (vl_user v))))
      (b, st) (fun r v => gate (Authorization.auth_key_id template) b (fst v) st r)).
  { intros pending Hp. apply effect_bind. intros w [= Hb Hs].
    destruct (ls_Bind (Authorization.with_user template u pending) w) as (r & w' & E & Hs' & Hr).
    rewrite E. cbn. destruct r as [[]|e]; [|left; cbn; congruence].
    destruct Hr as (a & Ha & Hu & Hpp). cbn in Ha, Hu, Hpp.
    assert (Hb' : bound w' = <[Authorization.auth_key_id template := a]> b) by congruence.
    unfold look. rewrite Hs', Hs. destruct pending.
    - apply effect_throw. right. split; [done|]. exists a. rewrite Hu. done.
    - apply effect_ret. by exists a. }
  do 2 apply effect_bind. intros w [= Hb Hs].
  destruct (ls_GetByUser u w) as (r & w' & E & Hb' & Hs' & Hr). rewrite E. cbn [fst snd].
  assert (look w' = (b, st)) as -> by (unfold look; congruence).
  destruct r as [o|e]; [|by left]. apply effect_ret, Hbind.
  by rewrite (Hr o eq_refl), Hs.
Qed.

Lemma ResolveCurrentUser_run key w :
  fst (ResolveCurrentUser authorizations key w) = Ok
    match bound w !! key with
    | Some a => if Authorization.password_pending a then CurrentUser.Mk 0 false
                else CurrentUser.Mk (Authorization.user_id a) true
    | None => CurrentUser.Mk 0 false
    end.
Proof.
  unfold ResolveCurrentUser. destruct (ls_ByAuthKey key w) as (w' & E).
  erewrite bind_Ok by exact E. destruct (bound w !! key) as [a|]; [|done].
  by destruct (Authorization.password_pending a).
Qed.

End PasswordGate.

(** C3. Two-step verification guards sign-in.  Whatever a sign-in returns or
    throws, no key but the one signing in changes hands; a sign-in that
    returns a user has authorized the key for exactly this user, who has no
    password; for a user with a password the key is bound but resolves to
    nobody, and the caller is told [SessionPasswordNeededError]; and every
    other exception leaves all authorizations as they were. *)
Theorem SignIn_password_gate {W} (e164 : bytes -> option bytes) (users : IUserStore W)
    (authorizations : IAuthorizationStore W) (codes : ICodeStore W) (passwords : IPasswordStore W)
    (bound : W -> gmap bytes Authorization.t) (settings : W -> Z -> option PasswordSettings.t)
    (stores : LoginStores users authorizations codes passwords bound settings)
    (template : Authorization.t) (pn h code : bytes) (w : W) :
  let key := Authorization.auth_key_id template in
  let '(r, w') := SignIn e164 users authorizations codes template pn h code (Some passwords) w in
  let whoami := fst (ResolveCurrentUser authorizations key w') in
  (forall k, k <> key -> bound w' !! k = bound w !! k) /\
  match r with
  | Ok res =>
      if need_sign_up res then bound w' = bound w
      else whoami = Ok (CurrentUser.Mk (id (si_user res)) true) /\
           protected (settings w) (id (si_user res)) = false
  | Throw e =>
      bound w' = bound w \/
      e = SessionPasswordNeededError /\ whoami = Ok (CurrentUser.Mk 0 false) /\
      exists a, bound w' !! key = Some a /\ Authorization.password_pending a = true /\
        protected (settings w) (Authorization.user_id a) = true
  end.
Proof.
  intros key. pose proof (SignIn_gate e164 users authorizations codes passwords bound settings
    template pn h code (bound w) (settings w) w eq_refl) as H.
  destruct (SignIn _ _ _ _ _ _ _ _ _ w) as [r w']. cbn in H. fold key in H.
  pose proof (ResolveCurrentUser_run users authorizations codes passwords bound settings key w') as R.
  destruct r as [res|e]; cbn in H.
  - destruct (need_sign_up res); [split; [intros; by rewrite H|done]|]. destruct H as (a & Hb & Hu & Hp & Hs).
    rewrite Hb in *. rewrite lookup_insert_eq, Hp, Hu in R. split; [|by split].
    intros k Hk. by rewrite lookup_insert_ne.
  - destruct H as [H|(He & a & Hb & Hp & Hs)]; [split; [intros; by rewrite H|by left]|].
    rewrite Hb in *. rewrite lookup_insert_eq, Hp in R. split.
    { intros k Hk. by rewrite lookup_insert_ne. }
    right. split; [done|]. split; [done|]. exists a. by rewrite lookup_insert_eq.
Qed.

(** ** A small world for the witnesses *)

Module Model.
Record world : Type := MkWorld {
  w_codes : CodeStore.codes; w_users : list User; w_auths : gmap bytes Authorization.t;
  w_settings : Z -> option PasswordSettings.t }.

Definition zoom {A} (m : M CodeStore.codes A) : M world A := fun w =>
  let '(r, cs) := m (w_codes w) in (r, MkWorld cs (w_users w) (w_auths w) (w_settings w)).

Definition codes : ICodeStore world :=
  MkCodeStore world (fun h c => zoom (CodeStore.Set_ h c)) (fun h => zoom (CodeStore.Get h))
    (fun h => zoom (CodeStore.Del h))
    (fun h p c k d => zoom (CodeStore.VerifyLogin h p c k d))
    (fun h p => zoom (CodeStore.ConsumeSignUpVerified h p)).

Definition unused {A} : M world A := throw (StoreError "unused").

Definition find_user (f : User -> bool) : M world (option User) :=
  gets (fun w => List.find f (w_users w)).

(** [Create] numbers the users from 1. *)
Definition create (u : User) : M world User := fun w =>
  let created := blank_user (zlen (w_users w) + 1) (access_hash u) (phone u) (first_name u)
    (last_name u) (status u) false 0 DeletionNone [] 0 0 in
  (Ok created, MkWorld (w_codes w) (w_users w ++ [created]) (w_auths w) (w_settings w)).

Definition users : IUserStore world :=
  MkUserStore world (fun i => find_user (fun u => id u =? i)) (fun _ => unused)
    (fun p => find_user (fun u => bool_decide (phone u = p)))
    (fun n => find_user (fun u => bool_decide (username u = n)))
    create (fun _ _ => unused) (fun _ _ => unused) (fun _ _ => unused) (fun _ _ => unused)
    (fun _ _ _ _ => unused) (fun _ _ => unused) (fun _ _ => unused) (fun _ _ _ => unused)
    (fun _ _ => unused) (fun _ _ => unused) (fun _ _ => unused) (fun _ _ => unused)
    (fun _ _ _ => unused).

Definition authorizations : IAuthorizationStore world :=
  MkAuthorizationStore world
    (fun a => modify (fun w => MkWorld (w_codes w) (w_users w)
       (<[Authorization.auth_key_id a := a]> (w_auths w)) (w_settings w)))
    (fun k => gets (fun w => w_auths w !! k))
    (fun _ _ => unused) (fun _ => unused) (fun _ => unused) (fun _ _ => unused)
    (fun _ _ => unused) (fun _ _ => unused).

Definition passwords : IPasswordStore world :=
  MkPasswordStore world (fun i => gets (fun w => w_settings w i)) (fun _ _ => unused).

#[local] Instance codes_spec : CodeStoreSpec codes w_codes.
Proof.
  split; cbn [codes Set_ Get Del VerifyLogin ConsumeSignUpVerified]; unfold zoom.
  - by eexists.
  - by eexists.
  - by eexists.
  - intros h p c k d w. destruct (Verify_spec (s := memory_store) h p c k d (w_codes w))
      as (r & cs & E & Hv).
    cbn [memory_store VerifyLogin] in E. rewrite E. by eexists _, _.
  - intros h p w. destruct (Consume_spec (s := memory_store) h p (w_codes w)) as (cs & E & Hc).
    cbn [memory_store ConsumeSignUpVerified] in E. rewrite E. by eexists.
Qed.

#[local] Instance world_laws :
  LoginWorld w_codes Toy.zeros Toy.clock users authorizations (Some passwords) None.
Proof.
  split; try done.
  - intros n w Hn. destruct (Toy.zeros_random n w Hn) as (r & w' & E & Hl & Hk). exists r, w'.
    split; [done|]. split; [done|]. unfold Datatypes.id in Hk. by rewrite Hk.
  - intros w. destruct (Toy.clock_source w) as (t & w' & E & Hl & Hk). exists t, w'.
    split; [done|]. split; [done|]. unfold Datatypes.id in Hk. by rewrite Hk.
  - intros store i [= <-]. done.
Qed.

#[local] Instance stores_laws :
  LoginStores users authorizations codes passwords w_auths w_settings.
Proof.
  split; cbn.
  - by eexists.
  - intros a w. eexists _, _. split; [done|]. split; [done|]. by exists a.
  - intros i w. eexists _, _. split; [done|]. split; [done|]. split; [done|]. by intros o [= <-].
  - done.
  - done.
  - done.
  - intros h p c k d w. unfold zoom. by destruct (CodeStore.VerifyLogin _ _ _ _ _ _).
Qed.

Definition template : Authorization.t :=
  Authorization.Mk (lit "keykey01") 0 0 0 [] [] [] 0 [] [] false 0 0.
Definition start : world := MkWorld ∅ [] ∅ (fun _ => None).
Definition number : bytes := lit "+1 (202) 555-0123".
Definition hash : bytes := lit "0000000000000000".

Definition issue : M world bytes :=
  SendCode Some_digits Toy.zeros Toy.clock users codes number (lit "12345") None 5 300.
Definition try_code (code : bytes) : M world SignInResult :=
  SignIn Some_digits users authorizations codes template number hash code (Some passwords).
Definition register : M world User :=
  SignUp Some_digits Toy.zeros users authorizations codes template number hash (lit "Ada") [].

Definition w1 : world := Eval vm_compute in snd (issue start).
Definition w2 : world := Eval vm_compute in snd (try_code (lit "12345") w1).
Definition w3 : world := Eval vm_compute in snd (register w2).
Definition ada : User := Eval vm_compute in
  match fst (register w2) with Ok u => u | Throw _ => empty_user end.
End Model.

Lemma logins_need_codes_witness :
  let run := run Some_digits Toy.zeros Toy.clock Model.users Model.authorizations Model.codes
    (Some Model.passwords) None (lit "12345") 5 300 Model.w_codes in
  let step := step Some_digits Toy.zeros Toy.clock Model.users Model.authorizations Model.codes
    (Some Model.passwords) None (lit "12345") 5 300 Model.w_codes in
  let trace := [Issued Model.number Model.hash (lit "12345");
                Tried Model.number Model.hash (lit "12345") (Ok (MkSignIn true empty_user))] in
  run trace Model.w2 /\ step Model.w2 (Registered Model.number Model.hash (Ok Model.ada)) Model.w3 /\
  exists code since,
    issued Some_digits trace (NormalizePhone Some_digits Model.number) Model.hash code since /\
    Exists (presents Some_digits (NormalizePhone Some_digits Model.number) Model.hash code) since.
Proof.
  intros run0 step0 trace.
  assert (Hrun : run0 trace Model.w2).
  { apply (run_step _ _ _ _ _ _ _ _ _ _ _ _ [_] Model.w1).
    - apply (run_step _ _ _ _ _ _ _ _ _ _ _ _ [] Model.start); [by apply run_start|].
      apply (step_issue _ _ _ _ _ _ _ _ _ _ _ _ _ _
        (PhoneCode.Mk 0 false (lit "12025550123") (lit "12345") 0 5)); reflexivity.
    - apply (step_try _ _ _ _ _ _ _ _ _ _ _ _ Model.template). reflexivity. }
  assert (Hstep : step0 Model.w2 (Registered Model.number Model.hash (Ok Model.ada)) Model.w3).
  { apply (step_register _ _ _ _ _ _ _ _ _ _ _ _ Model.template _ _ (lit "Ada") []). reflexivity. }
  split; [exact Hrun|]. split; [exact Hstep|].
  exact (logins_need_codes Some_digits Toy.zeros Toy.clock Model.users Model.authorizations
    Model.codes (Some Model.passwords) None (lit "12345") 5 300 Model.w_codes Model.codes_spec
    Model.world_laws trace Model.w2 _ Model.w3 Hrun Hstep).
Defined.

Lemma SignIn_password_gate_witness :
  let key := Authorization.auth_key_id Model.template in
  let '(r, w') := Model.try_code (lit "12345") Model.w1 in
  let whoami := fst (ResolveCurrentUser Model.authorizations key w') in
  (forall k, k <> key -> Model.w_auths w' !! k = Model.w_auths Model.w1 !! k) /\
  match r with
  | Ok res =>
      if need_sign_up res then Model.w_auths w' = Model.w_auths Model.w1
      else whoami = Ok (CurrentUser.Mk (id (si_user res)) true) /\
           protected (Model.w_settings Model.w1) (id (si_user res)) = false
  | Throw e =>
      Model.w_auths w' = Model.w_auths Model.w1 \/
      e = SessionPasswordNeededError /\ whoami = Ok (CurrentUser.Mk 0 false) /\
      exists a, Model.w_auths w' !! key = Some a /\ Authorization.password_pending a = true /\
        protected (Model.w_settings Model.w1) (Authorization.user_id a) = true
  end.
Proof.
  exact (SignIn_password_gate Some_digits Model.users Model.authorizations Model.codes
    Model.passwords Model.w_auths Model.w_settings Model.stores_laws Model.template Model.number
    Model.hash (lit "12345") Model.w1).
Defined.
