(* ===== verification/Json.v ===== *)
(** * JSON

    [nlohmann::json] is third-party: its [parse] and [dump] are the members of
    the class [Json], over the values a JSON text denotes; access to the members
    of an object is written out. *)

From Stdlib Require Import ZArith Lia Strings.Byte Strings.String.
From stdpp Require Import base decidable list.
From S2P Require Import Prelude.

(** ** JSON values *)

(** [nlohmann::json]; a floating-point number is its 64 bits. *)
Inductive json : Type :=
  | JNull
  | JBool (b : bool)
  | JInteger (n : Z)
  | JFloat (bits : Z)
  | JString (s : bytes)
  | JArray (items : list json)
  | JObject (members : list (bytes * json)).

Class Json : Type := {
  (** [json::parse(text, nullptr, false)]; [None] is a discarded value. *)
  parse : bytes -> option json;
  (** [j.dump()]; [None] is an exception: a string is not UTF-8. *)
  dump : json -> option bytes;
}.

(** An object is a [std::map]: its members are in the order of their keys. *)
Fixpoint key_lt (a b : bytes) : bool :=
  match a, b with
  | _, [] => false
  | [], _ :: _ => true
  | c :: a, d :: b => (bz c <? bz d) || ((bz c =? bz d) && key_lt a b)
  end.
(** [j[key] = value] *)
Fixpoint set_member (key : bytes) (value : json) (members : list (bytes * json)) : list (bytes * json) :=
  match members with
  | [] => [(key, value)]
  | (k, v) :: t =>
      if decide (k = key) then (key, value) :: t
      else if key_lt key k then (key, value) :: members
      else (k, v) :: set_member key value t
  end.
(** [j.find(key)] *)
Fixpoint member (key : bytes) (members : list (bytes * json)) : option json :=
  match members with
  | [] => None
  | (k, v) :: t => if decide (k = key) then Some v else member key t
  end.
(** [j.value(key, std::string())] *)
Definition value_or_empty (members : list (bytes * json)) (key : bytes) : res bytes :=
  match member key members with
  | None => Ok []
  | Some (JString s) => Ok s
  | Some _ => Throw JsonTypeError
  end.

(** ** What the library promises *)

(** Characters that stand for themselves in a JSON string. *)
Definition plain (s : bytes) : Prop :=
  forallb (fun c => (32 <=? bz c) && (bz c <=? 126) && negb (bz c =? 34) && negb (bz c =? 92)) s = true.
(** The values of a flat object. *)
Definition flat (v : json) : Prop :=
  match v with
  | JString s => plain s
  | JInteger n => 0 <= n < 2 ^ 63
  | JBool _ => True
  | _ => False
  end.
Fixpoint keys_in_order (members : list (bytes * json)) : bool :=
  match members with
  | (k, _) :: (((k', _) :: _) as t) => key_lt k k' && keys_in_order t
  | _ => true
  end.

(** A flat object is printed, and read back from what is printed. *)
Class JsonLaws `{!Json} : Prop :=
  json_flat : forall members, Forall (fun m => plain (fst m) /\ flat (snd m)) members ->
    keys_in_order members = true ->
    exists s, dump (JObject members) = Some s /\ parse s = Some (JObject members).
