(* ===== verification/Http.v ===== *)
(** * The HTTP client: [net/http_client.cpp]

    [HttpPost] over a connection: [connect] opens it (resolution and
    connection are the system's), [read] and [write] are the socket's
    [ReadExact] and [WriteAll].  The socket timeouts only make these throw. *)

From Stdlib Require Import ZArith Lia Strings.Byte Strings.String.
From stdpp Require Import base decidable list.
From S2P Require Import Prelude Text Transport.

Record ParsedUrl : Type := MkUrl { host : bytes; port : Z; path : bytes }.

Definition kPrefix : bytes := lit "http://".

Definition ParseHttpUrl (url : bytes) : res ParsedUrl :=
  if decide (ztake (zlen kPrefix) url <> kPrefix)
  then Throw (HttpError (lit "only plain http:// URLs are supported: " ++ url))
  else
    let rest := zdrop (zlen kPrefix) url in
    let slash := find_char x2f rest in
    let authority := match slash with None => rest | Some i => ztake i rest end in
    let path := match slash with None => [x2f] | Some i => zdrop i rest end in
    if decide (authority = []) then Throw (HttpError (lit "URL has no host: " ++ url))
    else match rfind_char x3a authority with
         | None => Ok (MkUrl authority 80 path)
         | Some colon =>
             match stoi (zdrop (colon + 1) authority) with
             | Some port =>
                 if (port <=? 0) || (65535 <? port)
                 then Throw (HttpError (lit "invalid port in URL: " ++ url))
                 else Ok (MkUrl (ztake colon authority) port path)
             | None => Throw (HttpError (lit "invalid port in URL: " ++ url))
             end
         end.

Record HttpResponse : Type := MkResponse { status : Z; body : bytes }.

(** [request], with its headers and body. *)
Definition header_line (h : bytes * bytes) : bytes := fst h ++ lit ": " ++ snd h ++ crlf.
Definition request_of (parsed : ParsedUrl) (headers : list (bytes * bytes)) (body : bytes) : bytes :=
  lit "POST " ++ path parsed ++ lit " HTTP/1.1" ++ crlf ++
  lit "Host: " ++ host parsed ++ crlf ++
  lit "Content-Length: " ++ to_string (zlen body) ++ crlf ++
  lit "Connection: close" ++ crlf ++
  concat (map header_line headers) ++ crlf ++ body.

Definition blank_line : bytes := crlf ++ crlf.
(** [head.compare(head.size() - 4, 4, "\r\n\r\n") == 0] *)
Definition head_complete (head : bytes) : bool :=
  (4 <=? zlen head) && bool_decide (zdrop (zlen head - 4) head = blank_line).

Section Client.
Context {S : Type} (connect : bytes -> Z -> M S unit) (read : ReadExact S) (write : WriteBytes S).

(** The loop that reads the head, byte by byte. *)
Fixpoint ReadHead (fuel : nat) (head : bytes) : M S bytes :=
  if head_complete head then ret head
  else match fuel with
       | O => throw out_of_fuel
       | Datatypes.S fuel =>
           b <- read 1 ;;
           let head := head ++ b in
           guard (zlen head <=? 64 * 1024) (HttpError (lit "response headers too large")) ;;;
           ReadHead fuel head
       end.
(** One more than the bytes a head may have. *)
Definition head_fuel : nat := Z.to_nat 65537.

Definition read_head_error (e : exn) : exn :=
  match e with
  | ConnectionClosedError => HttpError (lit "connection closed before headers completed")
  | HttpError _ => e
  | _ => HttpError (lit ("read failed: " ++ what e))
  end.

Definition status_of (status_line : bytes) : res Z :=
  match find_char x20 status_line with
  | None => Throw (HttpError (lit "malformed HTTP status line: " ++ status_line))
  | Some sp1 =>
      match stoi (substr status_line (sp1 + 1) 3) with
      | Some status => Ok status
      | None => Throw (HttpError (lit "malformed HTTP status code: " ++ status_line))
      end
  end.

(** What a header line does to [content_length]; [None] is
    [!has_content_length]. *)
Definition read_header (line : bytes) (content_length : option Z) : option Z :=
  match find_char x3a line with
  | None => content_length
  | Some colon =>
      if decide (ToLower (ztake colon line) = lit "content-length") then
        let value := zdrop (colon + 1) line in
        match find_first_not_of (fun c => bool_decide (c = x20)) value with
        | None => content_length
        | Some first =>
            match stoul (zdrop first value) with
            | Some n => Some n
            | None => content_length
            end
        end
      else content_length
  end.

(** [while (pos < head.size())]; [rest] is the head from [pos] on. *)
Fixpoint ReadHeaders (fuel : nat) (rest : bytes) (content_length : option Z) : option Z :=
  match fuel with
  | O => content_length
  | Datatypes.S fuel =>
      if decide (rest = []) then content_length
      else match find_crlf rest with
           | None => content_length
           | Some line_end =>
               if line_end =? 0 then content_length
               else ReadHeaders fuel (zdrop (line_end + 2) rest)
                      (read_header (ztake line_end rest) content_length)
           end
  end.

Definition ReadBody (content_length : option Z) : M S bytes :=
  match content_length with
  | Some n =>
      if 0 <? n then
        guard (n <=? 1024 * 1024) (HttpError (lit "response body too large")) ;;;
        try_catch (read n) (fun e => throw (HttpError (lit ("read body failed: " ++ what e))))
      else ret []
  | None => ret []
  end.

Definition ReadResponse : M S HttpResponse :=
  head <- try_catch (ReadHead head_fuel []) (fun e => throw (read_head_error e)) ;;
  match find_crlf head with
  | None => throw (HttpError (lit "malformed HTTP response: no status line"))
  | Some first_line_end =>
      status <- lift (status_of (ztake first_line_end head)) ;;
      let content_length := ReadHeaders (length head) (zdrop (first_line_end + 2) head) None in
      body <- ReadBody content_length ;;
      ret (MkResponse status body)
  end.

Definition HttpPost (url : bytes) (headers : list (bytes * bytes)) (body : bytes) : M S HttpResponse :=
  parsed <- lift (ParseHttpUrl url) ;;
  try_catch (connect (host parsed) (port parsed))
    (fun e => match e with
              | SocketError w => throw (HttpError (lit "connect failed: " ++ w))
              | _ => throw e
              end) ;;;
  try_catch (write (request_of parsed headers body))
    (fun e => throw (HttpError (lit ("send failed: " ++ what e)))) ;;;
  ReadResponse.

End Client.

(** ** URLs *)

(** Every URL the client can serve is read back into its parts. *)
Lemma ParseHttpUrl_parts h p tail :
  h <> [] -> lacks x2f h -> 0 < p <= 65535 -> tail = [] \/ (exists t, tail = x2f :: t) ->
  ParseHttpUrl (kPrefix ++ h ++ [x3a] ++ to_string p ++ tail) =
    Ok (MkUrl h p (if decide (tail = []) then [x2f] else tail)).
Proof.
  intros Hne Hh Hp Ht. unfold ParseHttpUrl. rewrite ztake_app, zdrop_app by done.
  rewrite decide_False by (intros H; by apply H).
  destruct (to_string_digits p ltac:(lia)) as [_ Hd].
  set (authority := h ++ [x3a] ++ to_string p).
  assert (Hdig : forall c, is_digit c = false -> lacks c (to_string p)).
  { intros c Hc. unfold lacks. apply forallb_forall. intros d Hin.
    rewrite forallb_forall in Hd. specialize (Hd d Hin).
    apply negb_true_iff, bool_decide_eq_false. by intros ->; rewrite Hc in Hd. }
  assert (Hslash : lacks x2f authority).
  { unfold authority, lacks. rewrite !forallb_app, Hh. cbn [forallb]. by apply Hdig. }
  assert (Hcut : forall i, find_char x2f (authority ++ tail) = i ->
    match i with None => authority ++ tail | Some i => ztake i (authority ++ tail) end = authority /\
    match i with None => [x2f] | Some i => zdrop i (authority ++ tail) end =
      if decide (tail = []) then [x2f] else tail).
  { intros i <-. destruct Ht as [->|[t ->]].
    - rewrite app_nil_r, find_char_None by done. by rewrite decide_True.
    - rewrite find_char_app by done. rewrite ztake_app, zdrop_app by done. by rewrite decide_False. }
  replace (h ++ [x3a] ++ to_string p ++ tail) with (authority ++ tail)
    by (unfold authority; by rewrite <- !app_assoc).
  destruct (Hcut _ eq_refl) as [-> ->]. unfold authority.
  rewrite decide_False by (by destruct h). cbn [app].
  rewrite rfind_char_app by (by apply Hdig).
  replace (zdrop (zlen h + 1) (h ++ x3a :: to_string p)) with (to_string p).
  2:{ change (x3a :: to_string p) with ([x3a] ++ to_string p). rewrite app_assoc.
      symmetry. apply zdrop_app. by rewrite zlen_app. }
  unfold stoi. rewrite <- (app_nil_r (to_string p)), strtol_to_string by (done || lia).
  destruct (Z.leb_spec (- 2 ^ 31) p), (Z.ltb_spec p (2 ^ 31)); try lia. cbn [andb].
  destruct (Z.leb_spec p 0), (Z.ltb_spec 65535 p); try lia. cbn [orb]. by rewrite ztake_app.
Qed.

(** ** Where the head ends *)

(** No line break inside. *)
Definition clean (s : bytes) : Prop := forallb (fun c => negb (bool_decide (c = x0d)) && negb (bool_decide (c = x0a))) s = true.

Lemma clean_lacks s : clean s -> lacks x0d s.
Proof.
  unfold clean, lacks. rewrite !forallb_forall. intros H c Hc. specialize (H c Hc).
  by apply andb_true_iff in H as [-> _].
Qed.
Lemma clean_last s c : clean (s ++ [c]) -> c <> x0a.
Proof.
  unfold clean. rewrite forallb_app. cbn [forallb]. rewrite !andb_true_iff, negb_true_iff.
  intros (_ & (_ & H) & _). by apply negb_true_iff, bool_decide_eq_false in H.
Qed.

Lemma head_complete_iff h : head_complete h = true <-> exists p, h = p ++ blank_line.
Proof.
  unfold head_complete. rewrite andb_true_iff, Z.leb_le, bool_decide_eq_true. split.
  - intros [Hl <-]. exists (ztake (zlen h - 4) h). by rewrite ztake_zdrop.
  - intros [p ->]. assert (El : zlen (p ++ blank_line) - 4 = zlen p).
    { rewrite zlen_app. change (zlen blank_line) with 4. lia. }
    rewrite El. split; [pose proof (zlen_nonneg p); lia|]. by apply zdrop_app.
Qed.

Lemma incomplete h : (forall p, h <> p ++ blank_line) -> head_complete h = false.
Proof.
  intros H. destruct (head_complete h) eqn:E; [|done]. apply head_complete_iff in E as [p E].
  by destruct (H p).
Qed.
Lemma incomplete_nil : head_complete [] = false.
Proof. done. Qed.
Lemma incomplete_byte h c : c <> x0a -> head_complete (h ++ [c]) = false.
Proof.
  intros Hc. apply incomplete. intros p E. change blank_line with ([x0d; x0a; x0d] ++ [x0a]) in E.
  rewrite app_assoc in E. apply app_inj_tail in E as [_ E]. done.
Qed.
Lemma incomplete_line h c : c <> x0a -> head_complete ((h ++ [c]) ++ crlf) = false.
Proof.
  intros Hc. apply incomplete. intros p E. unfold blank_line in E. rewrite app_assoc in E.
  apply app_inj_2 in E as [E _]; [|done]. change crlf with ([x0d] ++ [x0a]) in E.
  rewrite app_assoc in E. apply app_inj_tail in E as [_ E]. done.
Qed.

Section Reading.
Context {S : Type} (read : ReadExact S) (view : S -> bytes) `{!Source read view}.

Lemma ReadHead_segment seg : forall fuel h rest s, view s = seg ++ rest ->
  (forall p q, seg = p ++ q -> q <> [] -> head_complete (h ++ p) = false) ->
  zlen (h ++ seg) <= 64 * 1024 -> (length seg <= fuel)%nat ->
  exists s', view s' = rest /\
    ReadHead read fuel h s = ReadHead read (fuel - length seg) (h ++ seg) s'.
Proof.
  induction seg as [|c seg IH]; intros fuel h rest s Hv Hp Hl Hf.
  { exists s. by rewrite Nat.sub_0_r, app_nil_r. }
  destruct fuel as [|fuel]; [cbn in Hf; lia|]. cbn [ReadHead length].
  pose proof (Hp [] (c :: seg) eq_refl ltac:(done)) as H0. rewrite app_nil_r in H0. rewrite H0.
  destruct (source_read s [c] (seg ++ rest) Hv) as (s1 & E1 & Hv1). change (zlen [c]) with 1 in E1.
  erewrite bind_Ok by exact E1. rewrite bind_guard_if.
  assert (Hl' : zlen ((h ++ [c]) ++ seg) <= 64 * 1024) by (rewrite <- app_assoc; exact Hl).
  pose proof (zlen_nonneg seg). rewrite zlen_app in Hl'.
  destruct (Z.leb_spec (zlen (h ++ [c])) (64 * 1024)); [|lia].
  destruct (IH fuel (h ++ [c]) rest s1 Hv1) as (s2 & Hv2 & E2).
  - intros p q E Hq. rewrite <- app_assoc. apply (Hp (c :: p) q); [by rewrite E|done].
  - rewrite zlen_app. exact Hl'.
  - cbn in Hf. lia.
  - exists s2. split; [done|]. rewrite E2. by rewrite <- app_assoc.
Qed.

(** The prefixes of a clean text. *)
Lemma clean_prefixes h l : head_complete h = false -> clean l ->
  forall p q, l = p ++ q -> head_complete (h ++ p) = false.
Proof.
  intros Hh Hl p q ->. destruct (decide (p = [])) as [->|Hne]; [by rewrite app_nil_r|].
  destruct (exists_last Hne) as (p' & c & ->). rewrite app_assoc. apply incomplete_byte.
  unfold clean in Hl. rewrite forallb_app in Hl. apply andb_true_iff in Hl as [Hl _].
  by apply (clean_last p').
Qed.

Lemma crlf_prefixes h : head_complete h = false ->
  forall p q, crlf = p ++ q -> q <> [] -> head_complete (h ++ p) = false.
Proof.
  intros Hh p q E Hq. destruct p as [|a [|b p]]; [by rewrite app_nil_r| |].
  - injection E as <- _. by apply incomplete_byte.
  - injection E as _ _ E. symmetry in E. apply app_eq_nil in E as [_ E]. done.
Qed.

(** One line of the head. *)
Lemma ReadHead_line fuel h l rest s : head_complete h = false -> clean l -> l <> [] ->
  view s = l ++ crlf ++ rest -> zlen (h ++ l ++ crlf) <= 64 * 1024 -> (length (l ++ crlf) <= fuel)%nat ->
  head_complete (h ++ l ++ crlf) = false /\
  exists s', view s' = rest /\
    ReadHead read fuel h s = ReadHead read (fuel - length (l ++ crlf)) (h ++ l ++ crlf) s'.
Proof.
  intros Hh Hc Hne Hv Hl Hf. destruct (exists_last Hne) as (l' & c & El).
  assert (Hlast : c <> x0a) by (apply (clean_last l'); by rewrite <- El).
  assert (Hend : head_complete (h ++ l ++ crlf) = false).
  { rewrite El, !app_assoc. by apply incomplete_line. }
  split; [exact Hend|].
  destruct (ReadHead_segment (l ++ crlf) fuel h rest s) as (s' & Hv' & E); [by rewrite <- app_assoc| |done|done|].
  - intros p q E Hq. apply app_eq_inv in E as [(k & -> & E)|(k & E1 & E2)].
    + apply (clean_prefixes h (p ++ k)) with k; done.
    + subst p. rewrite app_assoc. apply (crlf_prefixes (h ++ l)) with q; [|done|done].
      apply (clean_prefixes h l Hh Hc l []). by rewrite app_nil_r.
  - by exists s'.
Qed.

Definition with_crlf (l : bytes) : bytes := l ++ crlf.

Lemma ReadHead_lines lines : forall fuel h rest s, head_complete h = false ->
  Forall (fun l => clean l /\ l <> []) lines -> (exists p, h ++ concat (map with_crlf lines) = p ++ crlf) ->
  view s = concat (map with_crlf lines) ++ crlf ++ rest ->
  zlen (h ++ concat (map with_crlf lines) ++ crlf) <= 64 * 1024 ->
  (length (concat (map with_crlf lines) ++ crlf) <= fuel)%nat ->
  exists s', view s' = rest /\
    ReadHead read fuel h s = (Ok (h ++ concat (map with_crlf lines) ++ crlf), s').
Proof.
  induction lines as [|l lines IH]; cbn [map concat]; intros fuel h rest s Hh Hf Hend Hv Hl Hfuel.
  - rewrite app_nil_l in *. rewrite app_nil_r in Hend. destruct Hend as [p ->].
    destruct (ReadHead_segment crlf fuel (p ++ crlf) rest s Hv (crlf_prefixes _ Hh) Hl Hfuel)
      as (s' & Hv' & ->). exists s'. split; [done|].
    assert (Hdone : head_complete ((p ++ crlf) ++ crlf) = true)
      by (apply head_complete_iff; exists p; by rewrite <- app_assoc).
    destruct (fuel - length crlf)%nat; cbn [ReadHead]; by rewrite Hdone.
  - apply Forall_cons in Hf as [[Hc Hne] Hf]. change (with_crlf l) with (l ++ crlf) in *.
    rewrite <- !app_assoc in Hv. set (more := concat (map with_crlf lines)) in *.
    assert (Hsize : zlen (h ++ l ++ crlf) <= 64 * 1024).
    { rewrite !zlen_app in *. pose proof (zlen_nonneg more). change (zlen crlf) with 2 in *. lia. }
    destruct (ReadHead_line fuel h l (more ++ crlf ++ rest) s Hh Hc Hne Hv Hsize) as (Hh' & s1 & Hv1 & E1).
    { rewrite !length_app in *. lia. }
    destruct (IH (fuel - length (l ++ crlf))%nat (h ++ l ++ crlf) rest s1) as (s2 & Hv2 & E2); [done|done| |done| | |].
    + destruct Hend as [p Hp]. exists p. rewrite <- Hp. by rewrite <- !app_assoc.
    + fold more. rewrite <- !app_assoc in *. exact Hl.
    + fold more. rewrite !length_app in *. lia.
    + exists s2. split; [done|]. rewrite E1, E2. fold more. by rewrite <- !app_assoc.
Qed.

End Reading.

(** ** Status and header lines *)

(** A field and the line that carries it. *)
Definition field_line (f : bytes * bytes) : bytes := fst f ++ [x3a] ++ snd f.
Definition is_length (name : bytes) : bool := bool_decide (ToLower name = lit "content-length").

(** The header lines, up to the blank one. *)
Lemma ReadHeaders_lines lines : forall fuel n rest,
  Forall (fun l => clean l /\ l <> []) lines -> (length lines < fuel)%nat ->
  ReadHeaders fuel (concat (map with_crlf lines) ++ crlf ++ rest) n = fold_left (fun n l => read_header l n) lines n.
Proof.
  induction lines as [|l lines IH]; cbn [map concat length fold_left]; intros fuel n rest Hf Hfuel;
    (destruct fuel as [|fuel]; [lia|]); cbn [ReadHeaders].
  { reflexivity. }
  apply Forall_cons in Hf as [[Hc Hne] Hf]. change (with_crlf l) with (l ++ crlf).
  rewrite <- !app_assoc, decide_False by (by destruct l).
  rewrite find_crlf_app by (by apply clean_lacks).
  destruct (Z.eqb_spec (zlen l) 0) as [E|_].
  { destruct l; [done|]. rewrite zlen_cons in E. pose proof (zlen_nonneg l). lia. }
  assert (E2 : forall t, zdrop (zlen l + 2) (l ++ crlf ++ t) = t).
  { intros t. rewrite app_assoc. apply zdrop_app. by rewrite zlen_app. }
  rewrite E2, ztake_app by done. apply IH; [done|lia].
Qed.

(** A line whose name is not the one looked for changes nothing. *)
Lemma read_header_other name value n : lacks x3a name -> is_length name = false ->
  read_header (field_line (name, value)) n = n.
Proof.
  intros Hl Hn. unfold read_header, field_line. cbn [fst snd app]. rewrite find_char_app by done.
  rewrite ztake_app by done. rewrite decide_False; [done|]. by apply bool_decide_eq_false in Hn.
Qed.

Lemma read_header_length name spaces k n : lacks x3a name -> is_length name = true ->
  forallb (fun c => bool_decide (c = x20)) spaces = true -> 0 <= k < 2 ^ 64 ->
  read_header (field_line (name, spaces ++ to_string k)) n = Some k.
Proof.
  intros Hl Hn Hs Hk. unfold read_header, field_line. cbn [fst snd app]. rewrite find_char_app by done.
  rewrite ztake_app by done. apply bool_decide_eq_true in Hn. rewrite decide_True by done.
  replace (zdrop (zlen name + 1) (name ++ x3a :: spaces ++ to_string k)) with (spaces ++ to_string k).
  2:{ change (x3a :: spaces ++ to_string k) with ([x3a] ++ spaces ++ to_string k). rewrite app_assoc.
      symmetry. apply zdrop_app. by rewrite zlen_app. }
  rewrite find_first_skips by done. destruct (to_string_digits k Hk) as [Hne Hd].
  destruct (to_string k) as [|c t] eqn:E; [done|]. cbn [forallb find_first_not_of] in *.
  apply andb_true_iff in Hd as [Hc _].
  rewrite bool_decide_eq_false_2 by (intros ->; done). cbn [option_map].
  rewrite Z.add_0_r, zdrop_app by done. rewrite <- E. unfold stoul.
  rewrite <- (app_nil_r (to_string k)), strtol_to_string by done.
  destruct (Z.ltb_spec (- 2 ^ 64) k), (Z.ltb_spec k (2 ^ 64)); try lia. cbn [andb].
  f_equal. unfold u64. apply Z.mod_small. lia.
Qed.

(** The fields of a response whose body has [k] bytes. *)
Definition length_field (k : Z) (f : bytes * bytes) : Prop :=
  lacks x3a (fst f) /\
  (is_length (fst f) = true ->
   exists spaces, forallb (fun c => bool_decide (c = x20)) spaces = true /\ snd f = spaces ++ to_string k).

Lemma read_fields k fields : 0 <= k < 2 ^ 64 -> Forall (length_field k) fields -> forall n,
  fold_left (fun n l => read_header l n) (map field_line fields) n =
    if existsb (fun f => is_length (fst f)) fields then Some k else n.
Proof.
  intros Hk. induction fields as [|[name value] fields IH]; cbn [map fold_left existsb]; intros Hf n; [done|].
  apply Forall_cons in Hf as [[Hl Hv] Hf]. rewrite IH by done. cbn [fst snd] in *.
  destruct (is_length name) eqn:E; cbn [orb].
  - destruct (Hv eq_refl) as (spaces & Hs & ->). rewrite read_header_length by done.
    by destruct (existsb _ fields).
  - by rewrite read_header_other.
Qed.

Lemma status_of_line ver status reason : lacks x20 ver -> 100 <= status < 1000 ->
  status_of (ver ++ [x20] ++ to_string status ++ reason) = Ok status.
Proof.
  intros Hv Hs. unfold status_of. cbn [app]. rewrite find_char_app by done.
  assert (El : zlen (to_string status) = 3).
  { unfold to_string. destruct (Z.ltb_spec status 0); [lia|]. change 20%nat with (S (S (S 17))). cbn [decimal].
    destruct (Z.ltb_spec status 10); [lia|]. destruct (Z.ltb_spec (status / 10) 10) as [H'|_].
    { pose proof (Z.div_le_lower_bound status 10 10 ltac:(lia) ltac:(lia)). lia. }
    destruct (Z.ltb_spec (status / 10 / 10) 10) as [_|H']; [done|].
    rewrite Z.div_div in H' by lia.
    pose proof (Z.div_lt_upper_bound status (10 * 10) 10 ltac:(lia) ltac:(lia)). lia. }
  replace (substr _ _ 3) with (to_string status).
  2:{ change (ver ++ x20 :: to_string status ++ reason) with (ver ++ [x20] ++ to_string status ++ reason).
      rewrite (app_assoc ver). rewrite <- El.
      replace (zlen ver + 1) with (zlen (ver ++ [x20])) by (by rewrite zlen_app).
      by rewrite substr_middle. }
  unfold stoi. rewrite <- (app_nil_r (to_string status)), strtol_to_string by (done || lia).
  by destruct (Z.leb_spec (- 2 ^ 31) status), (Z.ltb_spec status (2 ^ 31)); try lia.
Qed.

(** ** A whole exchange *)

(** A response as a server writes it. *)
Definition status_line (ver : bytes) (status : Z) (reason : bytes) : bytes :=
  ver ++ [x20] ++ to_string status ++ reason.
Definition response_head (first : bytes) (fields : list (bytes * bytes)) : bytes :=
  concat (map with_crlf (first :: map field_line fields)) ++ crlf.

Record WellFormed (first : bytes) (fields : list (bytes * bytes)) (body : bytes) : Prop := {
  wf_first : clean first;
  wf_fields : Forall (fun f => clean (field_line f)) fields;
  wf_lengths : Forall (length_field (zlen body)) fields;
  wf_body : existsb (fun f => is_length (fst f)) fields = true \/ body = [];
  wf_head_size : zlen (response_head first fields) <= 64 * 1024;
  wf_body_size : zlen body <= 1024 * 1024;
}.

Section Exchange.
Context {S : Type} (connect : bytes -> Z -> M S unit) (read : ReadExact S) (write : WriteBytes S).
Context (view : S -> bytes) `{!Source read view}.

Lemma ReadBody_fields fields body rest s :
  Forall (length_field (zlen body)) fields ->
  existsb (fun f => is_length (fst f)) fields = true \/ body = [] -> zlen body <= 1024 * 1024 ->
  view s = body ++ rest ->
  exists s', view s' = rest /\
    ReadBody read (fold_left (fun n l => read_header l n) (map field_line fields) None) s = (Ok body, s').
Proof.
  intros Hl Hb Hsize Hv. pose proof (zlen_nonneg body).
  rewrite (read_fields (zlen body)) by (done || lia).
  assert (Hnil : body = [] -> exists s', view s' = rest /\ ret [] s = (Ok body, s')).
  { intros ->. by exists s. }
  destruct (existsb _ fields); cbn [ReadBody]; [|by apply Hnil; destruct Hb].
  destruct (Z.ltb_spec 0 (zlen body)) as [Hpos|].
  2:{ apply Hnil. apply length_zero_iff_nil. unfold zlen in *. lia. }
  rewrite bind_guard_if. destruct (Z.leb_spec (zlen body) (1024 * 1024)); [|lia].
  destruct (source_read s body rest Hv) as (s' & E & Hv'). exists s'. split; [done|].
  unfold try_catch. by rewrite E.
Qed.

Lemma length_lines lines : (length lines <= length (concat (map with_crlf lines)))%nat.
Proof.
  induction lines as [|l lines IH]; [done|]. cbn [map concat length]. unfold with_crlf at 1.
  rewrite !length_app. cbn [length crlf]. lia.
Qed.

Lemma ReadResponse_reads ver status reason fields body rest s :
  lacks x20 ver -> 100 <= status < 1000 -> WellFormed (status_line ver status reason) fields body ->
  view s = response_head (status_line ver status reason) fields ++ body ++ rest ->
  exists s', view s' = rest /\ ReadResponse read s = (Ok (MkResponse status body), s').
Proof.
  intros Hver Hst [Hfirst Hfields Hlen Hbody Hhead Hsize] Hv. set (first := status_line _ _ _) in *.
  set (lines := first :: map field_line fields).
  assert (Hlines : Forall (fun l => clean l /\ l <> []) lines).
  { constructor; [split; [done|]|].
    - unfold first, status_line. by destruct ver.
    - apply Forall_map. eapply Forall_impl; [exact Hfields|]. intros f Hf. cbn. split; [done|].
      unfold field_line. by destruct (fst f). }
  unfold response_head in *. fold lines in Hv, Hhead. rewrite <- app_assoc in Hv.
  destruct (ReadHead_lines read view lines head_fuel [] (body ++ rest) s) as (s1 & Hv1 & E1); [done|done| |done|done| |].
  { destruct (@exists_last _ lines ltac:(done)) as (l' & c & ->). rewrite map_app, concat_app. cbn [map concat app].
    unfold with_crlf at 2. exists (concat (map with_crlf l') ++ c). by rewrite app_nil_r, app_assoc. }
  { unfold head_fuel. unfold zlen in Hhead. lia. }
  unfold ReadResponse. unfold try_catch at 1. unfold bind at 1. rewrite E1. cbn [app].
  assert (Ehead : concat (map with_crlf lines) ++ crlf =
                  first ++ crlf ++ concat (map with_crlf (map field_line fields)) ++ crlf).
  { unfold lines. cbn [map concat]. unfold with_crlf at 1. by rewrite <- !app_assoc. }
  rewrite Ehead. rewrite find_crlf_app by (by apply clean_lacks). rewrite ztake_app by done.
  rewrite bind_lift. unfold first at 1. unfold status_line at 1. rewrite status_of_line by done.
  replace (zdrop (zlen first + 2) _) with (concat (map with_crlf (map field_line fields)) ++ crlf ++ []).
  2:{ rewrite app_nil_r. rewrite (app_assoc first). symmetry. apply zdrop_app. by rewrite zlen_app. }
  rewrite ReadHeaders_lines.
  - destruct (ReadBody_fields fields body rest s1 Hlen Hbody Hsize Hv1) as (s2 & Hv2 & E2).
    exists s2. split; [done|]. by rewrite (bind_Ok _ _ _ _ _ E2).
  - by apply Forall_cons in Hlines as [_ Hlines].
  - pose proof (length_lines (map field_line fields)). rewrite !length_app. cbn [length crlf]. lia.
Qed.

End Exchange.

(** ** Failures *)

Section Failures.
Context {S : Type} (connect : bytes -> Z -> M S unit) (read : ReadExact S) (write : WriteBytes S).

(** [head_fuel] is enough: the size limit ends the loop before. *)
Lemma ReadHead_fuel f1 : forall f2 h s,
  (forall s b s', read 1 s = (Ok b, s') -> zlen b = 1) -> zlen h <= 64 * 1024 ->
  64 * 1024 < Z.of_nat f1 + zlen h -> 64 * 1024 < Z.of_nat f2 + zlen h ->
  ReadHead read f1 h s = ReadHead read f2 h s.
Proof.
  induction f1 as [|f1 IH]; intros f2 h s Hread Hh H1 H2; [lia|]. destruct f2 as [|f2]; [lia|].
  cbn [ReadHead]. destruct (head_complete h); [done|].
  unfold bind at 1 3. destruct (read 1 s) as [[b|e] s'] eqn:E; [|done].
  pose proof (Hread _ _ _ E) as Hb. rewrite !bind_guard_if.
  destruct (Z.leb_spec (zlen (h ++ b)) (64 * 1024)) as [Hl|]; [|done].
  apply IH; [done|done| |]; rewrite zlen_app, Hb; lia.
Qed.

Definition http_only {A} (m : M S A) : Prop := forall s e s', m s = (Throw e, s') -> exists w, e = HttpError w.

Lemma http_only_bind {A B} (m : M S A) (k : A -> M S B) :
  http_only m -> (forall a, http_only (k a)) -> http_only (bind m k).
Proof.
  intros Hm Hk s e s' H. unfold bind in H. destruct (m s) as [[a|e1] s1] eqn:E.
  - by apply (Hk a s1 e s').
  - injection H as <- <-. by apply (Hm s e1 s1).
Qed.
Lemma http_only_catch {A} (m : M S A) h :
  (forall s e s', m s = (Throw e, s') -> http_only (h e)) -> http_only (try_catch m h).
Proof.
  intros Hh s e s' H. unfold try_catch in H. destruct (m s) as [[a|e1] s1] eqn:E; [done|].
  by apply (Hh s e1 s1 E s1 e s').
Qed.
Lemma http_only_throw {A} w : http_only (@throw S A (HttpError w)).
Proof. intros s e s' [= <- _]. by exists w. Qed.
Lemma http_only_ret {A} (a : A) : http_only (ret a).
Proof. by intros s e s'. Qed.
Lemma http_only_lift {A} (r : res A) : (forall e, r = Throw e -> exists w, e = HttpError w) -> http_only (lift r).
Proof. intros Hr s e s' [= E _]. by apply Hr. Qed.
Lemma http_only_guard c w : http_only (@guard S c (HttpError w)).
Proof. intros s e s'. unfold guard. destruct c; [done|]. intros [= <- _]. by exists w. Qed.

#[local] Hint Resolve http_only_throw http_only_ret http_only_guard : http.

Lemma ParseHttpUrl_throws url e : ParseHttpUrl url = Throw e -> exists w, e = HttpError w.
Proof.
  unfold ParseHttpUrl. repeat case_decide; try (intros [= <-]; by eexists).
  destruct (rfind_char _ _); [|done]. destruct (stoi _); [|intros [= <-]; by eexists].
  destruct (_ || _); [intros [= <-]; by eexists | done].
Qed.
Lemma status_of_throws l e : status_of l = Throw e -> exists w, e = HttpError w.
Proof.
  unfold status_of. destruct (find_char _ _); [|intros [= <-]; by eexists].
  destruct (stoi _); [done | intros [= <-]; by eexists].
Qed.

(** Whatever goes wrong on the connection or in the response, the caller sees
    an [HttpError]. *)
Lemma HttpPost_throws url headers body :
  (forall h p s e s', connect h p s = (Throw e, s') -> exists w, e = SocketError w) ->
  http_only (HttpPost connect read write url headers body).
Proof.
  intros Hc. unfold HttpPost.
  apply http_only_bind; [apply http_only_lift, ParseHttpUrl_throws|]. intros parsed.
  apply http_only_bind; [apply http_only_catch; intros s e s' [w ->]%Hc; eauto with http|]. intros _.
  apply http_only_bind; [apply http_only_catch; eauto with http|]. intros _.
  unfold ReadResponse. apply http_only_bind.
  { apply http_only_catch. intros s e s' _. destruct e; cbn [read_head_error]; eauto with http. }
  intros head. destruct (find_crlf head); [|eauto with http].
  apply http_only_bind; [apply http_only_lift, status_of_throws|]. intros st.
  apply http_only_bind; [|eauto with http]. unfold ReadBody.
  destruct (ReadHeaders _ _ _) as [n|]; [|eauto with http]. destruct (0 <? n); [|eauto with http].
  apply http_only_bind; [eauto with http|]. intros _. apply http_only_catch. eauto with http.
Qed.

End Failures.

(** The response is only read. *)
Section Quiet.
Context {S V : Type} (read : ReadExact S) (sent : S -> V).
Hypothesis Hquiet : forall n, frames sent (read n).
#[local] Hint Resolve Hquiet frames_catch : frames.

Lemma ReadHead_quiet fuel : forall h, frames sent (ReadHead read fuel h).
Proof.
  induction fuel as [|fuel IH]; intros h; cbn [ReadHead]; destruct (head_complete h); eauto with frames.
  apply frames_bind; [auto with frames|]. intros b. apply frames_bind; auto with frames.
Qed.
#[local] Hint Resolve ReadHead_quiet : frames.

Lemma ReadBody_quiet n : frames sent (ReadBody read n).
Proof.
  unfold ReadBody. destruct n as [n|]; [|auto with frames]. destruct (0 <? n); [|auto with frames].
  apply frames_bind; [auto with frames|]. intros _. apply frames_catch; auto with frames.
Qed.
#[local] Hint Resolve ReadBody_quiet : frames.

Lemma ReadResponse_quiet : frames sent (ReadResponse read).
Proof.
  apply frames_bind; [apply frames_catch; auto with frames|]. intros head.
  destruct (find_crlf head); [|auto with frames]. apply frames_bind; [auto with frames|]. intros st.
  apply frames_bind; auto with frames.
Qed.

End Quiet.

(** ** Properties *)

(** A request over plain HTTP.  If the connection opens and the peer, once
    it has the request, answers with a well-formed response (any version and
    reason, any other header lines, a [Content-Length] in any letter case and
    with any spaces before the number, or none for an empty body), then the
    call sends exactly one request with the body announced and returns the
    status and the body of the response, having read nothing past it. *)
Theorem HttpPost_exchanges {S} (connect : bytes -> Z -> M S unit) (read : ReadExact S) (write : WriteBytes S)
    (view sent : S -> bytes) (Hread : Source read view) (Hquiet : forall n, frames sent (read n))
    (Hwrite : Sink write sent)
    (h : bytes) (p : Z) (tail : bytes) headers body ver code reason fields answer rest s s1 :
  h <> [] -> lacks x2f h -> 0 < p <= 65535 -> tail = [] \/ (exists t, tail = x2f :: t) ->
  let request := request_of (MkUrl h p (if decide (tail = []) then [x2f] else tail)) headers body in
  connect h p s = (Ok tt, s1) ->
  (forall s2, sent s2 = sent s1 ++ request -> write request s1 = (Ok tt, s2) ->
     view s2 = response_head (status_line ver code reason) fields ++ answer ++ rest) ->
  lacks x20 ver -> 100 <= code < 1000 -> WellFormed (status_line ver code reason) fields answer ->
  exists s',
    HttpPost connect read write (kPrefix ++ h ++ [x3a] ++ to_string p ++ tail) headers body s
      = (Ok (MkResponse code answer), s') /\
    view s' = rest /\ sent s' = sent s1 ++ request.
Proof.
  intros Hne Hh Hp Ht request Hc Hreply Hver Hcode Hwf.
  unfold HttpPost. rewrite ParseHttpUrl_parts by done. rewrite bind_lift. fold request.
  unfold try_catch at 1. unfold bind at 1. cbn [host port]. rewrite Hc.
  destruct (sink_write request s1) as (s2 & Hs2 & Hsent).
  unfold try_catch at 1. unfold bind at 1. rewrite Hs2.
  destruct (ReadResponse_reads read view ver code reason fields answer rest s2) as (s3 & Hv & E); try done.
  { by apply Hreply. }
  exists s3. split; [done|]. split; [done|]. rewrite <- Hsent.
  pose proof (ReadResponse_quiet read sent Hquiet s2) as Hq. by rewrite E in Hq.
Qed.

(** An in-memory peer: it answers the first bytes it gets with what it holds. *)
Module Peer.
Record t : Type := Mk { to_read : bytes; written : bytes }.
Definition connect (_ : bytes) (_ : Z) : M t unit := ret tt.
Definition read : ReadExact t := fun n s =>
  let '(r, v) := Pipe.read n (to_read s) in (r, Mk v (written s)).
Definition write : WriteBytes t := fun d s => (Ok tt, Mk (to_read s) (written s ++ d)).

#[export] Instance peer_source : Source read to_read.
Proof.
  intros s a b H. destruct (@source_read _ _ _ Pipe.pipe_source (to_read s) a b H) as (v & E & Hv).
  exists (Mk v (written s)). split; [|done]. unfold read. by rewrite E.
Qed.
#[export] Instance peer_sink : Sink write written.
Proof. intros d s. by eexists. Qed.
Lemma peer_quiet n : frames written (read n).
Proof. intros s. unfold read. by destruct (Pipe.read n (to_read s)). Qed.
End Peer.

Definition demo_answer : bytes :=
  lit "HTTP/1.1 200 OK" ++ crlf ++ lit "Server: x" ++ crlf ++ lit "Content-LENGTH:  2" ++ crlf ++ crlf ++ lit "{}".

Lemma HttpPost_exchanges_witness :
  exists s',
    HttpPost Peer.connect Peer.read Peer.write (lit "http://bot:8080/otp") [(lit "Accept", lit "*")] (lit "{}")
      (Peer.Mk demo_answer []) = (Ok (MkResponse 200 (lit "{}")), s') /\
    Peer.to_read s' = [] /\
    Peer.written s' = [] ++ request_of (MkUrl (lit "bot") 8080 (lit "/otp")) [(lit "Accept", lit "*")] (lit "{}").
Proof.
  apply (HttpPost_exchanges Peer.connect Peer.read Peer.write Peer.to_read Peer.written Peer.peer_source Peer.peer_quiet Peer.peer_sink
           (lit "bot") 8080 (lit "/otp") [(lit "Accept", lit "*")] (lit "{}") (lit "HTTP/1.1") 200 (lit " OK")
           [(lit "Server", lit " x"); (lit "Content-LENGTH", lit "  2")] (lit "{}") []
           (Peer.Mk demo_answer []) (Peer.Mk demo_answer [])).
  - done.
  - done.
  - lia.
  - right. by eexists.
  - done.
  - intros s2 _ [= <-]. reflexivity.
  - done.
  - lia.
  - split; [reflexivity| | |by left|by apply Z.leb_le|by apply Z.leb_le].
    + repeat constructor.
    + constructor; [|constructor; [|constructor]]; (split; [reflexivity|]); cbn; [done|].
      intros _. by exists (lit "  ").
Defined.
