(* ===== verification/Webhook.v ===== *)
(** * Delivering login codes: [otpdelivery/webhook_sender.cpp], [otpdelivery/signature.hpp]

    [Deliver] posts a code to the configured webhook and reads its
    acknowledgement.  The JSON library is the class [Json] of [Json.v]. *)

From Stdlib Require Import ZArith Lia Strings.Byte Strings.String.
From stdpp Require Import base decidable list.
From S2P Require Import Prelude OpenSSL Text Transport Json Http Auth.

(** ** Calendar time: [gmtime_r] and [strftime] of the C library *)

Record tm : Type := MkTm { year : Z; month : Z; day : Z; hour : Z; minute : Z; second : Z }.

Definition is_leap (y : Z) : bool := (y mod 4 =? 0) && (negb (y mod 100 =? 0) || (y mod 400 =? 0)).

Definition year_days (y : Z) : Z := if is_leap y then 366 else 365.
Definition month_days (y m : Z) : Z :=
  if m =? 2 then if is_leap y then 29 else 28
  else if (m =? 4) || (m =? 6) || (m =? 9) || (m =? 11) then 30 else 31.

(** The year (month) of a day, and the days of it before. *)
Fixpoint year_of (fuel : nat) (y days : Z) : Z * Z :=
  match fuel with
  | O => (y, days)
  | S fuel => if days <? year_days y then (y, days) else year_of fuel (y + 1) (days - year_days y)
  end.
Fixpoint month_of (fuel : nat) (y m days : Z) : Z * Z :=
  match fuel with
  | O => (m, days)
  | S fuel => if days <? month_days y m then (m, days) else month_of fuel y (m + 1) (days - month_days y m)
  end.
(** The date of a day counted from 1970-01-01; the calendar repeats every 400
    years, which have 146097 days. *)
Definition civil_of_days (days : Z) : Z * Z * Z :=
  let '(y, yday) := year_of 400 (1970 + 400 * (days / 146097)) (days mod 146097) in
  let '(m, mday) := month_of 12 y 1 yday in
  (y, m, mday + 1).

(** For a year that an [int] holds. *)
Definition gmtime (t : Z) : tm :=
  let '(y, m, d) := civil_of_days (t / 86400) in
  let s := t mod 86400 in
  MkTm y m d (s / 3600) (s mod 3600 / 60) (s mod 60).

(** [%02d] *)
Definition two_digits (n : Z) : bytes := [u8 (48 + n / 10 mod 10); u8 (48 + n mod 10)].
(** [%Y-%m-%dT%H:%M:%SZ], for a year of four digits or more. *)
Definition strftime_iso (t : tm) : bytes :=
  to_string (year t) ++ lit "-" ++ two_digits (month t) ++ lit "-" ++ two_digits (day t) ++
  lit "T" ++ two_digits (hour t) ++ lit ":" ++ two_digits (minute t) ++ lit ":" ++
  two_digits (second t) ++ lit "Z".

Definition FormatRfc3339Utc (unix_seconds : Z) : bytes := strftime_iso (gmtime unix_seconds).

(** ** The sender *)

(** [WebhookSender::Config]; the timeout (in milliseconds) is what the connection is made with. *)
Record Config : Type := MkConfig { url : bytes; secret : bytes; timeout : Z }.

Section Deliver.
Context {ssl : OpenSSL} {js : Json}.

Definition Signature (secret timestamp body : bytes) : bytes :=
  let message := timestamp ++ lit "." ++ body in
  lit "sha256=" ++ HexEncode (hmac_sha256 secret message).

(** [j], assigned member by member. *)
Definition payload (request : OtpRequest) (expires_in : Z) : json :=
  JObject
    (set_member (lit "expires_in") (JInteger expires_in)
    (set_member (lit "expires_at") (JString (FormatRfc3339Utc (otp_expires_at request)))
    (set_member (lit "code") (JString (otp_code request))
    (set_member (lit "recipient") (JString (recipient request))
    (set_member (lit "channel") (JString (channel request))
    (set_member (lit "purpose") (JString (purpose request))
    (set_member (lit "delivery_id") (JString (delivery_id request))
    (set_member (lit "version") (JString (lit "1")) [])))))))).

Definition headers_of (secret : bytes) (request : OtpRequest) (timestamp body : bytes) : list (bytes * bytes) :=
  [(lit "Content-Type", lit "application/json"); (lit "Accept", lit "application/json");
   (lit "Idempotency-Key", delivery_id request); (lit "X-Telesrv-Timestamp", timestamp)] ++
  (if decide (secret = []) then [] else [(lit "X-Telesrv-Signature", Signature secret timestamp body)]).

(** What follows the response; [Ok] is the [provider_message_id]. *)
Definition read_ack (response : HttpResponse) : res bytes :=
  if status response =? 204 then Ok []
  else if (status response <? 200) || (300 <=? status response)
  then Throw (DeliveryFailedError (lit "otp webhook rejected the delivery (status " ++
                to_string (status response) ++ lit "): " ++ Http.body response))
  else
    let no_field := Throw (DeliveryFailedError
          (lit "otp webhook returned a 2xx response with no valid " ++ [x22] ++ lit "accepted" ++ [x22] ++ lit " field")) in
    match parse (Http.body response) with
    | Some (JObject members) =>
        match member (lit "accepted") members with
        | Some (JBool true) => value_or_empty members (lit "message_id")
        | Some (JBool false) =>
            error_code <-? value_or_empty members (lit "error_code") ;;
            Throw (DeliveryFailedError (lit "otp webhook did not accept the delivery: " ++ error_code))
        | _ => no_field
        end
    | _ => no_field
    end.

Context {W : Type} (now : Clock W) (connect : bytes -> Z -> M W unit) (read : ReadExact W) (write : WriteBytes W).

Definition Deliver (config : Config) (request : OtpRequest) : M W bytes :=
  t <- now ;;
  let now := seconds_of t in
  let expires_in := otp_expires_at request - now in
  let expires_in := if expires_in <? 1 then 1 else expires_in in
  match dump (payload request expires_in) with
  | None => throw JsonTypeError
  | Some body =>
      let timestamp := to_string now in
      let headers := headers_of (secret config) request timestamp body in
      response <- try_catch (HttpPost connect read write (url config) headers body)
        (fun e => match e with
                  | HttpError w => throw (DeliveryFailedError (lit "otp webhook delivery outcome unknown: " ++ w))
                  | _ => throw e
                  end) ;;
      lift (read_ack response)
  end.

(** The sender of [SendCode], which ignores the message id. *)
Definition WebhookSender (config : Config) : OtpSender W := fun request =>
  Deliver config request ;;; ret tt.

End Deliver.

(** ** The calendar is right *)

(** Days from 1970-01-01, counted: the days of the years before, of the months
    before, and of the month. *)
Definition leap_days_before (y : Z) : Z := (y - 1) / 4 - (y - 1) / 100 + (y - 1) / 400.
Definition days_before_year (y : Z) : Z :=
  365 * (y - 1970) + leap_days_before y - leap_days_before 1970.
Definition days_before_month (y m : Z) : Z :=
  fold_left (fun n k => n + month_days y k) (map Z.of_nat (seq 1 (Z.to_nat (m - 1)))) 0.
Definition days_of_civil (y m d : Z) : Z := days_before_year y + days_before_month y m + (d - 1).

Definition is_date (y m d : Z) : Prop := 1 <= m <= 12 /\ 1 <= d <= month_days y m.

Lemma div_pred y k : 0 < k -> y / k = (y - 1) / k + (if y mod k =? 0 then 1 else 0).
Proof.
  intros Hk. pose proof (Z.div_mod y k ltac:(lia)). pose proof (Z.mod_pos_bound y k Hk).
  destruct (Z.eqb_spec (y mod k) 0).
  - assert (E : (y - 1) / k = y / k - 1); [|lia]. symmetry. apply (Z.div_unique _ _ _ (k - 1)); lia.
  - assert (E : (y - 1) / k = y / k); [|lia]. symmetry. apply (Z.div_unique _ _ _ (y mod k - 1)); lia.
Qed.

Lemma days_before_next_year y : days_before_year (y + 1) = days_before_year y + year_days y.
Proof.
  unfold days_before_year, leap_days_before, year_days, is_leap. replace (y + 1 - 1) with y by lia.
  rewrite (div_pred y 4), (div_pred y 100), (div_pred y 400) by lia.
  assert (Hmod : forall a b, 0 < a -> 0 < b -> y mod (a * b) = 0 -> y mod b = 0).
  { intros a b Ha Hb H. apply Z.div_exact in H; [|lia]. rewrite H.
    replace (a * b * (y / (a * b))) with (a * (y / (a * b)) * b) by lia. by apply Z.mod_mul; lia. }
  assert (H4 : y mod 100 = 0 -> y mod 4 = 0) by (by apply (Hmod 25 4)).
  assert (H100 : y mod 400 = 0 -> y mod 100 = 0) by (by apply (Hmod 4 100)).
  destruct (Z.eqb_spec (y mod 4) 0), (Z.eqb_spec (y mod 100) 0), (Z.eqb_spec (y mod 400) 0); cbn; lia.
Qed.

Lemma days_before_era k : days_before_year (1970 + 400 * k) = 146097 * k.
Proof.
  unfold days_before_year, leap_days_before.
  replace (1970 + 400 * k - 1) with (1969 + (100 * k) * 4) at 1 by lia.
  replace (1970 + 400 * k - 1) with (1969 + (4 * k) * 100) at 1 by lia.
  replace (1970 + 400 * k - 1) with (1969 + k * 400) by lia. rewrite !Z.div_add by lia.
  change (1970 - 1) with 1969. lia.
Qed.

Lemma year_of_spec fuel : forall y days, 0 <= days ->
  days_before_year y + days < days_before_year (y + Z.of_nat fuel) ->
  let '(y', yday) := year_of fuel y days in
  0 <= yday < year_days y' /\ days_before_year y' + yday = days_before_year y + days.
Proof.
  induction fuel as [|fuel IH]; intros y days Hd Hlt; cbn [year_of].
  { rewrite Z.add_0_r in Hlt. lia. }
  destruct (Z.ltb_spec days (year_days y)); [lia|].
  pose proof (days_before_next_year y) as Hy. specialize (IH (y + 1) (days - year_days y) ltac:(lia)).
  replace (y + Z.of_nat (S fuel)) with (y + 1 + Z.of_nat fuel) in Hlt by lia.
  destruct (year_of fuel (y + 1) (days - year_days y)) as [y' yday]. lia.
Qed.

Lemma days_before_next_month y m : 1 <= m -> days_before_month y (m + 1) = days_before_month y m + month_days y m.
Proof.
  intros Hm. unfold days_before_month. replace (Z.to_nat (m + 1 - 1)) with (Z.to_nat (m - 1) + 1)%nat by lia.
  rewrite seq_app, map_app, fold_left_app. cbn [seq map fold_left]. f_equal. f_equal. lia.
Qed.

Lemma month_of_spec y fuel : forall m days, 1 <= m -> 0 <= days ->
  days_before_month y m + days < days_before_month y (m + Z.of_nat fuel) ->
  let '(m', mday) := month_of fuel y m days in
  m <= m' < m + Z.of_nat fuel /\ 0 <= mday < month_days y m' /\
  days_before_month y m' + mday = days_before_month y m + days.
Proof.
  induction fuel as [|fuel IH]; intros m days Hm Hd Hlt; cbn [month_of].
  { rewrite Z.add_0_r in Hlt. lia. }
  destruct (Z.ltb_spec days (month_days y m)); [lia|].
  pose proof (days_before_next_month y m Hm). specialize (IH (m + 1) (days - month_days y m) ltac:(lia) ltac:(lia)).
  replace (m + Z.of_nat (S fuel)) with (m + 1 + Z.of_nat fuel) in Hlt by lia.
  destruct (month_of fuel y (m + 1) (days - month_days y m)) as [m' mday]. lia.
Qed.

Lemma days_of_months y : days_before_month y 13 = year_days y.
Proof. unfold days_before_month, month_days, year_days. destruct (is_leap y); reflexivity. Qed.

(** The date of any day is a date of the calendar, and counts to that day. *)
Lemma civil_of_days_right n : let '(y, m, d) := civil_of_days n in is_date y m d /\ days_of_civil y m d = n.
Proof.
  unfold civil_of_days. pose proof (Z.div_mod n 146097 ltac:(lia)). set (k := n / 146097) in *.
  pose proof (Z.mod_pos_bound n 146097 ltac:(lia)) as Hr. pose proof (days_before_era k) as Ek.
  pose proof (year_of_spec 400 (1970 + 400 * k) (n mod 146097) ltac:(lia)) as Hy.
  pose proof (days_before_era (k + 1)) as Ek'.
  replace (1970 + 400 * (k + 1)) with (1970 + 400 * k + Z.of_nat 400) in Ek' by lia.
  destruct (year_of 400 _ _) as [y yday]. specialize (Hy ltac:(lia)).
  pose proof (month_of_spec y 12 1 yday ltac:(lia) ltac:(lia)) as Hm.
  change (1 + Z.of_nat 12) with 13 in Hm. rewrite days_of_months in Hm.
  change (days_before_month y 1) with 0 in Hm. specialize (Hm ltac:(lia)).
  destruct (month_of 12 y 1 yday) as [m mday]. unfold is_date, days_of_civil. lia.
Qed.

(** ** The text of a time *)

(** What a reader makes of such a text: the second it denotes. *)
Definition read_two (s : bytes) : Z := digits_value 0 (ztake 2 s).
Definition read_rfc3339 (s : bytes) : Z :=
  let rest := default [] (option_map (fun i => zdrop i s) (find_char x2d s)) in
  86400 * days_of_civil (digits_value 0 s) (read_two (zdrop 1 rest)) (read_two (zdrop 4 rest)) +
  3600 * read_two (zdrop 7 rest) + 60 * read_two (zdrop 10 rest) + read_two (zdrop 13 rest).

Lemma read_two_digits n rest : 0 <= n < 100 -> read_two (two_digits n ++ rest) = n.
Proof.
  intros Hn. unfold read_two. rewrite ztake_app by done. unfold two_digits.
  assert (H10 : 0 <= n / 10 < 10) by (split; [apply Z.div_pos; lia | apply Z.div_lt_upper_bound; lia]).
  pose proof (Z.mod_pos_bound n 10 ltac:(lia)). rewrite (Z.mod_small (n / 10)) by lia.
  destruct (digit_u8 (n / 10) ltac:(lia)) as [B1 D1]. destruct (digit_u8 (n mod 10) ltac:(lia)) as [B2 D2].
  cbn [digits_value]. rewrite D1, D2, B1, B2. pose proof (Z.div_mod n 10 ltac:(lia)). lia.
Qed.

Lemma digits_lack c s : forallb is_digit s = true -> is_digit c = false -> lacks c s.
Proof.
  intros Hd Hc. unfold lacks. apply forallb_forall. intros d Hin. rewrite forallb_forall in Hd.
  specialize (Hd d Hin). apply negb_true_iff, bool_decide_eq_false. by intros ->; rewrite Hc in Hd.
Qed.

Lemma digits_value_to_string n rest : 0 <= n < 2 ^ 64 -> starts_with_digit rest = false ->
  digits_value 0 (to_string n ++ rest) = n.
Proof.
  intros Hn Hr. unfold to_string. destruct (Z.ltb_spec n 0); [lia|].
  destruct (decimal_spec 20 n ltac:(lia) ltac:(lia)) as (_ & Hall & Hv).
  rewrite digits_value_app by done. rewrite Hv. by apply digits_value_stop.
Qed.

Lemma read_strftime y m d h mi s : 0 <= y < 2 ^ 64 -> 0 <= m < 100 -> 0 <= d < 100 ->
  0 <= h < 100 -> 0 <= mi < 100 -> 0 <= s < 100 ->
  read_rfc3339 (strftime_iso (MkTm y m d h mi s)) = 86400 * days_of_civil y m d + 3600 * h + 60 * mi + s.
Proof.
  intros Hy Hm Hd Hh Hmi Hs. unfold read_rfc3339, strftime_iso. cbn [year month day hour minute second].
  rewrite digits_value_to_string by done.
  change (lit "-" ++ two_digits m ++ ?r) with (x2d :: two_digits m ++ r).
  destruct (to_string_digits y Hy) as [_ Hdig].
  rewrite find_char_app by (by apply digits_lack). cbn [option_map default].
  rewrite zdrop_app by done.
  unfold id. set (tail := two_digits m ++ _).
  assert (E : forall p q k, x2d :: tail = p ++ q -> zlen p = k -> zdrop k (x2d :: tail) = q).
  { intros p q k -> <-. by apply zdrop_app. }
  rewrite (E (lit "-") _ 1 eq_refl eq_refl).
  rewrite (E (lit "-" ++ two_digits m ++ lit "-") _ 4 eq_refl eq_refl).
  rewrite (E (lit "-" ++ two_digits m ++ lit "-" ++ two_digits d ++ lit "T") _ 7 eq_refl eq_refl).
  rewrite (E (lit "-" ++ two_digits m ++ lit "-" ++ two_digits d ++ lit "T" ++ two_digits h ++ lit ":") _ 10 eq_refl eq_refl).
  rewrite (E (lit "-" ++ two_digits m ++ lit "-" ++ two_digits d ++ lit "T" ++ two_digits h ++ lit ":" ++
              two_digits mi ++ lit ":") _ 13 eq_refl eq_refl).
  unfold tail. rewrite !read_two_digits by lia. lia.
Qed.

Lemma month_days_range y m : 28 <= month_days y m <= 31.
Proof. unfold month_days. repeat case_match; lia. Qed.

Lemma days_before_month_range y k : 0 <= days_before_month y (1 + Z.of_nat k) <= 31 * Z.of_nat k.
Proof.
  induction k as [|k IH]; [done|]. replace (1 + Z.of_nat (S k)) with (1 + Z.of_nat k + 1) by lia.
  rewrite days_before_next_month by lia. pose proof (month_days_range y (1 + Z.of_nat k)). lia.
Qed.

Lemma days_before_year_range y :
  146097 * (y - 1970) - 1000 <= 400 * days_before_year y <= 146097 * (y - 1970) + 1000.
Proof.
  unfold days_before_year, leap_days_before. change ((1970 - 1) / 4 - (1970 - 1) / 100 + (1970 - 1) / 400) with 477.
  assert (Hq : forall k, 0 < k -> y - k <= k * ((y - 1) / k) <= y - 1).
  { intros k Hk. pose proof (Z.div_mod (y - 1) k ltac:(lia)). pose proof (Z.mod_pos_bound (y - 1) k Hk). lia. }
  pose proof (Hq 4 ltac:(lia)). pose proof (Hq 100 ltac:(lia)). pose proof (Hq 400 ltac:(lia)). lia.
Qed.

(** The fields of a time from the epoch on. *)
Lemma gmtime_ranges t : 0 <= t < 2 ^ 60 -> exists y m d h mi s, gmtime t = MkTm y m d h mi s /\
  0 <= y < 2 ^ 64 /\ 0 <= m < 100 /\ 0 <= d < 100 /\ 0 <= h < 100 /\ 0 <= mi < 100 /\ 0 <= s < 100 /\
  86400 * days_of_civil y m d + 3600 * h + 60 * mi + s = t.
Proof.
  intros Ht. unfold gmtime. pose proof (civil_of_days_right (t / 86400)) as Hc.
  destruct (civil_of_days (t / 86400)) as [[y m] d]. destruct Hc as [[Hm Hd] Hc].
  pose proof (month_days_range y m). pose proof (days_before_month_range y (Z.to_nat (m - 1))) as Hbm.
  replace (1 + Z.of_nat (Z.to_nat (m - 1))) with m in Hbm by lia.
  pose proof (Z.div_mod t 86400 ltac:(lia)) as Et. pose proof (Z.mod_pos_bound t 86400 ltac:(lia)) as Hs.
  set (s := t mod 86400) in *. set (n := t / 86400) in *.
  pose proof (days_before_year_range y) as Hy.
  pose proof (Z.div_mod s 3600 ltac:(lia)). pose proof (Z.mod_pos_bound s 3600 ltac:(lia)).
  set (h := s / 3600) in *. set (r := s mod 3600) in *.
  pose proof (Z.div_mod r 60 ltac:(lia)). pose proof (Z.mod_pos_bound r 60 ltac:(lia)).
  assert (E60 : s mod 60 = r mod 60).
  { replace s with (r + (60 * h) * 60) by lia. by apply Z.mod_add. }
  rewrite E60. exists y, m, d, h, (r / 60), (r mod 60). split; [done|]. unfold days_of_civil in *. lia.
Qed.

(** The second of a time from the epoch on is read back from its text. *)
Lemma FormatRfc3339Utc_reads t : 0 <= t < 2 ^ 60 -> read_rfc3339 (FormatRfc3339Utc t) = t.
Proof.
  intros Ht. destruct (gmtime_ranges t Ht) as (y & m & d & h & mi & s & E & Hy & Hm & Hd & Hh & Hmi & Hs & <-).
  unfold FormatRfc3339Utc. rewrite E. by apply read_strftime.
Qed.

(** ** The sender's behaviour *)

(** What counts as an acknowledgement, and the message id it carries. *)
Definition acknowledges `{Json} (response : HttpResponse) (message_id : bytes) : Prop :=
  status response = 204 /\ message_id = [] \/
  200 <= status response < 300 /\ status response <> 204 /\
  exists members, parse (Http.body response) = Some (JObject members) /\
    member (lit "accepted") members = Some (JBool true) /\
    (member (lit "message_id") members = Some (JString message_id) \/
     member (lit "message_id") members = None /\ message_id = []).

Lemma value_or_empty_Ok members key s : value_or_empty members key = Ok s <->
  member key members = Some (JString s) \/ member key members = None /\ s = [].
Proof.
  unfold value_or_empty. destruct (member key members) as [[]|]; split; intros H;
    try (destruct H as [H|[H ?]]); try congruence; auto; injection H as <-; auto.
Qed.

Lemma read_ack_Ok `{Json} response message_id :
  read_ack response = Ok message_id <-> acknowledges response message_id.
Proof.
  unfold read_ack, acknowledges. split.
  - destruct (Z.eqb_spec (status response) 204) as [->|Hne]; [intros [= <-]; by left|].
    destruct (Z.ltb_spec (status response) 200), (Z.leb_spec 300 (status response)); try done. cbn [orb].
    destruct (parse _) as [[]|]; try done. destruct (member _ members) as [[| [] | | | | |]|] eqn:Ea; try done.
    + intros Hid%value_or_empty_Ok. right. eauto 10.
    + unfold rbind. by destruct (value_or_empty _ _).
  - intros [[-> ->]|(Hr & Hne & members & -> & -> & Hid)]; [done|].
    apply Z.eqb_neq in Hne as ->. destruct (Z.ltb_spec (status response) 200), (Z.leb_spec 300 (status response)); try lia.
    cbn [orb]. by apply value_or_empty_Ok.
Qed.

(** A refusal is a [DeliveryFailedError], but for an id or an error code that
    is not a text. *)
Lemma read_ack_Throw `{Json} response e :
  read_ack response = Throw e -> e = JsonTypeError \/ exists w, e = DeliveryFailedError w.
Proof.
  assert (Hv : forall ms k e, value_or_empty ms k = Throw e -> e = JsonTypeError).
  { intros ms k e'. unfold value_or_empty. destruct (member k ms) as [[]|]; congruence. }
  unfold read_ack. destruct (_ =? 204); [done|]. destruct (_ || _); [intros [= <-]; eauto|].
  destruct (parse _) as [[]|]; try (intros [= <-]; by eauto).
  destruct (member _ members) as [[| [] | | | | |]|]; try (intros [= <-]; by eauto).
  - eauto.
  - unfold rbind. destruct (value_or_empty _ _) as [c|e'] eqn:E; intros [= <-]; eauto.
Qed.

Lemma to_string_plain n : 0 <= n < 2 ^ 64 -> plain (to_string n).
Proof.
  intros Hn. destruct (to_string_digits n Hn) as [_ H]. unfold plain. rewrite forallb_forall in *.
  intros c Hc. specialize (H c Hc). unfold is_digit in H. lia.
Qed.

Lemma plain_app a b : plain a -> plain b -> plain (a ++ b).
Proof. unfold plain. rewrite forallb_app. by intros -> ->. Qed.

Lemma two_digits_plain n : 0 <= n -> plain (two_digits n).
Proof.
  intros Hn. unfold two_digits, plain. cbn [forallb].
  pose proof (Z.mod_pos_bound n 10 ltac:(lia)). pose proof (Z.mod_pos_bound (n / 10) 10 ltac:(lia)).
  destruct (digit_u8 (n / 10 mod 10) ltac:(lia)) as [-> _]. destruct (digit_u8 (n mod 10) ltac:(lia)) as [-> _]. lia.
Qed.

(** The texts the payload is made of. *)
Lemma FormatRfc3339Utc_plain t : 0 <= t < 2 ^ 60 -> plain (FormatRfc3339Utc t).
Proof.
  intros Ht. destruct (gmtime_ranges t Ht) as (y & m & d & h & mi & s & E & Hy & Hm & Hd & Hh & Hmi & Hs & _).
  unfold FormatRfc3339Utc. rewrite E. unfold strftime_iso. cbn [year month day hour minute second].
  repeat apply plain_app; (apply to_string_plain; lia) || (apply two_digits_plain; lia) || done.
Qed.

Definition plain_request (r : OtpRequest) : Prop :=
  plain (delivery_id r) /\ plain (purpose r) /\ plain (channel r) /\ plain (recipient r) /\
  plain (otp_code r) /\ 0 <= otp_expires_at r < 2 ^ 60.

(** What the payload says, in the order of the keys. *)
Lemma payload_members r n : payload r n = JObject
  [(lit "channel", JString (channel r)); (lit "code", JString (otp_code r));
   (lit "delivery_id", JString (delivery_id r)); (lit "expires_at", JString (FormatRfc3339Utc (otp_expires_at r)));
   (lit "expires_in", JInteger n); (lit "purpose", JString (purpose r));
   (lit "recipient", JString (recipient r)); (lit "version", JString (lit "1"))].
Proof. reflexivity. Qed.

Lemma payload_dumps `{JsonLaws} r n : plain_request r -> 0 <= n < 2 ^ 63 ->
  exists s, dump (payload r n) = Some s /\ parse s = Some (payload r n).
Proof.
  intros (? & ? & ? & ? & ? & Ht) Hn. rewrite payload_members. apply json_flat; [|reflexivity].
  pose proof (FormatRfc3339Utc_plain _ Ht). repeat constructor; cbn; done || lia.
Qed.

(** *** The exchange *)

Section Exchange.
Context {ssl : OpenSSL} {js : Json} {js_laws : JsonLaws}.
Context {W : Type} (now : Clock W) (connect : bytes -> Z -> M W unit) (read : ReadExact W) (write : WriteBytes W).

(** Nothing is touched that the clock and the connection leave alone. *)
Lemma Deliver_frames {V} (look : W -> V) config request :
  frames look now -> (forall h p, frames look (connect h p)) -> (forall n, frames look (read n)) ->
  (forall d, frames look (write d)) -> frames look (Deliver now connect read write config request).
Proof.
  intros Hn Hc Hr Hw. apply frames_bind; [done|]. intros t.
  cbv zeta. case_match; [|apply frames_throw]. apply frames_bind; [|intros r; apply frames_lift].
  apply frames_catch; [|by intros []]. apply frames_bind; [apply frames_lift|]. intros u.
  apply frames_bind; [apply frames_catch; [apply Hc|by intros []]|]. intros _.
  apply frames_bind; [by apply frames_catch|]. intros _. by apply ReadResponse_quiet.
Qed.

(** So the sender is one a login system may have: it leaves the codes alone. *)
Lemma WebhookSender_frames {V} (look : W -> V) config request :
  frames look now -> (forall h p, frames look (connect h p)) -> (forall n, frames look (read n)) ->
  (forall d, frames look (write d)) -> frames look (WebhookSender now connect read write config request).
Proof. intros. by apply frames_bind; [apply Deliver_frames|]. Qed.

(** Every refusal, whatever the network does. *)
Lemma Deliver_throws config request w e w' :
  (forall w e w', now w <> (Throw e, w')) ->
  (forall h p s e s', connect h p s = (Throw e, s') -> exists w, e = SocketError w) ->
  Deliver now connect read write config request w = (Throw e, w') ->
  e = JsonTypeError \/ exists what, e = DeliveryFailedError what.
Proof.
  intros Hnow Hc. unfold Deliver, bind at 1. destruct (now w) as [[t|e0] w1] eqn:E; [|by destruct (Hnow w e0 w1)].
  cbv zeta. case_match; [|intros [= <- <-]; by left].
  unfold bind, try_catch. destruct (HttpPost _ _ _ _ _ _ w1) as [[r|e1] w2] eqn:Ep.
  - intros [= Hr <-]. by apply (read_ack_Throw r).
  - destruct (HttpPost_throws connect read write _ _ _ Hc _ _ _ Ep) as [wh ->].
    intros [= <- <-]. right. by eexists.
Qed.

End Exchange.

(** ** A small JSON library

    Flat objects of plain texts, numbers and truth values, without spaces. *)
Module ToyJson.

Definition quote (s : bytes) : bytes := x22 :: s ++ [x22].
Definition print_value (v : json) : bytes :=
  match v with
  | JString s => quote s
  | JInteger n => to_string n
  | JBool b => lit (if b then "true" else "false")
  | _ => lit "null"
  end.
Definition print_member (m : bytes * json) : bytes := quote (fst m) ++ x3a :: print_value (snd m).
Fixpoint print_tail (members : list (bytes * json)) : bytes :=
  match members with [] => [x7d] | m :: t => x2c :: print_member m ++ print_tail t end.
Definition print (j : json) : option bytes :=
  match j with
  | JObject [] => Some (lit "{}")
  | JObject (m :: t) => Some (x7b :: print_member m ++ print_tail t)
  | _ => None
  end.

Definition read_text (s : bytes) : option (bytes * bytes) :=
  match s with
  | x22 :: t => option_map (fun i => (ztake i t, zdrop (i + 1) t)) (find_char x22 t)
  | _ => None
  end.
Definition read_value (s : bytes) : option (json * bytes) :=
  match read_text s with
  | Some (text, rest) => Some (JString text, rest)
  | None =>
      if decide (ztake 4 s = lit "true") then Some (JBool true, zdrop 4 s)
      else if decide (ztake 5 s = lit "false") then Some (JBool false, zdrop 5 s)
      else if starts_with_digit s
      then option_map (fun i => (JInteger (digits_value 0 s), zdrop i s)) (find_first_not_of is_digit s)
      else None
  end.
Definition read_member (s : bytes) : option ((bytes * json) * bytes) :=
  match read_text s with
  | Some (key, x3a :: t) => option_map (fun '(v, rest) => ((key, v), rest)) (read_value t)
  | _ => None
  end.
Fixpoint read_tail (fuel : nat) (s : bytes) : option (list (bytes * json)) :=
  match fuel, s with
  | S fuel, x2c :: t =>
      match read_member t with
      | Some (m, rest) => option_map (cons m) (read_tail fuel rest)
      | None => None
      end
  | _, [x7d] => Some []
  | _, _ => None
  end.
Definition read (s : bytes) : option json :=
  match s with
  | [x7b; x7d] => Some (JObject [])
  | x7b :: t => option_map JObject (read_tail (length s) (x2c :: t))
  | _ => None
  end.

#[export] Instance toy : Json := {| parse := read; dump := print |}.

Lemma plain_lacks s : plain s -> lacks x22 s.
Proof.
  unfold plain, lacks. rewrite !forallb_forall. intros H c Hc. specialize (H c Hc).
  apply negb_true_iff, bool_decide_eq_false. intros ->. done.
Qed.

Lemma read_text_quote s rest : plain s -> read_text (quote s ++ rest) = Some (s, rest).
Proof.
  intros Hs. unfold quote. cbn [app read_text]. rewrite <- app_assoc. cbn [app].
  rewrite find_char_app by (by apply plain_lacks). cbn [option_map]. rewrite ztake_app by done.
  change (x22 :: rest) with ([x22] ++ rest). rewrite app_assoc. f_equal. f_equal.
  apply zdrop_app. by rewrite zlen_app.
Qed.

Lemma read_value_print v rest : flat v -> (exists t, rest = x7d :: t \/ rest = x2c :: t) ->
  read_value (print_value v ++ rest) = Some (v, rest).
Proof.
  intros Hf Hrest. destruct v as [|b|n| |s| |]; try done; cbn [print_value flat] in *; unfold read_value.
  - by destruct b.
  - destruct (to_string_digits n ltac:(lia)) as [Hne Hd].
    assert (Hr : starts_with_digit rest = false) by (by destruct Hrest as [t [->| ->]]).
    rewrite digits_value_to_string by (done || lia).
    rewrite find_first_skips by done. destruct (to_string n) as [|c d] eqn:E; [done|].
    cbn [forallb] in Hd. apply andb_true_iff in Hd as [Hc _].
    assert (Hq : forall t, read_text (c :: t) = None).
    { intros t. unfold read_text. destruct c; try done. }
    cbn [app starts_with_digit]. rewrite Hq, Hc.
    rewrite !decide_False; [|intros H; by injection H as -> _|intros H; by injection H as -> _].
    assert (Hz : find_first_not_of is_digit rest = Some 0) by (by destruct Hrest as [t [->| ->]]).
    rewrite Hz. cbn [option_map]. rewrite Z.add_0_r, app_comm_cons, zdrop_app by done. done.
  - by rewrite read_text_quote.
Qed.

Lemma read_member_print k v rest : plain k -> flat v -> (exists t, rest = x7d :: t \/ rest = x2c :: t) ->
  read_member (print_member (k, v) ++ rest) = Some ((k, v), rest).
Proof.
  intros Hk Hv Hr. unfold read_member, print_member. cbn [fst snd]. rewrite <- app_assoc.
  rewrite read_text_quote by done. cbn [app]. by rewrite read_value_print.
Qed.

Lemma read_tail_print ms : forall fuel, Forall (fun m => plain (fst m) /\ flat (snd m)) ms ->
  (length ms < fuel)%nat -> read_tail fuel (print_tail ms) = Some ms.
Proof.
  induction ms as [|[k v] ms IH]; intros fuel Hf Hl; (destruct fuel as [|fuel]; [cbn in Hl; lia|]); [done|].
  apply Forall_cons in Hf as [[Hk Hv] Hf]. cbn [print_tail read_tail]. rewrite read_member_print; [|done|done|].
  - cbn in Hl. by rewrite IH by (done || lia).
  - destruct ms; [by eexists; left | by eexists; right].
Qed.

Lemma print_tail_length ms : (length ms < length (print_tail ms))%nat.
Proof. induction ms as [|m ms IH]; cbn; [lia|]. rewrite length_app. lia. Qed.

#[export] Instance toy_laws : JsonLaws.
Proof.
  intros [|[k v] ms] Hf _; cbn [dump toy print parse]; [by eexists|].
  eexists. split; [done|]. change (x2c :: print_member (k, v) ++ print_tail ms) with (print_tail ((k, v) :: ms)).
  assert (E : read (x7b :: print_member (k, v) ++ print_tail ms) =
    option_map JObject (read_tail (length (x7b :: print_member (k, v) ++ print_tail ms)) (print_tail ((k, v) :: ms))))
    by reflexivity.
  rewrite E, read_tail_print; [done|done|]. cbn [length]. rewrite length_app.
  pose proof (print_tail_length ms). lia.
Qed.

End ToyJson.

(** ** Properties *)


Definition demo_request : OtpRequest :=
  MkOtpRequest (lit "otp_00") (lit "login_sms") (lit "sms") (lit "+15550001") (lit "12345") 1700000300.
Definition demo_ack : bytes := lit "{" ++ ToyJson.quote (lit "accepted") ++ lit ":true}".
Definition demo_response : bytes :=
  response_head (status_line (lit "HTTP/1.1") 200 (lit " OK")) [(lit "Content-Length", lit " 17")] ++ demo_ack.
(** A peer that always has this answer ready. *)
Definition demo_write : WriteBytes Peer.t := fun d s =>
  (Ok tt, Peer.Mk demo_response (Peer.written s ++ d)).
Definition demo_clock : Clock Peer.t := ret (1700000000 * 1000000000).

