(* ===== verification/Password.v ===== *)
(** * Two-step verification: [check_password.cpp]

    [GetPassword] rolls and stores a challenge, [CheckPassword] verifies a
    proof against what is stored.  The password store is any implementation of
    [IPasswordStore]; [PasswordStoreSpec] is what its header documents. *)

From Stdlib Require Import ZArith Lia Strings.Byte Strings.String.
From stdpp Require Import base decidable list.
From S2P Require Import Prelude OpenSSL Srp Store.

Import PasswordSettings.

Section Password.
Context {ssl : OpenSSL} {W : Type} (rand : RandomFill W) (passwords : IPasswordStore W).

Definition DefaultSecureRandom : bytes := lit "telesrv-tdesktop-dev-secure-rand".

Definition DefaultPasswordAlgo : PasswordAlgo.t :=
  PasswordAlgo.Mk [xec; xf8; x73; x76; x65; xbc; x77; x5a] SrpBaseSalt2 kSrpBaseG SrpBaseP.

Definition DefaultPasswordSettings : PasswordSettings.t :=
  Mk false false false [] DefaultSecureRandom DefaultPasswordAlgo None 0 [] [] [].

Definition NormalizePasswordSettings (s : PasswordSettings.t) : PasswordSettings.t :=
  let secure_random_ := if decide (secure_random s = []) then DefaultSecureRandom
                        else secure_random s in
  let new_algo_ := if decide (PasswordAlgo.p (new_algo s) = []) then DefaultPasswordAlgo
                   else new_algo s in
  let current_algo_ := match current_algo s with
                       | None => if has_password s then Some new_algo_ else None
                       | Some a => Some a
                       end in
  Mk (has_recovery s) (has_secure_values s) (has_password s) (hint s) secure_random_ new_algo_
     current_algo_ (srp_id s) (srp_verifier s) (srp_b_secret s) (srp_b s).

Definition LoadNormalized (user_id : Z) : M W PasswordSettings.t :=
  found <- GetByUser passwords user_id ;;
  ret (NormalizePasswordSettings
         match found with Some s => s | None => DefaultPasswordSettings end).

(** The salt of the current verifier. *)
Definition current_salt1 (s : PasswordSettings.t) : bytes :=
  match current_algo s with
  | Some a => PasswordAlgo.salt1 a
  | None => PasswordAlgo.salt1 (new_algo s)
  end.

Definition CheckSrp (settings : PasswordSettings.t) (check : PasswordCheck.t) : res unit :=
  if PasswordCheck.empty check then
    if has_password settings then Throw PasswordHashInvalidError else Ok tt
  else if negb (has_password settings) then Throw PasswordHashInvalidError
  else if (srp_id settings =? 0) || negb (srp_id settings =? PasswordCheck.srp_id check)
  then Throw SrpIdInvalidError
  else if bool_decide (srp_verifier settings = []) || bool_decide (srp_b_secret settings = []) ||
          bool_decide (srp_b settings = [])
  then Throw SrpPasswordChangedError
  else match SrpCalcM1 (current_salt1 settings) (srp_verifier settings) (srp_b_secret settings)
               (srp_b settings) (PasswordCheck.a check) with
       | Throw _ => Throw PasswordHashInvalidError
       | Ok expected_m1 =>
           if decide (expected_m1 = PasswordCheck.m1 check) then Ok tt
           else Throw PasswordHashInvalidError
       end.

(** [settings.srp_b_secret = …; settings.srp_b = …; settings.srp_id = …] *)
Definition with_challenge (s : PasswordSettings.t) (c : SrpChallenge.t) (srp_id_ : Z)
    : PasswordSettings.t :=
  Mk (has_recovery s) (has_secure_values s) (has_password s) (hint s) (secure_random s) (new_algo s)
     (current_algo s) srp_id_ (srp_verifier s) (SrpChallenge.b_secret c) (SrpChallenge.b c).

Definition GetPassword (user_id : Z) : M W PasswordSettings.t :=
  settings <- LoadNormalized user_id ;;
  if negb (has_password settings) then ret settings
  else
    challenge <- SrpMakeChallenge rand (srp_verifier settings) ;;
    srp_id_ <- (if srp_id settings =? 0 then
                  random_bytes <- rand 8 ;;
                  let id := s64 (le_val random_bytes) in
                  ret (if negb (id =? 0) then id else 1)
                else ret (srp_id settings)) ;;
    let settings := with_challenge settings challenge srp_id_ in
    Save passwords user_id settings ;;;
    ret settings.

Definition CheckPassword (user_id : Z) (check : PasswordCheck.t) : M W unit :=
  settings <- LoadNormalized user_id ;;
  lift (CheckSrp settings check).

End Password.

(** ** The store *)

(** The settings whose key derivation is not blank; a store keeps of them what
    a proof is checked with (the Postgres one has one set of columns for both
    algorithms). *)
Definition storable (s : PasswordSettings.t) : Prop :=
  forall a, current_algo s = Some a -> a <> PasswordAlgo.Mk [] [] 0 [].
Definition same_proof (s' s : PasswordSettings.t) : Prop :=
  has_password s' = has_password s /\ srp_id s' = srp_id s /\ srp_verifier s' = srp_verifier s /\
  srp_b_secret s' = srp_b_secret s /\ srp_b s' = srp_b s /\
  forall a, current_algo s = Some a -> current_algo s' = Some a.

Class PasswordStoreSpec {W} (passwords : IPasswordStore W)
    (stored : W -> Z -> option PasswordSettings.t) : Prop := {
  GetByUser_spec i w : exists w',
    GetByUser passwords i w = (Ok (stored w i), w') /\ stored w' = stored w;
  Save_spec i s w : storable s -> exists w' s', Save passwords i s w = (Ok tt, w') /\
    stored w' i = Some s' /\ same_proof s' s /\ forall j, j <> i -> stored w' j = stored w j }.

(** What a user's row is read as. *)
Definition normalized (o : option PasswordSettings.t) : PasswordSettings.t :=
  NormalizePasswordSettings match o with Some s => s | None => DefaultPasswordSettings end.

Lemma normalize_idem s :
  NormalizePasswordSettings (NormalizePasswordSettings s) = NormalizePasswordSettings s.
Proof.
  unfold NormalizePasswordSettings. cbn.
  rewrite (decide_False (P := (if decide (secure_random s = []) then _ else _) = []))
    by (by case_decide).
  rewrite (decide_False (P := PasswordAlgo.p _ = [])) by (by case_decide).
  by destruct (current_algo s), (has_password s).
Qed.

Lemma CheckSrp_same {ssl : OpenSSL} s' s check : same_proof s' s -> is_Some (current_algo s) ->
  CheckSrp (NormalizePasswordSettings s') check = CheckSrp s check.
Proof.
  intros (Hp & Hi & Hv & Hs & Hb & Ha) [a E]. specialize (Ha a E). unfold CheckSrp, NormalizePasswordSettings, current_salt1.
  cbn. by rewrite Hp, Hi, Hv, Hs, Hb, Ha, E.
Qed.

Lemma normalized_current o : has_password (normalized o) = true -> is_Some (current_algo (normalized o)).
Proof.
  unfold normalized, NormalizePasswordSettings. cbn. intros ->. by destruct (current_algo _).
Qed.

Section Laws.
Context {ssl : OpenSSL} {laws : OpenSSLLaws} {W : Type}.
Context (rand : RandomFill W) (passwords : IPasswordStore W).
Context (stored : W -> Z -> option PasswordSettings.t).
Context {spec : PasswordStoreSpec passwords stored} {random : RandomSource rand stored}.

Lemma LoadNormalized_run user_id w : exists w',
  LoadNormalized passwords user_id w = (Ok (normalized (stored w user_id)), w') /\
  stored w' = stored w.
Proof.
  destruct (GetByUser_spec user_id w) as (w' & E & Hs). exists w'. unfold LoadNormalized.
  by erewrite bind_Ok by exact E.
Qed.

Lemma CheckPassword_run user_id check w : exists w',
  CheckPassword passwords user_id check w =
    (CheckSrp (normalized (stored w user_id)) check, w') /\ stored w' = stored w.
Proof.
  destruct (LoadNormalized_run user_id w) as (w' & E & Hs). exists w'. unfold CheckPassword.
  by erewrite bind_Ok by exact E.
Qed.

(** [srp_id] stays, or is drawn; it is never the sentinel. *)
Lemma draw_srp_id current w : exists i w',
  (if current =? 0 then
     random_bytes <- rand 8 ;;
     let id := s64 (le_val random_bytes) in
     ret (if negb (id =? 0) then id else 1)
   else ret current) w = (Ok i, w') /\
  stored w' = stored w /\ i <> 0 /\ (current <> 0 -> i = current).
Proof.
  destruct (Z.eqb_spec current 0); [|by exists current, w].
  destruct (random_fill 8 w ltac:(lia)) as (r & w' & E & _ & Hs).
  erewrite bind_Ok by exact E. eexists _, w'. split; [done|]. split; [done|].
  split; [|done]. destruct (Z.eqb_spec (s64 (le_val r)) 0); cbn; lia.
Qed.

End Laws.

(** C28. Two-step verification completes.  For an account protected by a
    password, [GetPassword] issues a challenge (keeping the account's srp_id,
    or assigning one that is not the sentinel 0) and touches no other row; and
    as long as the row stays as it was left, [CheckPassword] accepts the proof
    the client computes from the right password and what it was sent, for any
    client exponent (unless the scrambling hash is zero, which is refused as a
    wrong proof). *)
Theorem GetPassword_CheckPassword {ssl : OpenSSL} {laws : OpenSSLLaws} {W} (rand : RandomFill W)
    (passwords : IPasswordStore W) (stored : W -> Z -> option PasswordSettings.t)
    (spec : PasswordStoreSpec passwords stored) (random : RandomSource rand stored)
    (user_id : Z) (password : bytes) (w : W) :
  let row := normalized (stored w user_id) in
  has_password row = true -> storable row ->
  SrpComputeVerifier password (current_salt1 row) SrpBaseSalt2 = Ok (srp_verifier row) ->
  exists s w', GetPassword rand passwords user_id w = (Ok s, w') /\
    srp_id s <> 0 /\ (srp_id row <> 0 -> srp_id s = srp_id row) /\
    (forall j, j <> user_id -> stored w' j = stored w j) /\
    forall exponent w'', stored w'' user_id = stored w' user_id ->
      exists answer,
        SrpClientProof password (current_salt1 s) SrpBaseSalt2 (srp_b s) exponent = Ok answer /\
        fst (CheckPassword passwords user_id
          (PasswordCheck.Mk false (srp_id s) (SrpClientAnswer.a answer) (SrpClientAnswer.m1 answer))
          w'') =
          (if is_zero (Sha256Concat [SrpClientAnswer.a answer; srp_b s])
           then Throw PasswordHashInvalidError else Ok tt).
Proof.
  intros row Hp Hst Hv. destruct (LoadNormalized_run passwords stored user_id w) as (w1 & E1 & Hs1).
  destruct (SrpChallenge_accepts rand stored password (current_salt1 row) _ w1 Hv)
    as (bs & B & w2 & Ech & Hs2 & Hbs & HB & Hclient).
  destruct (draw_srp_id rand stored (srp_id row) w2) as (i & w3 & Ei & Hs3 & Hi0 & Hi).
  set (s := with_challenge row (SrpChallenge.Mk bs B) i).
  destruct (Save_spec user_id s w3 Hst) as (w4 & s' & E4 & Hrow & Hsame & Hothers).
  exists s, w4. split.
  { unfold GetPassword. erewrite bind_Ok by exact E1. fold row. rewrite Hp. cbn [negb].
    erewrite bind_Ok by exact Ech. erewrite bind_Ok by exact Ei. by erewrite bind_Ok by exact E4. }
  split; [done|]. split; [done|]. split; [intros j Hj; rewrite Hothers by done; congruence|].
  intros exponent w'' Hw''. destruct (Hclient exponent) as (answer & Ecl & HA & Em).
  exists answer. split; [exact Ecl|].
  destruct (CheckPassword_run passwords stored user_id (PasswordCheck.Mk false i
    (SrpClientAnswer.a answer) (SrpClientAnswer.m1 answer)) w'') as (w5 & E5 & _).
  unfold s at 1. cbn [srp_id with_challenge]. rewrite E5. cbn [fst]. rewrite Hw'', Hrow.
  unfold normalized. rewrite (CheckSrp_same s' s) by (done || by apply normalized_current).
  unfold s, CheckSrp. cbn [PasswordCheck.empty has_password with_challenge srp_id srp_verifier
    srp_b_secret srp_b PasswordCheck.srp_id PasswordCheck.a PasswordCheck.m1
    SrpChallenge.b_secret SrpChallenge.b]. rewrite Hp.
  cbn [negb]. rewrite Z.eqb_refl. destruct (Z.eqb_spec i 0); [done|]. cbn [orb negb].
  destruct (SrpComputeVerifier_run password (current_salt1 row)) as (v & Ev & Lv & _).
  rewrite Hv in Ev. injection Ev as <-.
  rewrite !bool_decide_eq_false_2 by (intros E0; rewrite E0 in *; discriminate). cbn [orb].
  change (current_salt1 _) with (current_salt1 row). rewrite Em.
  destruct (is_zero _); [done|]. by rewrite decide_True.
Qed.


(** ** Witnesses: a store that is a function *)

Section Witnesses.
#[local] Existing Instances Toy.toy Toy.toy_laws.

Definition table : Type := Z -> option PasswordSettings.t.
Definition table_store : IPasswordStore table :=
  MkPasswordStore table (fun i => gets (fun t => t i))
    (fun i s => modify (fun t j => if j =? i then Some s else t j)).

Lemma table_spec : PasswordStoreSpec table_store Datatypes.id.
Proof.
  split; cbn; unfold Datatypes.id.
  - by eexists.
  - intros i s w _. eexists _, s. split; [done|]. cbn. rewrite Z.eqb_refl.
    split; [done|]. split; [done|]. intros j Hj. by destruct (Z.eqb_spec j i).
Qed.

(** Account 7, protected, whose verifier is [v]. *)
Definition protected_row (v : bytes) : PasswordSettings.t :=
  Mk false false true [] [] DefaultPasswordAlgo (Some DefaultPasswordAlgo) 0 v [] [].
Definition protected_table (v : bytes) : table :=
  fun i => if i =? 7 then Some (protected_row v) else None.

Lemma protected_storable : forall a, Some DefaultPasswordAlgo = Some a -> a <> PasswordAlgo.Mk [] [] 0 [].
Proof. by intros a [= <-]. Qed.

Lemma GetPassword_CheckPassword_witness :
  let salt := PasswordAlgo.salt1 DefaultPasswordAlgo in
  exists v, SrpComputeVerifier (lit "hunter2") salt SrpBaseSalt2 = Ok v /\
  exists s w', GetPassword Toy.zeros table_store 7 (protected_table v) = (Ok s, w') /\
    srp_id s <> 0 /\ (0 <> 0 -> srp_id s = 0) /\
    (forall j, j <> 7 -> w' j = protected_table v j) /\
    forall exponent (w'' : table), w'' 7 = w' 7 ->
      exists answer,
        SrpClientProof (lit "hunter2") (current_salt1 s) SrpBaseSalt2 (srp_b s) exponent = Ok answer /\
        fst (CheckPassword table_store 7
          (PasswordCheck.Mk false (srp_id s) (SrpClientAnswer.a answer) (SrpClientAnswer.m1 answer))
          w'') =
          (if is_zero (Sha256Concat [SrpClientAnswer.a answer; srp_b s])
           then Throw PasswordHashInvalidError else Ok tt).
Proof.
  intros salt. destruct (SrpComputeVerifier_run (lit "hunter2") salt) as (v & Ev & _).
  exists v. split; [exact Ev|].
  exact (GetPassword_CheckPassword Toy.zeros table_store Datatypes.id table_spec
    Toy.zeros_random 7 (lit "hunter2") (protected_table v) eq_refl protected_storable Ev).
Defined.


End Witnesses.
