(* ===== verification/Bind.v ===== *)
(** * Binding temporary keys: [bind_temp_auth_key.cpp]

    [BindTempAuthKey] over any stores.  [BindStores] is the part of the stores'
    contract it relies on: [keys] are the rows of auth_keys, [bindings] those
    of temp_auth_key_bindings. *)

From Stdlib Require Import ZArith Lia Strings.Byte Strings.String.
From stdpp Require Import base decidable list gmap.
From S2P Require Import Prelude OpenSSL Messages Cipher Store.

Module BindRequest.
Record t : Type := Mk {
  temp_auth_key_id : bytes; temp_session_id : Z; perm_auth_key_id : Z; nonce : Z;
  expires_at : Z; encrypted_message : bytes }.
End BindRequest.

(** The little-endian reading of a key id, and back. *)
Definition AuthKeyIdToInt64 (id : bytes) : Z := s64 (le_val id).
Definition AuthKeyIdFromInt64 (v : Z) : bytes := le_bytes 8 (u64 v).

Lemma AuthKeyId_roundtrip id : zlen id = 8 -> AuthKeyIdFromInt64 (AuthKeyIdToInt64 id) = id.
Proof. apply key_id_roundtrip. Qed.

Section Bind.
Context {ssl : OpenSSL} {W : Type} (now : Clock W).
Context (auth_keys : IAuthKeyStore W) (temp_keys : ITempAuthKeyBindingStore W).

Definition NowUnix : M W Z :=
  t <- now ;;
  ret (seconds_of t).

(** [try { DecryptBindAuthKeyInner } catch (BindEncryptedMessageInvalidError)] *)
Definition OpenEnvelope (perm_key encrypted_message : bytes) : res BindAuthKeyInner.t :=
  match DecryptBindAuthKeyInner perm_key encrypted_message with
  | Throw BindEncryptedMessageInvalidError => Throw EncryptedMessageInvalidError
  | r => r
  end.

Definition inner_matches (inner : BindAuthKeyInner.t) (req : BindRequest.t) : bool :=
  (BindAuthKeyInner.nonce inner =? BindRequest.nonce req) &&
  (BindAuthKeyInner.temp_auth_key_id inner =? AuthKeyIdToInt64 (BindRequest.temp_auth_key_id req)) &&
  (BindAuthKeyInner.perm_auth_key_id inner =? BindRequest.perm_auth_key_id req) &&
  (BindAuthKeyInner.temp_session_id inner =? BindRequest.temp_session_id req) &&
  (BindAuthKeyInner.expires_at inner =? BindRequest.expires_at req).

Definition binding_of (req : BindRequest.t) (expires_at : Z) : TempAuthKeyBinding.t :=
  TempAuthKeyBinding.Mk (BindRequest.temp_auth_key_id req) (BindRequest.perm_auth_key_id req)
    (BindRequest.nonce req) (BindRequest.temp_session_id req) expires_at
    (BindRequest.encrypted_message req).

Definition BindTempAuthKey (req : BindRequest.t) : M W TempAuthKeyBindingResult :=
  guard (0 <? BindRequest.expires_at req) ExpiresAtInvalidError ;;;
  let perm_id := AuthKeyIdFromInt64 (BindRequest.perm_auth_key_id req) in
  pair <- LoadBindingKeys auth_keys (BindRequest.temp_auth_key_id req) perm_id ;;
  guard (temporary_found pair) TempAuthKeyEmptyError ;;;
  t <- NowUnix ;;
  guard (t <? AuthKeyData.expires_at (temporary pair)) TempAuthKeyEmptyError ;;;
  guard (permanent_found pair && (AuthKeyData.expires_at (permanent pair) =? 0))
    EncryptedMessageInvalidError ;;;
  inner <- lift (OpenEnvelope (AuthKeyData.value (permanent pair))
                   (BindRequest.encrypted_message req)) ;;
  guard (inner_matches inner req) EncryptedMessageInvalidError ;;;
  t <- NowUnix ;;
  guard (t <? AuthKeyData.expires_at (temporary pair)) TempAuthKeyEmptyError ;;;
  SaveWithState temp_keys (binding_of req (AuthKeyData.expires_at (temporary pair))).

End Bind.

(** ** The stores *)

Class BindStores {W} (now : Clock W) (auth_keys : IAuthKeyStore W)
    (temp_keys : ITempAuthKeyBindingStore W) (keys : W -> gmap bytes AuthKeyData.t)
    (bindings : W -> gmap bytes TempAuthKeyBinding.t) : Prop := {
  bs_now : ClockSource now (fun w => (keys w, bindings w));
  bs_load t p w : exists w',
    LoadBindingKeys auth_keys t p w =
      (Ok (MkBindingKeys (default empty_key_data (keys w !! t)) (bool_decide (is_Some (keys w !! t)))
             (default empty_key_data (keys w !! p)) (bool_decide (is_Some (keys w !! p)))), w') /\
    keys w' = keys w /\ bindings w' = bindings w;
  bs_save b w : exists r w', SaveWithState temp_keys b w = (r, w') /\
    match r with
    | Ok _ => bindings w' = <[TempAuthKeyBinding.temp_auth_key_id b := b]> (bindings w)
    | Throw _ => bindings w' = bindings w
    end }.

Section Laws.
Context {ssl : OpenSSL} {laws : OpenSSLLaws} {W : Type} (now : Clock W).
Context (auth_keys : IAuthKeyStore W) (temp_keys : ITempAuthKeyBindingStore W).
Context (keys : W -> gmap bytes AuthKeyData.t) (bindings : W -> gmap bytes TempAuthKeyBinding.t).
Context {stores : BindStores now auth_keys temp_keys keys bindings}.

(** [t] is a time the clock shows. *)
Definition shows (t : Z) : Prop := exists w n w', now w = (Ok n, w') /\ t = seconds_of n.

Lemma NowUnix_run w : exists t w', NowUnix now w = (Ok t, w') /\ shows t /\
  keys w' = keys w /\ bindings w' = bindings w.
Proof.
  destruct (bs_now w) as (n & w' & E & _ & Hk). exists (seconds_of n), w'. unfold NowUnix.
  erewrite bind_Ok by exact E. injection Hk as Hk Hb. split; [done|]. split; [|done].
  by exists w, n, w'.
Qed.

(** What makes a request good: its keys, and the proof. *)
Definition proven (rows : gmap bytes AuthKeyData.t) (req : BindRequest.t) (expires_at : Z) : Prop :=
  exists tk pk inner,
    rows !! BindRequest.temp_auth_key_id req = Some tk /\ AuthKeyData.expires_at tk = expires_at /\
    rows !! AuthKeyIdFromInt64 (BindRequest.perm_auth_key_id req) = Some pk /\
    AuthKeyData.expires_at pk = 0 /\
    DecryptBindAuthKeyInner (AuthKeyData.value pk) (BindRequest.encrypted_message req) = Ok inner /\
    inner = BindAuthKeyInner.Mk (BindRequest.nonce req)
      (AuthKeyIdToInt64 (BindRequest.temp_auth_key_id req)) (BindRequest.perm_auth_key_id req)
      (BindRequest.temp_session_id req) (BindRequest.expires_at req).

Lemma inner_matches_spec inner req : inner_matches inner req = true <->
  inner = BindAuthKeyInner.Mk (BindRequest.nonce req)
      (AuthKeyIdToInt64 (BindRequest.temp_auth_key_id req)) (BindRequest.perm_auth_key_id req)
      (BindRequest.temp_session_id req) (BindRequest.expires_at req).
Proof.
  unfold inner_matches. rewrite !andb_true_iff, !Z.eqb_eq. destruct inner as [n t p s e]. cbn.
  split; [intros [[[[-> ->] ->] ->] ->]; done|by intros [= -> -> -> -> ->]].
Qed.

(** A call either reaches [SaveWithState] with a proven binding, or throws one
    of the three errors of the header without touching the bindings. *)
Lemma BindTempAuthKey_cases req w :
  (exists expires w1, proven (keys w) req expires /\ 0 < BindRequest.expires_at req /\
     (exists t, shows t /\ t < expires) /\ bindings w1 = bindings w /\
     BindTempAuthKey now auth_keys temp_keys req w =
       SaveWithState temp_keys (binding_of req expires) w1) \/
  (exists e w', BindTempAuthKey now auth_keys temp_keys req w = (Throw e, w') /\
     bindings w' = bindings w /\
     (e = ExpiresAtInvalidError \/ e = TempAuthKeyEmptyError \/ e = EncryptedMessageInvalidError)).
Proof.
  unfold BindTempAuthKey. set (temp := BindRequest.temp_auth_key_id req).
  set (perm := AuthKeyIdFromInt64 (BindRequest.perm_auth_key_id req)).
  rewrite bind_guard_if. destruct (Z.ltb_spec 0 (BindRequest.expires_at req)) as [Hpos|]; [|right; eauto 9].
  destruct (bs_load temp perm w) as (w1 & E1 & Hk1 & Hb1). erewrite bind_Ok by exact E1.
  cbn [temporary_found temporary permanent_found permanent].
  rewrite bind_guard_if. destruct (keys w !! temp) as [tk|] eqn:Et; [|right; cbn; eauto 9].
  rewrite (bool_decide_eq_true_2 (is_Some (Some tk))) by eauto. cbn [from_option id].
  destruct (NowUnix_run w1) as (t1 & w2 & E2 & _ & Hk2 & Hb2). erewrite bind_Ok by exact E2.
  rewrite bind_guard_if. destruct (t1 <? _); [|right; eexists _, w2; split; [reflexivity|]; split; [congruence|auto]].
  rewrite bind_guard_if. destruct (keys w !! perm) as [pk|] eqn:Ep;
    [|right; eexists _, w2; split; [reflexivity|]; split; [congruence|auto]].
  rewrite (bool_decide_eq_true_2 (is_Some (Some pk))) by eauto. cbn [from_option id andb].
  destruct (Z.eqb_spec (AuthKeyData.expires_at pk) 0) as [Hpk|];
    [|right; eexists _, w2; split; [reflexivity|]; split; [congruence|auto]].
  rewrite bind_lift. unfold OpenEnvelope.
  pose proof (DecryptBindAuthKeyInner_result (AuthKeyData.value pk) (BindRequest.encrypted_message req)) as Hd.
  destruct (DecryptBindAuthKeyInner _ _) as [inner|e] eqn:Ed;
    [|subst e; right; eexists _, w2; split; [reflexivity|]; split; [congruence|auto]].
  rewrite bind_guard_if. destruct (inner_matches inner req) eqn:Em;
    [|right; eexists _, w2; split; [reflexivity|]; split; [congruence|auto]].
  destruct (NowUnix_run w2) as (t2 & w3 & E3 & Ht2 & Hk3 & Hb3). erewrite bind_Ok by exact E3.
  rewrite bind_guard_if. destruct (Z.ltb_spec t2 (AuthKeyData.expires_at tk));
    [|right; eexists _, w3; split; [reflexivity|]; split; [congruence|auto]].
  left. exists (AuthKeyData.expires_at tk), w3. split.
  { exists tk, pk, inner. do 5 (split; [done|]). by apply inner_matches_spec. }
  split; [done|]. split; [by exists t2|]. split; [congruence|done].
Qed.

(** A proven request in time is saved. *)
Lemma BindTempAuthKey_good req w expires :
  proven (keys w) req expires -> 0 < BindRequest.expires_at req ->
  (forall t, shows t -> t < expires) ->
  exists w1, bindings w1 = bindings w /\
    BindTempAuthKey now auth_keys temp_keys req w =
      SaveWithState temp_keys (binding_of req expires) w1.
Proof.
  intros (tk & pk & inner & Et & <- & Ep & Hpk & Ed & Hin) Hpos Htime.
  unfold BindTempAuthKey. rewrite bind_guard_if. destruct (Z.ltb_spec 0 (BindRequest.expires_at req)); [|lia].
  destruct (bs_load (BindRequest.temp_auth_key_id req)
    (AuthKeyIdFromInt64 (BindRequest.perm_auth_key_id req)) w) as (w1 & E1 & Hk1 & Hb1).
  erewrite bind_Ok by exact E1. cbn [temporary_found temporary permanent_found permanent].
  rewrite Et, Ep, !bool_decide_eq_true_2 by eauto. cbn [from_option id andb]. rewrite bind_guard_if.
  destruct (NowUnix_run w1) as (t1 & w2 & E2 & Ht1 & Hk2 & Hb2). erewrite bind_Ok by exact E2.
  rewrite bind_guard_if. destruct (Z.ltb_spec t1 (AuthKeyData.expires_at tk)); [|specialize (Htime t1 Ht1); lia].
  rewrite bind_guard_if, Hpk. cbn [Z.eqb]. rewrite bind_lift. unfold OpenEnvelope. rewrite Ed, bind_guard_if.
  rewrite (proj2 (inner_matches_spec inner req) Hin).
  destruct (NowUnix_run w2) as (t2 & w3 & E3 & Ht2 & Hk3 & Hb3). erewrite bind_Ok by exact E3.
  rewrite bind_guard_if. destruct (Z.ltb_spec t2 (AuthKeyData.expires_at tk)); [|specialize (Htime t2 Ht2); lia].
  exists w3. split; [congruence|done].
Qed.

End Laws.

(** C6. A binding needs the permanent key.  [BindTempAuthKey] adds a binding
    only when the named permanent key exists and is permanent, the temporary
    key exists and has not expired, and the envelope decrypts under the
    permanent key to an inner message that repeats the request, this
    connection's key and its session; what is stored expires with the
    temporary key.  In every other case it throws and no binding changes.
    Conversely the envelope an honest client makes with the permanent key
    reaches the store. *)
Theorem BindTempAuthKey_proves_possession {ssl : OpenSSL} {laws : OpenSSLLaws} {W}
    (now : Clock W) (auth_keys : IAuthKeyStore W) (temp_keys : ITempAuthKeyBindingStore W)
    (keys : W -> gmap bytes AuthKeyData.t) (bindings : W -> gmap bytes TempAuthKeyBinding.t)
    (stores : BindStores now auth_keys temp_keys keys bindings) (req : BindRequest.t) (w : W) :
  let '(r, w') := BindTempAuthKey now auth_keys temp_keys req w in
  match r with
  | Ok _ => exists expires, proven (keys w) req expires /\
      (exists t, shows now t /\ t < expires) /\
      bindings w' =
        <[BindRequest.temp_auth_key_id req := binding_of req expires]> (bindings w)
  | Throw e => bindings w' = bindings w
  end /\
  forall (S T : Type) (rand : RandomFill S) (keep : S -> T) (Hrand : RandomSource rand keep) (s : S)
    (tk pk : AuthKeyData.t) (msg_id : Z) (inner : BindAuthKeyInner.t),
    let perm := AuthKeyIdFromInt64 (BindRequest.perm_auth_key_id req) in
    keys w !! BindRequest.temp_auth_key_id req = Some tk ->
    keys w !! perm = Some pk -> AuthKeyData.expires_at pk = 0 ->
    forallb is_zero_byte (AuthKeyData.value pk) = false ->
    (forall t, shows now t -> t < AuthKeyData.expires_at tk) ->
    is_s64 msg_id -> inner_ok inner -> inner_matches inner req = true ->
    0 < BindRequest.expires_at req ->
    fst (EncryptBindMessage rand (AuthKeyData.value pk) msg_id inner s) =
      Ok (BindRequest.encrypted_message req) ->
    exists w1, bindings w1 = bindings w /\
      (r, w') = SaveWithState temp_keys (binding_of req (AuthKeyData.expires_at tk)) w1.
Proof.
  destruct (BindTempAuthKey now auth_keys temp_keys req w) as [r w'] eqn:E. split.
  - destruct (BindTempAuthKey_cases now auth_keys temp_keys keys bindings req w)
      as [(expires & w1 & Hp & _ & Ht & Hb & E1)|(e & w1 & E1 & Hb & _)]; rewrite E in E1.
    + destruct (bs_save (binding_of req expires) w1) as (r2 & w2 & E2 & H).
      rewrite E2 in E1. injection E1 as -> ->. destruct r2; [|congruence].
      exists expires. rewrite H, Hb. done.
    + injection E1 as -> ->. done.
  - intros S T rand keep Hrand s tk pk msg_id inner perm Et Ep Hpk Hz Ht Hid Hin Hm Hpos Henc.
    destruct (EncryptBindMessage_run rand keep Hrand (AuthKeyData.value pk) msg_id inner s Hz Hid Hin)
      as (enc & s' & Ee & Hd). rewrite Ee in Henc. injection Henc as ->.
    rewrite <- E. apply (BindTempAuthKey_good now auth_keys temp_keys keys bindings); [|done..].
    exists tk, pk, inner. do 5 (split; [done|]). by apply inner_matches_spec.
Qed.

(** ** Witness: an honest client binds its temporary key *)

Section Witness.
#[local] Existing Instances Toy.toy Toy.toy_laws.

Definition table : Type := gmap bytes TempAuthKeyBinding.t.
Definition temp_id : bytes := lit "tempkey1".
Definition temp_row : AuthKeyData.t :=
  AuthKeyData.Mk temp_id [] 0 0 2000000000 0 0 [] [] [] 0 [].
Definition perm_row : AuthKeyData.t :=
  AuthKeyData.Mk (AuthKeyIdFromInt64 42) sample_key 0 0 0 0 0 [] [] [] 0 [].
Definition rows : gmap bytes AuthKeyData.t :=
  <[temp_id := temp_row]> {[AuthKeyIdFromInt64 42 := perm_row]}.

Definition key_store : IAuthKeyStore table :=
  MkAuthKeyStore table (fun _ => throw (StoreError "unused")) (fun _ => throw (StoreError "unused"))
    (fun _ _ => throw (StoreError "unused")) (fun _ => throw (StoreError "unused"))
    (fun _ => throw (StoreError "unused"))
    (fun t p => ret (MkBindingKeys (default empty_key_data (rows !! t)) (bool_decide (is_Some (rows !! t)))
                       (default empty_key_data (rows !! p)) (bool_decide (is_Some (rows !! p))))).
Definition binding_store : ITempAuthKeyBindingStore table :=
  MkTempStore table
    (fun b => modify (insert (TempAuthKeyBinding.temp_auth_key_id b) b) ;;; ret (MkBindingResult 0 0))
    (fun t => gets (fun m => m !! t)).

Lemma table_stores : BindStores Toy.clock key_store binding_store (fun _ => rows) Datatypes.id.
Proof.
  split.
  - intros w. destruct (Toy.clock_source w) as (t & w' & E & Hl & Hk). exists t, w'.
    split; [done|]. split; [done|]. unfold Datatypes.id in *. by rewrite Hk.
  - intros t p w. by eexists.
  - intros b w. by eexists _, _.
Qed.

Definition honest_inner : BindAuthKeyInner.t :=
  BindAuthKeyInner.Mk 11 (AuthKeyIdToInt64 temp_id) 42 14 2000000000.
Definition honest_request (enc : bytes) : BindRequest.t :=
  BindRequest.Mk temp_id 14 42 11 2000000000 enc.

Lemma honest_inner_ok : inner_ok honest_inner.
Proof.
  unfold inner_ok, honest_inner. cbn [BindAuthKeyInner.nonce BindAuthKeyInner.temp_auth_key_id
    BindAuthKeyInner.perm_auth_key_id BindAuthKeyInner.temp_session_id BindAuthKeyInner.expires_at].
  pose proof (s64_range (le_val temp_id)). unfold is_s64, is_s32 in *. split; [lia|].
  split; [done|]. lia.
Qed.

Lemma BindTempAuthKey_proves_possession_witness :
  exists enc s', EncryptBindMessage Toy.zeros sample_key 5 honest_inner tt = (Ok enc, s') /\
  exists w1, w1 = ∅ /\
    BindTempAuthKey Toy.clock key_store binding_store (honest_request enc) ∅ =
      SaveWithState binding_store (binding_of (honest_request enc) 2000000000) w1.
Proof.
  destruct (EncryptBindMessage_run Toy.zeros Datatypes.id Toy.zeros_random sample_key 5 honest_inner
    tt eq_refl ltac:(unfold is_s64; lia) honest_inner_ok) as (enc & s' & E & _).
  exists enc, s'. split; [exact E|].
  pose proof (BindTempAuthKey_proves_possession Toy.clock key_store binding_store (fun _ => rows)
    Datatypes.id table_stores (honest_request enc) ∅) as H.
  destruct (BindTempAuthKey _ _ _ _ _) as [r w']. destruct H as [_ H].
  destruct (H unit unit Toy.zeros Datatypes.id Toy.zeros_random tt temp_row perm_row 5 honest_inner)
    as (w1 & H1 & H2).
  - apply lookup_insert_eq.
  - reflexivity.
  - reflexivity.
  - reflexivity.
  - intros t (w & n & w'' & En & ->). injection En as <- _. reflexivity.
  - unfold is_s64. lia.
  - exact honest_inner_ok.
  - reflexivity.
  - reflexivity.
  - cbn [BindRequest.encrypted_message honest_request perm_row AuthKeyData.value]. by rewrite E.
  - by exists w1.
Defined.

End Witness.
