(* ===== verification/Api.v ===== *)
(** * API messages: [messages/auth.hpp], [password.hpp], [account.hpp],
      [help.hpp] and [users.hpp]

    The request structs ([DecodeBare]) and the response encoders, as the
    headers write them.  [flags & (1u << n)] is [Z.testbit flags n];
    [if (c) flags |= 1u << n] is [set_flag c n]. *)

From Stdlib Require Import ZArith Lia Strings.Byte Strings.String.
From stdpp Require Import base decidable list.
From S2P Require Import Prelude TL Schema Messages OpenSSL Domain Store.
Import TLBuffer.

Definition set_flag (c : bool) (n : Z) (flags : Z) : Z :=
  if c then Z.lor flags (Z.shiftl 1 n) else flags.

(** [if (flags & (1u << n)) …], reading an optional field. *)
Definition when_flag {A} (flags n : Z) (m : M bytes A) (absent : A) : M bytes A :=
  if Z.testbit flags n then m else ret absent.

(** [if (c) b.Put…(…);] *)
Definition put_if (c : bool) (put : bytes -> bytes) (b : bytes) : bytes := if c then put b else b.

(** [if (!s.empty())] and the like. *)
Definition nonempty {A} (l : list A) : bool := match l with [] => false | _ => true end.

(** ** [messages/auth.hpp] *)

Module CodeSettings.
Definition DecodeBare : M bytes unit :=
  flags <- Uint32 ;;
  when_flag flags 6 (count <- VectorHeader ;;
                     _ <- repeat_m (Z.to_nat (u64 count)) GetBytes ;; ret tt) tt ;;;
  when_flag flags 8 (_ <- GetBytes ;; _ <- ConsumeN 4 ;; ret tt) tt.
End CodeSettings.

Module AuthSendCodeRequest.
Definition kTypeId : Z := 0xa677244f.
Record t : Type := Mk { phone_number : bytes; api_id : Z; api_hash : bytes }.
Definition DecodeBare : M bytes t :=
  phone_number <- GetBytes ;;
  api_id <- Int32 ;;
  api_hash <- GetBytes ;;
  CodeSettings.DecodeBare ;;;
  ret (Mk phone_number api_id api_hash).
End AuthSendCodeRequest.

Module AuthSignInRequest.
Definition kTypeId : Z := 0x8d52a951.
Record t : Type := Mk { phone_number : bytes; phone_code_hash : bytes; phone_code : bytes }.
Definition DecodeBare : M bytes t :=
  flags <- Uint32 ;;
  phone_number <- GetBytes ;;
  phone_code_hash <- GetBytes ;;
  phone_code <- when_flag flags 0 GetBytes [] ;;
  guard (negb (Z.testbit flags 1)) (NotImplementedError "auth.signIn with email_verification") ;;;
  ret (Mk phone_number phone_code_hash phone_code).
End AuthSignInRequest.

Module AuthSignUpRequest.
Definition kTypeId : Z := 0xaac7b717.
Record t : Type := Mk {
  phone_number : bytes; phone_code_hash : bytes; first_name : bytes; last_name : bytes }.
Definition DecodeBare : M bytes t :=
  _ <- Uint32 ;;
  phone_number <- GetBytes ;;
  phone_code_hash <- GetBytes ;;
  first_name <- GetBytes ;;
  last_name <- GetBytes ;;
  ret (Mk phone_number phone_code_hash first_name last_name).
End AuthSignUpRequest.

Module AuthSentCodeTypeApp.
Definition kTypeId : Z := 0x3dbb5986.
Definition Encode (length : Z) (b : bytes) : bytes :=
  let b := PutID kTypeId b in
  PutInt32 length b.
End AuthSentCodeTypeApp.

Module AuthSentCode.
Definition kTypeId : Z := 0x5e002502.
Record t : Type := Mk { code_length : Z; phone_code_hash : bytes }.
Definition Encode (m : t) (b : bytes) : bytes :=
  let b := PutID kTypeId b in
  let b := PutUint32 0 b in
  let b := AuthSentCodeTypeApp.Encode (code_length m) b in
  PutBytes (phone_code_hash m) b.
End AuthSentCode.

Module AuthAuthorizationSignUpRequired.
Definition kTypeId : Z := 0x44747e9a.
Definition Encode (b : bytes) : bytes :=
  let b := PutID kTypeId b in
  PutUint32 0 b.
End AuthAuthorizationSignUpRequired.

Module MinimalSelfUser.
Definition kTypeId : Z := 0xb1b8cc83.
Definition flags_of (user : User) : Z :=
  let flags := set_flag true 10 0 in
  let flags := set_flag true 0 flags in
  let flags := set_flag (nonempty (first_name user)) 1 flags in
  let flags := set_flag (nonempty (last_name user)) 2 flags in
  set_flag (nonempty (phone user)) 4 flags.
Definition Encode (user : User) (b : bytes) : bytes :=
  let flags := flags_of user in
  let b := PutID kTypeId b in
  let b := PutUint32 flags b in
  let b := PutUint32 0 b in
  let b := PutLong (id user) b in
  let b := PutLong (access_hash user) b in
  let b := put_if (Z.testbit flags 1) (PutBytes (first_name user)) b in
  let b := put_if (Z.testbit flags 2) (PutBytes (last_name user)) b in
  put_if (Z.testbit flags 4) (PutBytes (phone user)) b.
End MinimalSelfUser.

Module AuthAuthorization.
Definition kTypeId : Z := 0x2ea2c0d4.
Definition Encode (user : User) (b : bytes) : bytes :=
  let b := PutID kTypeId b in
  let b := PutUint32 0 b in
  MinimalSelfUser.Encode user b.
End AuthAuthorization.

(** ** [messages/password.hpp] *)

Definition kPasswordKdfAlgoModPowTypeId : Z := 0x3a912d4a.
Definition kPasswordKdfAlgoUnknownTypeId : Z := 0xd45ab096.
Definition kSecurePasswordKdfAlgoUnknownTypeId : Z := 0x004a8537.

Definition EncodePasswordAlgo (algo : PasswordAlgo.t) (b : bytes) : bytes :=
  if nonempty (PasswordAlgo.p algo) then
    let b := PutID kPasswordKdfAlgoModPowTypeId b in
    let b := PutBytes (PasswordAlgo.salt1 algo) b in
    let b := PutBytes (PasswordAlgo.salt2 algo) b in
    let b := PutInt32 (PasswordAlgo.g algo) b in
    PutBytes (PasswordAlgo.p algo) b
  else PutID kPasswordKdfAlgoUnknownTypeId b.

Definition EncodeSecurePasswordAlgoUnknown (b : bytes) : bytes :=
  PutID kSecurePasswordKdfAlgoUnknownTypeId b.

Module AccountPassword.
Definition kTypeId : Z := 0x957b50fb.
Definition flags_of (s : PasswordSettings.t) : Z :=
  let flags := set_flag (PasswordSettings.has_recovery s) 0 0 in
  let flags := set_flag (PasswordSettings.has_secure_values s) 1 flags in
  let flags := set_flag (PasswordSettings.has_password s) 2 flags in
  set_flag (nonempty (PasswordSettings.hint s)) 3 flags.
Definition Encode (s : PasswordSettings.t) (b : bytes) : bytes :=
  let b := PutID kTypeId b in
  let b := PutUint32 (flags_of s) b in
  let b := put_if (PasswordSettings.has_password s)
    (fun b =>
      let algo := match PasswordSettings.current_algo s with
                  | Some a => a | None => PasswordSettings.new_algo s end in
      let b := EncodePasswordAlgo algo b in
      let b := PutBytes (PasswordSettings.srp_b s) b in
      PutLong (PasswordSettings.srp_id s) b) b in
  let b := put_if (nonempty (PasswordSettings.hint s)) (PutBytes (PasswordSettings.hint s)) b in
  let b := EncodePasswordAlgo (PasswordSettings.new_algo s) b in
  let b := EncodeSecurePasswordAlgoUnknown b in
  PutBytes (PasswordSettings.secure_random s) b.
End AccountPassword.

Module AccountGetPasswordRequest.
Definition kTypeId : Z := 0x548a30f5.
Definition DecodeBare : M bytes unit := ret tt.
End AccountGetPasswordRequest.

Module AuthCheckPasswordRequest.
Definition kTypeId : Z := 0xd18b4d16.
Definition kInputCheckPasswordEmptyTypeId : Z := 0x9880f658.
Definition kInputCheckPasswordSrpTypeId : Z := 0xd27ff082.
Definition DecodeBare : M bytes PasswordCheck.t :=
  id <- PeekID ;;
  if id =? kInputCheckPasswordEmptyTypeId then
    ConsumeID id ;;;
    ret (PasswordCheck.Mk true 0 [] [])
  else
    ConsumeID kInputCheckPasswordSrpTypeId ;;;
    srp_id <- Long ;;
    a <- GetBytes ;;
    m1 <- GetBytes ;;
    ret (PasswordCheck.Mk false srp_id a m1).
End AuthCheckPasswordRequest.

(** ** [messages/account.hpp] *)

Module AccountUpdateStatusRequest.
Definition kTypeId : Z := 0x6628562c.
Definition DecodeBare : M bytes bool := DecodeBool.
End AccountUpdateStatusRequest.

Module AccountGetAuthorizationsRequest.
Definition kTypeId : Z := 0xe320c158.
Definition DecodeBare : M bytes unit := ret tt.
End AccountGetAuthorizationsRequest.

Module AccountUpdateProfileRequest.
Definition kTypeId : Z := 0x78515775.
Definition DecodeBare : M bytes UserProfileUpdate :=
  flags <- Uint32 ;;
  first_name <- when_flag flags 0 GetBytes [] ;;
  last_name <- when_flag flags 1 GetBytes [] ;;
  about <- when_flag flags 2 GetBytes [] ;;
  ret (MkProfileUpdate first_name (Z.testbit flags 0) last_name (Z.testbit flags 1)
         about (Z.testbit flags 2)).
End AccountUpdateProfileRequest.

Module AccountCheckUsernameRequest.
Definition kTypeId : Z := 0x2714d86c.
Definition DecodeBare : M bytes bytes := GetBytes.
End AccountCheckUsernameRequest.

Module AccountUpdateUsernameRequest.
Definition kTypeId : Z := 0x3e0bdd7c.
Definition DecodeBare : M bytes bytes := GetBytes.
End AccountUpdateUsernameRequest.

(** [Birthday{}] *)
Definition no_birthday : Birthday := MkBirthday 0 0 0.

Definition DecodeBirthday : M bytes Birthday :=
  flags <- Uint32 ;;
  day <- Int32 ;;
  month <- Int32 ;;
  year <- when_flag flags 0 Int32 0 ;;
  ret (MkBirthday day month year).

Module AccountUpdateBirthdayRequest.
Definition kTypeId : Z := 0xcc6e0c11.
Definition DecodeBare : M bytes Birthday :=
  flags <- Uint32 ;;
  when_flag flags 0 DecodeBirthday no_birthday.
End AccountUpdateBirthdayRequest.

(** [created] and [active] of [EncodeAuthorization]. *)
Definition date_created (a : Authorization.t) (now : Z) : Z :=
  let created := seconds_of (Authorization.created_at a) in
  if created =? 0 then now else created.
Definition date_active (a : Authorization.t) (now : Z) : Z :=
  let active := seconds_of (Authorization.active_at a) in
  if active =? 0 then date_created a now else active.

Definition EncodeAuthorization (a : Authorization.t) (current : bool) (now : Z) (b : bytes) : bytes :=
  let flags := Z.lor (if current then 1 else 0) 2 in
  let b := PutID 0xad01d61d b in
  let b := PutUint32 flags b in
  let b := PutLong (Authorization.hash a) b in
  let b := PutBytes (Authorization.device_model a) b in
  let b := PutBytes (Authorization.platform a) b in
  let b := PutBytes (Authorization.system_version a) b in
  let b := PutInt32 (Authorization.api_id a) b in
  let b := PutBytes [] b in
  let b := PutBytes (Authorization.app_version a) b in
  let b := PutInt32 (s32 (date_created a now)) b in
  let b := PutInt32 (s32 (date_active a now)) b in
  let b := PutBytes (Authorization.ip a) b in
  let b := PutBytes (lit "Unknown") b in
  PutBytes (lit "Unknown") b.

Definition EncodeAccountAuthorizations (l : list Authorization.t) (current_auth_key_id : bytes)
    (now : Z) (b : bytes) : bytes :=
  let b := PutID 0x4bff8ea0 b in
  let b := PutInt32 0 b in
  let b := PutVectorHeader (s32 (zlen l)) b in
  PutAll (fun a => EncodeAuthorization a
            (bool_decide (Authorization.auth_key_id a = current_auth_key_id)) now) l b.

(** ** [messages/help.hpp] *)

Module HelpGetConfigRequest.
Definition kTypeId : Z := 0xc4f9186b.
Definition DecodeBare : M bytes unit := ret tt.
End HelpGetConfigRequest.

Module DcOption.
Record t : Type := Mk { id : Z; ip_address : bytes; port : Z }.
Definition Encode (m : t) (b : bytes) : bytes :=
  let b := PutID 0x18b7a10d b in
  let b := PutUint32 0 b in
  let b := PutInt32 (id m) b in
  let b := PutBytes (ip_address m) b in
  PutInt32 (port m) b.
End DcOption.

Definition EncodeReactionEmoji (emoticon : bytes) (b : bytes) : bytes :=
  let b := PutID 0x1b2286b8 b in
  PutBytes emoticon b.

Definition thumbs_up : bytes := [xf0; x9f; x91; x8d].

Module Config.
Record t : Type := Mk { dc : Z; ip_address : bytes; port : Z; date : Z; expires : Z }.

(** From [chat_size_max] to [channels_read_media_period], and from
    [call_receive_timeout_ms] to [call_packet_timeout_ms]. *)
Definition limits : list Z :=
  [200; 200000; 100; 120000; 5000; 30000; 300000; 30000; 1500; 60000; 2; 172800; 2147483647;
   2147483647; 2419200; 200; 0].
Definition call_timeouts : list Z := [20000; 90000; 30000; 10000].

Definition Encode (m : t) (b : bytes) : bytes :=
  let flags := Z.lor (Z.lor (Z.shiftl 1 6) (Z.shiftl 1 9)) (Z.shiftl 1 15) in
  let b := PutID 0xcc1a241e b in
  let b := PutUint32 flags b in
  let b := PutInt32 (s32 (date m)) b in
  let b := PutInt32 (s32 (expires m)) b in
  let b := EncodeBool false b in
  let b := PutInt32 (dc m) b in
  let b := PutVectorHeader 1 b in
  let b := DcOption.Encode (DcOption.Mk (dc m) (ip_address m) (port m)) b in
  let b := PutBytes [] b in
  let b := PutAll PutInt32 limits b in
  let b := PutAll PutInt32 call_timeouts b in
  let b := PutBytes [] b in
  let b := PutBytes (lit "gif") b in
  let b := PutInt32 1024 b in
  let b := PutInt32 4096 b in
  let b := PutInt32 (dc m) b in
  EncodeReactionEmoji thumbs_up b.
End Config.

(** ** [messages/users.hpp] *)

Module InputUser.
Inductive Kind : Type := Empty | SelfUser | ById.
Record t : Type := Mk { kind : Kind; user_id : Z; access_hash : Z }.
Definition kEmptyId : Z := 0xb98886cf.
Definition kSelfId : Z := 0xf7c1b13f.
Definition kByIdId : Z := 0xf21158c6.
Definition kFromMessageId : Z := 0x1da448e2.
Definition Decode : M bytes t :=
  id <- PeekID ;;
  if id =? kEmptyId then ConsumeID id ;;; ret (Mk Empty 0 0)
  else if id =? kSelfId then ConsumeID id ;;; ret (Mk SelfUser 0 0)
  else if id =? kByIdId then
    ConsumeID id ;;;
    user_id <- Long ;;
    access_hash <- Long ;;
    ret (Mk ById user_id access_hash)
  else if id =? kFromMessageId then throw (NotImplementedError "inputUserFromMessage")
  else throw (UnexpectedIdError id).
End InputUser.

Module UsersGetUsersRequest.
Definition kTypeId : Z := 0x0d91a548.
(** [reserve] throws [std::length_error] for a negative count. *)
Definition DecodeBare : M bytes (list InputUser.t) :=
  count <- VectorHeader ;;
  guard (0 <=? count) LengthError ;;;
  repeat_m (Z.to_nat count) InputUser.Decode.
End UsersGetUsersRequest.

Definition EncodeUserStatus (s : UserStatus) (b : bytes) : bytes :=
  let recently := PutUint32 0 (PutID 0x7b197dc8 b) in
  match st_kind s with
  | Online => if 0 <? st_expires s then PutInt32 (st_expires s) (PutID 0xedb93949 b) else recently
  | Offline => if 0 <? was_online s then PutInt32 (was_online s) (PutID 0x8c703f b) else recently
  | LastWeek => PutUint32 0 (PutID 0x541a1d1a b)
  | LastMonth => PutUint32 0 (PutID 0x65899777 b)
  | StatusEmpty => PutID 0x009d5c5d b
  | Recently | StatusUnknown => recently
  end.

Definition photo_flags (u : User) : Z :=
  let flags := set_flag (photo_has_video u) 0 0 in
  let flags := set_flag (nonempty (photo_stripped u)) 1 flags in
  set_flag (photo_personal u) 2 flags.
Definition EncodeUserProfilePhoto (u : User) (b : bytes) : bytes :=
  if photo_id u =? 0 then PutID 0x4f11bae1 b
  else
    let b := PutID 0x82d1f706 b in
    let b := PutUint32 (photo_flags u) b in
    let b := PutLong (photo_id u) b in
    let b := put_if (nonempty (photo_stripped u)) (PutBytes (photo_stripped u)) b in
    PutInt32 (photo_dc_id u) b.

Definition color_flags (c : PeerColor) : Z :=
  let flags := set_flag (has_color c && negb (pc_color c =? 0)) 0 0 in
  set_flag (negb (background_emoji_id c =? 0)) 1 flags.
Definition EncodePeerColorIfPresent (c : PeerColor) (b : bytes) : bytes :=
  if PeerColor_Empty c then b
  else
    let flags := color_flags c in
    let b := PutID 0xb54b5acf b in
    let b := PutUint32 flags b in
    let b := put_if (Z.testbit flags 0) (PutInt32 (pc_color c)) b in
    put_if (Z.testbit flags 1) (PutLong (background_emoji_id c)) b.

Definition EncodeEmojiStatus (s : UserEmojiStatus) (b : bytes) : bytes :=
  if negb (EmojiStatus_Valid s) || EmojiStatus_Empty s then PutID 0x2de11aae b
  else if negb (Collectible_Empty (es_collectible s)) then
    let c := es_collectible s in
    let b := PutID 0x7184603b b in
    let b := PutUint32 (if negb (es_until s =? 0) then 1 else 0) b in
    let b := PutLong (collectible_id c) b in
    let b := PutLong (c_document_id c) b in
    let b := PutBytes (title c) b in
    let b := PutBytes (slug c) b in
    let b := PutLong (pattern_document_id c) b in
    let b := PutInt32 (center_color c) b in
    let b := PutInt32 (edge_color c) b in
    let b := PutInt32 (pattern_color c) b in
    let b := PutInt32 (text_color c) b in
    put_if (negb (es_until s =? 0)) (PutInt32 (es_until s)) b
  else
    let b := PutID 0xe7ff068a b in
    let b := PutUint32 (if negb (es_until s =? 0) then 1 else 0) b in
    let b := PutLong (es_document_id s) b in
    put_if (negb (es_until s =? 0)) (PutInt32 (es_until s)) b.

Definition ValidRestrictionReasons (u : User) : list UserRestrictionReason :=
  List.filter (fun r => nonempty (rr_platform r) && nonempty (rr_reason r) && nonempty (rr_text r))
    (restriction_reasons u).

Definition EncodeRestrictionReason (r : UserRestrictionReason) (b : bytes) : bytes :=
  let b := PutID 0xd072acb4 b in
  let b := PutBytes (rr_platform r) b in
  let b := PutBytes (rr_reason r) b in
  PutBytes (rr_text r) b.

Definition user_flags (u : User) (is_self : bool) (now : Z) : Z :=
  let flags := set_flag is_self 10 0 in
  let flags := set_flag (contact u) 11 flags in
  let flags := set_flag (mutual u) 12 flags in
  let flags := set_flag (bot u) 14 flags in
  let flags := set_flag (Domain.verified u) 17 flags in
  let flags := set_flag (nonempty (ValidRestrictionReasons u)) 18 flags in
  let flags := set_flag (support u) 23 flags in
  let flags := set_flag (scam u) 24 flags in
  let flags := set_flag (fake u) 26 flags in
  let flags := set_flag (PremiumActiveAt u now) 28 flags in
  let flags := set_flag (negb (access_hash u =? 0)) 0 flags in
  let flags := set_flag (nonempty (first_name u)) 1 flags in
  let flags := set_flag (nonempty (last_name u)) 2 flags in
  let flags := set_flag (nonempty (username u)) 3 flags in
  let flags := set_flag (negb (bot u) && nonempty (phone u)) 4 flags in
  let flags := set_flag true 5 flags in
  let flags := set_flag (negb (bot u)) 6 flags in
  set_flag (EmojiStatusActiveAt u now) 30 flags.

Definition user_flags2 (u : User) : Z :=
  let flags2 := set_flag (close_friend u) 2 0 in
  let flags2 := set_flag (bot u) 11 flags2 in
  let flags2 := set_flag (negb (PeerColor_Empty (color u))) 8 flags2 in
  let flags2 := set_flag (negb (PeerColor_Empty (profile_color u))) 9 flags2 in
  set_flag (negb (linked_community_id u =? 0)) 21 flags2.

Definition EncodeUser (u : User) (is_self : bool) (now : Z) (b : bytes) : bytes :=
  if deleted u then
    let b := PutID 0xb1b8cc83 b in
    let b := PutUint32 (Z.shiftl 1 13) b in
    let b := PutUint32 0 b in
    PutLong (id u) b
  else
    let reasons := ValidRestrictionReasons u in
    let flags := user_flags u is_self now in
    let flags2 := user_flags2 u in
    let b := PutID 0xb1b8cc83 b in
    let b := PutUint32 flags b in
    let b := PutUint32 flags2 b in
    let b := PutLong (id u) b in
    let b := put_if (Z.testbit flags 0) (PutLong (access_hash u)) b in
    let b := put_if (Z.testbit flags 1) (PutBytes (first_name u)) b in
    let b := put_if (Z.testbit flags 2) (PutBytes (last_name u)) b in
    let b := put_if (Z.testbit flags 3) (PutBytes (username u)) b in
    let b := put_if (Z.testbit flags 4) (PutBytes (phone u)) b in
    let b := put_if (Z.testbit flags 5) (EncodeUserProfilePhoto u) b in
    let b := put_if (Z.testbit flags 6) (EncodeUserStatus (status u)) b in
    let b := put_if (Z.testbit flags 14)
      (PutInt32 (if 0 <? bot_info_version u then bot_info_version u else 1)) b in
    let b := put_if (Z.testbit flags 18)
      (fun b => PutAll EncodeRestrictionReason reasons (PutVectorHeader (s32 (zlen reasons)) b)) b in
    let b := put_if (Z.testbit flags 30) (EncodeEmojiStatus (EmojiStatus u)) b in
    let b := put_if (Z.testbit flags2 8) (EncodePeerColorIfPresent (color u)) b in
    let b := put_if (Z.testbit flags2 9) (EncodePeerColorIfPresent (profile_color u)) b in
    put_if (Z.testbit flags2 21) (PutLong (linked_community_id u)) b.
