(* ===== verification/ApiSchema.v ===== *)
(** * The API messages against their TL schemas

    The schemas the comments of [messages/*.hpp] quote, as formats, and the
    theorems that the structs of [Api.v] read and write them. *)

From Stdlib Require Import ZArith Lia Strings.Byte Strings.String.
From stdpp Require Import base decidable list.
From S2P Require Import Prelude TL Schema Messages OpenSSL Domain Store Api.
Import TLBuffer.

(** ** Flag words *)

Lemma testbit_set_flag c n i flags : 0 <= n -> 0 <= i ->
  Z.testbit (set_flag c n flags) i = Z.testbit flags i || (c && (i =? n)).
Proof.
  intros Hn Hi. unfold set_flag. destruct c; cbn [andb]; [|by rewrite orb_false_r].
  rewrite Z.lor_spec. f_equal. rewrite Z.shiftl_1_l, Z.pow2_bits_eqb by done. apply Z.eqb_sym.
Qed.

Lemma set_flag_range c n flags : 0 <= n < 32 -> is_u32 flags -> is_u32 (set_flag c n flags).
Proof.
  intros Hn Hf. unfold set_flag. destruct c; [|done]. unfold is_u32 in *. rewrite Z.shiftl_1_l.
  assert (Hp : 0 < 2 ^ n) by (apply Z.pow_pos_nonneg; lia).
  split; [apply Z.lor_nonneg; lia|]. destruct (Z.eq_dec flags 0) as [->|].
  { rewrite Z.lor_0_l. apply Z.pow_lt_mono_r; lia. }
  assert (0 < Z.lor flags (2 ^ n)).
  { apply Z.le_neq. split; [apply Z.lor_nonneg; lia|]. intros E. symmetry in E.
    apply Z.lor_eq_0_iff in E. lia. }
  apply Z.log2_lt_pow2; [done|]. rewrite Z.log2_lor by lia.
  rewrite Z.log2_pow2 by lia. apply Z.max_lub_lt; [|lia]. apply Z.log2_lt_pow2; lia.
Qed.

(** Evaluate a bit of a flags word built by [set_flag]. *)
Ltac flag_bits :=
  rewrite ?testbit_set_flag by (done || lia);
  cbn [Z.eqb Pos.eqb]; rewrite ?andb_false_r, ?andb_true_r, ?orb_false_r, ?orb_false_l;
  cbn [Z.testbit orb andb]; rewrite ?orb_false_l, ?orb_false_r, ?orb_true_r.

Ltac flag_range := repeat apply set_flag_range; try (unfold is_u32; lia); lia.

(** ** Schemas *)

Module ApiSchema.

(** A value that also satisfies [P]. *)
#[local] Obligation Tactic := idtac.
Program Definition such {A} (P : A -> Prop) (f : format A) : format A :=
  {| fput := fput f; fget := fget f; fok a := P a /\ fok f a |}.
Next Obligation. intros A P f a [_ Ha]. by apply flaw. Qed.

(** A fixed number of values. *)
Program Definition times {A} (n : nat) (f : format A) : format (list A) :=
  {| fput l := concat (map (fput f) l); fget := repeat_m n (fget f);
     fok l := length l = n /\ Forall (fok f) l |}.
Next Obligation.
  intros A n f l [<- Hl]. apply parses_repeat. intros a Ha.
  apply flaw. by apply (proj1 (Forall_forall _ _) Hl).
Qed.

#[local] Notation bit f n := (Z.testbit f n).

(** *** Requests, after their id *)
Definition code_settings : format _ :=
  dep nat32 (fun f => opt (bit f 6) (vector tbytes) ;; opt (bit f 8) tbytes ;; opt (bit f 8) tbool)%tl.
Definition code_settings_id : Z := 0xad253d78.
Definition send_code : format _ := (tbytes ;; int ;; tbytes ;; ctor code_settings_id code_settings)%tl.
(** [email_verification:flags.1] is not supported. *)
Definition sign_in : format _ :=
  dep (such (fun f => bit f 1 = false) nat32) (fun f => tbytes ;; tbytes ;; opt (bit f 0) tbytes)%tl.
Definition sign_up : format _ := (nat32 ;; tbytes ;; tbytes ;; tbytes ;; tbytes)%tl.
Definition check_password : format _ :=
  choice (fun i => i =? 0x9880f658) (ctor 0x9880f658 nothing)
    (ctor 0xd27ff082 (long ;; tbytes ;; tbytes)%tl).
Definition update_profile : format _ :=
  dep nat32 (fun f => opt (bit f 0) tbytes ;; opt (bit f 1) tbytes ;; opt (bit f 2) tbytes)%tl.
Definition birthday : format _ := dep nat32 (fun f => int ;; int ;; opt (bit f 0) int)%tl.
Definition birthday_id : Z := 0x6c8e1e06.
Definition update_birthday : format _ :=
  dep nat32 (fun f => opt (bit f 0) (ctor birthday_id birthday)).
Definition input_user : format _ :=
  choice (fun i => i =? 0xb98886cf) (ctor 0xb98886cf nothing)
    (choice (fun i => i =? 0xf7c1b13f) (ctor 0xf7c1b13f nothing)
       (ctor 0xf21158c6 (long ;; long)%tl)).
Definition get_users : format _ := vector input_user.

(** *** Responses *)
Definition sent_code : format _ :=
  ctor 0x5e002502 (nat32 ;; ctor 0x3dbb5986 int ;; tbytes)%tl.
Definition sign_up_required : format _ := ctor 0x44747e9a nat32.
Definition password_kdf_algo : format _ :=
  choice (fun i => i =? 0xd45ab096) (ctor 0xd45ab096 nothing)
    (ctor 0x3a912d4a (tbytes ;; tbytes ;; int ;; tbytes)%tl).
Definition account_password : format _ :=
  ctor 0x957b50fb (dep nat32 (fun f =>
    opt (bit f 2) password_kdf_algo ;; opt (bit f 2) tbytes ;; opt (bit f 2) long ;;
    opt (bit f 3) tbytes ;; password_kdf_algo ;; ctor 0x004a8537 nothing ;; tbytes))%tl.
Definition authorization : format _ :=
  ctor 0xad01d61d (nat32 ;; long ;; tbytes ;; tbytes ;; tbytes ;; int ;; tbytes ;; tbytes ;;
    int ;; int ;; tbytes ;; tbytes ;; tbytes)%tl.
Definition authorizations : format _ := ctor 0x4bff8ea0 (int ;; vector authorization)%tl.
Definition dc_option : format _ := ctor 0x18b7a10d (nat32 ;; int ;; tbytes ;; int)%tl.
Definition reaction : format _ := ctor 0x1b2286b8 tbytes.
(** [config#cc1a241e]: the limits are 17 integers, the call timeouts 4. *)
Definition config : format _ :=
  ctor 0xcc1a241e (dep nat32 (fun f => int ;; int ;; tbool ;; int ;; vector dc_option ;; tbytes ;;
    times 17 int ;; opt (bit f 0) int ;; times 4 int ;; tbytes ;; opt (bit f 7) tbytes ;;
    opt (bit f 9) tbytes ;; opt (bit f 10) tbytes ;; opt (bit f 11) tbytes ;; opt (bit f 12) tbytes ;;
    int ;; int ;; int ;; opt (bit f 2) (tbytes ;; int ;; int) ;; opt (bit f 15) reaction ;;
    opt (bit f 16) tbytes))%tl.

Definition user_status : format _ :=
  choice (fun i => i =? 0x009d5c5d) (ctor 0x009d5c5d nothing)
   (choice (fun i => i =? 0xedb93949) (ctor 0xedb93949 int)
    (choice (fun i => i =? 0x8c703f) (ctor 0x8c703f int)
     (choice (fun i => i =? 0x7b197dc8) (ctor 0x7b197dc8 nat32)
      (choice (fun i => i =? 0x541a1d1a) (ctor 0x541a1d1a nat32) (ctor 0x65899777 nat32))))).
Definition user_photo : format _ :=
  choice (fun i => i =? 0x4f11bae1) (ctor 0x4f11bae1 nothing)
    (ctor 0x82d1f706 (dep nat32 (fun f => long ;; opt (bit f 1) tbytes ;; int))%tl).
Definition peer_color : format _ :=
  ctor 0xb54b5acf (dep nat32 (fun f => opt (bit f 0) int ;; opt (bit f 1) long))%tl.
Definition emoji_status : format _ :=
  choice (fun i => i =? 0x2de11aae) (ctor 0x2de11aae nothing)
   (choice (fun i => i =? 0xe7ff068a)
     (ctor 0xe7ff068a (dep nat32 (fun f => long ;; opt (bit f 0) int))%tl)
     (ctor 0x7184603b (dep nat32 (fun f => long ;; long ;; tbytes ;; tbytes ;; long ;; int ;; int ;;
        int ;; int ;; opt (bit f 0) int))%tl)).
Definition restriction_reason : format _ := ctor 0xd072acb4 (tbytes ;; tbytes ;; tbytes)%tl.
(** [user#b1b8cc83], the fields the server ever sends. *)
Definition user : format _ :=
  ctor 0xb1b8cc83 (dep nat32 (fun f => dep nat32 (fun f2 =>
    long ;; opt (bit f 0) long ;; opt (bit f 1) tbytes ;; opt (bit f 2) tbytes ;;
    opt (bit f 3) tbytes ;; opt (bit f 4) tbytes ;; opt (bit f 5) user_photo ;;
    opt (bit f 6) user_status ;; opt (bit f 14) int ;; opt (bit f 18) (vector restriction_reason) ;;
    opt (bit f 30) emoji_status ;; opt (bit f2 8) peer_color ;; opt (bit f2 9) peer_color ;;
    opt (bit f2 21) long)))%tl.
Definition auth_authorization : format _ := ctor 0x2ea2c0d4 (nat32 ;; user)%tl.

#[export] Hint Unfold code_settings sign_in sign_up update_profile birthday such
  sent_code sign_up_required dc_option reaction : schema.

End ApiSchema.
Import ApiSchema.

(** ** Requests *)

Lemma parses_when_flag {A B} (m : M bytes A) (absent : A) (f : format B) (v : B -> A) flags n o :
  (forall b, fok f b -> parses m (fput f b) (v b)) ->
  fok (opt (Z.testbit flags n) f) o ->
  parses (when_flag flags n m absent) (fput (opt (Z.testbit flags n) f) o)
    match o with Some b => v b | None => absent end.
Proof.
  intros Hm Ho. unfold when_flag. destruct o as [b|]; cbn [fok fput opt] in *.
  - destruct Ho as [-> Hb]. by apply Hm.
  - rewrite Ho. apply parses_ret.
Qed.

Lemma parses_vector {A C} (f : format A) l (k : Z -> M bytes C) c :
  fok (vector f) l -> parses (k (zlen l)) (concat (map (fput f) l)) c ->
  parses (bind VectorHeader k) (fput (vector f) l) c.
Proof.
  intros (_ & Hl & _) Hk. pose proof (zlen_nonneg l). cbn [fput vector ctor bare_vector].
  rewrite app_assoc. eapply parses_bind; [|exact Hk].
  apply (parses_VectorHeader_id (zlen l)). split; lia.
Qed.

Lemma parses_elements {A B} (f : format A) (m : M bytes B) (g : A -> B) l :
  Forall (fok f) l -> (forall a, fok f a -> parses m (fput f a) (g a)) ->
  parses (repeat_m (Z.to_nat (zlen l)) m) (concat (map (fput f) l)) (map g l).
Proof. intros Hf Hm. unfold zlen. rewrite Nat2Z.id. by apply parses_repeat_map. Qed.

Lemma CodeSettings_reads : reads CodeSettings.DecodeBare code_settings (fun _ => tt).
Proof.
  intros (f & tokens & token & sandbox) (Hf & Ht & Hk & Hs). unfold CodeSettings.DecodeBare.
  cbn [fput code_settings dep seq]. eapply parses_bind; [by apply parses_Uint32_id|].
  eapply parses_bind.
  - apply (parses_when_flag _ tt (vector tbytes) (fun _ => tt)); [|exact Ht].
    intros l Hl. apply parses_vector; [done|]. destruct Hl as (_ & Hlen & Hl).
    pose proof (zlen_nonneg l). rewrite u64_id by (unfold is_u64; lia).
    apply (parses_bind_ret _ (fun _ => tt) _ (map (fun x => x) l)).
    apply parses_elements; [done|]. intros v. apply parses_GetBytes.
  - clear tokens Ht. unfold when_flag. cbn [fok opt] in Hk, Hs. destruct token as [v|].
    + destruct Hk as [Hbit Hv]. destruct sandbox as [x|]; [|congruence]. rewrite Hbit.
      cbn [fput opt]. eapply parses_bind; [by apply parses_GetBytes|].
      apply (parses_bind_ret _ (fun _ => tt) _ (fput tbool x)), parses_ConsumeN, zlen_le_bytes.
    + destruct sandbox as [x|]; [destruct Hs; congruence|]. rewrite Hk. apply parses_ret.
Qed.

Lemma AuthSignInRequest_reads : reads AuthSignInRequest.DecodeBare sign_in
  (fun '(_, (p, (h, c))) => AuthSignInRequest.Mk p h (default [] c)).
Proof.
  intros (f & p & h & c) ([Hb Hf] & Hp & Hh & Hc). unfold AuthSignInRequest.DecodeBare.
  cbn [fput sign_in dep seq such]. eapply parses_bind; [by apply parses_Uint32_id|].
  eapply parses_bind; [by apply parses_GetBytes|]. eapply parses_bind; [by apply parses_GetBytes|].
  rewrite <- (app_nil_r (fput _ c)). eapply parses_bind.
  - apply (parses_when_flag _ [] tbytes (fun v => v)); [intros v; apply parses_GetBytes|exact Hc].
  - rewrite Hb. apply parses_guard; [done|]. destruct c; apply parses_ret.
Qed.

Lemma AuthCheckPasswordRequest_reads : reads AuthCheckPasswordRequest.DecodeBare check_password
  (fun v => match v with
            | inl _ => PasswordCheck.Mk true 0 [] []
            | inr (i, (a, m)) => PasswordCheck.Mk false i a m end).
Proof.
  unfold AuthCheckPasswordRequest.DecodeBare. intros [[]|(i & a & m)] [Hok _];
    cbn [fput check_password choice ctor nothing dep seq].
  - apply parses_peek. change (u32 _ =? _) with true. cbv iota.
    apply (parses_bind _ (fun _ => ret _) _ _ tt); [by apply parses_ConsumeID|apply parses_ret].
  - destruct Hok as (Hid & Hi & Ha & Hm). apply parses_peek. change (u32 _ =? _) with false.
    eapply parses_bind; [by apply parses_ConsumeID|].
    eapply parses_bind; [by apply parses_Long_id|]. eapply parses_bind; [by apply parses_GetBytes|].
    by apply (parses_bind_ret _ (PasswordCheck.Mk false i a)), parses_GetBytes.
Qed.

Lemma AccountUpdateProfileRequest_reads : reads AccountUpdateProfileRequest.DecodeBare update_profile
  (fun '(f, (n, (l, a))) => MkProfileUpdate (default [] n) (bool_decide (is_Some n))
     (default [] l) (bool_decide (is_Some l)) (default [] a) (bool_decide (is_Some a))).
Proof.
  intros (f & n & l & a) (Hf & Hn & Hl & Ha). unfold AccountUpdateProfileRequest.DecodeBare.
  assert (Hbit : forall i (o : option bytes), fok (opt (Z.testbit f i) tbytes) o ->
    bool_decide (is_Some o) = Z.testbit f i).
  { intros i [v|]; cbn; [by intros [-> _]|by intros ->]. }
  cbn [fput update_profile dep seq]. eapply parses_bind; [by apply parses_Uint32_id|].
  assert (Hg : forall v : bytes, fok tbytes v -> parses GetBytes (fput tbytes v) v)
    by (intros v; apply parses_GetBytes).
  eapply parses_bind; [by apply (parses_when_flag _ [] tbytes (fun v => v))|].
  eapply parses_bind; [by apply (parses_when_flag _ [] tbytes (fun v => v))|].
  rewrite (Hbit 0 n Hn), (Hbit 1 l Hl), (Hbit 2 a Ha).
  apply (parses_bind_ret _ (fun v => MkProfileUpdate _ _ _ _ v _) _ (default [] a)).
  replace (default [] a) with match a with Some b => b | None => [] end by (by destruct a).
  by apply (parses_when_flag _ [] tbytes (fun v => v)).
Qed.

(** Decide the comparisons of constructor ids. *)
Ltac eval_ids :=
  repeat match goal with
  | |- context [u32 ?a =? ?b] =>
      let v := eval vm_compute in (u32 a =? b) in replace (u32 a =? b) with v by reflexivity
  end; cbv iota.

Lemma InputUser_reads : reads InputUser.Decode input_user
  (fun v => match v with
            | inl _ => InputUser.Mk InputUser.Empty 0 0
            | inr (inl _) => InputUser.Mk InputUser.SelfUser 0 0
            | inr (inr (i, h)) => InputUser.Mk InputUser.ById i h end).
Proof.
  unfold InputUser.Decode. intros [[]|[[]|(i & h)]] [Hok _];
    cbn [fput input_user choice ctor nothing dep seq]; apply parses_peek; eval_ids.
  - apply (parses_bind _ (fun _ => ret _) _ _ tt); [by apply parses_ConsumeID|apply parses_ret].
  - apply (parses_bind _ (fun _ => ret _) _ _ tt); [by apply parses_ConsumeID|apply parses_ret].
  - destruct Hok as [(Hid & Hi & Hh) _]. eapply parses_bind; [by apply parses_ConsumeID|].
    eapply parses_bind; [by apply parses_Long_id|].
    by apply (parses_bind_ret _ (InputUser.Mk InputUser.ById i)), parses_Long_id.
Qed.

Definition input_of (v : unit + (unit + Z * Z)) : InputUser.t :=
  match v with
  | inl _ => InputUser.Mk InputUser.Empty 0 0
  | inr (inl _) => InputUser.Mk InputUser.SelfUser 0 0
  | inr (inr (i, h)) => InputUser.Mk InputUser.ById i h
  end.

Lemma UsersGetUsersRequest_reads :
  reads UsersGetUsersRequest.DecodeBare get_users (map input_of).
Proof.
  intros l Hl. apply parses_vector; [exact Hl|]. destruct Hl as (_ & Hlen & Hl).
  pose proof (zlen_nonneg l). apply parses_guard; [apply Z.leb_le; lia|].
  apply parses_elements; [done|]. intros a Ha. by apply InputUser_reads.
Qed.

Lemma DecodeBirthday_reads : reads DecodeBirthday birthday
  (fun '(_, (d, (m, y))) => MkBirthday d m (default 0 y)).
Proof.
  intros (f & d & m & y) (Hf & Hd & Hm & Hy). unfold DecodeBirthday.
  cbn [fput birthday dep seq]. eapply parses_bind; [by apply parses_Uint32_id|].
  eapply parses_bind; [by apply parses_Int32_id|]. eapply parses_bind; [by apply parses_Int32_id|].
  apply (parses_bind_ret _ (MkBirthday d m) _ (default 0 y)).
  replace (default 0 y) with match y with Some b => b | None => 0 end by (by destruct y).
  apply (parses_when_flag _ 0 int (fun v => v)); [intros v; apply parses_Int32_id|exact Hy].
Qed.

Lemma AuthSignUpRequest_reads : reads AuthSignUpRequest.DecodeBare sign_up
  (fun '(_, (p, (h, (f, l)))) => AuthSignUpRequest.Mk p h f l).
Proof. unfold AuthSignUpRequest.DecodeBare. solve_reads. Qed.

(** A boxed field is read without its constructor id: the id is taken for the
    field's flags. *)
Lemma AuthSendCodeRequest_misreads p i h f v rest :
  zlen p < 2 ^ 24 -> is_s32 i -> zlen h < 2 ^ 24 -> is_u32 f -> f <> kTypeVector ->
  exists left, AuthSendCodeRequest.DecodeBare (fput send_code (p, (i, (h, (f, v)))) ++ rest) =
    (Throw (UnexpectedIdError f), left).
Proof.
  intros Hp Hi Hh Hf Hne. unfold AuthSendCodeRequest.DecodeBare.
  cbn [fput send_code dep seq ctor code_settings]. rewrite <- !app_assoc.
  erewrite bind_Ok by apply parses_GetBytes, Hp. erewrite bind_Ok by apply parses_Int32_id, Hi.
  erewrite bind_Ok by apply parses_GetBytes, Hh.
  unfold CodeSettings.DecodeBare. rewrite bind_assoc. erewrite bind_Ok by by apply parses_Uint32_id.
  unfold when_flag at 1. change (Z.testbit code_settings_id 6) with true. cbv iota.
  rewrite !bind_assoc. unfold VectorHeader at 1, ConsumeID. rewrite !bind_assoc.
  erewrite bind_Ok by apply PeekID_run. rewrite bind_assoc, bind_guard_if, u32_id by done.
  destruct (Z.eqb_spec f kTypeVector); [done|]. by eexists.
Qed.

Lemma AccountUpdateBirthdayRequest_misreads f bf d m y rest :
  is_u32 f -> Z.testbit f 0 = true -> is_u32 bf -> is_s32 d ->
  AccountUpdateBirthdayRequest.DecodeBare
    (fput update_birthday (f, Some (bf, (d, (m, y)))) ++ rest) =
  (Ok (MkBirthday (s32 bf) d 0), le_bytes 4 m ++ fput (opt (Z.testbit bf 0) int) y ++ rest).
Proof.
  intros Hf Hbit Hbf Hd. unfold AccountUpdateBirthdayRequest.DecodeBare.
  cbn [fput update_birthday dep seq opt ctor birthday int nat32]. rewrite <- !app_assoc.
  erewrite bind_Ok by by apply parses_Uint32_id. unfold when_flag at 1. rewrite Hbit.
  unfold DecodeBirthday. erewrite bind_Ok by by apply parses_Uint32_id.
  erewrite bind_Ok by apply parses_Int32. erewrite bind_Ok by by apply parses_Int32_id.
  unfold when_flag. change (Z.testbit birthday_id 0) with false. done.
Qed.

(** ** Responses *)

Lemma put_if_app c put e b : (forall b, put b = b ++ e) ->
  put_if c put b = b ++ (if c then e else []).
Proof. intros H. destruct c; [apply H|by rewrite app_nil_r]. Qed.

Lemma fput_opt {A} p (f : format A) (c : bool) v :
  fput (opt p f) (if c then Some v else None) = if c then fput f v else [].
Proof. by destruct c. Qed.

(** Present exactly when the bit is. *)
Lemma fok_opt {A} p (f : format A) (c : bool) v :
  p = c -> (c = true -> fok f v) -> fok (opt p f) (if c then Some v else None).
Proof. intros -> H. destruct c; cbn; auto. Qed.

Definition status_wire (s : UserStatus) : unit + (Z + (Z + (Z + (Z + Z)))) :=
  let recently := inr (inr (inr (inl 0))) in
  match st_kind s with
  | Online => if 0 <? st_expires s then inr (inl (st_expires s)) else recently
  | Offline => if 0 <? was_online s then inr (inr (inl (was_online s))) else recently
  | LastWeek => inr (inr (inr (inr (inl 0))))
  | LastMonth => inr (inr (inr (inr (inr 0))))
  | StatusEmpty => inl tt
  | Recently | StatusUnknown => recently
  end.

Lemma EncodeUserStatus_app s b : EncodeUserStatus s b = b ++ fput user_status (status_wire s).
Proof.
  unfold EncodeUserStatus, status_wire.
  destruct (st_kind s); try (destruct (0 <? _)); put_norm; reflexivity.
Qed.

Definition photo_wire (u : User) : unit + Z * (Z * (option bytes * Z)) :=
  if photo_id u =? 0 then inl tt
  else inr (photo_flags u, (photo_id u,
    (if nonempty (photo_stripped u) then Some (photo_stripped u) else None, photo_dc_id u))).

Lemma EncodeUserProfilePhoto_app u b :
  EncodeUserProfilePhoto u b = b ++ fput user_photo (photo_wire u).
Proof.
  unfold EncodeUserProfilePhoto, photo_wire. destruct (photo_id u =? 0); [by put_norm|].
  erewrite put_if_app by apply PutBytes_app. put_norm.
  cbn [fput user_photo choice ctor dep seq nat32 long int tbytes]. by rewrite fput_opt.
Qed.

Definition color_wire (c : PeerColor) : Z * (option Z * option Z) :=
  let flags := color_flags c in
  (flags, (if Z.testbit flags 0 then Some (pc_color c) else None,
           if Z.testbit flags 1 then Some (background_emoji_id c) else None)).

Lemma EncodePeerColor_app c b : PeerColor_Empty c = false ->
  EncodePeerColorIfPresent c b = b ++ fput peer_color (color_wire c).
Proof.
  intros He. unfold EncodePeerColorIfPresent, color_wire. rewrite He.
  erewrite put_if_app by apply PutLong_app. erewrite put_if_app by apply PutInt32_app. put_norm.
  cbn [fput peer_color ctor dep seq nat32]. by rewrite !fput_opt.
Qed.

Definition emoji_wire (s : UserEmojiStatus) :=
  let until := if negb (es_until s =? 0) then Some (es_until s) else None in
  let flags := if negb (es_until s =? 0) then 1 else 0 in
  if negb (EmojiStatus_Valid s) || EmojiStatus_Empty s then inl tt
  else if negb (Collectible_Empty (es_collectible s)) then
    let c := es_collectible s in
    inr (inr (flags, (collectible_id c, (c_document_id c, (title c, (slug c, (pattern_document_id c,
      (center_color c, (edge_color c, (pattern_color c, (text_color c, until)))))))))))
  else inr (inl (flags, (es_document_id s, until))).

Lemma EncodeEmojiStatus_app s b : EncodeEmojiStatus s b = b ++ fput emoji_status (emoji_wire s).
Proof.
  unfold EncodeEmojiStatus, emoji_wire. destruct (_ || _); [by put_norm|].
  destruct (negb (Collectible_Empty _)); erewrite put_if_app by apply PutInt32_app; put_norm;
    cbn [fput emoji_status choice ctor dep seq nat32 long int tbytes]; by rewrite fput_opt.
Qed.

Definition reason_wire (r : UserRestrictionReason) := (rr_platform r, (rr_reason r, rr_text r)).
Lemma EncodeRestrictionReason_app r b :
  EncodeRestrictionReason r b = b ++ fput restriction_reason (reason_wire r).
Proof. unfold EncodeRestrictionReason. by put_norm. Qed.

Definition bot_version (u : User) : Z := if 0 <? bot_info_version u then bot_info_version u else 1.

(** What [EncodeUser] sends: the flag words, and each field under the
    condition that sets its flag. *)
Definition user_wire (u : User) (is_self : bool) (now : Z) :=
  if deleted u then
    (Z.shiftl 1 13, (0, (id u, (None, (None, (None, (None, (None, (None, (None, (None, (None,
      (None, (None, (None, None)))))))))))))))
  else
    let some {A} (c : bool) (a : A) := if c then Some a else None in
    let reasons := ValidRestrictionReasons u in
    (user_flags u is_self now, (user_flags2 u, (id u,
     (some (negb (access_hash u =? 0)) (access_hash u),
     (some (nonempty (first_name u)) (first_name u),
     (some (nonempty (last_name u)) (last_name u),
     (some (nonempty (username u)) (username u),
     (some (negb (bot u) && nonempty (phone u)) (phone u),
     (some true (photo_wire u),
     (some (negb (bot u)) (status_wire (status u)),
     (some (bot u) (bot_version u),
     (some (nonempty reasons) (map reason_wire reasons),
     (some (EmojiStatusActiveAt u now) (emoji_wire (EmojiStatus u)),
     (some (negb (PeerColor_Empty (color u))) (color_wire (color u)),
     (some (negb (PeerColor_Empty (profile_color u))) (color_wire (profile_color u)),
      some (negb (linked_community_id u =? 0)) (linked_community_id u)))))))))))))))).

Section UserFlags.
Context (u : User) (is_self : bool) (now : Z).
Notation f := (user_flags u is_self now).
Notation f2 := (user_flags2 u).

Lemma user_flag_0 : Z.testbit f 0 = negb (access_hash u =? 0).
Proof. unfold user_flags. by flag_bits. Qed.
Lemma user_flag_1 : Z.testbit f 1 = nonempty (first_name u).
Proof. unfold user_flags. by flag_bits. Qed.
Lemma user_flag_2 : Z.testbit f 2 = nonempty (last_name u).
Proof. unfold user_flags. by flag_bits. Qed.
Lemma user_flag_3 : Z.testbit f 3 = nonempty (username u).
Proof. unfold user_flags. by flag_bits. Qed.
Lemma user_flag_4 : Z.testbit f 4 = negb (bot u) && nonempty (phone u).
Proof. unfold user_flags. by flag_bits. Qed.
Lemma user_flag_5 : Z.testbit f 5 = true.
Proof. unfold user_flags. by flag_bits. Qed.
Lemma user_flag_6 : Z.testbit f 6 = negb (bot u).
Proof. unfold user_flags. by flag_bits. Qed.
Lemma user_flag_14 : Z.testbit f 14 = bot u.
Proof. unfold user_flags. by flag_bits. Qed.
Lemma user_flag_18 : Z.testbit f 18 = nonempty (ValidRestrictionReasons u).
Proof. unfold user_flags. by flag_bits. Qed.
Lemma user_flag_30 : Z.testbit f 30 = EmojiStatusActiveAt u now.
Proof. unfold user_flags. by flag_bits. Qed.
Lemma user_flag2_8 : Z.testbit f2 8 = negb (PeerColor_Empty (color u)).
Proof. unfold user_flags2. by flag_bits. Qed.
Lemma user_flag2_9 : Z.testbit f2 9 = negb (PeerColor_Empty (profile_color u)).
Proof. unfold user_flags2. by flag_bits. Qed.
Lemma user_flag2_21 : Z.testbit f2 21 = negb (linked_community_id u =? 0).
Proof. unfold user_flags2. by flag_bits. Qed.

Lemma user_flags_range : is_u32 f /\ is_u32 f2.
Proof. unfold user_flags, user_flags2. split; flag_range. Qed.
End UserFlags.

Lemma put_reasons u b :
  PutAll EncodeRestrictionReason (ValidRestrictionReasons u)
    (PutVectorHeader (s32 (zlen (ValidRestrictionReasons u))) b) =
  b ++ fput (vector restriction_reason) (map reason_wire (ValidRestrictionReasons u)).
Proof.
  rewrite (PutAll_app _ (fun r => fput restriction_reason (reason_wire r)))
    by apply EncodeRestrictionReason_app.
  put_norm. unfold enc_vector_header. rewrite UnencryptedMessage.le_bytes_s32.
  cbn [fput vector ctor bare_vector]. unfold zlen. by rewrite length_map, map_map, <- !app_assoc.
Qed.

Lemma put_color c b :
  put_if (negb (PeerColor_Empty c)) (EncodePeerColorIfPresent c) b =
  b ++ (if negb (PeerColor_Empty c) then fput peer_color (color_wire c) else []).
Proof.
  unfold put_if. destruct (PeerColor_Empty c) eqn:E; cbn [negb]; [by rewrite app_nil_r|].
  by apply EncodePeerColor_app.
Qed.

Lemma EncodeUser_app u is_self now b :
  EncodeUser u is_self now b = b ++ fput user (user_wire u is_self now).
Proof.
  unfold EncodeUser, user_wire. destruct (deleted u); [by put_norm|].
  cbv zeta. rewrite user_flag_0, user_flag_1, user_flag_2, user_flag_3, user_flag_4, user_flag_5,
    user_flag_6, user_flag_14, user_flag_18, user_flag_30, user_flag2_8, user_flag2_9, user_flag2_21.
  erewrite put_if_app by apply PutLong_app. rewrite !put_color.
  erewrite put_if_app by apply EncodeEmojiStatus_app. erewrite put_if_app by apply put_reasons.
  erewrite put_if_app by apply PutInt32_app. erewrite put_if_app by apply EncodeUserStatus_app.
  erewrite put_if_app by apply EncodeUserProfilePhoto_app.
  do 4 (erewrite put_if_app by apply PutBytes_app). erewrite put_if_app by apply PutLong_app.
  put_norm. cbn [fput user ctor dep seq nat32 long].
  rewrite !fput_opt. reflexivity.
Qed.

(** The bounds of a user's fields: the widths of their C++ types, and texts
    TL can carry. *)
Definition short (v : bytes) : Prop := zlen v < 2 ^ 24.
Definition color_ok (c : PeerColor) : Prop := is_s32 (pc_color c) /\ is_s64 (background_emoji_id c).
Definition reason_ok (r : UserRestrictionReason) : Prop :=
  short (rr_platform r) /\ short (rr_reason r) /\ short (rr_text r).
Definition collectible_ok (c : EmojiStatusCollectible) : Prop :=
  is_s64 (collectible_id c) /\ is_s64 (c_document_id c) /\ short (title c) /\ short (slug c) /\
  is_s64 (pattern_document_id c) /\ is_s32 (center_color c) /\ is_s32 (edge_color c) /\
  is_s32 (pattern_color c) /\ is_s32 (text_color c).
Record user_ok (u : User) : Prop := UserOk {
  ok_ids : is_s64 (id u) /\ is_s64 (access_hash u) /\ is_s64 (linked_community_id u);
  ok_texts : short (first_name u) /\ short (last_name u) /\ short (username u) /\ short (phone u);
  ok_photo : is_s64 (photo_id u) /\ short (photo_stripped u) /\ is_s32 (photo_dc_id u);
  ok_status : is_s32 (st_expires (status u)) /\ is_s32 (was_online (status u));
  ok_bot : is_s32 (bot_info_version u);
  ok_reasons : zlen (restriction_reasons u) < 2 ^ 31 /\ Forall reason_ok (restriction_reasons u);
  ok_emoji : is_s64 (emoji_status_document_id u) /\ is_s32 (emoji_status_until u) /\
             collectible_ok (emoji_status_collectible u);
  ok_colors : color_ok (color u) /\ color_ok (profile_color u) }.

(** A constructor among others: its id tells it apart. *)
Ltac pick_ctor := eexists _, _; split; reflexivity.

Lemma fok_status u : user_ok u -> fok user_status (status_wire (status u)).
Proof.
  intros Hu. destruct (ok_status u Hu) as [He Hw]. unfold status_wire.
  assert (Hrec : fok user_status (inr (inr (inr (inl 0))))).
  { repeat (split || pick_ctor); unfold is_u32; lia. }
  destruct (st_kind (status u)); try exact Hrec; try (destruct (_ <? _); [|exact Hrec]);
    repeat (done || split || pick_ctor); unfold is_u32, is_s32 in *; lia.
Qed.

Lemma fok_ctor {A} i (f : format A) v : is_u32 i -> fok f v -> fok (ctor i f) v.
Proof. by split. Qed.
Lemma fok_left {A B} (first : Z -> bool) i (f : format A) (g : format B) a :
  fok (ctor i f) a -> first (u32 i) = true -> fok (choice first (ctor i f) g) (inl a).
Proof. intros H Hi. split; [done|]. by eexists i, _. Qed.
Lemma fok_right {A B} (first : Z -> bool) i (f : format A) (g : format B) b :
  fok (ctor i g) b -> first (u32 i) = false -> fok (choice first f (ctor i g)) (inr b).
Proof. intros H Hi. split; [done|]. by eexists i, _. Qed.

Ltac u32_const := split; vm_compute; congruence.

Lemma fok_photo u : user_ok u -> fok user_photo (photo_wire u).
Proof.
  intros Hu. destruct (ok_photo u Hu) as (Hi & Hs & Hd). unfold photo_wire.
  destruct (photo_id u =? 0); [apply fok_left; [|done]; apply fok_ctor; [u32_const|done]|].
  apply fok_right; [|done]. apply fok_ctor; [u32_const|]. split; [change (is_u32 (photo_flags u)); unfold photo_flags; flag_range|].
  split; [done|]. split; [|done]. apply fok_opt; [|done]. unfold photo_flags. by flag_bits.
Qed.

Lemma fok_color c : color_ok c -> fok peer_color (color_wire c).
Proof.
  intros [Hc He]. apply fok_ctor; [u32_const|]. split; [change (is_u32 (color_flags c)); unfold color_flags; flag_range|].
  split; by apply fok_opt.
Qed.

Lemma fok_reasons u : user_ok u ->
  fok (vector restriction_reason) (map reason_wire (ValidRestrictionReasons u)).
Proof.
  intros Hu. destruct (ok_reasons u Hu) as [Hl Hf]. apply fok_ctor; [u32_const|].
  unfold ValidRestrictionReasons. split.
  - unfold zlen in *. rewrite length_map.
    pose proof (List.filter_length_le (fun r => nonempty (rr_platform r) && nonempty (rr_reason r) &&
      nonempty (rr_text r)) (restriction_reasons u)). lia.
  - apply Forall_forall. intros w Hw. apply list_elem_of_In, in_map_iff in Hw as (r & <- & Hr).
    apply List.filter_In in Hr as [Hr _]. apply list_elem_of_In in Hr.
    destruct (proj1 (Forall_forall _ _) Hf r Hr) as (H1 & H2 & H3).
    apply fok_ctor; [u32_const|done].
Qed.

Lemma fok_emoji u : user_ok u -> fok emoji_status (emoji_wire (EmojiStatus u)).
Proof.
  intros Hu. destruct (ok_emoji u Hu) as (Hd & Hn & Hc). unfold emoji_wire, EmojiStatus.
  cbn [es_document_id es_until es_collectible].
  assert (Hflag : forall c : bool, is_u32 (if c then 1 else 0) /\
    Z.testbit (if c then 1 else 0) 0 = c) by (intros []; (split; [u32_const|done])).
  destruct (Hflag (negb (emoji_status_until u =? 0))) as [Hr Hb].
  destruct (_ || _); [apply fok_left; [|done]; apply fok_ctor; [u32_const|done]|].
  destruct (negb (Collectible_Empty _)).
  - destruct Hc as (H1 & H2 & H3 & H4 & H5 & H6 & H7 & H8 & H9).
    split; [|by eexists _, _].
    apply fok_right; [|done]. apply fok_ctor; [u32_const|]. split; [done|].
    do 9 (split; [done|]). by apply fok_opt.
  - split; [|by eexists _, _]. apply fok_left; [|done]. apply fok_ctor; [u32_const|].
    split; [done|]. split; [done|]. by apply fok_opt.
Qed.

Lemma bot_version_ok u : user_ok u -> is_s32 (bot_version u).
Proof.
  intros Hu. pose proof (ok_bot u Hu). unfold bot_version. destruct (Z.ltb_spec 0 (bot_info_version u));
    [done|]. unfold is_s32. lia.
Qed.

Lemma fok_user u is_self now : user_ok u -> fok user (user_wire u is_self now).
Proof.
  intros Hu. destruct (ok_ids u Hu) as (Hi & Ha & Hl). destruct (ok_texts u Hu) as (H1 & H2 & H3 & H4).
  destruct (user_flags_range u is_self now) as [Hf Hf2]. destruct (ok_colors u Hu) as [Hc1 Hc2].
  apply fok_ctor; [u32_const|]. unfold user_wire. destruct (deleted u).
  { split; [cbn; u32_const|]. split; [cbn; u32_const|]. repeat (split; [done|]). done. }
  split; [exact Hf|]. split; [exact Hf2|]. split; [exact Hi|].
  repeat match goal with |- fok (seq _ _) _ => split end;
    try (split; [apply user_flag_5|by apply fok_photo]);
    apply fok_opt; rewrite ?user_flag_0, ?user_flag_1, ?user_flag_2, ?user_flag_3, ?user_flag_4,
      ?user_flag_6, ?user_flag_14, ?user_flag_18, ?user_flag_30, ?user_flag2_8,
      ?user_flag2_9, ?user_flag2_21; try done; intros _;
    auto using fok_status, fok_reasons, fok_emoji, fok_color.
  by apply bot_version_ok.
Qed.

(** *** The other responses *)

(** The values of a format. *)
Definition value_of {A} (f : format A) : Type := A.

Definition minimal_wire (u : User) : value_of user :=
  let some {A} (c : bool) (a : A) := if c then Some a else None in
  (MinimalSelfUser.flags_of u, (0, (id u, (Some (access_hash u),
    (some (nonempty (first_name u)) (first_name u), (some (nonempty (last_name u)) (last_name u),
    (None, (some (nonempty (phone u)) (phone u),
    (None, (None, (None, (None, (None, (None, (None, None))))))))))))))).

Lemma MinimalSelfUser_app u b : MinimalSelfUser.Encode u b = b ++ fput user (minimal_wire u).
Proof.
  unfold MinimalSelfUser.Encode, minimal_wire. cbv zeta.
  do 3 (erewrite put_if_app by apply PutBytes_app). put_norm.
  assert (Z.testbit (MinimalSelfUser.flags_of u) 1 = nonempty (first_name u)) as ->
    by (unfold MinimalSelfUser.flags_of; by flag_bits).
  assert (Z.testbit (MinimalSelfUser.flags_of u) 2 = nonempty (last_name u)) as ->
    by (unfold MinimalSelfUser.flags_of; by flag_bits).
  assert (Z.testbit (MinimalSelfUser.flags_of u) 4 = nonempty (phone u)) as ->
    by (unfold MinimalSelfUser.flags_of; by flag_bits).
  cbn [fput user ctor dep seq nat32 long]. rewrite !fput_opt. cbn [fput opt].
  by rewrite !app_nil_r.
Qed.

Lemma fok_minimal u : user_ok u -> fok user (minimal_wire u).
Proof.
  intros Hu. destruct (ok_ids u Hu) as (Hi & Ha & Hl). destruct (ok_texts u Hu) as (H1 & H2 & H3 & H4).
  apply fok_ctor; [u32_const|]. unfold minimal_wire.
  split; [change (is_u32 (MinimalSelfUser.flags_of u)); unfold MinimalSelfUser.flags_of; flag_range|].
  split; [change (is_u32 0); u32_const|]. split; [done|]. unfold MinimalSelfUser.flags_of.
  split; [split; [by flag_bits|done]|].
  split; [by apply fok_opt; [flag_bits|]|]. split; [by apply fok_opt; [flag_bits|]|].
  split; [change (Z.testbit (MinimalSelfUser.flags_of u) 3 = false);
          unfold MinimalSelfUser.flags_of; by flag_bits|].
  split; [by apply fok_opt; [flag_bits|]|].
  cbn [fok seq dep opt]. repeat split; by flag_bits.
Qed.

Definition algo_wire (a : PasswordAlgo.t) : value_of password_kdf_algo :=
  if nonempty (PasswordAlgo.p a)
  then inr (PasswordAlgo.salt1 a, (PasswordAlgo.salt2 a, (PasswordAlgo.g a, PasswordAlgo.p a)))
  else inl tt.

Lemma EncodePasswordAlgo_app a b :
  EncodePasswordAlgo a b = b ++ fput password_kdf_algo (algo_wire a).
Proof. unfold EncodePasswordAlgo, algo_wire. destruct (nonempty _); by put_norm. Qed.

Definition password_wire (s : PasswordSettings.t) : value_of account_password :=
  let some {A} (c : bool) (a : A) := if c then Some a else None in
  let has := PasswordSettings.has_password s in
  (AccountPassword.flags_of s,
   (some has (algo_wire (default (PasswordSettings.new_algo s) (PasswordSettings.current_algo s))),
   (some has (PasswordSettings.srp_b s), (some has (PasswordSettings.srp_id s),
   (some (nonempty (PasswordSettings.hint s)) (PasswordSettings.hint s),
   (algo_wire (PasswordSettings.new_algo s), (tt, PasswordSettings.secure_random s))))))).

Lemma AccountPassword_app s b : AccountPassword.Encode s b = b ++ fput account_password (password_wire s).
Proof.
  unfold AccountPassword.Encode, password_wire. cbv zeta.
  assert (Z.testbit (AccountPassword.flags_of s) 2 = PasswordSettings.has_password s) as E2
    by (unfold AccountPassword.flags_of; by flag_bits).
  assert (Z.testbit (AccountPassword.flags_of s) 3 = nonempty (PasswordSettings.hint s)) as E3
    by (unfold AccountPassword.flags_of; by flag_bits).
  set (algo := default _ _).
  erewrite (put_if_app (nonempty _)) by apply PutBytes_app.
  rewrite (put_if_app (PasswordSettings.has_password s) _
    (fput password_kdf_algo (algo_wire algo) ++ fput tbytes (PasswordSettings.srp_b s) ++
     fput long (PasswordSettings.srp_id s))).
  - rewrite PutBytes_app. unfold EncodeSecurePasswordAlgoUnknown. rewrite !EncodePasswordAlgo_app.
    put_norm. cbn [fput account_password ctor dep seq nat32 nothing]. rewrite E2, E3, !fput_opt.
    destruct (PasswordSettings.has_password s); rewrite <- ?app_assoc; reflexivity.
  - intros b'. rewrite EncodePasswordAlgo_app. put_norm.
    unfold algo. by destruct (PasswordSettings.current_algo s).
Qed.

Definition authorization_wire (now : Z) (current : bool) (a : Authorization.t)
    : value_of authorization :=
  (Z.lor (if current then 1 else 0) 2, (Authorization.hash a, (Authorization.device_model a,
   (Authorization.platform a, (Authorization.system_version a, (Authorization.api_id a, ([],
   (Authorization.app_version a, (s32 (date_created a now), (s32 (date_active a now),
   (Authorization.ip a, (lit "Unknown", lit "Unknown")))))))))))).

Lemma EncodeAuthorization_app a current now b :
  EncodeAuthorization a current now b = b ++ fput authorization (authorization_wire now current a).
Proof. unfold EncodeAuthorization. by put_norm. Qed.

Definition authorizations_wire (l : list Authorization.t) (key : bytes) (now : Z)
    : value_of authorizations :=
  (0, map (fun a => authorization_wire now (bool_decide (Authorization.auth_key_id a = key)) a) l).

Lemma EncodeAccountAuthorizations_app l key now b :
  EncodeAccountAuthorizations l key now b = b ++ fput authorizations (authorizations_wire l key now).
Proof.
  unfold EncodeAccountAuthorizations.
  rewrite (PutAll_app _ (fun a => fput authorization (authorization_wire now
    (bool_decide (Authorization.auth_key_id a = key)) a))) by (intros; apply EncodeAuthorization_app).
  put_norm. unfold enc_vector_header. rewrite UnencryptedMessage.le_bytes_s32.
  cbn [fput authorizations authorizations_wire ctor dep seq int vector bare_vector]. unfold zlen.
  by rewrite length_map, map_map, <- !app_assoc.
Qed.

Definition auth_wire (u : User) : value_of auth_authorization := (0, minimal_wire u).

Lemma AuthAuthorization_app u b : AuthAuthorization.Encode u b = b ++ fput auth_authorization (auth_wire u).
Proof. unfold AuthAuthorization.Encode. rewrite MinimalSelfUser_app. by put_norm. Qed.

Lemma AuthSentCode_writes : writes AuthSentCode.Encode sent_code
  (fun m => (0, (AuthSentCode.code_length m, AuthSentCode.phone_code_hash m))).
Proof. intros a buf. unfold AuthSentCode.Encode, AuthSentCodeTypeApp.Encode. by put_norm. Qed.

Definition dc_wire (o : DcOption.t) : value_of dc_option :=
  (0, (DcOption.id o, (DcOption.ip_address o, DcOption.port o))).

Lemma DcOption_app o b : DcOption.Encode o b = b ++ fput dc_option (dc_wire o).
Proof. unfold DcOption.Encode. by put_norm. Qed.

Lemma EncodeReactionEmoji_app e b : EncodeReactionEmoji e b = b ++ fput reaction e.
Proof. unfold EncodeReactionEmoji. by put_norm. Qed.

Definition config_wire (m : Config.t) : value_of config :=
  (Z.lor (Z.lor (Z.shiftl 1 6) (Z.shiftl 1 9)) (Z.shiftl 1 15),
   (s32 (Config.date m), (s32 (Config.expires m), (false, (Config.dc m,
   ([dc_wire (DcOption.Mk (Config.dc m) (Config.ip_address m) (Config.port m))], ([],
   (Config.limits, (None, (Config.call_timeouts, ([], (None, (Some (lit "gif"), (None, (None, (None,
   (1024, (4096, (Config.dc m, (None, (Some thumbs_up, None))))))))))))))))))))).

Lemma Config_app m b : Config.Encode m b = b ++ fput config (config_wire m).
Proof.
  unfold Config.Encode. rewrite EncodeReactionEmoji_app.
  unfold EncodeBool. put_norm. rewrite !(PutAll_app PutInt32 (le_bytes 4)) by apply PutInt32_app.
  rewrite DcOption_app. put_norm. unfold enc_vector_header. cbn [fput config config_wire ctor dep seq
    opt nat32 int tbytes tbool vector bare_vector times reaction]. rewrite <- !app_assoc. cbn [map concat].
  rewrite <- ?app_assoc, ?app_nil_r. reflexivity.
Qed.

(** *** Values that fit *)

Definition algo_ok (a : PasswordAlgo.t) : Prop :=
  short (PasswordAlgo.salt1 a) /\ short (PasswordAlgo.salt2 a) /\ is_s32 (PasswordAlgo.g a) /\
  short (PasswordAlgo.p a).

Record settings_ok (s : PasswordSettings.t) : Prop := SettingsOk {
  ok_algos : algo_ok (PasswordSettings.new_algo s) /\
             forall a, PasswordSettings.current_algo s = Some a -> algo_ok a;
  ok_srp : short (PasswordSettings.srp_b s) /\ is_s64 (PasswordSettings.srp_id s);
  ok_hint : short (PasswordSettings.hint s) /\ short (PasswordSettings.secure_random s) }.

Lemma fok_algo a : algo_ok a -> fok password_kdf_algo (algo_wire a).
Proof.
  intros (H1 & H2 & H3 & H4). unfold algo_wire. destruct (nonempty _);
    [apply fok_right; [|done]; apply fok_ctor; [u32_const|done]
    |apply fok_left; [|done]; apply fok_ctor; [u32_const|done]].
Qed.

Lemma fok_password s : settings_ok s -> fok account_password (password_wire s).
Proof.
  intros [[Hn Hc] [Hb Hi] [Hh Hr]]. apply fok_ctor; [u32_const|]. unfold password_wire.
  assert (Z.testbit (AccountPassword.flags_of s) 2 = PasswordSettings.has_password s) as E2
    by (unfold AccountPassword.flags_of; by flag_bits).
  assert (Z.testbit (AccountPassword.flags_of s) 3 = nonempty (PasswordSettings.hint s)) as E3
    by (unfold AccountPassword.flags_of; by flag_bits).
  split; [change (is_u32 (AccountPassword.flags_of s)); unfold AccountPassword.flags_of; flag_range|].
  repeat match goal with |- fok (seq _ _) _ => split end;
    try (apply fok_opt; [done|intros _]); try done.
  - apply fok_algo. destruct (PasswordSettings.current_algo s); [by apply Hc|done].
  - by apply fok_algo.
Qed.

Record authorization_ok (a : Authorization.t) : Prop := AuthorizationOk {
  ok_hash : is_s64 (Authorization.hash a) /\ is_s32 (Authorization.api_id a);
  ok_client : short (Authorization.device_model a) /\ short (Authorization.platform a) /\
    short (Authorization.system_version a) /\ short (Authorization.app_version a) /\
    short (Authorization.ip a) }.

Lemma fok_authorizations l key now : zlen l < 2 ^ 31 -> Forall authorization_ok l ->
  fok authorizations (authorizations_wire l key now).
Proof.
  intros Hl Hf. apply fok_ctor; [u32_const|]. split; [done|].
  apply fok_ctor; [u32_const|]. split; [unfold zlen in *; by rewrite length_map|].
  apply Forall_map. eapply Forall_impl; [exact Hf|]. intros a [[H1 H2] (H3 & H4 & H5 & H6 & H7)].
  apply fok_ctor; [u32_const|].
  split; [destruct (bool_decide _); u32_const|]. do 6 (split; [done|]).
  split; [done|]. do 2 (split; [apply s32_range|]). by do 2 (split; [done|]).
Qed.

Record config_ok (m : Config.t) : Prop := ConfigOk {
  ok_dc : is_s32 (Config.dc m) /\ is_s32 (Config.port m);
  ok_ip : short (Config.ip_address m) }.

Lemma fok_config m : config_ok m -> fok config (config_wire m).
Proof.
  intros [[Hd Hp] Hi]. apply fok_ctor; [u32_const|]. split; [done|].
  assert (Hints : forall l, forallb (fun z => (- 2 ^ 31 <=? z) && (z <? 2 ^ 31)) l = true ->
    Forall (fok int) l).
  { intros l H. apply Forall_forall. intros z Hz. apply list_elem_of_In in Hz.
    apply forallb_forall with (x := z) in H; [|done]. apply andb_true_iff in H as [H1 H2].
    apply Z.leb_le in H1. apply Z.ltb_lt in H2. by split. }
  do 2 (split; [apply s32_range|]). split; [done|]. split; [done|]. split.
  { apply fok_ctor; [u32_const|]. split; [done|]. constructor; [|constructor].
    apply fok_ctor; [u32_const|]. by do 3 (split; [done|]). }
  split; [done|]. split; [split; [done|by apply Hints]|]. split; [done|].
  split; [split; [done|by apply Hints]|].
  do 6 (split; [done|]). do 3 (split; [done|]). split; [done|]. split; [|done].
  split; [done|]. apply fok_ctor; [u32_const|done].
Qed.

(** ** The API messages conform *)

(** C37. Every request struct without a boxed sub-object reads exactly the
    bytes of its TL schema, whatever flags are set and whatever follows:
    auth.signIn (an absent code reads as the empty one), auth.signUp,
    auth.checkPassword in both its forms, account.updateStatus,
    account.updateProfile (an absent field is told apart from an empty one),
    the username calls, and users.getUsers with any list of inputs. *)
Theorem api_requests_conform :
  reads AuthSignInRequest.DecodeBare sign_in
    (fun '(_, (p, (h, c))) => AuthSignInRequest.Mk p h (default [] c)) /\
  reads AuthSignUpRequest.DecodeBare sign_up
    (fun '(_, (p, (h, (f, l)))) => AuthSignUpRequest.Mk p h f l) /\
  reads AuthCheckPasswordRequest.DecodeBare check_password
    (fun v => match v with
              | inl _ => PasswordCheck.Mk true 0 [] []
              | inr (i, (a, m)) => PasswordCheck.Mk false i a m end) /\
  reads AccountUpdateStatusRequest.DecodeBare tbool Datatypes.id /\
  reads AccountUpdateProfileRequest.DecodeBare update_profile
    (fun '(_, (n, (l, a))) => MkProfileUpdate (default [] n) (bool_decide (is_Some n))
       (default [] l) (bool_decide (is_Some l)) (default [] a) (bool_decide (is_Some a))) /\
  reads AccountCheckUsernameRequest.DecodeBare tbytes Datatypes.id /\
  reads AccountUpdateUsernameRequest.DecodeBare tbytes Datatypes.id /\
  reads UsersGetUsersRequest.DecodeBare get_users (map input_of).
Proof.
  split; [exact AuthSignInRequest_reads|]. split; [exact AuthSignUpRequest_reads|].
  split; [exact AuthCheckPasswordRequest_reads|]. split; [exact DecodeBool_reads|].
  split; [exact AccountUpdateProfileRequest_reads|].
  do 2 (split; [intros v; apply parses_GetBytes|]). exact UsersGetUsersRequest_reads.
Qed.


Definition ann : User :=
  blank_user 7 9 (lit "12025550123") (lit "Ann") [] (MkStatus Online 1700000000 0) false 0
    DeletionNone [] 0 0.

Lemma ann_ok : user_ok ann.
Proof. split; repeat split; try constructor; vm_compute; congruence. Qed.

