(* ===== verification/Users.v ===== *)
(** * Account services: [users/*.cpp] and [account/update_status.cpp]

    Usernames, profiles, birthdays, last-seen times and the resolution of
    users.getUsers, over any stores.  [UserStoreSpec] is what
    [store/user_store.hpp] documents of the operations used here. *)

From Stdlib Require Import ZArith Lia Strings.Byte Strings.String.
From stdpp Require Import base decidable list gmap.
From S2P Require Import Prelude Text OpenSSL Domain Store Auth Api.

(** ** Trimming *)

Definition TrimAsciiSpace (s : bytes) : bytes :=
  match find_first_not_of is_space s with
  | None => []
  | Some first =>
      match find_last_not_of is_space s with
      | Some last => substr s first (last - first + 1)
      | None => []
      end
  end.

(** The code points of a UTF-8 text: the bytes that are not continuations. *)
Definition Utf8RuneCount (s : bytes) : Z :=
  zlen (List.filter (fun c => negb (Z.land (bz c) 0xC0 =? 0x80)) s).

(** ** Usernames *)

Definition kMinUsernameLen : Z := 5.
Definition kMaxUsernameLen : Z := 32.

Definition NormalizeUsername (username : bytes) : bytes :=
  let s := TrimAsciiSpace username in
  let s := match s with
           | c :: t => if bz c =? 64 then t else s
           | [] => s
           end in
  TrimAsciiSpace s.

Definition is_alpha (c : byte) : bool :=
  ((97 <=? bz c) && (bz c <=? 122)) || ((65 <=? bz c) && (bz c <=? 90)).
Definition is_underscore (c : byte) : bool := bz c =? 95.

Fixpoint ValidUsernameLoop (i : Z) (username : bytes) : bool :=
  match username with
  | [] => true
  | c :: rest =>
      if is_alpha c then ValidUsernameLoop (i + 1) rest
      else if is_digit c then if i =? 0 then false else ValidUsernameLoop (i + 1) rest
      else if is_underscore c then if i =? 0 then false else ValidUsernameLoop (i + 1) rest
      else false
  end.
Definition ValidUsername (username : bytes) : bool :=
  if (zlen username <? kMinUsernameLen) || (kMaxUsernameLen <? zlen username) then false
  else ValidUsernameLoop 0 username.

Definition kMaxProfileNameRunes : Z := 64.
Definition kMaxProfileAboutRunes : Z := 70.
Definition kMaxProfileAboutRunesPremium : Z := 140.

Section Services.
Context {W : Type} (users : IUserStore W).

Definition LoadSelf (user_id : Z) : M W User :=
  guard (negb (user_id =? 0)) UserNotFoundError ;;;
  self <- ByID users user_id ;;
  match self with
  | None => throw UserNotFoundError
  | Some u => ret u
  end.

Definition CheckUsernameAvailable (self_id : Z) (username : bytes) : M W bool :=
  existing <- ByUsername users username ;;
  ret match existing with None => true | Some e => id e =? self_id end.

Definition CheckUsername (user_id : Z) (username : bytes) : M W bool :=
  self <- LoadSelf user_id ;;
  let normalized := NormalizeUsername username in
  guard (ValidUsername normalized) UsernameInvalidError ;;;
  CheckUsernameAvailable (id self) normalized.

Definition UpdateUsername (user_id : Z) (username_ : bytes) : M W User :=
  self <- LoadSelf user_id ;;
  let normalized := NormalizeUsername username_ in
  (if nonempty normalized then
     guard (ValidUsername normalized) UsernameInvalidError ;;;
     available <- CheckUsernameAvailable (id self) normalized ;;
     guard available UsernameOccupiedError
   else ret tt) ;;;
  if decide (username self = normalized) then ret self
  else UpdateUsername_ users (id self) normalized.

Definition UpdateProfile (user_id : Z) (update : UserProfileUpdate) (now : Z) : M W User :=
  self_opt <- ByID users user_id ;;
  match self_opt with
  | None => throw UserNotFoundError
  | Some self =>
      let first_name_ := if has_first_name update then TrimAsciiSpace (up_first_name update)
                         else first_name self in
      let last_name_ := if has_last_name update then TrimAsciiSpace (up_last_name update)
                        else last_name self in
      let about_ := if has_about update then TrimAsciiSpace (up_about update)
                    else about self in
      guard (negb (negb (nonempty first_name_) ||
                   (kMaxProfileNameRunes <? Utf8RuneCount first_name_) ||
                   (kMaxProfileNameRunes <? Utf8RuneCount last_name_))) FirstNameInvalidError ;;;
      let about_limit := if PremiumActiveAt self now then kMaxProfileAboutRunesPremium
                         else kMaxProfileAboutRunes in
      guard (Utf8RuneCount about_ <=? about_limit) AboutTooLongError ;;;
      if bool_decide (first_name_ = first_name self) && bool_decide (last_name_ = last_name self) &&
         bool_decide (about_ = about self)
      then ret self
      else UpdateProfile_ users user_id first_name_ last_name_ about_
  end.

Definition UpdateBirthday (user_id : Z) (birthday : Birthday) : M W User :=
  self <- ByID users user_id ;;
  match self with
  | None => throw UserNotFoundError
  | Some self =>
      birthday <- (if Birthday_IsSet birthday then
                     guard (ValidBirthday birthday) BirthdayInvalidError ;;; ret birthday
                   else ret no_birthday) ;;
      UpdateBirthday_ users (id self) birthday
  end.

(** *** [update_status.cpp] *)

Definition UpdateStatus (authorizations : IAuthorizationStore W) (auth_key_id : bytes) (now : Z)
    : M W unit :=
  current <- ResolveCurrentUser authorizations auth_key_id ;;
  if negb (CurrentUser.authorized current) || (CurrentUser.user_id current =? 0) then ret tt
  else UpdateLastSeen users (CurrentUser.user_id current) now.

(** *** [get_users.cpp] *)

Record ResolvedUser : Type := MkResolvedUser { ru_user : User; ru_self : bool }.

(** The locals of the loop over the inputs. *)
Record Collected : Type := MkCollected {
  need_self : bool; resolved_inputs : list InputUser.t; unique_ids : list Z; seen_ids : gset Z }.

Definition collect_input (authorized : bool) (s : Collected) (i : InputUser.t) : Collected :=
  match InputUser.kind i with
  | InputUser.SelfUser =>
      if negb authorized then s
      else MkCollected true (resolved_inputs s ++ [i]) (unique_ids s) (seen_ids s)
  | InputUser.ById =>
      if negb authorized || (InputUser.user_id i =? 0) then s
      else
        let '(ids, seen) := if decide (InputUser.user_id i ∈ seen_ids s)
                            then (unique_ids s, seen_ids s)
                            else (unique_ids s ++ [InputUser.user_id i],
                                  {[ InputUser.user_id i ]} ∪ seen_ids s) in
        MkCollected (need_self s) (resolved_inputs s ++ [i]) ids seen
  | InputUser.Empty => s
  end.

(** [users_by_id.emplace(u.id, …)] does nothing when the key is there. *)
Definition emplace_user (m : gmap Z User) (u : User) : gmap Z User :=
  if id u =? 0 then m
  else match m !! id u with Some _ => m | None => <[id u := u]> m end.

Definition resolve_input (self_user : option User) (users_by_id : gmap Z User) (current_user_id : Z)
    (i : InputUser.t) : list ResolvedUser :=
  match InputUser.kind i with
  | InputUser.SelfUser =>
      match self_user with Some u => [MkResolvedUser u true] | None => [] end
  | _ =>
      match users_by_id !! InputUser.user_id i with
      | None => []
      | Some u =>
          if negb (InputUser.access_hash i =? 0) && negb (InputUser.access_hash i =? access_hash u)
          then []
          else [MkResolvedUser u (id u =? current_user_id)]
      end
  end.

Definition ResolveGetUsers (authorizations : IAuthorizationStore W) (auth_key_id : bytes)
    (inputs : list InputUser.t) : M W (list ResolvedUser) :=
  current <- ResolveCurrentUser authorizations auth_key_id ;;
  let authorized := CurrentUser.authorized current in
  let current_user_id := CurrentUser.user_id current in
  let c := fold_left (collect_input authorized) inputs (MkCollected false [] [] ∅) in
  self_user <- (if need_self c then ByID users current_user_id else ret None) ;;
  users_by_id <- (match unique_ids c with
                  | [] => ret ∅
                  | ids => found <- ByIDs users ids ;; ret (fold_left emplace_user found ∅)
                  end) ;;
  ret (concat (map (resolve_input self_user users_by_id current_user_id) (resolved_inputs c))).

End Services.

(** ** What trimming and normalising do *)

Definition spaces (s : bytes) : Prop := forallb is_space s = true.
(** No space at either end. *)
Definition trimmed (s : bytes) : Prop :=
  s = [] \/ (exists c t, s = c :: t /\ is_space c = false) /\ (exists t c, s = t ++ [c] /\ is_space c = false).

Lemma TrimAsciiSpace_strip pre m post : spaces pre -> spaces post -> trimmed m ->
  TrimAsciiSpace (pre ++ m ++ post) = m.
Proof.
  unfold spaces, TrimAsciiSpace, substr. intros Hpre Hpost Hm.
  rewrite find_first_skips, !find_last_app, (find_last_spaces _ post) by done.
  destruct Hm as [->|[(c & t & E1 & Hc) (t' & d & E2 & Hd)]].
  { cbn [app]. by rewrite (find_first_spaces _ post). }
  rewrite E1 at 1. cbn [app find_first_not_of]. rewrite Hc. cbn [option_map].
  rewrite E2 at 1. rewrite find_last_app. cbn [find_last_not_of]. rewrite Hd.
  assert (El : zlen m = zlen t' + 1) by (rewrite E2, zlen_app; reflexivity).
  rewrite zdrop_app by lia. apply ztake_app. lia.
Qed.

(** What [TrimAsciiSpace] removes. *)
Lemma TrimAsciiSpace_spec s : exists pre post,
  s = pre ++ TrimAsciiSpace s ++ post /\ spaces pre /\ spaces post /\ trimmed (TrimAsciiSpace s).
Proof.
  assert (Hd : exists pre m post, s = pre ++ m ++ post /\ spaces pre /\ spaces post /\ trimmed m).
  { induction s as [|c t (pre & m & post & E & Hpre & Hpost & Hm)].
    { exists [], [], []. repeat split. by left. }
    destruct (is_space c) eqn:Ec.
    { exists (c :: pre), m, post. subst t. repeat split; try done. unfold spaces in *. cbn. by rewrite Ec. }
    destruct Hm as [->|[_ (t' & d & E' & Hd)]].
    - exists [], [c], t. split; [done|]. split; [done|].
      split; [unfold spaces in *; subst t; cbn; by rewrite forallb_app, Hpre|].
      right. split; [by exists c, []|by exists [], c].
    - exists [], (c :: pre ++ m), post. subst t. split; [cbn; by rewrite <- app_assoc|]. split; [done|].
      split; [done|]. right. split; [by exists c, (pre ++ m)|].
      exists (c :: pre ++ t'), d. cbn. by rewrite E', <- app_assoc. }
  destruct Hd as (pre & m & post & -> & Hpre & Hpost & Hm). exists pre, post.
  by rewrite TrimAsciiSpace_strip.
Qed.

Lemma trimmed_id m : trimmed m -> TrimAsciiSpace m = m.
Proof. intros Hm. rewrite <- (app_nil_r m) at 1. by apply (TrimAsciiSpace_strip [] m []). Qed.

(** *** Usernames *)

Definition is_word (c : byte) : bool := is_alpha c || is_digit c || is_underscore c.

Lemma word_not_space c : is_word c = true -> is_space c = false.
Proof. unfold is_word, is_alpha, is_digit, is_underscore, is_space. lia. Qed.

Lemma ValidUsernameLoop_tail i s : 0 < i -> ValidUsernameLoop i s = forallb is_word s.
Proof.
  revert i. induction s as [|c s IH]; intros i Hi; [done|]. cbn [ValidUsernameLoop forallb].
  unfold is_word at 1. destruct (Z.eqb_spec i 0); [lia|]. rewrite IH by lia.
  by destruct (is_alpha c), (is_digit c), (is_underscore c).
Qed.

(** A letter, then letters, digits and underscores. *)
Definition username_shape (s : bytes) : Prop :=
  kMinUsernameLen <= zlen s <= kMaxUsernameLen /\
  exists c t, s = c :: t /\ is_alpha c = true /\ forallb is_word t = true.

Lemma ValidUsername_shape s : ValidUsername s = true <-> username_shape s.
Proof.
  unfold ValidUsername, username_shape.
  destruct (Z.ltb_spec (zlen s) kMinUsernameLen); [cbn; split; [done|lia]|].
  destruct (Z.ltb_spec kMaxUsernameLen (zlen s)); [cbn; split; [done|lia]|]. cbn [orb].
  destruct s as [|c t]; [change (zlen (@nil byte)) with 0 in *; unfold kMinUsernameLen in *; lia|].
  cbn [ValidUsernameLoop]. rewrite ValidUsernameLoop_tail by lia. change (0 =? 0) with true. cbv iota.
  split.
  - intros Hs. split; [lia|]. exists c, t. split; [done|].
    destruct (is_alpha c); [done|]. by destruct (is_digit c), (is_underscore c).
  - intros (_ & c' & t' & [= <- <-] & -> & Ht). done.
Qed.

Lemma username_trimmed s : ValidUsername s = true -> trimmed s /\ s <> [] /\
  (forall c t, s = c :: t -> bz c <> 64 /\ is_space c = false).
Proof.
  intros (Hl & c & t & -> & Hc & Ht)%ValidUsername_shape.
  assert (Hw : forallb is_word (c :: t) = true) by (cbn; unfold is_word at 1; by rewrite Hc).
  assert (Hsp : forall d, In d (c :: t) -> is_space d = false).
  { intros d Hd. apply word_not_space. by apply (proj1 (forallb_forall _ _) Hw). }
  split; [|split; [done|]].
  - right. split; [exists c, t; split; [done|apply Hsp; by left]|].
    destruct (exists_last (l := c :: t) ltac:(done)) as (t' & d & E). exists t', d. split; [exact E|].
    apply Hsp. rewrite E. apply in_or_app. right. by left.
  - intros c' t' [= <- <-]. split; [unfold is_alpha in Hc; lia|apply Hsp; by left].
Qed.

(** Usernames are canonical.  [ValidUsername] accepts exactly the texts of
    5 to 32 characters that start with a letter and go on with letters, digits
    and underscores; and every way of writing such a name, with or without an
    at sign and with white space around either, is normalised to the name
    itself, so a name that is stored is a fixed point. *)
Theorem usernames_canonical (s : bytes) :
  (ValidUsername s = true <->
    5 <= zlen s <= 32 /\
    exists c t, s = c :: t /\ is_alpha c = true /\
      forallb (fun c => is_alpha c || is_digit c || is_underscore c) t = true) /\
  (ValidUsername s = true -> forall s1 s2 s3, spaces s1 -> spaces s2 -> spaces s3 ->
    NormalizeUsername (s1 ++ s ++ s3) = s /\ NormalizeUsername (s1 ++ [x40] ++ s2 ++ s ++ s3) = s).
Proof.
  split; [apply ValidUsername_shape|]. intros Hv s1 s2 s3 H1 H2 H3.
  destruct (username_trimmed s Hv) as (Ht & Hne & Hh). unfold NormalizeUsername. split.
  - rewrite TrimAsciiSpace_strip by done. destruct s as [|c t]; [done|].
    destruct (Hh c t eq_refl) as [Hat _]. destruct (Z.eqb_spec (bz c) 64); [done|]. by apply trimmed_id.
  - destruct Ht as [->|[Hfirst (t & d & -> & Hd)]]; [done|].
    replace (s1 ++ [x40] ++ s2 ++ (t ++ [d]) ++ s3) with (s1 ++ (x40 :: s2 ++ t ++ [d]) ++ s3)
      by (by rewrite <- !app_comm_cons, <- !app_assoc).
    rewrite (TrimAsciiSpace_strip s1 (x40 :: s2 ++ t ++ [d])).
    + change (bz x40 =? 64) with true. cbv iota. rewrite <- (app_nil_r (s2 ++ _)), <- app_assoc.
      apply TrimAsciiSpace_strip; [done|done|]. right. split; [done|by exists t, d].
    + done.
    + done.
    + right. split; [by exists x40, (s2 ++ t ++ [d])|].
      exists (x40 :: s2 ++ t), d. cbn. by rewrite <- app_assoc.
Qed.

Lemma usernames_canonical_witness :
  ValidUsername (lit "ann_1") = true /\ NormalizeUsername (lit "  @ ann_1 ") = lit "ann_1".
Proof.
  split; [reflexivity|].
  exact (proj2 (proj2 (usernames_canonical (lit "ann_1")) eq_refl (lit "  ") (lit " ") (lit " ")
    eq_refl eq_refl eq_refl)).
Defined.

(** ** The stores *)

(** [rows] is what reading a user by id shows, [holder] who has a username. *)
Class UserStoreSpec {W} (users : IUserStore W) (rows : W -> gmap Z User)
    (holder : W -> bytes -> option User) : Prop := {
  us_ids w i u : rows w !! i = Some u -> id u = i;
  us_ByID i w : exists w', ByID users i w = (Ok (rows w !! i), w') /\ rows w' = rows w /\
    holder w' = holder w;
  us_ByIDs l w : exists found w', ByIDs users l w = (Ok found, w') /\ rows w' = rows w /\
    forall u, In u found <-> exists i, In i l /\ rows w !! i = Some u;
  us_ByUsername n w : exists w', ByUsername users n w = (Ok (holder w n), w') /\ rows w' = rows w;
  us_UpdateUsername i n w : n = [] \/ ValidUsername n = true ->
    exists r w', UpdateUsername_ users i n w = (r, w') /\
      match r with
      | Ok u => username u = n /\ rows w' = <[i := u]> (rows w)
      | Throw _ => rows w' = rows w
      end;
  us_UpdateProfile i f l a w : exists r w', UpdateProfile_ users i f l a w = (r, w') /\
      match r with
      | Ok u => first_name u = f /\ last_name u = l /\ about u = a /\ rows w' = <[i := u]> (rows w)
      | Throw _ => rows w' = rows w
      end;
  us_UpdateBirthday i b w : exists r w', UpdateBirthday_ users i b w = (r, w') /\
      match r with
      | Ok u => birthday u = b /\ rows w' = <[i := u]> (rows w)
      | Throw _ => rows w' = rows w
      end }.

(** The authorizations are read, the users left alone. *)
Class SessionReads {W} (authorizations : IAuthorizationStore W)
    (bound : W -> gmap bytes Authorization.t) (rows : W -> gmap Z User) : Prop :=
  sr_ByAuthKey key w : exists w', ByAuthKey authorizations key w = (Ok (bound w !! key), w') /\
    bound w' = bound w /\ rows w' = rows w.

(** Who an authorization speaks for: nobody while a password is pending. *)
Definition identity (a : option Authorization.t) : option Z :=
  match a with
  | Some a => if Authorization.password_pending a then None else Some (Authorization.user_id a)
  | None => None
  end.

Section Laws.
Context {W : Type} (users : IUserStore W) (rows : W -> gmap Z User).
Context (holder : W -> bytes -> option User) {spec : UserStoreSpec users rows holder}.

Definition account (w : W) (user_id : Z) : option User :=
  if user_id =? 0 then None else rows w !! user_id.

Lemma LoadSelf_run user_id w : exists w',
  LoadSelf users user_id w =
    (match account w user_id with Some u => Ok u | None => Throw UserNotFoundError end, w') /\
  rows w' = rows w /\ holder w' = holder w.
Proof.
  unfold LoadSelf, account. destruct (Z.eqb_spec user_id 0); cbn [negb].
  { by exists w. }
  destruct (us_ByID user_id w) as (w' & E & Hr & Hh). exists w'. cbn [guard].
  change ((_ <- ret tt ;; _) w) with ((self <- ByID users user_id ;;
    match self with None => throw UserNotFoundError | Some u => ret u end) w).
  erewrite bind_Ok by exact E. by destruct (rows w !! user_id).
Qed.

Lemma account_id w user_id u : account w user_id = Some u -> id u = user_id.
Proof. unfold account. destruct (_ =? _); [done|]. apply us_ids. Qed.

(** Why a username is refused, if it is. *)
Definition username_verdict (w : W) (user_id : Z) (n : bytes) : option exn :=
  if ValidUsername n then
    match holder w n with
    | Some u => if id u =? user_id then None else Some UsernameOccupiedError
    | None => None
    end
  else Some UsernameInvalidError.

Lemma CheckUsernameAvailable_run user_id n w : exists w',
  CheckUsernameAvailable users user_id n w =
    (Ok match holder w n with None => true | Some e => id e =? user_id end, w') /\ rows w' = rows w.
Proof.
  destruct (us_ByUsername n w) as (w' & E & Hr). exists w'. unfold CheckUsernameAvailable.
  by erewrite bind_Ok by exact E.
Qed.

Lemma CheckUsername_run user_id raw w : exists w',
  CheckUsername users user_id raw w =
    (match account w user_id with
     | None => Throw UserNotFoundError
     | Some _ => match username_verdict w user_id (NormalizeUsername raw) with
                 | None => Ok true
                 | Some UsernameOccupiedError => Ok false
                 | Some e => Throw e
                 end
     end, w') /\ rows w' = rows w.
Proof.
  destruct (LoadSelf_run user_id w) as (w1 & E1 & Hr1 & Hh1). unfold CheckUsername, username_verdict.
  destruct (account w user_id) as [self|] eqn:Ea.
  2:{ exists w1. by erewrite bind_Throw by exact E1. }
  erewrite bind_Ok by exact E1. rewrite (account_id _ _ _ Ea).
  destruct (ValidUsername (NormalizeUsername raw)); [|by exists w1].
  destruct (CheckUsernameAvailable_run user_id (NormalizeUsername raw) w1) as (w2 & E2 & Hr2).
  exists w2. rewrite Hh1 in E2. split; [|congruence].
  change ((_ <- guard true _ ;; _) w1) with
    (CheckUsernameAvailable users user_id (NormalizeUsername raw) w1). rewrite E2.
  destruct (holder w (NormalizeUsername raw)) as [u|]; [|done]. by destruct (id u =? user_id).
Qed.

(** The refusals of [UpdateUsername]; [None] when the store is asked. *)
Definition update_refusal (w : W) (user_id : Z) (n : bytes) : option exn :=
  if nonempty n then username_verdict w user_id n else None.

Lemma UpdateUsername_run user_id raw w : exists r w',
  UpdateUsername users user_id raw w = (r, w') /\
  match account w user_id with
  | None => r = Throw UserNotFoundError /\ rows w' = rows w
  | Some self =>
      match update_refusal w user_id (NormalizeUsername raw) with
      | Some e => r = Throw e /\ rows w' = rows w
      | None =>
          match r with
          | Ok u => username u = NormalizeUsername raw /\ rows w' = <[user_id := u]> (rows w)
          | Throw _ => rows w' = rows w /\ username self <> NormalizeUsername raw
          end
      end
  end.
Proof.
  set (n := NormalizeUsername raw).
  destruct (LoadSelf_run user_id w) as (w1 & E1 & Hr1 & Hh1). unfold UpdateUsername. fold n.
  destruct (account w user_id) as [self|] eqn:Ea.
  2:{ exists (Throw UserNotFoundError), w1. by erewrite bind_Throw by exact E1. }
  erewrite bind_Ok by exact E1. rewrite (account_id _ _ _ Ea).
  assert (Hstore : forall w2, rows w2 = rows w -> n = [] \/ ValidUsername n = true ->
    exists r w', (if decide (username self = n) then ret self else UpdateUsername_ users user_id n) w2
      = (r, w') /\
      match r with
      | Ok u => username u = n /\ rows w' = <[user_id := u]> (rows w)
      | Throw _ => rows w' = rows w /\ username self <> n
      end).
  { intros w2 H2 Hn. case_decide as Hd.
    - exists (Ok self), w2. split; [done|]. split; [exact Hd|]. rewrite H2, insert_id; [done|].
      unfold account in Ea. by destruct (user_id =? 0).
    - destruct (us_UpdateUsername user_id n w2 Hn) as (r & w' & E & Hr). exists r, w'.
      split; [exact E|]. destruct r; rewrite H2 in Hr; auto. }
  unfold update_refusal, username_verdict. destruct (nonempty n) eqn:En.
  - rewrite !bind_assoc. rewrite bind_guard_if.
    destruct (ValidUsername n) eqn:Ev; [|by eexists _, _].
    rewrite bind_assoc. destruct (CheckUsernameAvailable_run user_id n w1) as (w2 & E2 & Hr2).
    erewrite bind_Ok by exact E2. rewrite bind_guard_if, Hh1.
    destruct (holder w n) as [u|]; [destruct (id u =? user_id)|];
      try (apply Hstore; [congruence|by right]).
    exists (Throw UsernameOccupiedError), w2. split; [done|]. split; [done|congruence].
  - rewrite bind_ret. apply Hstore; [done|]. left. by destruct n.
Qed.

(** The text a profile field gets: the trimmed one if it was sent. *)
Definition field (sent : bool) (v old : bytes) : bytes := if sent then TrimAsciiSpace v else old.

(** Why a profile is refused, if it is. *)
Definition profile_verdict (self : User) (f l a : bytes) (now : Z) : option exn :=
  if decide (f <> [] /\ Utf8RuneCount f <= 64 /\ Utf8RuneCount l <= 64) then
    if decide (Utf8RuneCount a <= if PremiumActiveAt self now then 140 else 70) then None
    else Some AboutTooLongError
  else Some FirstNameInvalidError.

Lemma profile_verdict_bools self f l a now :
  profile_verdict self f l a now =
    if negb (negb (nonempty f) || (kMaxProfileNameRunes <? Utf8RuneCount f) ||
             (kMaxProfileNameRunes <? Utf8RuneCount l))
    then if Utf8RuneCount a <=? (if PremiumActiveAt self now then kMaxProfileAboutRunesPremium
                                 else kMaxProfileAboutRunes)
         then None else Some AboutTooLongError
    else Some FirstNameInvalidError.
Proof.
  unfold profile_verdict, kMaxProfileNameRunes, kMaxProfileAboutRunesPremium, kMaxProfileAboutRunes.
  destruct (Z.ltb_spec 64 (Utf8RuneCount f)), (Z.ltb_spec 64 (Utf8RuneCount l));
    rewrite ?orb_true_r, ?orb_false_r; cbn [negb];
    try (rewrite decide_False by lia; reflexivity).
  destruct f as [|c t]; [by rewrite decide_False by tauto|]. rewrite decide_True by (split; [done|lia]).
  cbn [nonempty negb]. destruct (Z.leb_spec (Utf8RuneCount a) (if PremiumActiveAt self now then 140 else 70));
    [by rewrite decide_True|by rewrite decide_False by lia].
Qed.

Lemma UpdateProfile_run user_id upd now w : exists r w',
  UpdateProfile users user_id upd now w = (r, w') /\
  match rows w !! user_id with
  | None => r = Throw UserNotFoundError /\ rows w' = rows w
  | Some self =>
      let f := field (has_first_name upd) (up_first_name upd) (first_name self) in
      let l := field (has_last_name upd) (up_last_name upd) (last_name self) in
      let a := field (has_about upd) (up_about upd) (about self) in
      match profile_verdict self f l a now with
      | Some e => r = Throw e /\ rows w' = rows w
      | None =>
          match r with
          | Ok u => first_name u = f /\ last_name u = l /\ about u = a /\
                    rows w' = <[user_id := u]> (rows w)
          | Throw _ => rows w' = rows w
          end
      end
  end.
Proof.
  destruct (us_ByID user_id w) as (w1 & E1 & Hr1 & _). unfold UpdateProfile.
  erewrite bind_Ok by exact E1. destruct (rows w !! user_id) as [self|] eqn:Es.
  2:{ by exists (Throw UserNotFoundError), w1. }
  cbv zeta. fold (field (has_first_name upd) (up_first_name upd) (first_name self))
    (field (has_last_name upd) (up_last_name upd) (last_name self))
    (field (has_about upd) (up_about upd) (about self)).
  set (f := field (has_first_name upd) _ _). set (l := field (has_last_name upd) _ _).
  set (a := field (has_about upd) _ _).
  rewrite bind_guard_if, profile_verdict_bools.
  destruct (negb _); [|by exists (Throw FirstNameInvalidError), w1]. rewrite bind_guard_if.
  destruct (_ <=? _); [|by exists (Throw AboutTooLongError), w1].
  destruct (_ && _) eqn:Eq.
  - rewrite !andb_true_iff, !bool_decide_eq_true in Eq. destruct Eq as [[-> ->] ->].
    exists (Ok self), w1. repeat split; try done. by rewrite Hr1, insert_id.
  - destruct (us_UpdateProfile user_id f l a w1) as (r & w' & E & Hr). exists r, w'.
    split; [exact E|]. by rewrite Hr1 in Hr.
Qed.

Lemma UpdateBirthday_run user_id b w : exists r w',
  UpdateBirthday users user_id b w = (r, w') /\
  match rows w !! user_id with
  | None => r = Throw UserNotFoundError /\ rows w' = rows w
  | Some _ =>
      if Birthday_IsSet b && negb (ValidBirthday b)
      then r = Throw BirthdayInvalidError /\ rows w' = rows w
      else match r with
           | Ok u => birthday u = (if Birthday_IsSet b then b else no_birthday) /\
                     rows w' = <[user_id := u]> (rows w)
           | Throw _ => rows w' = rows w
           end
  end.
Proof.
  destruct (us_ByID user_id w) as (w1 & E1 & Hr1 & _). unfold UpdateBirthday.
  erewrite bind_Ok by exact E1. destruct (rows w !! user_id) as [self|] eqn:Es.
  2:{ by exists (Throw UserNotFoundError), w1. }
  rewrite (us_ids _ _ _ Es).
  assert (Hstore : forall b, exists r w', UpdateBirthday_ users user_id b w1 = (r, w') /\
    match r with
    | Ok u => birthday u = b /\ rows w' = <[user_id := u]> (rows w)
    | Throw _ => rows w' = rows w
    end).
  { intros b'. destruct (us_UpdateBirthday user_id b' w1) as (r & w' & E & Hr). exists r, w'.
    split; [exact E|]. by rewrite Hr1 in Hr. }
  destruct (Birthday_IsSet b); cbn [andb]; [|rewrite bind_ret; apply Hstore].
  rewrite bind_assoc, bind_guard_if. destruct (ValidBirthday b); cbn [negb].
  - rewrite bind_ret. apply Hstore.
  - by exists (Throw BirthdayInvalidError), w1.
Qed.

End Laws.

(** ** users.getUsers against a reference *)

(** What one input denotes for a caller, by a plain lookup. *)
Definition lookup_input (table : gmap Z User) (me : option Z) (i : InputUser.t) : list ResolvedUser :=
  match me, InputUser.kind i with
  | Some me, InputUser.SelfUser =>
      match table !! me with Some u => [MkResolvedUser u true] | None => [] end
  | Some me, InputUser.ById =>
      if InputUser.user_id i =? 0 then []
      else match table !! InputUser.user_id i with
           | Some u =>
               if decide (InputUser.access_hash i = 0 \/ InputUser.access_hash i = access_hash u)
               then [MkResolvedUser u (InputUser.user_id i =? me)] else []
           | None => []
           end
  | _, _ => []
  end.

(** The inputs the loop keeps. *)
Definition keeps (i : InputUser.t) : bool :=
  match InputUser.kind i with
  | InputUser.SelfUser => true
  | InputUser.ById => negb (InputUser.user_id i =? 0)
  | InputUser.Empty => false
  end.
Definition is_self_input (i : InputUser.t) : bool :=
  match InputUser.kind i with InputUser.SelfUser => true | _ => false end.
Definition is_id_input (i : InputUser.t) : bool :=
  match InputUser.kind i with InputUser.ById => negb (InputUser.user_id i =? 0) | _ => false end.

Lemma collect_unauthorized l s : fold_left (collect_input false) l s = s.
Proof.
  induction l as [|i l IH]; [done|]. cbn [fold_left]. unfold collect_input at 2.
  by destruct (InputUser.kind i).
Qed.

(** What the loop has gathered after [l]. *)
Record gathered (l : list InputUser.t) (s : Collected) : Prop := Gathered {
  g_self : need_self s = existsb is_self_input l;
  g_inputs : resolved_inputs s = List.filter keeps l;
  g_seen : forall z, z ∈ seen_ids s <-> In z (unique_ids s);
  g_ids : forall z, In z (unique_ids s) <-> exists i, In i l /\ is_id_input i = true /\ InputUser.user_id i = z }.

Lemma collect_gathered l : gathered l (fold_left (collect_input true) l (MkCollected false [] [] ∅)).
Proof.
  induction l as [|i l IH] using rev_ind.
  { split; cbn; [done|done|set_solver|]. intros z. split; [done|by intros (? & ? & _)]. }
  rewrite fold_left_app. cbn [fold_left]. destruct IH as [Hn Hi Hseen Hids].
  set (s := fold_left _ l _) in *.
  assert (Hmono : forall z, (exists j, In j (l ++ [i]) /\ is_id_input j = true /\ InputUser.user_id j = z) <->
    In z (unique_ids s) \/ is_id_input i = true /\ InputUser.user_id i = z).
  { intros z. rewrite Hids. setoid_rewrite in_app_iff. cbn [In]. split.
    - intros (j & [Hj|[->|[]]] & H1 & H2); [left; by exists j|by right].
    - intros [(j & Hj & H)|[H1 H2]]; [exists j|exists i]; intuition. }
  assert (Hskip : is_id_input i = false -> forall z, In z (unique_ids s) <->
    exists j, In j (l ++ [i]) /\ is_id_input j = true /\ InputUser.user_id j = z).
  { intros E z. rewrite Hmono, E. intuition congruence. }
  unfold collect_input. destruct (InputUser.kind i) eqn:Ek; cbn [negb orb].
  - assert (E : is_id_input i = false) by (unfold is_id_input; by rewrite Ek).
    split; rewrite ?existsb_app, ?List.filter_app; cbn [existsb List.filter]; try done; [| |by apply Hskip].
    + unfold is_self_input at 2. by rewrite Ek, !orb_false_r.
    + unfold keeps at 2. by rewrite Ek, app_nil_r.
  - assert (E : is_id_input i = false) by (unfold is_id_input; by rewrite Ek).
    split; cbn [need_self resolved_inputs unique_ids seen_ids];
      rewrite ?existsb_app, ?List.filter_app, ?Hi; cbn [existsb List.filter]; try done; [| |by apply Hskip].
    + unfold is_self_input at 2. by rewrite Ek, orb_true_r.
    + unfold keeps at 3. by rewrite Ek.
  - destruct (InputUser.user_id i =? 0) eqn:E0.
    + assert (E : is_id_input i = false) by (unfold is_id_input; by rewrite Ek, E0).
      split; rewrite ?existsb_app, ?List.filter_app; cbn [existsb List.filter]; try done; [| |by apply Hskip].
      * unfold is_self_input at 2. by rewrite Ek, !orb_false_r.
      * unfold keeps at 2. by rewrite Ek, E0, app_nil_r.
    + assert (E : is_id_input i = true) by (unfold is_id_input; by rewrite Ek, E0).
      case_decide as Hd; split; cbn [need_self resolved_inputs unique_ids seen_ids];
        rewrite ?existsb_app, ?List.filter_app, ?Hi; cbn [existsb List.filter]; try done;
        try (unfold is_self_input at 2; by rewrite Ek, !orb_false_r);
        try (unfold keeps at 3; by rewrite Ek, E0);
        intros z; rewrite ?in_app_iff, ?elem_of_union, ?elem_of_singleton, ?Hseen, ?Hmono, ?E; cbn [In].
      * apply Hseen in Hd. intuition congruence.
      * intuition congruence.
      * intuition congruence.
Qed.

Lemma emplace_lookup found m i :
  fold_left emplace_user found m !! i =
    match m !! i with
    | Some u => Some u
    | None => if i =? 0 then None else List.find (fun u => id u =? i) found
    end.
Proof.
  revert m. induction found as [|u found IH]; intros m; cbn [fold_left List.find].
  { by destruct (m !! i), (i =? 0). }
  rewrite IH. unfold emplace_user. destruct (Z.eqb_spec (id u) 0) as [E0|E0].
  { destruct (m !! i); [done|]. destruct (Z.eqb_spec i 0); [done|].
    by destruct (Z.eqb_spec (id u) i); [lia|]. }
  destruct (m !! id u) as [v|] eqn:Em.
  { destruct (m !! i) eqn:Ei; [done|]. by destruct (Z.eqb_spec (id u) i); [congruence|]. }
  destruct (Z.eqb_spec (id u) i) as [<-|Hne].
  - rewrite lookup_insert_eq, Em. by destruct (Z.eqb_spec (id u) 0).
  - by rewrite lookup_insert_ne.
Qed.

Lemma find_row (table : gmap Z User) found ids i :
  (forall i u, table !! i = Some u -> id u = i) ->
  (forall u, In u found <-> exists i, In i ids /\ table !! i = Some u) -> In i ids ->
  List.find (fun u => id u =? i) found = table !! i.
Proof.
  intros Hid Hf Hi. destruct (List.find _ found) as [u|] eqn:E.
  - apply find_some in E as [Hu Hu']. apply Z.eqb_eq in Hu'. apply Hf in Hu as (j & _ & Hj).
    rewrite (Hid _ _ Hj) in Hu'. by subst j.
  - destruct (table !! i) as [u|] eqn:Er; [|done].
    apply find_none with (x := u) in E; [|apply Hf; by exists i].
    by rewrite (Hid _ _ Er), Z.eqb_refl in E.
Qed.

Lemma resolve_inputs (table m : gmap Z User) self_user me l :
  (forall i u, table !! i = Some u -> id u = i) ->
  (forall i, In i l -> is_self_input i = true -> self_user = table !! me) ->
  (forall i, In i l -> is_id_input i = true -> m !! InputUser.user_id i = table !! InputUser.user_id i) ->
  concat (map (resolve_input self_user m me) (List.filter keeps l)) =
  concat (map (lookup_input table (Some me)) l).
Proof.
  intros Hid. induction l as [|i l IH]; intros Hself Hm; [done|].
  cbn [List.filter map concat]. rewrite <- IH
    by (intros j Hj; first [apply (Hself j)|apply (Hm j)]; by right).
  specialize (Hself i (or_introl eq_refl)). specialize (Hm i (or_introl eq_refl)).
  unfold is_self_input, is_id_input in Hself, Hm. unfold lookup_input, keeps.
  destruct (InputUser.kind i) eqn:Ek; [done| |].
  - cbn [map concat]. f_equal. unfold resolve_input. by rewrite Ek, Hself.
  - destruct (InputUser.user_id i =? 0); [done|]. cbn [negb map concat]. f_equal.
    unfold resolve_input. rewrite Ek, Hm by done.
    destruct (table !! InputUser.user_id i) as [u|] eqn:Eu; [|done]. rewrite (Hid _ _ Eu).
    destruct (Z.eqb_spec (InputUser.access_hash i) 0); [by rewrite decide_True by tauto|].
    destruct (Z.eqb_spec (InputUser.access_hash i) (access_hash u)); cbn [negb andb];
      [by rewrite decide_True by tauto|by rewrite decide_False by tauto].
Qed.

Lemma ResolveCurrentUser_identity {W} (authorizations : IAuthorizationStore W)
    (bound : W -> gmap bytes Authorization.t) (rows : W -> gmap Z User)
    {reads : SessionReads authorizations bound rows} key w : exists w',
  ResolveCurrentUser authorizations key w =
    (Ok match identity (bound w !! key) with
        | Some u => CurrentUser.Mk u true
        | None => CurrentUser.Mk 0 false
        end, w') /\ rows w' = rows w.
Proof.
  destruct (sr_ByAuthKey key w) as (w' & E & _ & Hr). exists w'. unfold ResolveCurrentUser, identity.
  erewrite bind_Ok by exact E. destruct (bound w !! key) as [a|]; [|done].
  by destruct (Authorization.password_pending a).
Qed.

Lemma ResolveGetUsers_run {W} (users : IUserStore W) (authorizations : IAuthorizationStore W)
    (rows : W -> gmap Z User) (holder : W -> bytes -> option User)
    (bound : W -> gmap bytes Authorization.t)
    {spec : UserStoreSpec users rows holder} {reads : SessionReads authorizations bound rows}
    key inputs w : exists w',
  ResolveGetUsers users authorizations key inputs w =
    (Ok (concat (map (lookup_input (rows w) (identity (bound w !! key))) inputs)), w') /\
  rows w' = rows w.
Proof.
  destruct (ResolveCurrentUser_identity authorizations bound rows key w) as (w1 & E1 & Hr1).
  unfold ResolveGetUsers. erewrite bind_Ok by exact E1.
  destruct (identity (bound w !! key)) as [me|]; cbn [CurrentUser.authorized CurrentUser.user_id].
  2:{ rewrite collect_unauthorized. exists w1. split; [|done]. cbn. do 2 f_equal. clear.
      induction inputs as [|i l IH]; [done|]. cbn. by rewrite <- IH. }
  destruct (collect_gathered inputs) as [Hn Hi _ Hids].
  set (c := fold_left _ inputs _) in *.
  assert (Hself : exists w2, (if need_self c then ByID users me else ret None) w1 =
    (Ok (if need_self c then rows w !! me else None), w2) /\ rows w2 = rows w).
  { destruct (need_self c); [|by exists w1].
    destruct (us_ByID me w1) as (w2 & E & Hr & _). exists w2. by rewrite E, Hr, Hr1. }
  destruct Hself as (w2 & E2 & Hr2). erewrite bind_Ok by exact E2.
  assert (Hmap : exists m w3, (match unique_ids c with
      | [] => ret ∅
      | ids => found <- ByIDs users ids ;; ret (fold_left emplace_user found ∅)
      end) w2 = (Ok m, w3) /\ rows w3 = rows w /\
      forall i, In i (unique_ids c) -> i <> 0 -> m !! i = rows w !! i).
  { destruct (unique_ids c) as [|z ids] eqn:Eu; [by exists ∅, w2|].
    destruct (us_ByIDs (z :: ids) w2) as (found & w3 & E & Hr & Hf). rewrite Hr2 in Hr, Hf.
    exists (fold_left emplace_user found ∅), w3. erewrite bind_Ok by exact E.
    split; [done|]. split; [done|]. intros i Hin Hne. rewrite emplace_lookup, lookup_empty.
    destruct (Z.eqb_spec i 0); [done|]. apply (find_row (rows w) found (z :: ids)); [|done|done].
    intros j u. apply us_ids. }
  destruct Hmap as (m & w3 & E3 & Hr3 & Hm). erewrite bind_Ok by exact E3. exists w3. split; [|done].
  unfold ret. do 2 f_equal. rewrite Hi. apply resolve_inputs.
  - intros i u. apply us_ids.
  - intros i Hin Hs. rewrite Hn. replace (existsb is_self_input inputs) with true; [done|].
    symmetry. apply existsb_exists. by exists i.
  - intros i Hin Hs. apply Hm; [apply Hids; by exists i|]. unfold is_id_input in Hs.
    destruct (InputUser.kind i); try done. intros E0. by rewrite E0 in Hs.
Qed.


(** C40. users.getUsers is a lookup.  For whatever inputs in whatever order,
    repetitions included, the users returned are exactly those a plain
    input-by-input lookup gives: nothing for a caller who is not logged in or
    whose password is pending; the caller's own row, marked as self, for
    inputUserSelf; for an id, its row when the access hash is the row's or
    absent, marked as self when it is the caller's own; and no row changes. *)
Theorem ResolveGetUsers_is_lookup {W} (users : IUserStore W) (authorizations : IAuthorizationStore W)
    (rows : W -> gmap Z User) (holder : W -> bytes -> option User)
    (bound : W -> gmap bytes Authorization.t)
    (spec : UserStoreSpec users rows holder) (reads : SessionReads authorizations bound rows)
    (key : bytes) (inputs : list InputUser.t) (w : W) :
  exists w',
    ResolveGetUsers users authorizations key inputs w =
      (Ok (concat (map (lookup_input (rows w) (identity (bound w !! key))) inputs)), w') /\
    rows w' = rows w.
Proof. exact (ResolveGetUsers_run users authorizations rows holder bound key inputs w). Qed.

(** ** A store that is a table *)

Module UserTable.
Record world : Type := MkWorld { w_rows : gmap Z User; w_bound : gmap bytes Authorization.t }.

(** A row under its id, with the fields the services change. *)
Definition row (i : Z) (u : User) (f l a n : bytes) (b : Birthday) : User :=
  MkUser i (access_hash u) (phone u) f l a n (country_code u) (Domain.verified u) (scam u) (fake u)
    (support u) (contact u) (mutual u) (close_friend u) (restriction_reasons u) (contact_note u)
    (contact_note_entities u) (bot u) (bot_info_version u) (premium_until u)
    (emoji_status_document_id u) (emoji_status_until u) (emoji_status_collectible u) b
    (personal_channel_id u) (linked_community_id u) (color u) (profile_color u) (photo_id u)
    (photo_dc_id u) (photo_stripped u) (photo_personal u) (photo_has_video u) (last_seen_at u)
    (status u) (deleted u) (deleted_at u) (deletion_source u) (deletion_reason u) (created_at u)
    (account_delete_at u) (frozen_for_viewer u).
Definition own (i : Z) (u : User) : User :=
  row i u (first_name u) (last_name u) (about u) (username u) (birthday u).

Definition rows (w : world) : gmap Z User := map_imap (fun i u => Some (own i u)) (w_rows w).
Definition bound (w : world) : gmap bytes Authorization.t := w_bound w.
Definition holder (w : world) (n : bytes) : option User :=
  List.find (fun u => bool_decide (username u = n)) (map snd (map_to_list (rows w))).

Definition unused {A} : M world A := throw (StoreError "unused").
Definition change (i : Z) (f : User -> User) : M world User := fun w =>
  match rows w !! i with
  | None => (Throw UserNotFoundError, w)
  | Some u => (Ok (own i (f u)), MkWorld (<[i := f u]> (w_rows w)) (w_bound w))
  end.

Definition users : IUserStore world :=
  MkUserStore world (fun i => gets (fun w => rows w !! i))
    (fun l => gets (fun w => omap (fun i => rows w !! i) l)) (fun _ => unused)
    (fun n => gets (fun w => holder w n))
    (fun _ => unused) (fun _ _ => unused) (fun _ _ => unused) (fun _ _ => unused) (fun _ _ => ret tt)
    (fun i f l a => change i (fun u => row i u f l a (username u) (birthday u)))
    (fun i n => change i (fun u => row i u (first_name u) (last_name u) (about u) n (birthday u)))
    (fun _ _ => unused) (fun _ _ _ => unused) (fun _ _ => unused) (fun _ _ => unused)
    (fun i b => change i (fun u => row i u (first_name u) (last_name u) (about u) (username u) b))
    (fun _ _ => unused) (fun _ _ _ => unused).

Definition authorizations : IAuthorizationStore world :=
  MkAuthorizationStore world (fun _ => unused) (fun k => gets (fun w => w_bound w !! k))
    (fun _ _ => unused) (fun _ => ret []) (fun _ => unused) (fun _ _ => unused)
    (fun _ _ => unused) (fun _ _ => unused).

Lemma rows_lookup w i : rows w !! i = own i <$> w_rows w !! i.
Proof. unfold rows. rewrite map_lookup_imap. by destruct (w_rows w !! i). Qed.

Lemma rows_insert w i u :
  rows (MkWorld (<[i := u]> (w_rows w)) (w_bound w)) = <[i := own i u]> (rows w).
Proof.
  apply map_eq. intros j. rewrite rows_lookup. cbn [w_rows]. destruct (decide (i = j)) as [->|Hne].
  - by rewrite !lookup_insert_eq.
  - by rewrite !lookup_insert_ne, rows_lookup.
Qed.

Lemma change_run i f w : exists r w', change i f w = (r, w') /\
  match r with
  | Ok u => u = own i (f (default u (rows w !! i))) /\ rows w' = <[i := u]> (rows w)
  | Throw _ => rows w' = rows w
  end.
Proof.
  unfold change. destruct (rows w !! i) as [u|] eqn:E; [|by eexists _, _].
  eexists _, _. split; [done|]. split; [done|]. apply rows_insert.
Qed.

#[export] Instance users_spec : UserStoreSpec users rows holder.
Proof.
  split.
  - intros w i u. rewrite rows_lookup, fmap_Some. by intros (v & _ & ->).
  - by eexists.
  - intros l w. eexists _, w. split; [done|]. split; [done|]. intros u.
    rewrite <- list_elem_of_In, list_elem_of_omap. split; intros (i & Hi & E); exists i;
      rewrite ?list_elem_of_In in *; auto.
  - by eexists.
  - intros i n w _. destruct (change_run i (fun u => row i u (first_name u) (last_name u) (about u) n
      (birthday u)) w) as (r & w' & E & Hr). exists r, w'. split; [exact E|].
    destruct r as [u|]; [|done]. destruct Hr as [-> Hr]. by split.
  - intros i f l a w. destruct (change_run i (fun u => row i u f l a (username u) (birthday u)) w)
      as (r & w' & E & Hr). exists r, w'. split; [exact E|].
    destruct r as [u|]; [|done]. destruct Hr as [-> Hr]. by repeat split.
  - intros i b w. destruct (change_run i (fun u => row i u (first_name u) (last_name u) (about u)
      (username u) b) w) as (r & w' & E & Hr). exists r, w'. split; [exact E|].
    destruct r as [u|]; [|done]. destruct Hr as [-> Hr]. by split.
Qed.

#[export] Instance authorizations_read : SessionReads authorizations bound rows.
Proof. intros key w. by exists w. Qed.

Definition ann : User :=
  blank_user 7 9 (lit "12025550123") (lit "Ann") [] (MkStatus Recently 0 0) false 0 DeletionNone [] 0 0.
Definition start : world := MkWorld {[ 7 := ann ]} ∅.
End UserTable.


Lemma ResolveGetUsers_is_lookup_witness :
  exists w',
    ResolveGetUsers UserTable.users UserTable.authorizations (lit "key") [InputUser.Mk InputUser.ById 7 0]
      UserTable.start = (Ok [], w') /\
    UserTable.rows w' = UserTable.rows UserTable.start.
Proof.
  exact (ResolveGetUsers_is_lookup UserTable.users UserTable.authorizations UserTable.rows
    UserTable.holder UserTable.bound UserTable.users_spec UserTable.authorizations_read (lit "key")
    [InputUser.Mk InputUser.ById 7 0] UserTable.start).
Defined.
