(* ===== verification/Database.v ===== *)
(** * The database under the Postgres stores ([store/postgres/])

    The tables the stores use, a connection to the server, and transactions.
    A statement is a function on the tables ([M Db A], given the time at which
    its transaction began); [begin_work], [exec] and [commit] are what
    [pqxx::work] does with it.  The server is a parameter: any statement may
    fail, and a failing [commit] may leave open whether it took effect.  One
    connection, one transaction at a time: what other sessions do between two
    statements is not modelled. *)

From Stdlib Require Import ZArith Lia Strings.Byte Strings.String.
From stdpp Require Import base decidable list gmap.
From S2P Require Import Prelude OpenSSL Domain Store.

Lemma bind_modify {S B} (f : S -> S) (k : unit -> M S B) s : bind (modify f) k s = k tt (f s).
Proof. done. Qed.

(** ** Rows *)

(** A timestamp is its count of microseconds since the epoch. *)
Module KeyRow.
Record t : Type := Mk {
  body : bytes; server_salt : Z; created_at : option Z; expires_at : Z; layer : Z;
  layer_observation_id : Z; device_model : bytes; platform : bytes; system_version : bytes;
  api_id : Z; app_version : bytes; last_used_at : Z }.
End KeyRow.

Module BindingRow.
Record t : Type := Mk {
  perm_auth_key_id : Z; nonce : Z; temp_session_id : Z; expires_at : Z; encrypted_message : bytes }.
End BindingRow.

Module AuthorizationRow.
Record t : Type := Mk {
  user_id : Z; hash : Z; layer : Z; device_model : bytes; platform : bytes; system_version : bytes;
  api_id : Z; app_version : bytes; ip : bytes; password_pending : bool; created_at : Z; active_at : Z }.
End AuthorizationRow.

Module UpdateState.
Record t : Type := Mk { pts : Z; qts : Z; date : Z; seq : Z; observed_pts : Z; updated_at : Z }.
End UpdateState.

(** [algo] is the four columns [current_algo_*]; the columns nothing reads are
    left out. *)
Module PasswordRow.
Record t : Type := Mk {
  has_recovery : bool; has_secure_values : bool; has_password : bool; hint : bytes;
  secure_random : bytes; algo : PasswordAlgo.t; srp_id : Z; srp_verifier : bytes;
  srp_b_secret : bytes; srp_b : bytes }.
End PasswordRow.

(** [emoji_status_collectible] is the text of a jsonb. *)
Module UserRow.
Record t : Type := Mk {
  access_hash : Z; phone : bytes; first_name : bytes; last_name : bytes; about : bytes;
  username : bytes; country_code : bytes; verified : bool; scam : bool; fake : bool; support : bool;
  is_bot : bool; bot_info_version : Z; premium_expires_at : option Z;
  emoji_status_document_id : Z; emoji_status_until : Z;
  emoji_status_collectible_id : option Z; emoji_status_collectible : bytes;
  birthday : Birthday; personal_channel_id : Z; linked_community_id : Z;
  color : PeerColor; profile_color : PeerColor; last_seen_at : Z; deleted_at : option Z;
  deletion_source : bytes; deletion_reason : bytes; created_at : Z; account_delete_at : option Z;
  updated_at : Z }.
End UserRow.

(** Who has a user name; a collectible one is somebody's asset. *)
Module PeerUsername.
Record t : Type := Mk {
  peer_type : bytes; peer_id : Z; username : bytes; active : bool; editable : bool; sort_order : Z;
  collectible_id : option Z }.
End PeerUsername.

(** The tables, by primary key (user names in lower case); of a collectible
    user name, its status. *)
Record Db : Type := MkDb {
  auth_keys : gmap Z KeyRow.t;
  temp_auth_key_bindings : gmap Z BindingRow.t;
  authorizations : gmap Z AuthorizationRow.t;
  update_states : gmap (Z * Z) UpdateState.t;
  user_update_watermarks : gmap Z Z;
  user_update_retention : gmap Z Z;
  users : gmap Z UserRow.t;
  account_passwords : gmap Z PasswordRow.t;
  peer_usernames : gmap bytes PeerUsername.t;
  collectible_usernames : gmap bytes bytes }.

Definition set_auth_keys (f : gmap Z KeyRow.t -> gmap Z KeyRow.t) (d : Db) : Db :=
  MkDb (f (auth_keys d)) (temp_auth_key_bindings d) (authorizations d) (update_states d)
    (user_update_watermarks d) (user_update_retention d) (users d) (account_passwords d)
    (peer_usernames d) (collectible_usernames d).
Definition set_bindings (f : gmap Z BindingRow.t -> gmap Z BindingRow.t) (d : Db) : Db :=
  MkDb (auth_keys d) (f (temp_auth_key_bindings d)) (authorizations d) (update_states d)
    (user_update_watermarks d) (user_update_retention d) (users d) (account_passwords d)
    (peer_usernames d) (collectible_usernames d).
Definition set_authorizations (f : gmap Z AuthorizationRow.t -> gmap Z AuthorizationRow.t) (d : Db) : Db :=
  MkDb (auth_keys d) (temp_auth_key_bindings d) (f (authorizations d)) (update_states d)
    (user_update_watermarks d) (user_update_retention d) (users d) (account_passwords d)
    (peer_usernames d) (collectible_usernames d).
Definition set_update_states (f : gmap (Z * Z) UpdateState.t -> gmap (Z * Z) UpdateState.t) (d : Db) : Db :=
  MkDb (auth_keys d) (temp_auth_key_bindings d) (authorizations d) (f (update_states d))
    (user_update_watermarks d) (user_update_retention d) (users d) (account_passwords d)
    (peer_usernames d) (collectible_usernames d).
Definition set_watermarks (f : gmap Z Z -> gmap Z Z) (d : Db) : Db :=
  MkDb (auth_keys d) (temp_auth_key_bindings d) (authorizations d) (update_states d)
    (f (user_update_watermarks d)) (user_update_retention d) (users d) (account_passwords d)
    (peer_usernames d) (collectible_usernames d).
Definition set_retention (f : gmap Z Z -> gmap Z Z) (d : Db) : Db :=
  MkDb (auth_keys d) (temp_auth_key_bindings d) (authorizations d) (update_states d)
    (user_update_watermarks d) (f (user_update_retention d)) (users d) (account_passwords d)
    (peer_usernames d) (collectible_usernames d).
Definition set_passwords (f : gmap Z PasswordRow.t -> gmap Z PasswordRow.t) (d : Db) : Db :=
  MkDb (auth_keys d) (temp_auth_key_bindings d) (authorizations d) (update_states d)
    (user_update_watermarks d) (user_update_retention d) (users d) (f (account_passwords d))
    (peer_usernames d) (collectible_usernames d).

Definition set_users (f : gmap Z UserRow.t -> gmap Z UserRow.t) (d : Db) : Db :=
  MkDb (auth_keys d) (temp_auth_key_bindings d) (authorizations d) (update_states d)
    (user_update_watermarks d) (user_update_retention d) (f (users d)) (account_passwords d)
    (peer_usernames d) (collectible_usernames d).
Definition set_peer_usernames (f : gmap bytes PeerUsername.t -> gmap bytes PeerUsername.t) (d : Db) : Db :=
  MkDb (auth_keys d) (temp_auth_key_bindings d) (authorizations d) (update_states d)
    (user_update_watermarks d) (user_update_retention d) (users d) (account_passwords d)
    (f (peer_usernames d)) (collectible_usernames d).

(** ** Keys as integers ([auth_key_codec.hpp]) *)

Definition AuthKeyIDToInt64 (id : bytes) : Z := s64 (le_val id).
Definition AuthKeyIDFromInt64 (v : Z) : bytes := le_bytes 8 (u64 v).

#[global] Arguments AuthKeyIDToInt64 : simpl never.
#[global] Arguments AuthKeyIDFromInt64 : simpl never.

Lemma AuthKeyID_roundtrip id : zlen id = 8 -> AuthKeyIDFromInt64 (AuthKeyIDToInt64 id) = id.
Proof. apply key_id_roundtrip. Qed.
Lemma AuthKeyIDToInt64_roundtrip v : is_s64 v -> AuthKeyIDToInt64 (AuthKeyIDFromInt64 v) = v.
Proof.
  intros Hv. unfold AuthKeyIDToInt64, AuthKeyIDFromInt64. rewrite le_val_le_bytes.
  change (256 ^ Z.of_nat 8) with (2 ^ 64). rewrite Z.mod_small by apply u64_range. rewrite s64_u64. by apply s64_id.
Qed.
Lemma AuthKeyIDToInt64_inj a b : zlen a = 8 -> zlen b = 8 -> AuthKeyIDToInt64 a = AuthKeyIDToInt64 b -> a = b.
Proof. intros Ha Hb H. by rewrite <- (AuthKeyID_roundtrip a), <- (AuthKeyID_roundtrip b), H by done. Qed.

(** ** The server and the connection *)

(** An error the server reports, with its SQLSTATE and text, or a lost connection; a
    commit during which the connection is lost may have been applied. *)
Inductive pg_failure : Type :=
  | SqlFailure (sqlstate message : string)
  | ConnectionLost (applied : bool).
Definition exn_of (f : pg_failure) : exn :=
  match f with SqlFailure s what => SqlError s what | ConnectionLost _ => DatabaseError end.

(** What the server does at its [n]-th request: fail, or show this time. *)
Class Server : Type := {
  failure : nat -> option pg_failure;
  time_of : nat -> Z }.

(** The advisory locks: of a pair of [int]s, whose first is
    [kAuthIdentityAdvisoryNamespace], and of one [bigint]. *)
Inductive AdvisoryLock : Type :=
  | IdentityLock (key : Z)
  | UserLock (user_id : Z).

(** The committed tables, those the open transaction sees, when it began, the
    number of requests so far, and the advisory locks of each transaction so
    far, the latest transaction first, its locks in the order they were taken. *)
Record World : Type := MkWorld {
  committed : Db; working : Db; began : Z; requests : nat; taken : list (list AdvisoryLock) }.

Section Connection.
Context {server : Server}.

Definition request : M World nat := fun w =>
  let w' := MkWorld (committed w) (working w) (began w) (S (requests w)) (taken w) in
  match failure (requests w) with
  | Some f => (Throw (exn_of f), w')
  | None => (Ok (requests w), w')
  end.

(** [pqxx::work tx(conn)] *)
Definition begin_work : M World unit :=
  n <- request ;;
  modify (fun w => MkWorld (committed w) (committed w) (time_of n) (requests w) ([] :: taken w)).

(** [tx.exec(…)] *)
Definition exec {A} (statement : Z -> M Db A) : M World A :=
  request ;;;
  fun w =>
    let '(r, d) := statement (began w) (working w) in
    (r, MkWorld (committed w) d (began w) (requests w) (taken w)).

(** [tx.exec("SELECT pg_advisory_xact_lock …")]: the locks are taken in this
    order and kept until the transaction ends. *)
Definition with_locks (locks : list AdvisoryLock) (so_far : list (list AdvisoryLock)) : list (list AdvisoryLock) :=
  match so_far with [] => [locks] | current :: earlier => (current ++ locks) :: earlier end.
Definition pg_advisory_xact_lock (locks : list AdvisoryLock) : M World unit :=
  request ;;;
  modify (fun w => MkWorld (committed w) (working w) (began w) (requests w) (with_locks locks (taken w))).

(** [tx.commit()] *)
Definition commit : M World unit := fun w =>
  let done := MkWorld (working w) (working w) (began w) (S (requests w)) (taken w) in
  match failure (requests w) with
  | None => (Ok tt, done)
  | Some (ConnectionLost true as f) => (Throw (exn_of f), done)
  | Some f => (Throw (exn_of f), MkWorld (committed w) (working w) (began w) (S (requests w)) (taken w))
  end.

(** ** Transactions *)

(** How a failure of the server surfaces: as its own error or what a handler
    makes of it, never as one of the stores' own signals. *)
Definition surfaces (e : exn) : Prop :=
  match e with AuthKeyNotFoundError | AuthIdentityChangedException => False | _ => True end.

(** The server failed at a request made between [w] and [w']. *)
Definition failed (w w' : World) (f : pg_failure) : Prop :=
  exists n, (requests w <= n < requests w')%nat /\ failure n = Some f.

(** [body] does on the tables of the transaction what [d] does, or throws
    because the server failed; it commits nothing. *)
Definition runs {A} (body : M World A) (d : Z -> M Db A) : Prop :=
  forall w, let '(r, w') := body w in
    (requests w <= requests w')%nat /\ committed w' = committed w /\ began w' = began w /\
    ((r, working w') = d (began w) (working w) \/
     exists f e, failed w w' f /\ r = Throw e /\ surfaces e).

Lemma failed_later w w1 w2 f : (requests w <= requests w1)%nat -> failed w1 w2 f -> failed w w2 f.
Proof. intros H (n & Hn & Hf). exists n. split; [lia|done]. Qed.
Lemma failed_sooner w w1 w2 f : (requests w1 <= requests w2)%nat -> failed w w1 f -> failed w w2 f.
Proof. intros H (n & Hn & Hf). exists n. split; [lia|done]. Qed.
Lemma failed_now w w' f : requests w' = S (requests w) -> failure (requests w) = Some f -> failed w w' f.
Proof. intros H Hf. exists (requests w). split; [lia|done]. Qed.

Lemma runs_ret {A} (a : A) : runs (ret a) (fun _ => ret a).
Proof. intros w. cbn. auto. Qed.
Lemma runs_throw {A} e : runs (@throw _ A e) (fun _ => throw e).
Proof. intros w. cbn. auto. Qed.
Lemma runs_lift {A} (r : res A) : runs (lift r) (fun _ => lift r).
Proof. intros w. cbn. auto. Qed.
Lemma runs_guard c e : runs (guard c e) (fun _ => guard c e).
Proof. intros w. destruct c; cbn; auto. Qed.

Lemma runs_exec {A} (q : Z -> M Db A) : runs (exec q) q.
Proof.
  intros w. unfold exec, request, bind. destruct (failure (requests w)) as [f|] eqn:E; cbn.
  { split; [lia|]. split; [done|]. split; [done|]. right. exists f, (exn_of f).
    split; [by apply failed_now|]. by destruct f. }
  destruct (q (began w) (working w)) as [r d]. cbn. split; [lia|]. auto.
Qed.

(** A lock changes no table. *)
Lemma runs_locking locks : runs (pg_advisory_xact_lock locks) (fun _ => ret tt).
Proof.
  intros w. unfold pg_advisory_xact_lock, request, bind. destruct (failure (requests w)) as [f|] eqn:E; cbn.
  { split; [lia|]. split; [done|]. split; [done|]. right. exists f, (exn_of f).
    split; [by apply failed_now|]. by destruct f. }
  split; [lia|]. auto.
Qed.

Lemma runs_bind {A B} (m : M World A) (d : Z -> M Db A) (k : A -> M World B) (dk : Z -> A -> M Db B) :
  runs m d -> (forall a, runs (k a) (fun t => dk t a)) ->
  runs (bind m k) (fun t => bind (d t) (dk t)).
Proof.
  intros Hm Hk w. specialize (Hm w). unfold bind. destruct (m w) as [[a|e] w1].
  - destruct Hm as (Hn & Hc & Hb & [Hd|(f & e & _ & [=] & _)]). rewrite <- Hd. specialize (Hk a w1).
    destruct (k a w1) as [r w2]. rewrite Hc, Hb in Hk. destruct Hk as (Hn2 & Hc2 & Hb2 & Hk).
    split; [lia|]. split; [done|]. split; [done|]. destruct Hk as [Hk|(f & e & Hf & Hr)]; [by left|].
    right. exists f, e. split; [by apply (failed_later w w1)|done].
  - destruct Hm as (Hn & Hc & Hb & [Hd|(f & e' & Hf & [= <-] & Hs)]); (split; [done|]; split; [done|]; split; [done|]).
    + left. by rewrite <- Hd.
    + right. by exists f, e.
Qed.

Lemma runs_option {A B} (o : option A) (m0 : M World B) m d0 (d : Z -> A -> M Db B) :
  runs m0 d0 -> (forall a, runs (m a) (fun t => d t a)) ->
  runs (match o with None => m0 | Some a => m a end) (fun t => match o with None => d0 t | Some a => d t a end).
Proof. intros H0 Hs. by destruct o. Qed.
Lemma runs_if {B} (c : bool) (m1 m2 : M World B) d1 d2 :
  runs m1 d1 -> runs m2 d2 -> runs (if c then m1 else m2) (fun t => if c then d1 t else d2 t).
Proof. intros H1 H2. by destruct c. Qed.

Lemma runs_decide {B} P `{Decision P} (m1 m2 : M World B) d1 d2 :
  runs m1 d1 -> runs m2 d2 -> runs (if decide P then m1 else m2) (fun t => if decide P then d1 t else d2 t).
Proof. intros H1 H2. by case_decide. Qed.

(** A handler that lets the server's own errors through, possibly renamed. *)
Lemma runs_catch {A} (m : M World A) (d : Z -> M Db A) h (dh : Z -> exn -> M Db A) :
  runs m d -> (forall e, runs (h e) (fun t => dh t e)) ->
  (forall e w, surfaces e -> exists e', fst (h e w) = Throw e' /\ surfaces e') ->
  runs (try_catch m h) (fun t => try_catch (d t) (dh t)).
Proof.
  intros Hm Hh Hthrow w. specialize (Hm w). unfold try_catch. destruct (m w) as [[a|e] w1].
  - destruct Hm as (Hn & Hc & Hb & [Hd|(f & e & _ & [=] & _)]). split; [done|]. split; [done|]. split; [done|].
    left. by rewrite <- Hd.
  - destruct Hm as (Hn & Hc & Hb & Hm). specialize (Hh e w1). destruct (h e w1) as [r w2] eqn:Eh.
    destruct Hh as (Hn2 & Hc2 & Hb2 & Hh). split; [lia|]. split; [congruence|]. split; [congruence|].
    destruct Hm as [Hd|(f & e' & Hf & [= <-] & Hs)].
    + rewrite <- Hd. destruct Hh as [Hh|(f & e' & Hf & Hr)]; [left; by rewrite Hh, Hb|].
      right. exists f, e'. split; [by apply (failed_later w w1)|done].
    + right. destruct (Hthrow e w1 Hs) as [e'' [Hr Hs']]. rewrite Eh in Hr. exists f, e''.
      split; [by apply (failed_sooner w w1)|done].
Qed.

(** A transaction whose result is worked out after the commit. *)
Definition transaction {A B} (body : M World A) (after : A -> res B) : M World B :=
  begin_work ;;;
  a <- body ;;
  commit ;;;
  lift (after a).

(** Its effect: all of [d], or nothing. *)
Definition atomically {A B} (d : M Db A) (after : A -> res B) : M Db B := fun db =>
  match d db with
  | (Ok a, db') => (after a, db')
  | (Throw e, _) => (Throw e, db)
  end.

Lemma frames_atomically {V A B} (view : Db -> V) (d : M Db A) (after : A -> res B) :
  frames view d -> frames view (atomically d after).
Proof. intros Hd db. specialize (Hd db). unfold atomically. by destruct (d db) as [[a|e] db']. Qed.

(** [m] has the effect of [d], whole, at some time; or the server failed, [m]
    throws, and nothing happened, or, if the connection was lost during the
    commit, all of it. *)
Definition outcome {A} (d : Z -> M Db A) (w : World) (r : res A) (w' : World) : Prop :=
  exists t, (r, committed w') = d t (committed w) \/
    exists f e, failed w w' f /\ r = Throw e /\
      (committed w' = committed w \/
       f = ConnectionLost true /\ committed w' = snd (d t (committed w))).
Definition implements {A} (m : M World A) (d : Z -> M Db A) : Prop :=
  forall w, let '(r, w') := m w in (requests w <= requests w')%nat /\ outcome d w r w'.

(** A transaction that could not begin. *)
Lemma begin_fails {A} (d : Z -> M Db A) w f : failure (requests w) = Some f ->
  let w' := MkWorld (committed w) (working w) (began w) (S (requests w)) (taken w) in
  (requests w <= requests w')%nat /\ outcome d w (Throw (exn_of f)) w'.
Proof.
  intros E. split; [cbn; lia|]. exists 0. right. exists f, (exn_of f). split; [by apply failed_now|]. auto.
Qed.

Lemma transaction_implements {A B} (body : M World A) (d : Z -> M Db A) (after : A -> res B) :
  runs body d -> implements (transaction body after) (fun t => atomically (d t) after).
Proof.
  intros Hb w. unfold transaction, begin_work, request. unfold bind at 1 2.
  destruct (failure (requests w)) as [f|] eqn:E; cbn; [by apply begin_fails|].
  set (w1 := MkWorld _ _ _ _ _). specialize (Hb w1). unfold bind. destruct (body w1) as [[a|e] w2].
  - destruct Hb as (Hn & Hc & Hbg & [Hd|(f & e & _ & [=] & _)]). cbn in Hn, Hd, Hc.
    unfold commit. destruct (failure (requests w2)) as [f|] eqn:E2; cbn.
    2:{ split; [lia|]. exists (time_of (requests w)). left. unfold atomically. by rewrite <- Hd. }
    assert (Hf : forall w', requests w' = S (requests w2) -> failed w w' f).
    { intros w' Hw'. exists (requests w2). split; [lia|done]. }
    destruct f as [s|[]]; cbn; (split; [lia|]); exists (time_of (requests w)); right;
      (eexists _, _; split; [by apply Hf|]; split; [done|]); [by left| |by left].
    right. split; [done|]. unfold atomically. by rewrite <- Hd.
  - destruct Hb as (Hn & Hc & Hbg & [Hd|(f & e' & Hf & [= <-] & _)]); cbn in Hn, Hc; (split; [lia|]).
    + cbn in Hd. exists (time_of (requests w)). left. unfold atomically. rewrite <- Hd. by rewrite Hc.
    + exists 0. right. exists f, e. split; [apply (failed_later w w1); [cbn; lia|done]|]. auto.
Qed.

Lemma implements_guard {A} c e (m : M World A) (d : Z -> M Db A) :
  implements m d -> implements (guard c e ;;; m) (fun t => guard c e ;;; d t).
Proof.
  intros Hm w. rewrite bind_guard_if. destruct c; [|split; [done|]; exists 0; by left].
  specialize (Hm w). destruct (m w) as [r w']. exact Hm.
Qed.

Lemma runs_ext {A} (m : M World A) (d d' : Z -> M Db A) :
  runs m d -> (forall t db, d t db = d' t db) -> runs m d'.
Proof.
  intros Hm He w. specialize (Hm w). destruct (m w) as [r w']. by rewrite <- He.
Qed.

(** What holds of every outcome of [d] holds of what [m] leaves behind. *)
Lemma implements_preserves {A} (m : M World A) (d : Z -> M Db A) (P : Db -> Prop) w :
  implements m d -> (forall t db, P db -> P (snd (d t db))) ->
  P (committed w) -> P (committed (snd (m w))).
Proof.
  intros Hm Hd Hp. specialize (Hm w). destruct (m w) as [r w']. cbn.
  destruct Hm as (_ & t & [H|(f & e & _ & _ & [->|[_ ->]])]); [|done|by apply Hd].
  replace (committed w') with (snd (d t (committed w))) by (by rewrite <- H). by apply Hd.
Qed.

(** If the server never fails, [m] does what [d] does. *)
Lemma implements_healthy {A} (m : M World A) (d : Z -> M Db A) w :
  implements m d -> (forall n, failure n = None) ->
  exists t w', m w = (fst (d t (committed w)), w') /\ committed w' = snd (d t (committed w)).
Proof.
  intros Hm Hok. specialize (Hm w). destruct (m w) as [r w'].
  destruct Hm as (_ & t & [H|(f & e & (n & _ & Hf) & _)]); [|by rewrite Hok in Hf].
  exists t, w'. by rewrite <- H.
Qed.

(** ** Refinement *)

(** From tables that satisfy [good], [m] leaves such tables and has an outcome
    that the specification [s] of what [view] shows allows; or the server
    failed during the call, and then [m] throws and has had no effect at all
    or, if the connection was lost during the commit, a whole one. *)
Definition refines {V A} (good : Db -> Prop) (view : Db -> V) (m : M World A) (s : V -> res A -> V -> Prop) : Prop :=
  forall w, good (committed w) ->
    let '(r, w') := m w in
    good (committed w') /\
    (s (view (committed w)) r (view (committed w')) \/
     exists f e, failed w w' f /\ r = Throw e /\
       (committed w' = committed w \/
        f = ConnectionLost true /\ exists r', s (view (committed w)) r' (view (committed w')))).

Lemma refines_implements {V A} good (view : Db -> V) (m : M World A) (d : Z -> M Db A) (s : V -> res A -> V -> Prop) :
  implements m d ->
  (forall t db, good db -> let '(r, db') := d t db in good db' /\ s (view db) r (view db')) ->
  refines good view m s.
Proof.
  intros Hm Hd w Hw. specialize (Hm w). destruct (m w) as [r w'].
  destruct Hm as (_ & t & Ht). specialize (Hd t (committed w) Hw).
  destruct (d t (committed w)) as [r0 db'] eqn:E. cbn in Ht.
  destruct Ht as [[= -> ->]|(f & e & Hf & -> & [->|[-> ->]])].
  - destruct Hd. auto.
  - split; [done|]. right. exists f, e. auto.
  - destruct Hd as [Hc Hs]. split; [done|]. right. eexists _, e. split; [done|]. split; [done|].
    right. split; [done|]. by exists r0.
Qed.

Lemma refines_good {V A} good (view : Db -> V) (m : M World A) s w : refines good view m s ->
  good (committed w) -> good (committed (snd (m w))).
Proof. intros Hm Hw. specialize (Hm w Hw). destruct (m w) as [r w']. by destruct Hm. Qed.

(** An invariant [g2] that every allowed outcome keeps. *)
Lemma refines_and {A} (g1 g2 : Db -> Prop) (m : M World A) (s : Db -> res A -> Db -> Prop) :
  refines g1 Datatypes.id m s -> (forall d r d', g1 d -> g2 d -> s d r d' -> g2 d') ->
  refines (fun d => g1 d /\ g2 d) Datatypes.id m s.
Proof.
  intros Hm Hk w [H1 H2]. specialize (Hm w H1). destruct (m w) as [r w']. destruct Hm as [Hg Hs]. split; [split; [done|]|done].
  destruct Hs as [Hs|(f & e & _ & _ & [->|(_ & r' & Hs)])]; [by eapply Hk|done|by eapply Hk].
Qed.

(** A server that never fails has no other outcomes. *)
Lemma refines_healthy {V A} good (view : Db -> V) (m : M World A) s w : refines good view m s ->
  (forall n, failure n = None) -> good (committed w) ->
  s (view (committed w)) (fst (m w)) (view (committed (snd (m w)))).
Proof.
  intros Hm Hok Hw. specialize (Hm w Hw). destruct (m w) as [r w']. destruct Hm as [_ [Hs|(f & e & (n & _ & Hf) & _)]]; [done|].
  by rewrite Hok in Hf.
Qed.

Lemma refines_weaken {V A} good (view : Db -> V) (m : M World A) (s s' : V -> res A -> V -> Prop) :
  refines good view m s -> (forall v r v', s v r v' -> s' v r v') -> refines good view m s'.
Proof.
  intros Hm Hs w Hw. specialize (Hm w Hw). destruct (m w) as [r w']. destruct Hm as [Hg Hm]. split; [done|].
  destruct Hm as [Hm|(f & e & Hf & Hr & [Hc|(-> & r' & Hc)])]; eauto 10.
Qed.

End Connection.
