(* ===== verification/KeyStore.v ===== *)
(** * Keys in Postgres: [auth_key_store.cpp], [temp_auth_key_store.cpp], [auth_identity_lock.cpp]

    [AuthKeyStore], [TempAuthKeyBindingStore] and the transactions that lock a
    permanent identity.  Each SQL statement is a function on the tables.  What
    the schema of the database adds to the statements (column defaults, foreign
    keys, the stored procedure [telesrv_bind_temp_auth_key], [hashint8]) is not
    in the repository: the class [Schema]. *)

From Stdlib Require Import ZArith Lia Strings.Byte Strings.String.
From stdpp Require Import base decidable list gmap pretty sorting.
From S2P Require Import Prelude OpenSSL Store Database.

Class Schema : Type := {
  (** A new row of auth_keys: what the columns not given get. *)
  key_defaults : Z -> KeyRow.t;
  (** What deleting these rows of auth_keys does to the other tables; [None]
      when a foreign key forbids it. *)
  cascade : gset Z -> Db -> option Db;
  hashint8 : Z -> Z;
  (** Columns not given on insertion: the retained floor of a user, when a state
      was updated, when an authorization was created and active. *)
  retention_default : Z;
  state_default : Z -> Z;
  authorization_defaults : Z -> Z * Z;
  (** [(bind_status, merged_layer, merged_observation_id)] *)
  telesrv_bind_temp_auth_key : Z -> Z -> Z -> Z -> Z -> bytes -> Z -> M Db (string * Z * Z);
}.

Section Stores.
Context {schema : Schema} {server : Server}.

(** ** [auth_identity_lock.cpp] *)

Definition kAuthIdentityTxMaxAttempts : nat := 3.

Definition IsRetryableSerializationError (sqlstate : string) : bool :=
  bool_decide (sqlstate = "40P01"%string) || bool_decide (sqlstate = "40001"%string).

(** The two [catch]es, with [attempts] attempts left. *)
Definition retry {A} (again : M World A) (attempts : nat) (e : exn) : M World A :=
  match e with
  | AuthIdentityChangedException => again
  | SqlError sqlstate _ =>
      if (0 <? Z.of_nat attempts) && IsRetryableSerializationError sqlstate then again else throw e
  | _ => throw e
  end.
(** The attempts left, of the transaction that runs [fn]. *)
Fixpoint AuthIdentityAttempts {A} (attempts : nat) (op : string) (fn : M World A) : M World A :=
  match attempts with
  | O => throw (StoreError (op +:+ " did not stabilize after " +:+
                  pretty kAuthIdentityTxMaxAttempts +:+ " attempts"))
  | S attempts =>
      begin_work ;;;
      try_catch (a <- fn ;; commit ;;; ret a) (retry (AuthIdentityAttempts attempts op fn) attempts)
  end.
Definition WithAuthIdentityTx {A} : string -> M World A -> M World A :=
  AuthIdentityAttempts kAuthIdentityTxMaxAttempts.

(** The advisory locks, in the order of their keys. *)
Definition lock_keys (perm_ids : list Z) : list Z :=
  merge_sort Z.le (remove_dups (hashint8 <$> perm_ids)).
Definition LockPermanentAuthIdentities (perm_ids : list Z) : M World unit :=
  if decide (perm_ids = []) then ret tt
  else
    result <- exec (fun _ => ret (lock_keys perm_ids)) ;;
    for_each (fun key => pg_advisory_xact_lock [IdentityLock key]) result.

Record AuthKeyIdentityHint : Type := MkHint {
  h_found : bool; h_expires_at : Z; h_bound : bool; h_perm_id : Z; h_identity_id : Z; h_has_identity : bool }.

(** The row of the left join: the key's expiry, and its binding if any. *)
Definition hint_row (raw_id : Z) (_ : Z) : M Db (option (Z * option Z)) :=
  gets (fun d => key ← auth_keys d !! raw_id;
                 Some (KeyRow.expires_at key,
                       BindingRow.perm_auth_key_id <$> temp_auth_key_bindings d !! raw_id)).
Definition LookupAuthKeyIdentityHint (raw_id : Z) : M World AuthKeyIdentityHint :=
  result <- exec (hint_row raw_id) ;;
  ret match result with
      | None => MkHint false 0 false 0 0 false
      | Some (expires_at, Some perm_id) => MkHint true expires_at true perm_id perm_id true
      | Some (expires_at, None) =>
          if expires_at =? 0 then MkHint true expires_at false 0 raw_id true
          else MkHint true expires_at false 0 0 false
      end.

Record RawAuthKeyLock : Type := MkLock { raw_expiry : Z; perm_id : Z; bound : bool }.

(** [SELECT expires_at FROM auth_keys WHERE auth_key_id = $1 FOR UPDATE] *)
Definition expiry_of (id : Z) (_ : Z) : M Db (option Z) :=
  gets (fun d => KeyRow.expires_at <$> auth_keys d !! id).
Definition perm_of (temp_id : Z) (_ : Z) : M Db (option Z) :=
  gets (fun d => BindingRow.perm_auth_key_id <$> temp_auth_key_bindings d !! temp_id).

Definition LockRawAuthKeyInIdentityOrder (raw_id : Z) : M World RawAuthKeyLock :=
  hint <- LookupAuthKeyIdentityHint raw_id ;;
  guard (h_found hint) AuthKeyNotFoundError ;;;
  when (h_has_identity hint) (LockPermanentAuthIdentities [h_identity_id hint]) ;;;
  raw_row <- exec (expiry_of raw_id) ;;
  match raw_row with
  | None => throw AuthKeyNotFoundError
  | Some raw_expiry =>
      perm_row <- exec (perm_of raw_id) ;;
      let bound := bool_decide (is_Some perm_row) in
      let perm_id := default raw_id perm_row in
      let actual_has_identity := bound || (raw_expiry =? 0) in
      guard (negb (negb (Bool.eqb actual_has_identity (h_has_identity hint)) ||
                   (actual_has_identity && negb (perm_id =? h_identity_id hint)) ||
                   negb (Bool.eqb bound (h_bound hint)) || negb (raw_expiry =? h_expires_at hint)))
        AuthIdentityChangedException ;;;
      if negb bound then ret (MkLock raw_expiry perm_id false)
      else
        perm_lock_row <- exec (expiry_of perm_id) ;;
        match perm_lock_row with
        | None => throw AuthKeyBindingInvalidError
        | Some perm_expiry =>
            guard (negb ((raw_expiry <=? 0) || negb (perm_expiry =? 0))) AuthKeyBindingInvalidError ;;;
            ret (MkLock raw_expiry perm_id true)
        end
  end.

(** ** [auth_key_store.cpp] *)

(** [EXTRACT(EPOCH FROM …)::bigint]: to the nearest second. *)
Definition epoch_seconds (us : Z) : Z := Z.quot (us + Z.sgn us * 500000) 1000000.

Definition RowToAuthKeyData (auth_key_id : Z) (r : KeyRow.t) : res AuthKeyData.t :=
  if negb (zlen (KeyRow.body r) =? 256)
  then Throw (StoreError ("auth key body length = " +:+ pretty (zlen (KeyRow.body r)) +:+ ", want 256"))
  else Ok (AuthKeyData.Mk (AuthKeyIDFromInt64 auth_key_id) (KeyRow.body r) (KeyRow.server_salt r)
             (default 0 (epoch_seconds <$> KeyRow.created_at r)) (KeyRow.expires_at r) (KeyRow.layer r)
             (KeyRow.layer_observation_id r) (KeyRow.device_model r) (KeyRow.platform r)
             (KeyRow.system_version r) (KeyRow.api_id r) (KeyRow.app_version r)).

Definition new_key_row (now : Z) (body : bytes) (server_salt expires_at : Z) : KeyRow.t :=
  let d := key_defaults now in
  KeyRow.Mk body server_salt (KeyRow.created_at d) expires_at (KeyRow.layer d) (KeyRow.layer_observation_id d)
    (KeyRow.device_model d) (KeyRow.platform d) (KeyRow.system_version d) (KeyRow.api_id d)
    (KeyRow.app_version d) (KeyRow.last_used_at d).
Definition touch (now : Z) (r : KeyRow.t) : KeyRow.t :=
  KeyRow.Mk (KeyRow.body r) (KeyRow.server_salt r) (KeyRow.created_at r) (KeyRow.expires_at r) (KeyRow.layer r)
    (KeyRow.layer_observation_id r) (KeyRow.device_model r) (KeyRow.platform r) (KeyRow.system_version r)
    (KeyRow.api_id r) (KeyRow.app_version r) now.
Definition with_salt (server_salt : Z) (r : KeyRow.t) : KeyRow.t :=
  KeyRow.Mk (KeyRow.body r) server_salt (KeyRow.created_at r) (KeyRow.expires_at r) (KeyRow.layer r)
    (KeyRow.layer_observation_id r) (KeyRow.device_model r) (KeyRow.platform r) (KeyRow.system_version r)
    (KeyRow.api_id r) (KeyRow.app_version r) (KeyRow.last_used_at r).

(** [INSERT … ON CONFLICT … DO UPDATE … WHERE …]: the rows affected. *)
Definition save_key (id : Z) (body : bytes) (server_salt expires_at : Z) (now : Z) : M Db Z :=
  d <- get ;;
  match auth_keys d !! id with
  | None =>
      put (set_auth_keys (<[id := new_key_row now body server_salt expires_at]>) d) ;;;
      ret 1
  | Some r =>
      if bool_decide (KeyRow.body r = body) && (KeyRow.expires_at r =? expires_at) then
        put (set_auth_keys (<[id := touch now (with_salt server_salt r)]>) d) ;;;
        ret 1
      else ret 0
  end.

(** [UPDATE … SET last_used_at = now() WHERE auth_key_id = … RETURNING …] *)
Definition touch_key (id : Z) (now : Z) : M Db (option KeyRow.t) :=
  d <- get ;;
  match auth_keys d !! id with
  | None => ret None
  | Some r => put (set_auth_keys (<[id := touch now r]>) d) ;;; ret (Some (touch now r))
  end.
Definition select_key (id : Z) (_ : Z) : M Db (option KeyRow.t) := gets (fun d => auth_keys d !! id).
(** … [= ANY]: each row once. *)
Definition touch_pair (temp_id perm_id : Z) (now : Z) : M Db (list (Z * KeyRow.t)) :=
  temp <- touch_key temp_id now ;;
  perm <- (if temp_id =? perm_id then ret None else touch_key perm_id now) ;;
  ret (match temp with Some r => [(temp_id, r)] | None => [] end ++
       match perm with Some r => [(perm_id, r)] | None => [] end).

Definition optional_row (id : Z) (result : option KeyRow.t) : res (option AuthKeyData.t) :=
  match result with
  | None => Ok None
  | Some r => data <-? RowToAuthKeyData id r ;; Ok (Some data)
  end.

End Stores.

Module AuthKeyStore.
Section Operations.
Context {schema : Schema} {server : Server}.

Definition Save (key : AuthKeyData.t) : M World unit :=
  guard (ValidNewAuthKeyProtocolExpiry (AuthKeyData.expires_at key)) InvalidAuthKeyProtocolExpiryError ;;;
  transaction
    (affected_rows <- exec (save_key (AuthKeyIDToInt64 (AuthKeyData.id key)) (AuthKeyData.value key)
                              (AuthKeyData.server_salt key) (AuthKeyData.expires_at key)) ;;
     guard (affected_rows =? 1) AuthKeyProtocolMetadataConflictError)
    Ok.

Definition Get (id : bytes) : M World (option AuthKeyData.t) :=
  transaction (exec (touch_key (AuthKeyIDToInt64 id))) (optional_row (AuthKeyIDToInt64 id)).

Definition Revalidate (id : bytes) : M World (option AuthKeyData.t) :=
  transaction (exec (select_key (AuthKeyIDToInt64 id))) (optional_row (AuthKeyIDToInt64 id)).

(** The loop over the rows. *)
Fixpoint sort_pair (temp_int perm_int : Z) (rows : list (Z * KeyRow.t)) (out : AuthKeyBindingKeys)
    : res AuthKeyBindingKeys :=
  match rows with
  | [] => Ok out
  | (id, r) :: rows =>
      data <-? RowToAuthKeyData id r ;;
      let row_id := AuthKeyIDToInt64 (AuthKeyData.id data) in
      if row_id =? temp_int then
        sort_pair temp_int perm_int rows (MkBindingKeys data true (permanent out) (permanent_found out))
      else if row_id =? perm_int then
        sort_pair temp_int perm_int rows (MkBindingKeys (temporary out) (temporary_found out) data true)
      else Throw (StoreError "load auth key binding pair returned unexpected id")
  end.
Definition pair_result (temp_id perm_id : bytes) (result : list (Z * KeyRow.t)) : res AuthKeyBindingKeys :=
  out <-? sort_pair (AuthKeyIDToInt64 temp_id) (AuthKeyIDToInt64 perm_id) result
            (MkBindingKeys empty_key_data false empty_key_data false) ;;
  Ok (if bool_decide (temp_id = perm_id) && temporary_found out
      then MkBindingKeys (temporary out) true (temporary out) true else out).
Definition LoadBindingKeys (temp_id perm_id : bytes) : M World AuthKeyBindingKeys :=
  let temp_int := AuthKeyIDToInt64 temp_id in
  let perm_int := AuthKeyIDToInt64 perm_id in
  transaction (exec (touch_pair temp_int perm_int)) (pair_result temp_id perm_id).

(** [CASE WHEN … THEN … ELSE … END] *)
Definition text_or (new old : bytes) : bytes := if decide (new = []) then old else new.
Definition merge_client_info (info : KeyClientInfo.t) (r : KeyRow.t) : KeyRow.t :=
  KeyRow.Mk (KeyRow.body r) (KeyRow.server_salt r) (KeyRow.created_at r) (KeyRow.expires_at r)
    (if 0 <? KeyClientInfo.layer info then KeyClientInfo.layer info else KeyRow.layer r)
    (KeyRow.layer_observation_id r)
    (text_or (KeyClientInfo.device_model info) (KeyRow.device_model r))
    (text_or (KeyClientInfo.platform info) (KeyRow.platform r))
    (text_or (KeyClientInfo.system_version info) (KeyRow.system_version r))
    (if KeyClientInfo.api_id info =? 0 then KeyRow.api_id r else KeyClientInfo.api_id info)
    (text_or (KeyClientInfo.app_version info) (KeyRow.app_version r)) (KeyRow.last_used_at r).
(** The guarded update: whether a row was updated. *)
Definition update_client_info (key_id : Z) (info : KeyClientInfo.t) (_ : Z) : M Db bool :=
  d <- get ;;
  match auth_keys d !! key_id with
  | Some r =>
      if (KeyClientInfo.layer info <=? 0) || (KeyRow.layer_observation_id r =? 0) ||
         (KeyRow.layer r =? KeyClientInfo.layer info)
      then put (set_auth_keys (<[key_id := merge_client_info info r]>) d) ;;; ret true
      else ret false
  | None => ret false
  end.
(** What is reported when no row was updated, by the row as it is. *)
Definition refused_update (info : KeyClientInfo.t) (current : option (option KeyRow.t)) : res unit :=
  match current with
  | None => Ok tt
  | Some None => Throw AuthKeyNotFoundError
  | Some (Some r) =>
      if (0 <? KeyClientInfo.layer info) && (0 <? KeyRow.layer_observation_id r) &&
         negb (KeyRow.layer r =? KeyClientInfo.layer info)
      then Throw AuthKeySessionLayerConflictError
      else Throw (StoreError "update auth key client info: guarded update affected no row")
  end.
Definition UpdateClientInfo (id : bytes) (info : KeyClientInfo.t) : M World unit :=
  let key_id := AuthKeyIDToInt64 id in
  transaction
    (updated <- exec (update_client_info key_id info) ;;
     if updated then ret None
     else current <- exec (select_key key_id) ;; ret (Some current))
    (refused_update info).

(** [DELETE FROM auth_keys WHERE auth_key_id IN …], with the foreign keys. *)
Definition delete_key_rows (ids : gset Z) : M Db unit := fun d =>
  match cascade ids d with
  | Some d' => (Ok tt, set_auth_keys (filter (fun kr => kr.1 ∉ ids)) d')
  | None => (Throw (SqlError "23503" "violates foreign key constraint"), d)
  end.
(** The statement of [Delete]: the temporary keys bound to the key go first. *)
Definition doomed_temp (key_id : Z) (d : Db) : gset Z :=
  dom (filter (fun tb => BindingRow.perm_auth_key_id tb.2 = key_id) (temp_auth_key_bindings d)).
Definition delete_identity (key_id : Z) (_ : Z) : M Db unit :=
  doomed <- gets (doomed_temp key_id) ;;
  modify (set_update_states (filter (fun s => s.1.1 ∉ ({[key_id]} ∪ doomed)))) ;;;
  delete_key_rows doomed ;;;
  delete_key_rows {[key_id]}.

Definition Delete (id : bytes) : M World unit :=
  let key_id := AuthKeyIDToInt64 id in
  WithAuthIdentityTx "delete auth key" (
    found <- try_catch (LockRawAuthKeyInIdentityOrder key_id ;;; ret true)
               (fun e => match e with AuthKeyNotFoundError => ret false | _ => throw e end) ;;
    if found then exec (delete_identity key_id) else ret tt).

End Operations.
End AuthKeyStore.

(** ** [temp_auth_key_store.cpp] *)

Module TempAuthKeyBindingStore.
Section Operations.
Context {schema : Schema} {server : Server}.

Definition read_status (status : string) (merged_layer merged_observation_id : Z)
    : res TempAuthKeyBindingResult :=
  if bool_decide (status = "ok"%string) then
    if (merged_layer <? 0) || (merged_observation_id <? 0) ||
       ((0 <? merged_observation_id) && (merged_layer =? 0))
    then Throw (StoreError "bind temporary auth key atomically: invalid result layer/observation")
    else Ok (MkBindingResult merged_layer merged_observation_id)
  else if bool_decide (status = "already_bound"%string) then Throw TempAuthKeyAlreadyBoundError
  else if bool_decide (status = "binding_invalid"%string) then Throw AuthKeyBindingInvalidError
  else if bool_decide (status = "layer_invalid"%string) then Throw AuthKeySessionLayerInvalidError
  else if bool_decide (status = "layer_conflict"%string) then Throw AuthKeySessionLayerConflictError
  else Throw (StoreError ("bind temporary auth key atomically: unknown status " +:+ status)).

Definition SaveWithState (binding : TempAuthKeyBinding.t) : M World TempAuthKeyBindingResult :=
  guard (negb ((TempAuthKeyBinding.expires_at binding <=? 0) ||
               (int32_max <? TempAuthKeyBinding.expires_at binding))) AuthKeyBindingInvalidError ;;;
  WithAuthIdentityTx "save temp auth key binding" (
    row <- try_catch
      (exec (telesrv_bind_temp_auth_key (AuthKeyIDToInt64 (TempAuthKeyBinding.temp_auth_key_id binding))
               (TempAuthKeyBinding.perm_auth_key_id binding) (TempAuthKeyBinding.nonce binding)
               (TempAuthKeyBinding.temp_session_id binding) (TempAuthKeyBinding.expires_at binding)
               (TempAuthKeyBinding.encrypted_message binding)))
      (fun e => match e with
                | SqlError "23503" _ => throw AuthKeyBindingInvalidError
                | _ => throw e
                end) ;;
    let '(status, merged_layer, merged_observation_id) := row in
    lift (read_status status merged_layer merged_observation_id)).

Definition GetByTemp (temp_auth_key_id : bytes) : M World (option TempAuthKeyBinding.t) :=
  transaction
    (exec (fun _ => gets (fun d => temp_auth_key_bindings d !! AuthKeyIDToInt64 temp_auth_key_id)))
    (fun result => Ok (
       row ← result;
       Some (TempAuthKeyBinding.Mk (AuthKeyIDFromInt64 (AuthKeyIDToInt64 temp_auth_key_id))
               (BindingRow.perm_auth_key_id row) (BindingRow.nonce row) (BindingRow.temp_session_id row)
               (BindingRow.expires_at row) (BindingRow.encrypted_message row)))).

End Operations.
End TempAuthKeyBindingStore.

(** ** Identity transactions are transactions *)

Section IdentityTx.
Context {schema : Schema} {server : Server}.

(** An outcome of a transaction's body that is not retried. *)
Definition final {A} (r : res A) : Prop :=
  match r with
  | Throw AuthIdentityChangedException => False
  | Throw (SqlError sqlstate _) => IsRetryableSerializationError sqlstate = false
  | _ => True
  end.

(** Whole or not at all, however often it is tried. *)
Lemma AuthIdentityAttempts_implements {A} op (fn : M World A) (d : Z -> M Db A) :
  runs fn d -> (forall t db, final (fst (d t db))) -> forall attempts, (0 < attempts)%nat ->
  implements (AuthIdentityAttempts attempts op fn) (fun t => atomically (d t) Ok).
Proof.
  intros Hfn Hfinal. induction attempts as [|attempts IH]; intros Hpos w; [lia|]. cbn [AuthIdentityAttempts].
  unfold begin_work, request. unfold bind at 1 2.
  destruct (failure (requests w)) as [f|] eqn:E; cbn; [by apply begin_fails|].
  set (w1 := MkWorld _ _ _ _ _). pose proof (Hfn w1) as Hb. unfold try_catch.
  set (handler := retry (AuthIdentityAttempts attempts op fn) attempts).
  set (goal := outcome (fun t => atomically (d t) Ok) w).
  (* after a failure that changed nothing: another attempt, or the end *)
  assert (Hretry : forall f e w2, (requests w <= requests w2)%nat -> failed w w2 f -> committed w2 = committed w ->
    let '(r, w') := handler e w2 in (requests w <= requests w')%nat /\ goal r w').
  { intros f e w2 Hn Hf Hc.
    assert (Hend : forall e', (requests w <= requests w2)%nat /\ goal (Throw e') w2).
    { intros e'. split; [done|]. exists 0. right. exists f, e'. auto. }
    assert (Hagain : let '(r, w') := AuthIdentityAttempts attempts op fn w2 in (requests w <= requests w')%nat /\ goal r w').
    { destruct attempts as [|attempts]; [apply Hend|]. specialize (IH ltac:(lia) w2).
      destruct (AuthIdentityAttempts _ _ _ w2) as [r w']. destruct IH as (Hn' & t & Ht). split; [lia|].
      exists t. rewrite Hc in Ht. destruct Ht as [Ht|(f' & e' & Hf' & Ht)]; [by left|]. right. exists f', e'.
      split; [by apply (failed_later w w2)|done]. }
    unfold handler, retry. destruct e; try apply Hend; [|apply Hagain]. destruct (_ && _); [apply Hagain|apply Hend]. }
  unfold bind. destruct (fn w1) as [[a|e] w2].
  - destruct Hb as (Hn & Hc & Hbg & [Hd|(f & e & _ & [=] & _)]). cbn in Hn, Hd, Hc. unfold commit.
    destruct (failure (requests w2)) as [f|] eqn:E2; cbn.
    2:{ split; [lia|]. exists (time_of (requests w)). left. unfold atomically. by rewrite <- Hd. }
    assert (Hf : forall w', requests w' = S (requests w2) -> failed w w' f).
    { intros w' Hw'. exists (requests w2). split; [lia|done]. }
    destruct f as [s|[]]; cbn.
    + by apply (Hretry (SqlFailure s message) (SqlError s message)); [cbn; lia|apply Hf|].
    + split; [lia|]. exists (time_of (requests w)). right. eexists _, _. split; [by apply Hf|]. split; [done|].
      right. split; [done|]. unfold atomically. by rewrite <- Hd.
    + by apply (Hretry (ConnectionLost false) DatabaseError (MkWorld (committed w2) (working w2) (began w2) (S (requests w2)) (taken w2)));
        [cbn; lia|apply Hf|].
  - destruct Hb as (Hn & Hc & Hbg & [Hd|(f & e' & Hf & _ & _)]); cbn in Hn, Hc.
    2:{ apply (Hretry f); [lia|apply (failed_later w w1); [cbn; lia|done]|done]. }
    cbn in Hd. pose proof (Hfinal (time_of (requests w)) (committed w)) as Hfin. rewrite <- Hd in Hfin.
    assert (Hdone : (requests w <= requests w2)%nat /\ goal (Throw e) w2).
    { split; [lia|]. exists (time_of (requests w)). left. unfold atomically. rewrite <- Hd. by rewrite Hc. }
    unfold handler, retry. destruct e; try exact Hdone; [|done]. cbn in Hfin. by rewrite Hfin, andb_false_r.
Qed.

End IdentityTx.

(** ** What the keys look like to the program *)

(** [RowToAuthKeyData] of a row whose body has the right size. *)
Definition data_of (id : Z) (r : KeyRow.t) : AuthKeyData.t :=
  AuthKeyData.Mk (AuthKeyIDFromInt64 id) (KeyRow.body r) (KeyRow.server_salt r)
    (default 0 (epoch_seconds <$> KeyRow.created_at r)) (KeyRow.expires_at r) (KeyRow.layer r)
    (KeyRow.layer_observation_id r) (KeyRow.device_model r) (KeyRow.platform r)
    (KeyRow.system_version r) (KeyRow.api_id r) (KeyRow.app_version r).

(** The key stored under an id, and the permanent key a temporary one is bound
    to. *)
Definition key (d : Db) (id : bytes) : option AuthKeyData.t :=
  data_of (AuthKeyIDToInt64 id) <$> auth_keys d !! AuthKeyIDToInt64 id.
Definition bound_to (d : Db) (id : bytes) : option Z :=
  BindingRow.perm_auth_key_id <$> temp_auth_key_bindings d !! AuthKeyIDToInt64 id.

(** What every row satisfies: keys are whole; a binding is of a temporary key
    to a permanent one, and both are there. *)
Record consistent (d : Db) : Prop := {
  whole_keys : forall i r, auth_keys d !! i = Some r ->
    zlen (KeyRow.body r) = 256 /\ 0 <= KeyRow.layer_observation_id r;
  whole_bindings : forall t b, temp_auth_key_bindings d !! t = Some b ->
    (exists rt, auth_keys d !! t = Some rt /\ 0 < KeyRow.expires_at rt) /\
    (exists rp, auth_keys d !! BindingRow.perm_auth_key_id b = Some rp /\ KeyRow.expires_at rp = 0) }.

(** The tables that do not refer to keys. *)
Definition people (d : Db) : gmap Z UserRow.t * gmap Z PasswordRow.t * gmap bytes PeerUsername.t * gmap bytes bytes :=
  (users d, account_passwords d, peer_usernames d, collectible_usernames d).

(** What the schema documents ([auth_key_store.cpp], above [Delete]): a binding
    goes with its temporary key, and forbids the deletion of its permanent
    one; accounts, passwords and names do not refer to keys; a new key has no
    layer evidence. *)
Class SchemaLaws `{!Schema} : Prop := {
  new_key_evidence : forall t, KeyRow.layer_observation_id (key_defaults t) = 0;
  cascade_forbidden : forall ids d,
    (exists t b, temp_auth_key_bindings d !! t = Some b /\ t ∉ ids /\ BindingRow.perm_auth_key_id b ∈ ids) ->
    cascade ids d = None;
  cascade_allowed : forall ids d,
    (forall t b, temp_auth_key_bindings d !! t = Some b -> t ∉ ids -> BindingRow.perm_auth_key_id b ∉ ids) ->
    exists d', cascade ids d = Some d' /\ auth_keys d' = auth_keys d /\
      temp_auth_key_bindings d' = filter (fun tb => tb.1 ∉ ids) (temp_auth_key_bindings d);
  cascade_reach : forall ids d d', cascade ids d = Some d' -> people d' = people d }.

(** *** The store as its interface documents it *)

Section Spec.
Abbreviation keys := (bytes -> option AuthKeyData.t).
Abbreviation bounds := (bytes -> option Z).

(** Nothing but (perhaps) the key [id] differs. *)
Definition same_but (id : bytes) (K : keys) (B : bounds) (K' : keys) (B' : bounds) : Prop :=
  (forall i, zlen i = 8 -> i <> id -> K' i = K i) /\ (forall i, zlen i = 8 -> B' i = B i).
Definition same (K : keys) (B : bounds) (K' : keys) (B' : bounds) : Prop :=
  forall i, zlen i = 8 -> K' i = K i /\ B' i = B i.

Definition spec (A : Type) : Type := keys -> bounds -> res A -> keys -> bounds -> Prop.

(** A key is stored once; the same key again only renews its salt. *)
Definition Save_spec (k : AuthKeyData.t) : spec unit := fun K B r K' B' =>
  let id := AuthKeyData.id k in
  if ValidNewAuthKeyProtocolExpiry (AuthKeyData.expires_at k) then
    match K id with
    | Some old =>
        if decide (AuthKeyData.value old = AuthKeyData.value k /\ AuthKeyData.expires_at old = AuthKeyData.expires_at k)
        then r = Ok tt /\ same_but id K B K' B' /\
             exists new, K' id = Some new /\ AuthKeyData.server_salt new = AuthKeyData.server_salt k /\
               AuthKeyData.value new = AuthKeyData.value old /\
               AuthKeyData.expires_at new = AuthKeyData.expires_at old /\ AuthKeyData.layer new = AuthKeyData.layer old
        else r = Throw AuthKeyProtocolMetadataConflictError /\ same K B K' B'
    | None =>
        r = Ok tt /\ same_but id K B K' B' /\
        exists new, K' id = Some new /\ AuthKeyData.id new = id /\
          AuthKeyData.server_salt new = AuthKeyData.server_salt k /\ AuthKeyData.value new = AuthKeyData.value k /\
          AuthKeyData.expires_at new = AuthKeyData.expires_at k
    end
  else r = Throw InvalidAuthKeyProtocolExpiryError /\ same K B K' B'.

Definition Get_spec (id : bytes) : spec (option AuthKeyData.t) := fun K B r K' B' =>
  r = Ok (K id) /\ same K B K' B'.

(** Both keys, each with whether it was found. *)
Definition Load_spec (t p : bytes) : spec AuthKeyBindingKeys := fun K B r K' B' =>
  r = Ok (MkBindingKeys (default empty_key_data (K t)) (bool_decide (is_Some (K t)))
            (default empty_key_data (K p)) (bool_decide (is_Some (K p)))) /\ same K B K' B'.

Definition merged (info : KeyClientInfo.t) (k : AuthKeyData.t) : AuthKeyData.t :=
  AuthKeyData.Mk (AuthKeyData.id k) (AuthKeyData.value k) (AuthKeyData.server_salt k) (AuthKeyData.created_at k)
    (AuthKeyData.expires_at k)
    (if 0 <? KeyClientInfo.layer info then KeyClientInfo.layer info else AuthKeyData.layer k)
    (AuthKeyData.layer_observation_id k)
    (AuthKeyStore.text_or (KeyClientInfo.device_model info) (AuthKeyData.device_model k))
    (AuthKeyStore.text_or (KeyClientInfo.platform info) (AuthKeyData.platform k))
    (AuthKeyStore.text_or (KeyClientInfo.system_version info) (AuthKeyData.system_version k))
    (if KeyClientInfo.api_id info =? 0 then AuthKeyData.api_id k else KeyClientInfo.api_id info)
    (AuthKeyStore.text_or (KeyClientInfo.app_version info) (AuthKeyData.app_version k)).

(** Empty fields keep what is there; a layer that was observed is not
    overwritten by another. *)
Definition UpdateClientInfo_spec (id : bytes) (info : KeyClientInfo.t) : spec unit := fun K B r K' B' =>
  match K id with
  | None => r = Throw AuthKeyNotFoundError /\ same K B K' B'
  | Some old =>
      if decide (0 < KeyClientInfo.layer info /\ 0 < AuthKeyData.layer_observation_id old /\
                 AuthKeyData.layer old <> KeyClientInfo.layer info)
      then r = Throw AuthKeySessionLayerConflictError /\ same K B K' B'
      else r = Ok tt /\ same_but id K B K' B' /\ K' id = Some (merged info old)
  end.

(** The key goes, and the temporary keys bound to it, with their bindings. *)
Definition doomed (id : bytes) (B : bounds) (i : bytes) : Prop := i = id \/ B i = Some (AuthKeyIDToInt64 id).
Definition Delete_spec (id : bytes) : spec unit := fun K B r K' B' =>
  r = Ok tt /\
  match K id with
  | None => same K B K' B'
  | Some _ => forall i, zlen i = 8 ->
      (doomed id B i -> K' i = None /\ B' i = None) /\ (~ doomed id B i -> K' i = K i /\ B' i = B i)
  end.

End Spec.

(** *** The statements keep the rows consistent *)

Section Rows.
Context {schema : Schema} {schema_laws : SchemaLaws}.

Lemma consistent_set_key d i r :
  consistent d -> zlen (KeyRow.body r) = 256 -> 0 <= KeyRow.layer_observation_id r ->
  (forall old, auth_keys d !! i = Some old -> KeyRow.expires_at r = KeyRow.expires_at old) ->
  consistent (set_auth_keys (<[i := r]>) d).
Proof.
  intros [Hk Hb] Hl Ho He.
  assert (Hkeep : forall j P, (exists old, auth_keys d !! j = Some old /\ P (KeyRow.expires_at old)) ->
    exists new, <[i := r]> (auth_keys d) !! j = Some new /\ P (KeyRow.expires_at new)).
  { intros j P (old & Hold & HP). destruct (decide (j = i)) as [->|Hne].
    - exists r. rewrite lookup_insert_eq. by rewrite (He old Hold).
    - exists old. by rewrite lookup_insert_ne. }
  split; cbn [auth_keys temp_auth_key_bindings set_auth_keys].
  - intros j r0 Hj. destruct (decide (j = i)) as [->|Hne].
    + rewrite lookup_insert_eq in Hj. by injection Hj as <-.
    + rewrite lookup_insert_ne in Hj by done. by apply Hk in Hj.
  - intros t b Ht. destruct (Hb t b Ht) as [H1 H2].
    by split; [apply (Hkeep t (fun e => 0 < e))|apply (Hkeep _ (fun e => e = 0))].
Qed.

Lemma key_set d id r i : zlen id = 8 -> zlen i = 8 ->
  key (set_auth_keys (<[AuthKeyIDToInt64 id := r]>) d) i =
    if decide (i = id) then Some (data_of (AuthKeyIDToInt64 id) r) else key d i.
Proof.
  intros Hid Hi. unfold key. cbn [auth_keys set_auth_keys]. case_decide as He.
  - subst i. by rewrite lookup_insert_eq.
  - rewrite lookup_insert_ne; [done|]. intros H. apply He. symmetry. by apply AuthKeyIDToInt64_inj.
Qed.

(** A changed key, and nothing else. *)
Lemma set_key_same_but d id r : zlen id = 8 ->
  same_but id (key d) (bound_to d) (key (set_auth_keys (<[AuthKeyIDToInt64 id := r]>) d))
    (bound_to (set_auth_keys (<[AuthKeyIDToInt64 id := r]>) d)) /\
  key (set_auth_keys (<[AuthKeyIDToInt64 id := r]>) d) id = Some (data_of (AuthKeyIDToInt64 id) r).
Proof.
  intros Hid. split; [split|].
  - intros i Hi Hne. rewrite key_set by done. by rewrite decide_False.
  - done.
  - rewrite key_set by done. by rewrite decide_True.
Qed.

Lemma same_refl K B : same K B K B.
Proof. by intros i _. Qed.

Lemma data_of_row id r : zlen (KeyRow.body r) = 256 -> RowToAuthKeyData id r = Ok (data_of id r).
Proof. intros H. unfold RowToAuthKeyData. by rewrite H. Qed.

Lemma touch_key_spec id t d : consistent d -> zlen id = 8 ->
  let '(r, d') := touch_key (AuthKeyIDToInt64 id) t d in
  consistent d' /\ same (key d) (bound_to d) (key d') (bound_to d') /\
  exists row, r = Ok row /\ optional_row (AuthKeyIDToInt64 id) row = Ok (key d id) /\
    (row = None <-> key d id = None) /\
    (forall x, row = Some x -> data_of (AuthKeyIDToInt64 id) x = default empty_key_data (key d id) /\ zlen (KeyRow.body x) = 256).
Proof.
  intros Hd Hid. unfold touch_key. rewrite bind_get.
  assert (Ek : key d id = data_of (AuthKeyIDToInt64 id) <$> auth_keys d !! AuthKeyIDToInt64 id) by done.
  destruct (auth_keys d !! AuthKeyIDToInt64 id) as [x|] eqn:E; cbn in Ek |- *; rewrite Ek.
  2:{ split; [done|]. split; [apply same_refl|]. exists None. by repeat split. }
  destruct (whole_keys d Hd _ _ E) as [Hl Ho].
  split; [apply consistent_set_key; [done..|]; intros old; rewrite E; by intros [= <-]|].
  split.
  - intros i Hi. rewrite key_set by done. split; [|done]. case_decide as He; [|done]. subst i. by rewrite Ek.
  - exists (Some (touch t x)). split; [done|]. split; [cbn; by rewrite data_of_row|].
    split; [done|]. by intros y [= <-].
Qed.

End Rows.

(** *** The operations meet the interface *)

Section Refinement.
Context {schema : Schema} {schema_laws : SchemaLaws} {server : Server}.

(** [refines], of keys and bindings, from consistent tables; accounts,
    passwords and names stay as they are. *)
Definition meets {A} (m : M World A) (s : spec A) : Prop :=
  refines consistent Datatypes.id m (fun d r d' =>
    s (key d) (bound_to d) r (key d') (bound_to d') /\ people d' = people d).

Lemma meets_implements {A} (m : M World A) (d : Z -> M Db A) (s : spec A) :
  implements m d ->
  (forall t, frames people (d t)) ->
  (forall t db, consistent db -> let '(r, db') := d t db in
     consistent db' /\ s (key db) (bound_to db) r (key db') (bound_to db')) ->
  meets m s.
Proof.
  intros Hm Hp Hd. apply (refines_implements _ _ m d); [done|]. intros t db Hdb.
  specialize (Hd t db Hdb). specialize (Hp t db). by destruct (d t db) as [r db'], Hd.
Qed.

Lemma save_key_people id body salt e t : frames people (save_key id body salt e t).
Proof. intros d. unfold save_key. rewrite bind_get. by repeat case_match. Qed.
Lemma touch_key_people id t : frames people (touch_key id t).
Proof. intros d. unfold touch_key. rewrite bind_get. by repeat case_match. Qed.
#[local] Hint Resolve save_key_people touch_key_people frames_atomically frames_bind : frames.

Lemma Save_meets k : zlen (AuthKeyData.id k) = 8 -> zlen (AuthKeyData.value k) = 256 ->
  meets (AuthKeyStore.Save k) (Save_spec k).
Proof.
  intros Hid Hval. set (id := AuthKeyIDToInt64 (AuthKeyData.id k)).
  apply (meets_implements _ (fun t => guard (ValidNewAuthKeyProtocolExpiry (AuthKeyData.expires_at k)) InvalidAuthKeyProtocolExpiryError ;;;
    atomically (n <- save_key id (AuthKeyData.value k) (AuthKeyData.server_salt k) (AuthKeyData.expires_at k) t ;;
                guard (n =? 1) AuthKeyProtocolMetadataConflictError) Ok)).
  { apply implements_guard, transaction_implements. apply runs_bind; [apply runs_exec|]. intros n. apply runs_guard. }
  { auto with frames. }
  intros t db Hdb. rewrite bind_guard_if. unfold Save_spec.
  destruct (ValidNewAuthKeyProtocolExpiry _); [|split; [done|]; split; [done|apply same_refl]].
  assert (Ek : key db (AuthKeyData.id k) = data_of id <$> auth_keys db !! id) by done.
  unfold atomically, save_key. rewrite bind_assoc, bind_get.
  destruct (auth_keys db !! id) as [row|] eqn:E; cbn in Ek; rewrite Ek.
  - destruct (whole_keys db Hdb _ _ E) as [Hl Ho]. cbn [AuthKeyData.value AuthKeyData.expires_at data_of].
    destruct (bool_decide (KeyRow.body row = AuthKeyData.value k)) eqn:Eb;
      [apply bool_decide_eq_true in Eb|apply bool_decide_eq_false in Eb]; cbn [andb].
    2:{ case_decide; [tauto|]. split; [done|]. split; [done|apply same_refl]. }
    destruct (Z.eqb_spec (KeyRow.expires_at row) (AuthKeyData.expires_at k)) as [Ee|Ee].
    2:{ case_decide; [tauto|]. split; [done|]. split; [done|apply same_refl]. }
    case_decide; [|tauto]. cbn.
    destruct (set_key_same_but db (AuthKeyData.id k) (touch t (with_salt (AuthKeyData.server_salt k) row)) Hid) as [Hs Hk].
    split; [apply consistent_set_key; [done..|]; intros old; rewrite E; by intros [= <-]|].
    split; [done|]. split; [exact Hs|]. eexists. split; [exact Hk|]. done.
  - cbn. set (row := new_key_row t _ _ _).
    destruct (set_key_same_but db (AuthKeyData.id k) row Hid) as [Hs Hk].
    split; [apply consistent_set_key; [done|done| |]|].
    + cbn. by rewrite new_key_evidence.
    + intros old. by rewrite E.
    + split; [done|]. split; [exact Hs|]. eexists. split; [exact Hk|]. split; [|done]. by apply AuthKeyID_roundtrip.
Qed.

Lemma Get_meets id : zlen id = 8 -> meets (AuthKeyStore.Get id) (Get_spec id).
Proof.
  intros Hid. apply (meets_implements _ (fun t => atomically (touch_key (AuthKeyIDToInt64 id) t) (optional_row (AuthKeyIDToInt64 id)))).
  { apply transaction_implements, runs_exec. }
  { auto with frames. }
  intros t db Hdb. unfold atomically. pose proof (touch_key_spec id t db Hdb Hid) as H.
  destruct (touch_key _ t db) as [r db']. destruct H as (Hc & Hs & row & -> & Hr & _). by rewrite Hr.
Qed.

Lemma Revalidate_meets id : zlen id = 8 -> meets (AuthKeyStore.Revalidate id) (Get_spec id).
Proof.
  intros Hid. apply (meets_implements _ (fun t => atomically (select_key (AuthKeyIDToInt64 id) t) (optional_row (AuthKeyIDToInt64 id)))).
  { apply transaction_implements, runs_exec. }
  { intros t. by apply frames_atomically. }
  intros t db Hdb. unfold atomically, select_key, gets. cbn. split; [done|]. split; [|apply same_refl].
  unfold key. destruct (auth_keys db !! _) as [r|] eqn:E; [|done]. cbn.
  destruct (whole_keys db Hdb _ _ E) as [Hl _]. by rewrite data_of_row.
Qed.

Lemma UpdateClientInfo_meets id info : zlen id = 8 ->
  meets (AuthKeyStore.UpdateClientInfo id info) (UpdateClientInfo_spec id info).
Proof.
  intros Hid. set (key_id := AuthKeyIDToInt64 id).
  apply (meets_implements _ (fun t => atomically
    (updated <- AuthKeyStore.update_client_info key_id info t ;;
     if updated then ret None else current <- select_key key_id t ;; ret (Some current)) (AuthKeyStore.refused_update info))).
  { apply transaction_implements. apply runs_bind; [apply runs_exec|]. intros [|].
    - apply (runs_ret None).
    - apply runs_bind; [apply runs_exec|]. intros current. apply (runs_ret (Some current)). }
  { intros t. apply frames_atomically, frames_bind; [|by intros []]. intros d.
    unfold AuthKeyStore.update_client_info. rewrite bind_get. by repeat case_match. }
  intros t db Hdb. unfold UpdateClientInfo_spec, atomically, AuthKeyStore.update_client_info.
  rewrite bind_assoc, bind_get.
  assert (Ek : key db id = data_of key_id <$> auth_keys db !! key_id) by done.
  destruct (auth_keys db !! key_id) as [row|] eqn:E; cbn in Ek; rewrite Ek.
  2:{ unfold select_key, gets, bind. cbn. rewrite E. split; [done|]. split; [done|apply same_refl]. }
  destruct (whole_keys db Hdb _ _ E) as [Hl Ho]. cbn [AuthKeyData.layer AuthKeyData.layer_observation_id data_of].
  destruct ((KeyClientInfo.layer info <=? 0) || (KeyRow.layer_observation_id row =? 0) ||
            (KeyRow.layer row =? KeyClientInfo.layer info)) eqn:Eg.
  - case_decide; [lia|]. cbn.
    destruct (set_key_same_but db id (AuthKeyStore.merge_client_info info row) Hid) as [Hs Hk].
    split; [apply consistent_set_key; [done..|]; intros old; fold key_id; rewrite E; by intros [= <-]|].
    split; [done|]. split; [exact Hs|]. exact Hk.
  - case_decide as Hd; [|lia]. unfold select_key, gets, bind. cbn. rewrite E.
    destruct (Z.ltb_spec 0 (KeyClientInfo.layer info)), (Z.ltb_spec 0 (KeyRow.layer_observation_id row)),
      (Z.eqb_spec (KeyRow.layer row) (KeyClientInfo.layer info)); try lia. cbn.
    split; [done|]. split; [done|apply same_refl].
Qed.

(** The row of one key, as it comes back from [touch_pair]. *)
Definition row_list (id : Z) (row : option KeyRow.t) : list (Z * KeyRow.t) :=
  match row with Some r => [(id, r)] | None => [] end.

Lemma sort_temp t p row rows out : zlen t = 8 -> zlen (KeyRow.body row) = 256 ->
  AuthKeyStore.sort_pair (AuthKeyIDToInt64 t) p ((AuthKeyIDToInt64 t, row) :: rows) out =
  AuthKeyStore.sort_pair (AuthKeyIDToInt64 t) p rows
    (MkBindingKeys (data_of (AuthKeyIDToInt64 t) row) true (permanent out) (permanent_found out)).
Proof.
  intros Ht Hl. cbn [AuthKeyStore.sort_pair]. rewrite data_of_row by done. cbn [rbind AuthKeyData.id data_of].
  by rewrite AuthKeyID_roundtrip, Z.eqb_refl.
Qed.
Lemma sort_perm t p row rows out : zlen p = 8 -> zlen (KeyRow.body row) = 256 -> t <> AuthKeyIDToInt64 p ->
  AuthKeyStore.sort_pair t (AuthKeyIDToInt64 p) ((AuthKeyIDToInt64 p, row) :: rows) out =
  AuthKeyStore.sort_pair t (AuthKeyIDToInt64 p) rows
    (MkBindingKeys (temporary out) (temporary_found out) (data_of (AuthKeyIDToInt64 p) row) true).
Proof.
  intros Hp Hl Hne. cbn [AuthKeyStore.sort_pair]. rewrite data_of_row by done. cbn [rbind AuthKeyData.id data_of].
  rewrite AuthKeyID_roundtrip by done. rewrite (proj2 (Z.eqb_neq _ _)) by congruence. by rewrite Z.eqb_refl.
Qed.

Lemma LoadBindingKeys_meets t p : zlen t = 8 -> zlen p = 8 ->
  meets (AuthKeyStore.LoadBindingKeys t p) (Load_spec t p).
Proof.
  intros Ht Hp. set (ti := AuthKeyIDToInt64 t). set (pi := AuthKeyIDToInt64 p).
  apply (meets_implements _ (fun now => atomically (touch_pair ti pi now) (AuthKeyStore.pair_result t p))).
  { apply transaction_implements, runs_exec. }
  { intros now. apply frames_atomically, frames_bind; [auto with frames|]. intros temp.
    apply frames_bind; [case_match; auto with frames|auto with frames]. }
  intros now db Hdb. unfold atomically, touch_pair, bind.
  pose proof (touch_key_spec t now db Hdb Ht) as H1. fold ti in H1.
  destruct (touch_key ti now db) as [r1 db1]. destruct H1 as (Hc1 & Hs1 & row1 & -> & _ & Hn1 & Hd1).
  unfold Load_spec, AuthKeyStore.pair_result. destruct (Z.eqb_spec ti pi) as [He|Hne].
  - apply AuthKeyIDToInt64_inj in He; [|done..]. subst p. cbn. rewrite app_nil_r. split; [done|]. split; [|done].
    rewrite (bool_decide_eq_true_2 (t = t)) by done. destruct row1 as [x|].
    + destruct (Hd1 x eq_refl) as [Hx Hl]. unfold ti. rewrite sort_temp by done. cbn. fold ti. rewrite Hx.
      by destruct (key db t); [|discriminate (proj2 Hn1 eq_refl)].
    + destruct Hn1 as [-> _]; done.
  - pose proof (touch_key_spec p now db1 Hc1 Hp) as H2. fold pi in H2.
    destruct (touch_key pi now db1) as [r2 db2]. destruct H2 as (Hc2 & Hs2 & row2 & -> & _ & Hn2 & Hd2).
    rewrite (proj1 (Hs1 p Hp)) in Hn2, Hd2. cbn. split; [done|].
    split; [|intros i Hi; destruct (Hs1 i Hi) as [<- <-]; by apply Hs2].
    assert (Htp : t <> p) by (intros ->; done). rewrite bool_decide_eq_false_2 by done. cbn [andb].
    destruct row1 as [x|], row2 as [y|]; cbn [app]; unfold ti, pi.
    + destruct (Hd1 x eq_refl) as [Hx Hl], (Hd2 y eq_refl) as [Hy Hm].
      rewrite sort_temp, sort_perm by done. cbn. fold ti pi. rewrite Hx, Hy.
      destruct (key db t); [|discriminate (proj2 Hn1 eq_refl)]. by destruct (key db p); [|discriminate (proj2 Hn2 eq_refl)].
    + destruct (Hd1 x eq_refl) as [Hx Hl]. rewrite sort_temp by done. cbn. fold ti pi. rewrite Hx.
      destruct Hn2 as [-> _]; [|done]. by destruct (key db t); [|discriminate (proj2 Hn1 eq_refl)].
    + destruct (Hd2 y eq_refl) as [Hy Hm]. rewrite sort_perm by done. cbn. fold ti pi. rewrite Hy.
      destruct Hn1 as [-> _]; [|done]. by destruct (key db p); [|discriminate (proj2 Hn2 eq_refl)].
    + destruct Hn1 as [-> _], Hn2 as [-> _]; done.
Qed.

(** Reading keys leaves the bindings as they are, row by row. *)
Definition keeps_bindings {A} (m : M World A) : Prop := refines (fun _ => True) Datatypes.id m
  (fun d _ d' => temp_auth_key_bindings d' = temp_auth_key_bindings d).

Lemma keeps_implements {A} (m : M World A) (d : Z -> M Db A) : implements m d ->
  (forall t, frames temp_auth_key_bindings (d t)) -> keeps_bindings m.
Proof.
  intros Hm Hd. apply (refines_implements _ _ m d); [done|]. intros t db _. specialize (Hd t db). by destruct (d t db).
Qed.
Lemma touch_key_keeps id t : frames temp_auth_key_bindings (touch_key id t).
Proof. intros d. unfold touch_key. rewrite bind_get. by repeat case_match. Qed.
#[local] Hint Resolve touch_key_keeps : frames.

Lemma Get_keeps id : keeps_bindings (AuthKeyStore.Get id).
Proof.
  eapply keeps_implements; [apply transaction_implements, runs_exec|]. intros t. apply frames_atomically, touch_key_keeps.
Qed.
Lemma LoadBindingKeys_keeps t p : keeps_bindings (AuthKeyStore.LoadBindingKeys t p).
Proof.
  eapply keeps_implements; [apply transaction_implements, runs_exec|]. intros now.
  apply frames_atomically, frames_bind; [auto with frames|]. intros temp.
  apply frames_bind; [case_match; auto with frames|auto with frames].
Qed.

(** *** Deletion *)

Lemma runs_when c (m : M World unit) : runs m (fun _ => ret tt) -> runs (when c m) (fun _ => ret tt).
Proof. intros Hm. destruct c; [exact Hm|apply runs_ret]. Qed.

Lemma runs_locks ids : runs (LockPermanentAuthIdentities ids) (fun _ => ret tt).
Proof.
  unfold LockPermanentAuthIdentities. case_decide; [apply runs_ret|].
  apply (runs_ext _ (fun _ => ret (lock_keys ids) ;;; ret tt)); [|done].
  apply runs_bind; [apply runs_exec|]. intros l. induction l as [|k l IH]; [apply runs_ret|].
  cbn [for_each]. apply (runs_ext _ (fun _ => ret tt ;;; ret tt)); [|done].
  by apply runs_bind; [apply runs_locking|].
Qed.

(** What locking a key finds out, without the locks: in one session the key
    does not change in between. *)
Definition lock_raw (raw_id : Z) (d : Db) : res RawAuthKeyLock :=
  match auth_keys d !! raw_id with
  | None => Throw AuthKeyNotFoundError
  | Some raw =>
      match temp_auth_key_bindings d !! raw_id with
      | None => Ok (MkLock (KeyRow.expires_at raw) raw_id false)
      | Some b =>
          match auth_keys d !! BindingRow.perm_auth_key_id b with
          | None => Throw AuthKeyBindingInvalidError
          | Some perm =>
              if (KeyRow.expires_at raw <=? 0) || negb (KeyRow.expires_at perm =? 0)
              then Throw AuthKeyBindingInvalidError
              else Ok (MkLock (KeyRow.expires_at raw) (BindingRow.perm_auth_key_id b) true)
          end
      end
  end.

Lemma lock_raw_errors id d e : lock_raw id d = Throw e -> e = AuthKeyNotFoundError \/ e = AuthKeyBindingInvalidError.
Proof.
  unfold lock_raw. destruct (auth_keys d !! id) as [raw|]; [|intros [= <-]; auto].
  destruct (temp_auth_key_bindings d !! id) as [b|]; [|done].
  destruct (auth_keys d !! _) as [perm|]; [|intros [= <-]; auto]. destruct (_ || _); [intros [= <-]; auto|done].
Qed.

Lemma runs_lock_raw raw_id : runs (LockRawAuthKeyInIdentityOrder raw_id) (fun _ d => (lock_raw raw_id d, d)).
Proof.
  eapply runs_ext.
  - unfold LockRawAuthKeyInIdentityOrder, LookupAuthKeyIdentityHint.
    apply runs_bind; [apply runs_bind; [apply runs_exec|intros row; apply runs_ret]|]. intros hint.
    apply runs_bind; [apply runs_guard|]. intros u.
    apply runs_bind; [apply runs_when, runs_locks|]. intros u'.
    apply runs_bind; [apply runs_exec|]. intros raw_row.
    apply runs_option; [apply runs_throw|]. intros raw_expiry.
    apply runs_bind; [apply runs_exec|]. intros perm_row.
    apply runs_bind; [apply runs_guard|]. intros u''.
    apply runs_if; [apply runs_ret|].
    apply runs_bind; [apply runs_exec|]. intros perm_lock_row.
    apply runs_option; [apply runs_throw|]. intros perm_expiry.
    apply runs_bind; [apply runs_guard|]. intros u'''. apply runs_ret.
  - intros t d. unfold lock_raw, hint_row, expiry_of, perm_of, gets, bind, ret, guard, when. cbn.
    destruct (auth_keys d !! raw_id) as [raw|] eqn:E; cbn; [|done].
    destruct (temp_auth_key_bindings d !! raw_id) as [b|] eqn:Eb; cbn.
    + repeat first [rewrite E | rewrite Eb | rewrite Z.eqb_refl | progress cbn].
      destruct (auth_keys d !! BindingRow.perm_auth_key_id b) as [perm|]; cbn; [|done].
      by destruct (_ || _).
    + destruct (KeyRow.expires_at raw =? 0) eqn:E0; cbn;
        by repeat first [rewrite E | rewrite Eb | rewrite E0 | rewrite Z.eqb_refl | progress cbn].
Qed.

(** The deletion, as one step on the tables. *)
Definition delete_key (id : Z) (t : Z) : M Db unit := fun d =>
  match lock_raw id d with
  | Throw AuthKeyNotFoundError => (Ok tt, d)
  | Throw e => (Throw e, d)
  | Ok _ => AuthKeyStore.delete_identity id t d
  end.

Lemma runs_delete id :
  runs (found <- try_catch (LockRawAuthKeyInIdentityOrder id ;;; ret true)
          (fun e => match e with AuthKeyNotFoundError => ret false | _ => throw e end) ;;
        if found then exec (AuthKeyStore.delete_identity id) else ret tt)
    (delete_key id).
Proof.
  eapply runs_ext.
  - apply runs_bind; [apply runs_catch with
      (dh := fun _ e => match e with AuthKeyNotFoundError => ret false | _ => throw e end)|].
    + apply runs_bind; [apply runs_lock_raw|]. intros l. apply runs_ret.
    + intros e. destruct e; apply runs_throw || apply runs_ret.
    + intros e w He. destruct e; try done; by eexists.
    + intros found. apply runs_if; [apply runs_exec|apply runs_ret].
  - intros t d. unfold delete_key, bind, try_catch. cbn. destruct (lock_raw id d) as [l|e]; cbn.
    + by destruct (AuthKeyStore.delete_identity id t d).
    + by destruct e.
Qed.

Lemma elem_of_doomed id d t : t ∈ AuthKeyStore.doomed_temp id d <->
  exists b, temp_auth_key_bindings d !! t = Some b /\ BindingRow.perm_auth_key_id b = id.
Proof.
  unfold AuthKeyStore.doomed_temp. rewrite elem_of_dom. split.
  - intros [b Hb]. apply map_lookup_filter_Some in Hb as [Hb Hp]. by exists b.
  - intros (b & Hb & Hp). exists b. by apply map_lookup_filter_Some.
Qed.

(** No permanent key is a temporary one. *)
Lemma perm_not_doomed id d t b : consistent d -> temp_auth_key_bindings d !! t = Some b ->
  BindingRow.perm_auth_key_id b ∉ AuthKeyStore.doomed_temp id d.
Proof.
  intros Hd Hb Hin. apply elem_of_doomed in Hin as (b' & Hb' & _).
  destruct (whole_bindings d Hd _ _ Hb) as [_ (rp & Hp & Hz)].
  destruct (whole_bindings d Hd _ _ Hb') as [(rt & Ht & Hpos) _]. rewrite Hp in Ht. injection Ht as <-. lia.
Qed.

Lemma lookup_outside {A} (m : gmap Z A) (ids : gset Z) k :
  filter (fun kr => kr.1 ∉ ids) m !! k = if decide (k ∈ ids) then None else m !! k.
Proof.
  case_decide as H.
  - apply map_lookup_filter_None. right. intros x _ Hx. done.
  - destruct (m !! k) as [x|] eqn:E.
    + apply map_lookup_filter_Some. by split.
    + apply map_lookup_filter_None. by left.
Qed.

(** The rows that go with a key. *)
Definition goes (id : Z) (d : Db) (k : Z) : Prop := k = id \/ k ∈ AuthKeyStore.doomed_temp id d.
#[local] Instance goes_dec id d k : Decision (goes id d k).
Proof. apply _. Defined.

Lemma goes_cases {A} id d k (o : option A) :
  (if decide (k ∈ ({[id]} : gset Z)) then None else if decide (k ∈ AuthKeyStore.doomed_temp id d) then None else o) =
  if decide (goes id d k) then None else o.
Proof.
  unfold goes. case_decide as H1; [rewrite decide_True; [done|left; by apply elem_of_singleton in H1]|].
  case_decide as H2; [by rewrite decide_True by auto|]. rewrite decide_False; [done|].
  intros [->|]; [|done]. by apply H1, elem_of_singleton.
Qed.

Lemma delete_identity_run id t d : consistent d -> exists d',
  AuthKeyStore.delete_identity id t d = (Ok tt, d') /\
  (forall k, auth_keys d' !! k = if decide (goes id d k) then None else auth_keys d !! k) /\
  (forall k, temp_auth_key_bindings d' !! k = if decide (goes id d k) then None else temp_auth_key_bindings d !! k).
Proof.
  intros Hd. unfold AuthKeyStore.delete_identity, gets, modify, bind. cbn.
  set (doomed := AuthKeyStore.doomed_temp id d).
  set (d1 := set_update_states _ d). unfold AuthKeyStore.delete_key_rows.
  destruct (cascade_allowed doomed d1) as (d2 & -> & Hk2 & Hb2).
  { intros t0 b Hb _. by apply (perm_not_doomed id d t0). }
  set (d3 := set_auth_keys _ d2).
  assert (Hb3 : forall k, temp_auth_key_bindings d3 !! k = if decide (k ∈ doomed) then None else temp_auth_key_bindings d !! k).
  { intros k. change (temp_auth_key_bindings d3) with (temp_auth_key_bindings d2). rewrite Hb2. apply lookup_outside. }
  destruct (cascade_allowed {[id]} d3) as (d4 & -> & Hk4 & Hb4).
  { intros t0 b Hb _ Hin. apply elem_of_singleton in Hin. rewrite Hb3 in Hb. case_decide as Hn; [done|].
    apply Hn, elem_of_doomed. by exists b. }
  eexists. split; [reflexivity|].
  split; intros k; cbn [auth_keys temp_auth_key_bindings set_auth_keys].
  - rewrite lookup_outside, Hk4. change (auth_keys d3) with (filter (fun kr => kr.1 ∉ doomed) (auth_keys d2)).
    rewrite lookup_outside, Hk2. apply goes_cases.
  - rewrite Hb4, lookup_outside, Hb3. apply goes_cases.
Qed.

Lemma delete_identity_final id t d : final (fst (AuthKeyStore.delete_identity id t d)).
Proof.
  unfold AuthKeyStore.delete_identity, gets, modify, bind, AuthKeyStore.delete_key_rows. cbn.
  destruct (cascade (AuthKeyStore.doomed_temp id d) _) as [d2|]; cbn; [|done]. by destruct (cascade {[id]} _).
Qed.

Lemma delete_key_people id t : frames people (delete_key id t).
Proof.
  intros d. unfold delete_key. destruct (lock_raw id d) as [l|[]]; try done.
  assert (Hrows : forall ids, frames people (AuthKeyStore.delete_key_rows ids)).
  { intros ids db. unfold AuthKeyStore.delete_key_rows. destruct (cascade ids db) as [db'|] eqn:E; [|done].
    exact (cascade_reach ids db db' E). }
  apply (frames_bind people); [done|]. intros doomed. by repeat (apply frames_bind; [done|]; intros _).
Qed.

Lemma consistent_delete id d d' : consistent d ->
  (forall k, auth_keys d' !! k = if decide (goes id d k) then None else auth_keys d !! k) ->
  (forall k, temp_auth_key_bindings d' !! k = if decide (goes id d k) then None else temp_auth_key_bindings d !! k) ->
  consistent d'.
Proof.
  intros Hd Hk Hb. split.
  - intros i r. rewrite Hk. case_decide; [done|]. by apply (whole_keys d Hd).
  - intros t b. rewrite Hb. case_decide as Hg; [done|]. intros Hrow.
    destruct (whole_bindings d Hd _ _ Hrow) as [Ht Hp]. split; [by rewrite Hk, decide_False|].
    rewrite Hk, decide_False; [done|]. intros [Hid|Hin]; [|by apply (perm_not_doomed id d t b)].
    apply Hg. right. apply elem_of_doomed. by exists b.
Qed.

Lemma Delete_meets id : zlen id = 8 -> meets (AuthKeyStore.Delete id) (Delete_spec id).
Proof.
  intros Hid. set (k := AuthKeyIDToInt64 id).
  apply (meets_implements _ (fun t => atomically (delete_key k t) Ok)).
  { apply AuthIdentityAttempts_implements; [apply runs_delete| |unfold kAuthIdentityTxMaxAttempts; lia].
    intros t db. unfold delete_key. destruct (lock_raw k db) as [l|e] eqn:El; [apply delete_identity_final|].
    by destruct (lock_raw_errors _ _ _ El) as [->| ->]. }
  { intros t. apply frames_atomically, delete_key_people. }
  intros t db Hdb. unfold atomically, delete_key, Delete_spec.
  assert (Ek : key db id = data_of k <$> auth_keys db !! k) by done. unfold lock_raw.
  destruct (auth_keys db !! k) as [raw|] eqn:E; cbn in Ek; rewrite Ek.
  2:{ split; [done|]. split; [done|apply same_refl]. }
  assert (Hlock : exists l, match temp_auth_key_bindings db !! k with
      | None => Ok (MkLock (KeyRow.expires_at raw) k false)
      | Some b => match auth_keys db !! BindingRow.perm_auth_key_id b with
          | None => Throw AuthKeyBindingInvalidError
          | Some perm => if (KeyRow.expires_at raw <=? 0) || negb (KeyRow.expires_at perm =? 0)
              then Throw AuthKeyBindingInvalidError
              else Ok (MkLock (KeyRow.expires_at raw) (BindingRow.perm_auth_key_id b) true) end end = Ok l).
  { destruct (temp_auth_key_bindings db !! k) as [b|] eqn:Eb; [|by eexists].
    destruct (whole_bindings db Hdb _ _ Eb) as [(rt & Ht & Hpos) (rp & Hp & Hz)].
    rewrite Hp, Hz. rewrite E in Ht. injection Ht as <-.
    destruct (Z.leb_spec (KeyRow.expires_at raw) 0); [lia|]. by eexists. }
  destruct Hlock as [l ->]. destruct (delete_identity_run k t db Hdb) as (d' & -> & Hk & Hb).
  split; [by apply (consistent_delete k db)|]. split; [done|].
  assert (Hgoes : forall i, zlen i = 8 -> doomed id (bound_to db) i <-> goes k db (AuthKeyIDToInt64 i)).
  { intros i Hi. unfold doomed, goes, bound_to. rewrite elem_of_doomed. split.
    - intros [->|Hp]; [by left|right]. destruct (temp_auth_key_bindings db !! _) as [b|] eqn:Eb; [|done].
      exists b. split; [done|]. by injection Hp.
    - intros [He|(b & -> & Hp)]; [left; by apply AuthKeyIDToInt64_inj|right; cbn; by rewrite Hp]. }
  intros i Hi. unfold key, bound_to. rewrite Hk, Hb. rewrite Hgoes by done.
  split; intros Hg; [by rewrite !decide_True|by rewrite !decide_False].
Qed.

End Refinement.

(** ** Bindings *)

(** A key's row with other evidence of its layer; when it was last used may
    change too. *)
Definition relayered (layer observation : Z) (r r' : KeyRow.t) : Prop :=
  exists used, r' = KeyRow.Mk (KeyRow.body r) (KeyRow.server_salt r) (KeyRow.created_at r) (KeyRow.expires_at r)
    layer observation (KeyRow.device_model r) (KeyRow.platform r) (KeyRow.system_version r) (KeyRow.api_id r)
    (KeyRow.app_version r) used.

(** What the sources document of [telesrv_bind_temp_auth_key]: it validates
    both rows again, a temporary key keeps its permanent one ([errors.hpp]), the
    evidence is merged as in [MergeAuthKeyLayerObservations] onto both rows and
    the binding persisted ([auth_store_smoke.cpp]).  Unless the server fails, it
    raises no error that is worth a retry. *)
Class BindLaws `{!Schema} : Prop := {
  bind_final : forall t p nonce session expires_at message now d,
    final (fst (telesrv_bind_temp_auth_key t p nonce session expires_at message now d));
  bind_law : forall t p nonce session expires_at message now d layer observation d', consistent d ->
    telesrv_bind_temp_auth_key t p nonce session expires_at message now d = (Ok ("ok"%string, layer, observation), d') ->
      exists rt rp rt' rp',
        auth_keys d !! t = Some rt /\ 0 < KeyRow.expires_at rt /\
        auth_keys d !! p = Some rp /\ KeyRow.expires_at rp = 0 /\
        (forall b, temp_auth_key_bindings d !! t = Some b -> BindingRow.perm_auth_key_id b = p) /\
        MergeAuthKeyLayerObservations (KeyRow.layer rt) (KeyRow.layer_observation_id rt)
          (KeyRow.layer rp) (KeyRow.layer_observation_id rp) = Ok (layer, observation) /\
        relayered layer observation rt rt' /\ relayered layer observation rp rp' /\
        d' = set_bindings (<[t := BindingRow.Mk p nonce session expires_at message]>)
               (set_auth_keys (fun keys => <[t := rt']> (<[p := rp']> keys)) d) }.

(** The binding of a temporary key, as it is read. *)
Definition to_binding (id : Z) (b : BindingRow.t) : TempAuthKeyBinding.t :=
  TempAuthKeyBinding.Mk (AuthKeyIDFromInt64 id) (BindingRow.perm_auth_key_id b) (BindingRow.nonce b)
    (BindingRow.temp_session_id b) (BindingRow.expires_at b) (BindingRow.encrypted_message b).
Definition binding (d : Db) (id : bytes) : option TempAuthKeyBinding.t :=
  to_binding (AuthKeyIDToInt64 id) <$> temp_auth_key_bindings d !! AuthKeyIDToInt64 id.

Definition with_evidence (e : TempAuthKeyBindingResult) (k : AuthKeyData.t) : AuthKeyData.t :=
  AuthKeyData.Mk (AuthKeyData.id k) (AuthKeyData.value k) (AuthKeyData.server_salt k) (AuthKeyData.created_at k)
    (AuthKeyData.expires_at k) (br_layer e) (br_layer_observation_id e) (AuthKeyData.device_model k)
    (AuthKeyData.platform k) (AuthKeyData.system_version k) (AuthKeyData.api_id k) (AuthKeyData.app_version k).

(** A temporary key is bound to a permanent one, for good, and both get the
    merged evidence; or nothing happens. *)
Definition SaveWithState_spec (b : TempAuthKeyBinding.t) (d : Db) (r : res TempAuthKeyBindingResult) (d' : Db) : Prop :=
  let t := TempAuthKeyBinding.temp_auth_key_id b in
  let p := AuthKeyIDFromInt64 (TempAuthKeyBinding.perm_auth_key_id b) in
  match r with
  | Ok e => exists tk pk,
      key d t = Some tk /\ 0 < AuthKeyData.expires_at tk /\ key d p = Some pk /\ AuthKeyData.expires_at pk = 0 /\
      (forall q, bound_to d t = Some q -> q = TempAuthKeyBinding.perm_auth_key_id b) /\
      MergeAuthKeyLayerObservations (AuthKeyData.layer tk) (AuthKeyData.layer_observation_id tk)
        (AuthKeyData.layer pk) (AuthKeyData.layer_observation_id pk) = Ok (br_layer e, br_layer_observation_id e) /\
      (forall i, zlen i = 8 ->
         binding d' i = (if decide (i = t) then Some b else binding d i) /\
         key d' i = (if decide (i = t \/ i = p) then with_evidence e <$> key d i else key d i)) /\
      people d' = people d /\ authorizations d' = authorizations d
  | Throw _ => d' = d
  end.
Definition GetByTemp_spec (id : bytes) (d : Db) (r : res (option TempAuthKeyBinding.t)) (d' : Db) : Prop :=
  r = Ok (binding d id) /\ d' = d.

Section Bindings.
Context {schema : Schema} {bind_laws : BindLaws} {server : Server}.
Import TempAuthKeyBindingStore.

Lemma merged_evidence tl to pl po l o : MergeAuthKeyLayerObservations tl to pl po = Ok (l, o) -> 0 <= o.
Proof. unfold MergeAuthKeyLayerObservations. repeat (case_match; try discriminate); intros [= <- <-]; lia. Qed.

Lemma consistent_bind d t b rt rp : consistent d ->
  auth_keys d !! t = Some rt -> 0 < KeyRow.expires_at rt ->
  auth_keys d !! BindingRow.perm_auth_key_id b = Some rp -> KeyRow.expires_at rp = 0 ->
  consistent (set_bindings (<[t := b]>) d).
Proof.
  intros [Hk Hb] Ht Htp Hp Hp0. split; cbn [auth_keys temp_auth_key_bindings set_bindings]; [exact Hk|].
  intros t' b'. destruct (decide (t' = t)) as [->|Hne]; [rewrite lookup_insert_eq|rewrite lookup_insert_ne by done].
  - intros [= <-]. by split; eexists.
  - apply Hb.
Qed.

Lemma relayered_columns l o r r' : relayered l o r r' ->
  KeyRow.body r' = KeyRow.body r /\ KeyRow.layer_observation_id r' = o /\ KeyRow.expires_at r' = KeyRow.expires_at r.
Proof. by intros [u ->]. Qed.

(** The two rows of a pair replaced by rows with other evidence. *)
Lemma consistent_relayer d t p rt rp rt' rp' l o : consistent d -> 0 <= o ->
  auth_keys d !! t = Some rt -> auth_keys d !! p = Some rp -> KeyRow.expires_at rt <> KeyRow.expires_at rp ->
  relayered l o rt rt' -> relayered l o rp rp' ->
  consistent (set_auth_keys (fun keys => <[t := rt']> (<[p := rp']> keys)) d).
Proof.
  intros Hd Ho Ht Hp Hne Hrt Hrp. destruct (whole_keys d Hd _ _ Ht) as [Hlt _], (whole_keys d Hd _ _ Hp) as [Hlp _].
  destruct (relayered_columns _ _ _ _ Hrt) as (Bt & Ot & Et), (relayered_columns _ _ _ _ Hrp) as (Bp & Op & Ep).
  assert (Htp : t <> p) by congruence.
  refine (consistent_set_key (set_auth_keys (<[p := rp']>) d) t rt' _ ltac:(congruence) ltac:(congruence) _).
  - apply consistent_set_key; [done|congruence..|]. intros old. rewrite Hp. by intros [= <-].
  - intros old. cbn. rewrite lookup_insert_ne, Ht by done. by intros [= <-].
Qed.

Lemma data_of_relayered l o e i r r' : relayered l o r r' -> l = br_layer e -> o = br_layer_observation_id e ->
  data_of i r' = with_evidence e (data_of i r).
Proof. by intros [u ->] -> ->. Qed.

(** A foreign key that is violated is an invalid binding. *)
Definition bind_error (e : exn) : exn :=
  match e with SqlError "23503" _ => AuthKeyBindingInvalidError | _ => e end.
Lemma bind_error_throw {S A} e :
  match e with SqlError "23503" _ => @throw S A AuthKeyBindingInvalidError | _ => throw e end = throw (bind_error e).
Proof. unfold bind_error. destruct e; try done. by repeat case_match. Qed.
Lemma bind_error_final {A B} e : final (@Throw A e) -> final (@Throw B (bind_error e)).
Proof. unfold bind_error. destruct e; try done. by repeat case_match. Qed.

Definition bind_statement (b : TempAuthKeyBinding.t) (now : Z) : M Db TempAuthKeyBindingResult :=
  row <- try_catch
    (telesrv_bind_temp_auth_key (AuthKeyIDToInt64 (TempAuthKeyBinding.temp_auth_key_id b))
       (TempAuthKeyBinding.perm_auth_key_id b) (TempAuthKeyBinding.nonce b) (TempAuthKeyBinding.temp_session_id b)
       (TempAuthKeyBinding.expires_at b) (TempAuthKeyBinding.encrypted_message b) now)
    (fun e => throw (bind_error e)) ;;
  let '(status, merged_layer, merged_observation_id) := row in
  lift (read_status status merged_layer merged_observation_id).

(** The statement, when it is read as success. *)
Lemma read_status_Ok status l o e : read_status status l o = Ok e ->
  status = "ok"%string /\ br_layer e = l /\ br_layer_observation_id e = o.
Proof.
  unfold read_status. case_bool_decide as Hs; [|by repeat case_match]. case_match; [done|]. by intros [= <-].
Qed.
Lemma read_status_final status l o : final (read_status status l o).
Proof. unfold read_status. by repeat case_match. Qed.

Lemma bind_statement_final b now d : final (fst (bind_statement b now d)).
Proof.
  unfold bind_statement, bind, try_catch.
  pose proof (bind_final (AuthKeyIDToInt64 (TempAuthKeyBinding.temp_auth_key_id b)) (TempAuthKeyBinding.perm_auth_key_id b)
    (TempAuthKeyBinding.nonce b) (TempAuthKeyBinding.temp_session_id b)
    (TempAuthKeyBinding.expires_at b) (TempAuthKeyBinding.encrypted_message b) now d) as Hf.
  destruct (telesrv_bind_temp_auth_key _ _ _ _ _ _ now d) as [[[[status l] o]|e] d']; [apply read_status_final|].
  exact (bind_error_final e Hf).
Qed.

Lemma bind_statement_run b now d e d' : consistent d -> bind_statement b now d = (Ok e, d') ->
  consistent d' /\
  (is_s64 (TempAuthKeyBinding.perm_auth_key_id b) -> zlen (TempAuthKeyBinding.temp_auth_key_id b) = 8 ->
   SaveWithState_spec b d (Ok e) d').
Proof.
  intros Hd. unfold bind_statement, bind, try_catch. set (t := AuthKeyIDToInt64 _). set (p := TempAuthKeyBinding.perm_auth_key_id b).
  pose proof (fun l o d' => bind_law t p (TempAuthKeyBinding.nonce b) (TempAuthKeyBinding.temp_session_id b)
    (TempAuthKeyBinding.expires_at b) (TempAuthKeyBinding.encrypted_message b) now d l o d' Hd) as H.
  destruct (telesrv_bind_temp_auth_key t p _ _ _ _ now d) as [[[[status l] o]|e'] d1]; [|done].
  cbn [lift]. intros [= (-> & El & Eo)%read_status_Ok <-].
  destruct (H l o d1 eq_refl) as (rt & rp & rt' & rp' & Ht & Htp & Hp & Hp0 & Hb & Hm & Hrt & Hrp & ->).
  assert (Hc : consistent (set_auth_keys (fun keys => <[t := rt']> (<[p := rp']> keys)) d)).
  { by apply (consistent_relayer d t p rt rp rt' rp' l o); try done; [eapply merged_evidence|lia]. }
  destruct (relayered_columns _ _ _ _ Hrt) as (_ & _ & Et), (relayered_columns _ _ _ _ Hrp) as (_ & _ & Ep).
  assert (Hne : t <> p) by (intros <-; rewrite Ht in Hp; injection Hp as <-; lia).
  split.
  { apply (consistent_bind _ _ _ rt' rp'); [done| |lia| |lia]; cbn; [by rewrite lookup_insert_eq|].
    by rewrite lookup_insert_ne, lookup_insert_eq. }
  intros H64 H8. unfold SaveWithState_spec, bound_to, key, binding. cbv zeta iota. fold t p.
  rewrite AuthKeyIDToInt64_roundtrip by done. rewrite Ht, Hp. eexists _, _.
  split; [done|]. split; [done|]. split; [done|]. split; [done|].
  split. { intros q. destruct (temp_auth_key_bindings d !! t) as [b0|]; [|done]. intros [= <-]. by apply Hb. }
  split; [cbn; congruence|]. split; [|by split].
  intros i Hi. cbn [auth_keys temp_auth_key_bindings set_bindings set_auth_keys].
  assert (Hid : forall id, zlen id = 8 -> AuthKeyIDToInt64 i = AuthKeyIDToInt64 id <-> i = id)
    by (intros id Hz; split; [by apply AuthKeyIDToInt64_inj|by intros ->]).
  assert (Hip : AuthKeyIDToInt64 i = p <-> i = AuthKeyIDFromInt64 p).
  { rewrite <- (Hid (AuthKeyIDFromInt64 p)) by apply zlen_le_bytes. by rewrite AuthKeyIDToInt64_roundtrip. }
  split.
  - case_decide as He.
    + subst i. fold t. rewrite lookup_insert_eq. cbn. unfold to_binding. cbn.
      unfold t. rewrite AuthKeyID_roundtrip by done. by destruct b.
    + rewrite lookup_insert_ne; [done|]. intros H'. symmetry in H'. by apply Hid in H'.
  - destruct (decide (AuthKeyIDToInt64 i = t)) as [He|Hn1].
    + rewrite decide_True by (left; by apply Hid). rewrite He, lookup_insert_eq, Ht. cbn. f_equal.
      by eapply data_of_relayered.
    + rewrite lookup_insert_ne by done. destruct (decide (AuthKeyIDToInt64 i = p)) as [He|Hn2].
      * rewrite decide_True by (right; by apply Hip). rewrite He, lookup_insert_eq, Hp. cbn. f_equal.
        by eapply data_of_relayered.
      * rewrite lookup_insert_ne by done. rewrite decide_False; [done|]. intros [H'|H'].
        -- by apply Hn1, Hid.
        -- by apply Hn2, Hip.
Qed.

Lemma SaveWithState_runs b : runs
  (row <- try_catch
      (exec (telesrv_bind_temp_auth_key (AuthKeyIDToInt64 (TempAuthKeyBinding.temp_auth_key_id b))
               (TempAuthKeyBinding.perm_auth_key_id b) (TempAuthKeyBinding.nonce b)
               (TempAuthKeyBinding.temp_session_id b) (TempAuthKeyBinding.expires_at b)
               (TempAuthKeyBinding.encrypted_message b)))
      (fun e => match e with
                | SqlError "23503" _ => throw AuthKeyBindingInvalidError
                | _ => throw e
                end) ;;
    let '(status, merged_layer, merged_observation_id) := row in
    lift (read_status status merged_layer merged_observation_id)) (bind_statement b).
Proof.
  unfold bind_statement. apply (runs_bind _ (fun t => try_catch _ _) _ (fun t row => _)).
  - apply runs_catch with (dh := fun _ e => throw (bind_error e)); [apply runs_exec| |].
    + intros e. rewrite bind_error_throw. apply runs_throw.
    + intros e w He. rewrite bind_error_throw. exists (bind_error e). split; [done|].
      unfold bind_error. destruct e; try done. by repeat case_match.
  - intros [[status l] o]. apply runs_lift.
Qed.

Lemma SaveWithState_refines b :
  refines consistent Datatypes.id (SaveWithState b) (fun d r d' =>
    match r with Throw _ => d' = d | Ok _ => True end /\
    (is_s64 (TempAuthKeyBinding.perm_auth_key_id b) -> zlen (TempAuthKeyBinding.temp_auth_key_id b) = 8 ->
     SaveWithState_spec b d r d')).
Proof.
  eapply refines_implements.
  { apply implements_guard, (AuthIdentityAttempts_implements _ _ (bind_statement b));
      [apply SaveWithState_runs|apply bind_statement_final|unfold kAuthIdentityTxMaxAttempts; lia]. }
  intros now d Hd. cbv beta. rewrite bind_guard_if. destruct (negb _); [|by split].
  unfold atomically. destruct (bind_statement b now d) as [[e|e] d'] eqn:E; [|by split].
  destruct (bind_statement_run b now d e d' Hd E) as [Hc Hs]. split; [done|]. by split.
Qed.

Lemma GetByTemp_refines id : refines consistent Datatypes.id (GetByTemp id) (GetByTemp_spec id).
Proof.
  eapply refines_implements; [apply transaction_implements, runs_exec|]. intros t d Hd. cbn. split; [done|].
  split; [|done]. unfold binding. by destruct (temp_auth_key_bindings d !! _).
Qed.

End Bindings.

(** ** A concrete schema and server *)

Module ToySchema.

Definition toy_cascade (ids : gset Z) (d : Db) : option Db :=
  if decide (map_Forall (fun t b => t ∉ ids -> BindingRow.perm_auth_key_id b ∉ ids) (temp_auth_key_bindings d))
  then Some (set_bindings (filter (fun tb => tb.1 ∉ ids)) d) else None.

Definition relayer (layer observation : Z) (r : KeyRow.t) : KeyRow.t :=
  KeyRow.Mk (KeyRow.body r) (KeyRow.server_salt r) (KeyRow.created_at r) (KeyRow.expires_at r)
    layer observation (KeyRow.device_model r) (KeyRow.platform r) (KeyRow.system_version r) (KeyRow.api_id r)
    (KeyRow.app_version r) (KeyRow.last_used_at r).

(** A binding of a temporary key to a permanent one, always the same. *)
Definition toy_bind (temp perm nonce session expires_at : Z) (message : bytes) (_ : Z) : M Db (string * Z * Z) :=
  d <- get ;;
  match auth_keys d !! temp, auth_keys d !! perm with
  | Some rt, Some rp =>
      if negb ((0 <? KeyRow.expires_at rt) && (KeyRow.expires_at rp =? 0)) then ret ("binding_invalid"%string, 0, 0)
      else if from_option (fun b => BindingRow.perm_auth_key_id b =? perm) true (temp_auth_key_bindings d !! temp) then
        match MergeAuthKeyLayerObservations (KeyRow.layer rt) (KeyRow.layer_observation_id rt)
                (KeyRow.layer rp) (KeyRow.layer_observation_id rp) with
        | Ok (layer, observation) =>
            put (set_bindings (<[temp := BindingRow.Mk perm nonce session expires_at message]>)
                  (set_auth_keys (fun keys => <[temp := relayer layer observation rt]>
                                                (<[perm := relayer layer observation rp]> keys)) d)) ;;;
            ret ("ok"%string, layer, observation)
        | Throw AuthKeySessionLayerConflictError => ret ("layer_conflict"%string, 0, 0)
        | Throw _ => ret ("layer_invalid"%string, 0, 0)
        end
      else ret ("already_bound"%string, 0, 0)
  | _, _ => ret ("binding_invalid"%string, 0, 0)
  end.

#[export] Instance toy_schema : Schema := {|
  key_defaults := fun now => KeyRow.Mk [] 0 (Some now) 0 0 0 [] [] [] 0 [] now;
  cascade := toy_cascade;
  hashint8 := fun z => z mod 2 ^ 31;
  retention_default := 0; state_default := fun now => now; authorization_defaults := fun now => (now, now);
  telesrv_bind_temp_auth_key := toy_bind |}.

#[export] Instance toy_schema_laws : SchemaLaws.
Proof.
  split; [done| | |]; cbn [cascade toy_schema]; unfold toy_cascade; intros ids d H.
  - destruct H as (t & b & Hb & Ht & Hp). rewrite decide_False; [done|]. intros Hall. by apply (Hall t b).
  - rewrite decide_True; [by eexists|]. intros t b. apply H.
  - intros Hd. case_decide; [by injection Hd as <-|done].
Qed.

#[export] Instance toy_bind_laws : BindLaws.
Proof.
  split; intros *; cbn [telesrv_bind_temp_auth_key toy_schema]; unfold toy_bind.
  - rewrite bind_get. by repeat case_match.
  - intros _. rewrite bind_get. destruct (auth_keys d !! t) as [rt|] eqn:Et; [|done].
    destruct (auth_keys d !! p) as [rp|] eqn:Ep; [|done].
    destruct (Z.ltb_spec 0 (KeyRow.expires_at rt)) as [Ht|], (Z.eqb_spec (KeyRow.expires_at rp) 0) as [Hp|]; try done. cbn [negb andb].
    destruct (from_option _ true _) eqn:Hb; [|done]. destruct (MergeAuthKeyLayerObservations _ _ _ _) as [[l o]|[]] eqn:Em; try done.
    intros [= <- <- <-]. exists rt, rp, (relayer l o rt), (relayer l o rp). repeat (split; [done|]).
    split; [intros b E; rewrite E in Hb; cbn in Hb; lia|]. repeat (split; [done|]).
    split; [by eexists|]. split; [by eexists|done].
Qed.

(** It deadlocks at its third request and loses the connection at the tenth. *)
Definition flaky : Server := {|
  failure := fun n => if decide (n = 2%nat) then Some (SqlFailure "40P01" "deadlock detected")
                      else if decide (n = 9%nat) then Some (ConnectionLost true) else None;
  time_of := fun n => 1700000000000000 + Z.of_nat n |}.

End ToySchema.

(** ** Properties *)

(** C10. The Postgres key store is the key store the program was proved
    against, whatever the server does.  From tables in which keys are whole and
    bindings join a temporary to a permanent key, saving, reading,
    revalidating, loading a pair, updating the client's facts and deleting a
    key leave such tables and do what the interface documents: a key id is
    written once and only its salt renewed, reads return the key that is there,
    missing fields and observed layers are not overwritten, and a key is
    deleted together with the temporary keys bound to it, in one piece; a
    binding joins a temporary key to the one permanent key it will ever have and
    gives both the merged layer evidence, and is read back as saved. Accounts,
    passwords and names are untouched. When a statement or the commit fails, even after retries, the call throws and has
    had no effect, except that a commit cut off by a lost connection may have
    had the whole one. *)
Theorem AuthKeyStore_refines {schema : Schema} {schema_laws : SchemaLaws} {bind_laws : BindLaws} {server : Server} :
  (forall k, zlen (AuthKeyData.id k) = 8 -> zlen (AuthKeyData.value k) = 256 ->
     meets (AuthKeyStore.Save k) (Save_spec k)) /\
  (forall id, zlen id = 8 ->
     meets (AuthKeyStore.Get id) (Get_spec id) /\ meets (AuthKeyStore.Revalidate id) (Get_spec id) /\
     meets (AuthKeyStore.Delete id) (Delete_spec id) /\
     forall info, meets (AuthKeyStore.UpdateClientInfo id info) (UpdateClientInfo_spec id info)) /\
  (forall t p, zlen t = 8 -> zlen p = 8 -> meets (AuthKeyStore.LoadBindingKeys t p) (Load_spec t p)) /\
  (forall b, refines consistent Datatypes.id (TempAuthKeyBindingStore.SaveWithState b) (fun d r d' =>
     match r with Throw _ => d' = d | Ok _ => True end /\
     (is_s64 (TempAuthKeyBinding.perm_auth_key_id b) -> zlen (TempAuthKeyBinding.temp_auth_key_id b) = 8 ->
      SaveWithState_spec b d r d'))) /\
  (forall id, refines consistent Datatypes.id (TempAuthKeyBindingStore.GetByTemp id) (GetByTemp_spec id)).
Proof.
  split; [exact Save_meets|]. split; [|split; [exact LoadBindingKeys_meets|split; [exact SaveWithState_refines|exact GetByTemp_refines]]].
  intros id Hid. split; [by apply Get_meets|]. split; [by apply Revalidate_meets|].
  split; [by apply Delete_meets|]. intros info. by apply UpdateClientInfo_meets.
Qed.

Lemma AuthKeyStore_refines_witness :
  meets (server := ToySchema.flaky)
    (AuthKeyStore.Delete (schema := ToySchema.toy_schema) (server := ToySchema.flaky) (replicate 8 x01))
    (Delete_spec (replicate 8 x01)).
Proof.
  exact (proj1 (proj2 (proj2 (proj1 (proj2 (@AuthKeyStore_refines ToySchema.toy_schema ToySchema.toy_schema_laws
    ToySchema.toy_bind_laws ToySchema.flaky)) (replicate 8 x01) eq_refl)))).
Defined.
