(* ===== verification/AuthorizationStore.v ===== *)
(** * Authorizations in Postgres: [authorization_store.cpp], [user_lock.cpp]

    [AuthorizationStore]: a login commits the authorization of a key together
    with the baseline of its updates; reading, listing, revoking. *)

From Stdlib Require Import ZArith Lia Strings.Byte Strings.String Floats.SpecFloat.
From stdpp Require Import base decidable list gmap pretty sorting.
From S2P Require Import Prelude OpenSSL Store Database KeyStore.

(** ** [user_lock.cpp] *)

(** The users to lock: the positive ids, each once. *)
Definition locked_users (user_ids : list Z) : list Z := remove_dups (filter (fun id => 0 < id) user_ids).

Section Locks.
Context {server : Server}.

Definition LockUsersForUpdate (user_ids : list Z) : M World unit :=
  if decide (locked_users user_ids = []) then ret tt
  else pg_advisory_xact_lock (UserLock <$> merge_sort Z.le (locked_users user_ids)).
Definition LockUserForUpdate (user_id : Z) : M World unit := LockUsersForUpdate [user_id].

End Locks.

(** ** Times *)

(** [EXTRACT(EPOCH FROM …)] read as a [double] of seconds, then cast to
    nanoseconds: two roundings to 53 bits and a truncation. *)
Definition double_of_Z (z : Z) : spec_float := binary_normalize 53 1024 z 0 false.
Definition Z_of_double (f : spec_float) : Z :=
  match f with
  | S754_finite s m e =>
      let n := if 0 <=? e then Z.pos m * 2 ^ e else Z.pos m / 2 ^ (- e) in
      if s then - n else n
  | _ => 0
  end.
Definition epoch_double (us : Z) : spec_float := SFdiv 53 1024 (double_of_Z us) (double_of_Z 1000000).
Definition EpochToTimePoint (seconds : spec_float) : Z :=
  Z_of_double (SFmul 53 1024 seconds (double_of_Z 1000000000)).

(** ** Rows *)

Definition RowToAuthorization (auth_key_id : Z) (r : AuthorizationRow.t) : Authorization.t :=
  Authorization.Mk (AuthKeyIDFromInt64 auth_key_id) (AuthorizationRow.user_id r) (AuthorizationRow.hash r)
    (AuthorizationRow.layer r) (AuthorizationRow.device_model r) (AuthorizationRow.platform r)
    (AuthorizationRow.system_version r) (AuthorizationRow.api_id r) (AuthorizationRow.app_version r)
    (AuthorizationRow.ip r) (AuthorizationRow.password_pending r)
    (EpochToTimePoint (epoch_double (AuthorizationRow.created_at r)))
    (EpochToTimePoint (epoch_double (AuthorizationRow.active_at r))).

Definition AuthorizationHash {ssl : OpenSSL} (auth_key_id : bytes) : Z :=
  let hash := s64 (le_val (ztake 8 (sha256 auth_key_id))) in
  if hash =? 0 then 1 else hash.

Module AuthorizationStore.
Section Operations.
Context {ssl : OpenSSL} {schema : Schema} {server : Server}.

(** *** [Bind] *)

Definition user_row (user_id : Z) (_ : Z) : M Db (option (option Z)) := gets (fun d => UserRow.deleted_at <$> users d !! user_id).
(** [INSERT … ON CONFLICT DO NOTHING] *)
Definition insert_watermark (user_id : Z) (_ : Z) : M Db unit :=
  modify (set_watermarks (fun m => match m !! user_id with Some _ => m | None => <[user_id := 0]> m end)).
Definition insert_retention (user_id : Z) (_ : Z) : M Db unit :=
  modify (set_retention (fun m => match m !! user_id with Some _ => m | None => <[user_id := retention_default]> m end)).
(** The first row, which is there. *)
Definition watermark_of (user_id : Z) (_ : Z) : M Db Z := gets (fun d => default 0 (user_update_watermarks d !! user_id)).
Definition floor_of (user_id : Z) (_ : Z) : M Db Z := gets (fun d => default 0 (user_update_retention d !! user_id)).

(** The baseline of a device; the rows affected. *)
Definition upsert_state (key_id user_id current_pts retained_floor : Z) (now : Z) : M Db Z :=
  d <- get ;;
  let date := epoch_seconds now in
  match update_states d !! (key_id, user_id) with
  | None =>
      put (set_update_states
             (<[(key_id, user_id) := UpdateState.Mk current_pts 0 date 0 retained_floor (state_default now)]>) d) ;;;
      ret 1
  | Some s =>
      if (0 <=? UpdateState.pts s) && (UpdateState.pts s <=? current_pts) &&
         (UpdateState.observed_pts s <=? current_pts)
      then
        put (set_update_states
               (<[(key_id, user_id) :=
                    UpdateState.Mk (Z.max (UpdateState.pts s) current_pts) (Z.max (UpdateState.qts s) 0)
                      (Z.max (UpdateState.date s) date) (Z.max (UpdateState.seq s) 0)
                      (Z.max (UpdateState.observed_pts s) retained_floor) now]>) d) ;;;
        ret 1
      else ret 0
  end.
Definition delete_other_states (key_id user_id : Z) (_ : Z) : M Db unit :=
  modify (set_update_states (filter (fun s => ~ (s.1.1 = key_id /\ s.1.2 <> user_id)))).
(** A login renews both times; the columns of a new row default to now. *)
Definition upsert_authorization (key_id layer : Z) (a : Authorization.t) (now : Z) : M Db unit :=
  modify (set_authorizations (fun rows =>
    let times := match rows !! key_id with Some _ => (now, now) | None => authorization_defaults now end in
    <[key_id := AuthorizationRow.Mk (Authorization.user_id a) (Authorization.hash a) layer
                  (Authorization.device_model a) (Authorization.platform a) (Authorization.system_version a)
                  (Authorization.api_id a) (Authorization.app_version a) (Authorization.ip a)
                  (Authorization.password_pending a) (fst times) (snd times)]> rows)).

Definition with_hash (a : Authorization.t) : Authorization.t :=
  if Authorization.hash a =? 0 then
    Authorization.Mk (Authorization.auth_key_id a) (Authorization.user_id a)
      (AuthorizationHash (Authorization.auth_key_id a)) (Authorization.layer a) (Authorization.device_model a)
      (Authorization.platform a) (Authorization.system_version a) (Authorization.api_id a)
      (Authorization.app_version a) (Authorization.ip a) (Authorization.password_pending a)
      (Authorization.created_at a) (Authorization.active_at a)
  else a.

Definition bind_body (a : Authorization.t) (key_id : Z) : M World unit :=
  let user_id := Authorization.user_id a in
  LockUserForUpdate user_id ;;;
  row <- exec (user_row user_id) ;;
  match row with
  | None => throw UserNotFoundError
  | Some deleted_at =>
      guard (bool_decide (deleted_at = None)) AccountDeletedError ;;;
      LockPermanentAuthIdentities [key_id] ;;;
      key_row <- exec (select_key key_id) ;;
      match key_row with
      | None => throw AuthKeyNotFoundError
      | Some key =>
          guard (KeyRow.expires_at key =? 0) AuthKeyNotPermanentError ;;;
          let auth_layer := KeyRow.layer key in
          let observation := KeyRow.layer_observation_id key in
          guard (negb ((auth_layer <? 0) || (observation <? 0) || ((0 <? observation) && (auth_layer =? 0))))
            (StoreError ("authorization auth-key layer invariant violation: auth key has layer " +:+
                         pretty auth_layer +:+ " observation " +:+ pretty observation)) ;;;
          exec (insert_watermark user_id) ;;;
          current_pts <- exec (watermark_of user_id) ;;
          exec (insert_retention user_id) ;;;
          retained_floor <- exec (floor_of user_id) ;;
          guard (retained_floor <=? current_pts)
            (StoreError ("authorization update baseline invariant violation: user " +:+ pretty user_id +:+
                         " retained floor " +:+ pretty retained_floor +:+ " exceeds contiguous watermark " +:+
                         pretty current_pts)) ;;;
          affected_rows <- exec (upsert_state key_id user_id current_pts retained_floor) ;;
          guard (affected_rows =? 1)
            (StoreError ("authorization update baseline invariant violation: auth key user " +:+ pretty user_id +:+
                         " has pts or observed_pts outside contiguous watermark " +:+ pretty current_pts)) ;;;
          exec (delete_other_states key_id user_id) ;;;
          exec (upsert_authorization key_id auth_layer a)
      end
  end.

Definition Bind (a_in : Authorization.t) : M World unit :=
  let a := with_hash a_in in
  let key_id := AuthKeyIDToInt64 (Authorization.auth_key_id a) in
  WithAuthIdentityTx "bind authorization" (bind_body a key_id).

(** *** Reading and simple updates *)

Definition select_authorization (key_id : Z) (_ : Z) : M Db (option AuthorizationRow.t) :=
  gets (fun d => authorizations d !! key_id).
Definition ByAuthKey (auth_key_id : bytes) : M World (option Authorization.t) :=
  let key_id := AuthKeyIDToInt64 auth_key_id in
  transaction (exec (select_authorization key_id)) (fun row => Ok (RowToAuthorization key_id <$> row)).

Definition merge_info (info : ClientInfo.t) (now : Z) (r : AuthorizationRow.t) : AuthorizationRow.t :=
  let text_or := AuthKeyStore.text_or in
  AuthorizationRow.Mk (AuthorizationRow.user_id r) (AuthorizationRow.hash r)
    (if 0 <? ClientInfo.layer info then ClientInfo.layer info else AuthorizationRow.layer r)
    (text_or (ClientInfo.device_model info) (AuthorizationRow.device_model r))
    (text_or (ClientInfo.platform info) (AuthorizationRow.platform r))
    (text_or (ClientInfo.system_version info) (AuthorizationRow.system_version r))
    (if ClientInfo.api_id info =? 0 then AuthorizationRow.api_id r else ClientInfo.api_id info)
    (text_or (ClientInfo.app_version info) (AuthorizationRow.app_version r))
    (text_or (ClientInfo.ip info) (AuthorizationRow.ip r)) (AuthorizationRow.password_pending r)
    (AuthorizationRow.created_at r) now.
Definition UpdateClientInfo (auth_key_id : bytes) (info : ClientInfo.t) : M World unit :=
  let key_id := AuthKeyIDToInt64 auth_key_id in
  transaction (exec (fun now => modify (set_authorizations (alter (merge_info info now) key_id)))) Ok.

(** The rows that satisfy a condition, in the order of their keys (the order of
    a result without ORDER BY is the server's). *)
Definition key_order (a b : Z * AuthorizationRow.t) : Prop := a.1 <= b.1.
#[export] Instance key_order_dec a b : Decision (key_order a b).
Proof. unfold key_order. apply _. Defined.
Definition rows_where (P : Z * AuthorizationRow.t -> bool) (d : Db) : list (Z * AuthorizationRow.t) :=
  merge_sort key_order (filter P (map_to_list (authorizations d))).
Definition of_user (user_id : Z) (row : Z * AuthorizationRow.t) : bool := AuthorizationRow.user_id row.2 =? user_id.
Definition to_authorization (row : Z * AuthorizationRow.t) : Authorization.t := RowToAuthorization row.1 row.2.

(** [ORDER BY active_at DESC, auth_key_id DESC] *)
Definition recent_first (a b : Z * AuthorizationRow.t) : Prop :=
  AuthorizationRow.active_at b.2 < AuthorizationRow.active_at a.2 \/
  AuthorizationRow.active_at b.2 = AuthorizationRow.active_at a.2 /\ b.1 <= a.1.
#[export] Instance recent_first_dec a b : Decision (recent_first a b).
Proof. unfold recent_first. apply _. Defined.
Definition ListByUser (user_id : Z) : M World (list Authorization.t) :=
  transaction (exec (fun _ => gets (fun d => merge_sort recent_first (rows_where (of_user user_id) d))))
    (fun result => Ok (to_authorization <$> result)).

Definition delete_rows (keys : list Z) (_ : Z) : M Db Z :=
  d <- get ;;
  put (set_authorizations (filter (fun row => row.1 ∉ keys)) d) ;;;
  ret (zlen (filter (fun k => is_Some (authorizations d !! k)) (remove_dups keys))).
(** [DELETE … WHERE … RETURNING …] *)
Definition delete_where (P : Z * AuthorizationRow.t -> bool) (now : Z) : M Db (list (Z * AuthorizationRow.t)) :=
  rows <- gets (rows_where P) ;;
  delete_rows rows.*1 now ;;;
  ret rows.

Definition Delete (auth_key_id : bytes) : M World unit :=
  transaction (exec (delete_rows [AuthKeyIDToInt64 auth_key_id])) (fun _ => Ok tt).

Definition DeleteByHash (user_id hash : Z) : M World (option Authorization.t) :=
  transaction (exec (delete_where (fun row => of_user user_id row && (AuthorizationRow.hash row.2 =? hash))))
    (fun result => Ok (to_authorization <$> head result)).

Definition DeleteByUserExcept (user_id : Z) (keep_auth_key_id : bytes) : M World (list Authorization.t) :=
  transaction (exec (delete_where (fun row => of_user user_id row && negb (row.1 =? AuthKeyIDToInt64 keep_auth_key_id))))
    (fun result => Ok (to_authorization <$> result)).

(** The rows affected. *)
Definition pass_password (key_id user_id : Z) (now : Z) : M Db Z :=
  d <- get ;;
  match authorizations d !! key_id with
  | Some r =>
      if (AuthorizationRow.user_id r =? user_id) && AuthorizationRow.password_pending r then
        put (set_authorizations (<[key_id :=
          AuthorizationRow.Mk (AuthorizationRow.user_id r) (AuthorizationRow.hash r) (AuthorizationRow.layer r)
            (AuthorizationRow.device_model r) (AuthorizationRow.platform r) (AuthorizationRow.system_version r)
            (AuthorizationRow.api_id r) (AuthorizationRow.app_version r) (AuthorizationRow.ip r) false now now]>) d) ;;;
        ret 1
      else ret 0
  | None => ret 0
  end.
Definition MarkPasswordPassed (auth_key_id : bytes) (expected_user_id : Z) : M World unit :=
  transaction
    (affected_rows <- exec (pass_password (AuthKeyIDToInt64 auth_key_id) expected_user_id) ;;
     guard (affected_rows =? 1) AuthorizationStateChangedError)
    Ok.

(** *** Revocation *)

Definition delete_states (keys : list Z) (_ : Z) : M Db unit :=
  modify (set_update_states (filter (fun s => s.1.1 ∉ keys))).

Definition RevokeByHash (user_id hash : Z) : M World (option Authorization.t) :=
  let here row := of_user user_id row && (AuthorizationRow.hash row.2 =? hash) in
  WithAuthIdentityTx "revoke authorization by hash" (
    candidate_row <- exec (fun _ => gets (fun d => head (rows_where here d).*1)) ;;
    match candidate_row with
    | None => ret None
    | Some candidate =>
        LockPermanentAuthIdentities [candidate] ;;;
        locked <- exec (select_key candidate) ;;
        match locked with
        | None => ret None
        | Some _ =>
            revalidated <- exec (fun _ => gets (fun d =>
              r ← authorizations d !! candidate; if here (candidate, r) then Some r else None)) ;;
            match revalidated with
            | None => ret None
            | Some r =>
                exec (delete_states [candidate]) ;;;
                deleted <- exec (delete_rows [candidate]) ;;
                guard (deleted =? 1)
                  (StoreError ("revoke authorization by hash: deleted " +:+ pretty deleted +:+ " of 1 locked target")) ;;;
                ret (Some (RowToAuthorization candidate r))
            end
        end
    end).

(** [ORDER BY created_at_epoch, auth_key_id] *)
Definition oldest_first (a b : Z * AuthorizationRow.t) : Prop :=
  AuthorizationRow.created_at a.2 < AuthorizationRow.created_at b.2 \/
  AuthorizationRow.created_at a.2 = AuthorizationRow.created_at b.2 /\ a.1 <= b.1.
#[export] Instance oldest_first_dec a b : Decision (oldest_first a b).
Proof. unfold oldest_first. apply _. Defined.

Definition RevokeByUserExcept (user_id : Z) (keep_auth_key_id : bytes) : M World (list Authorization.t) :=
  let keep_id := AuthKeyIDToInt64 keep_auth_key_id in
  let other row := of_user user_id row && negb (row.1 =? keep_id) in
  WithAuthIdentityTx "revoke authorizations by user" (
    candidates <- exec (fun _ => gets (fun d => (rows_where other d).*1)) ;;
    if decide (candidates = []) then ret []
    else
      LockPermanentAuthIdentities candidates ;;;
      exec (fun _ => ret tt) ;;;
      out <- exec (fun _ => gets (fun d => merge_sort oldest_first
               (rows_where (fun row => other row && bool_decide (row.1 ∈ candidates)) d))) ;;
      if decide (out = []) then ret []
      else
        exec (delete_states out.*1) ;;;
        deleted <- exec (delete_rows out.*1) ;;
        guard (deleted =? zlen out)
          (StoreError ("revoke authorizations by user: deleted " +:+ pretty deleted +:+ " of " +:+
                       pretty (zlen out) +:+ " locked targets")) ;;;
        ret (to_authorization <$> out)).

End Operations.
End AuthorizationStore.

(** ** The statements of a transaction, without the locks *)

Section Statements.
Context {ssl : OpenSSL} {schema : Schema} {server : Server}.
Import AuthorizationStore.

Lemma runs_user_lock user_id : runs (LockUserForUpdate user_id) (fun _ => ret tt).
Proof. unfold LockUserForUpdate, LockUsersForUpdate. case_decide; [apply runs_ret|apply runs_locking]. Qed.

(** The rows of [Bind] from the update baseline on. *)
Definition bind_rows (a : Authorization.t) (key_id : Z) (key : KeyRow.t) (t : Z) : M Db unit :=
  let user_id := Authorization.user_id a in
  insert_watermark user_id t ;;;
  current_pts <- watermark_of user_id t ;;
  insert_retention user_id t ;;;
  retained_floor <- floor_of user_id t ;;
  guard (retained_floor <=? current_pts)
    (StoreError ("authorization update baseline invariant violation: user " +:+ pretty user_id +:+
                 " retained floor " +:+ pretty retained_floor +:+ " exceeds contiguous watermark " +:+
                 pretty current_pts)) ;;;
  affected_rows <- upsert_state key_id user_id current_pts retained_floor t ;;
  guard (affected_rows =? 1)
    (StoreError ("authorization update baseline invariant violation: auth key user " +:+ pretty user_id +:+
                 " has pts or observed_pts outside contiguous watermark " +:+ pretty current_pts)) ;;;
  delete_other_states key_id user_id t ;;;
  upsert_authorization key_id (KeyRow.layer key) a t.

Definition layer_ok (key : KeyRow.t) : bool :=
  negb ((KeyRow.layer key <? 0) || (KeyRow.layer_observation_id key <? 0) ||
        ((0 <? KeyRow.layer_observation_id key) && (KeyRow.layer key =? 0))).

Definition bind_statements (a : Authorization.t) (key_id : Z) (t : Z) : M Db unit := fun d =>
  match UserRow.deleted_at <$> users d !! Authorization.user_id a with
  | None => (Throw UserNotFoundError, d)
  | Some (Some _) => (Throw AccountDeletedError, d)
  | Some None =>
      match auth_keys d !! key_id with
      | None => (Throw AuthKeyNotFoundError, d)
      | Some key =>
          if negb (KeyRow.expires_at key =? 0) then (Throw AuthKeyNotPermanentError, d)
          else if negb (layer_ok key) then
            (Throw (StoreError ("authorization auth-key layer invariant violation: auth key has layer " +:+
                         pretty (KeyRow.layer key) +:+ " observation " +:+ pretty (KeyRow.layer_observation_id key))), d)
          else bind_rows a key_id key t d
      end
  end.

Lemma runs_bind_body a key_id : runs (bind_body a key_id) (bind_statements a key_id).
Proof.
  eapply runs_ext.
  - unfold bind_body. apply runs_bind; [apply runs_user_lock|]. intros u1.
    apply runs_bind; [apply runs_exec|]. intros row. apply runs_option; [apply runs_throw|]. intros deleted.
    apply runs_bind; [apply runs_guard|]. intros u2. apply runs_bind; [apply runs_locks|]. intros u3.
    apply runs_bind; [apply runs_exec|]. intros key_row. apply runs_option; [apply runs_throw|]. intros key.
    apply runs_bind; [apply runs_guard|]. intros u4. apply runs_bind; [apply runs_guard|]. intros u5.
    apply runs_bind; [apply runs_exec|]. intros u6. apply runs_bind; [apply runs_exec|]. intros current_pts.
    apply runs_bind; [apply runs_exec|]. intros u7. apply runs_bind; [apply runs_exec|]. intros retained_floor.
    apply runs_bind; [apply runs_guard|]. intros u8. apply runs_bind; [apply runs_exec|]. intros affected_rows.
    apply runs_bind; [apply runs_guard|]. intros u9. apply runs_bind; [apply runs_exec|]. intros u10. apply runs_exec.
  - intros t d. unfold bind_statements. rewrite bind_ret. unfold user_row at 1. rewrite bind_gets.
    destruct (UserRow.deleted_at <$> users d !! Authorization.user_id a) as [[del|]|]; [done| |done].
    rewrite bind_guard_if. cbn [bool_decide]. rewrite bool_decide_eq_true_2 by done. rewrite bind_ret.
    unfold select_key at 1. rewrite bind_gets. destruct (auth_keys d !! key_id) as [key|]; [|done].
    rewrite bind_guard_if. destruct (KeyRow.expires_at key =? 0); [|done]. cbn [negb].
    rewrite bind_guard_if. unfold layer_ok. by destruct (negb _).
Qed.
End Statements.

(** ** What the store promises *)

(** The authorization of a key, as it is read. *)
Definition authorization (d : Db) (id : bytes) : option Authorization.t :=
  RowToAuthorization (AuthKeyIDToInt64 id) <$> authorizations d !! AuthKeyIDToInt64 id.

(** The tables that only other stores write. *)
Definition others (d : Db) : gmap Z KeyRow.t * gmap Z BindingRow.t * gmap Z UserRow.t * gmap Z PasswordRow.t *
    gmap bytes PeerUsername.t * gmap bytes bytes :=
  (auth_keys d, temp_auth_key_bindings d, users d, account_passwords d, peer_usernames d, collectible_usernames d).

Section Specification.
Context {ssl : OpenSSL} {schema : Schema}.

(** How far a user's updates are contiguous, and how far they are pruned. *)
Definition watermark (d : Db) (u : Z) : Z := default 0 (user_update_watermarks d !! u).
Definition floor (d : Db) (u : Z) : Z := default retention_default (user_update_retention d !! u).

(** The device [k] starts at the user's watermark, confirms at least what is
    pruned and nothing beyond, and no other user's updates are kept for it. *)
Definition baseline (d d' : Db) (k u : Z) : Prop :=
  exists s, update_states d' !! (k, u) = Some s /\
    UpdateState.pts s = watermark d u /\ floor d u <= UpdateState.observed_pts s <= watermark d u /\
    (forall u', u' <> u -> update_states d' !! (k, u') = None) /\
    (forall k' u', k' <> k -> update_states d' !! (k', u') = update_states d !! (k', u')).

(** Why a login is refused. *)
Definition refusal (d : Db) (u k : Z) (e : exn) : Prop :=
  e = UserNotFoundError /\ users d !! u = None \/
  e = AccountDeletedError /\ (exists row at_, users d !! u = Some row /\ UserRow.deleted_at row = Some at_) \/
  e = AuthKeyNotFoundError /\ auth_keys d !! k = None \/
  e = AuthKeyNotPermanentError /\ (exists key, auth_keys d !! k = Some key /\ KeyRow.expires_at key <> 0) \/
  exists what, e = StoreError what.

(** A login: the permanent key of an existing account is bound to it, with its
    baseline; no other authorization changes. *)
Definition Bind_spec (a : Authorization.t) (d : Db) (r : res unit) (d' : Db) : Prop :=
  let k := AuthKeyIDToInt64 (Authorization.auth_key_id a) in
  let u := Authorization.user_id a in
  match r with
  | Throw e => d' = d /\ refusal d u k e
  | Ok _ =>
      (exists user, users d !! u = Some user /\ UserRow.deleted_at user = None) /\
      (exists key row, auth_keys d !! k = Some key /\ KeyRow.expires_at key = 0 /\
         authorizations d' = <[k := row]> (authorizations d) /\
         AuthorizationRow.user_id row = u /\ AuthorizationRow.password_pending row = Authorization.password_pending a /\
         AuthorizationRow.hash row <> 0 /\ AuthorizationRow.layer row = KeyRow.layer key) /\
      baseline d d' k u /\ others d' = others d
  end.

(** Reading what is there; the newest first. *)
Definition ByAuthKey_spec (id : bytes) (d : Db) (r : res (option Authorization.t)) (d' : Db) : Prop :=
  r = Ok (authorization d id) /\ d' = d.
Definition ListByUser_spec (u : Z) (d : Db) (r : res (list Authorization.t)) (d' : Db) : Prop :=
  d' = d /\ exists rows, r = Ok (AuthorizationStore.to_authorization <$> rows) /\
    Sorted AuthorizationStore.recent_first rows /\ NoDup rows.*1 /\
    forall k row, (k, row) ∈ rows <-> authorizations d !! k = Some row /\ AuthorizationRow.user_id row = u.

(** A pending login of that user is completed; nothing else ever is. *)
Definition MarkPasswordPassed_spec (id : bytes) (u : Z) (d : Db) (r : res unit) (d' : Db) : Prop :=
  let k := AuthKeyIDToInt64 id in
  match r with
  | Ok _ => exists row row', authorizations d !! k = Some row /\ AuthorizationRow.user_id row = u /\
      AuthorizationRow.password_pending row = true /\ AuthorizationRow.password_pending row' = false /\
      AuthorizationRow.user_id row' = u /\ AuthorizationRow.hash row' = AuthorizationRow.hash row /\
      d' = set_authorizations (<[k := row']>) d
  | Throw e => e = AuthorizationStateChangedError /\ d' = d /\
      forall row, authorizations d !! k = Some row -> AuthorizationRow.user_id row = u ->
        AuthorizationRow.password_pending row = false
  end.

(** These devices lose their authorization and update state; their keys stay. *)
Definition forget (keys : list Z) (d : Db) : Db :=
  set_authorizations (filter (fun row => row.1 ∉ keys)) (set_update_states (filter (fun s => s.1.1 ∉ keys)) d).
Definition RevokeByHash_spec (u h : Z) (d : Db) (r : res (option Authorization.t)) (d' : Db) : Prop :=
  match r with
  | Ok (Some a) => exists k row, authorizations d !! k = Some row /\ AuthorizationRow.user_id row = u /\
      AuthorizationRow.hash row = h /\ a = RowToAuthorization k row /\ d' = forget [k] d
  | Ok None => d' = d /\ (forall k row, authorizations d !! k = Some row -> AuthorizationRow.user_id row = u ->
      AuthorizationRow.hash row = h -> exists k' row', authorizations d !! k' = Some row' /\
        AuthorizationRow.user_id row' = u /\ AuthorizationRow.hash row' = h /\ auth_keys d !! k' = None)
  | Throw _ => False
  end.
Definition RevokeByUserExcept_spec (u : Z) (keep : bytes) (d : Db) (r : res (list Authorization.t)) (d' : Db) : Prop :=
  exists rows, r = Ok (AuthorizationStore.to_authorization <$> rows) /\ d' = forget rows.*1 d /\
    Sorted AuthorizationStore.oldest_first rows /\
    forall k row, (k, row) ∈ rows <-> authorizations d !! k = Some row /\
      AuthorizationRow.user_id row = u /\ k <> AuthKeyIDToInt64 keep.

(** Deleting authorizations keeps everything else. *)
Definition unauthorize (keys : list Z) (d : Db) : Db := set_authorizations (filter (fun row => row.1 ∉ keys)) d.
Definition DeleteWhere_spec (P : Z -> AuthorizationRow.t -> Prop) {A} (found : list (Z * AuthorizationRow.t) -> A)
    (d : Db) (r : res A) (d' : Db) : Prop :=
  exists rows, r = Ok (found rows) /\ d' = unauthorize rows.*1 d /\ NoDup rows.*1 /\
    forall k row, (k, row) ∈ rows <-> authorizations d !! k = Some row /\ P k row.

(** What a client says of itself replaces what was known, where it says
    something; whose the device is, and whether it is pending, stays. *)
Definition UpdateClientInfo_spec (id : bytes) (info : ClientInfo.t) (d : Db) (r : res unit) (d' : Db) : Prop :=
  let k := AuthKeyIDToInt64 id in
  let said (new old : bytes) := match new with [] => old | _ => new end in
  r = Ok tt /\ exists rows, d' = set_authorizations (fun _ => rows) d /\
    (forall k', k' <> k -> rows !! k' = authorizations d !! k') /\
    (forall row, authorizations d !! k = Some row -> exists row', rows !! k = Some row' /\
       AuthorizationRow.user_id row' = AuthorizationRow.user_id row /\
       AuthorizationRow.hash row' = AuthorizationRow.hash row /\
       AuthorizationRow.password_pending row' = AuthorizationRow.password_pending row /\
       AuthorizationRow.created_at row' = AuthorizationRow.created_at row /\
       AuthorizationRow.device_model row' = said (ClientInfo.device_model info) (AuthorizationRow.device_model row) /\
       AuthorizationRow.platform row' = said (ClientInfo.platform info) (AuthorizationRow.platform row) /\
       AuthorizationRow.ip row' = said (ClientInfo.ip info) (AuthorizationRow.ip row) /\
       (0 < ClientInfo.layer info -> AuthorizationRow.layer row' = ClientInfo.layer info)) /\
    (authorizations d !! k = None -> rows !! k = None).

End Specification.

Section Refinement.
Context {ssl : OpenSSL} {schema : Schema} {server : Server}.
Import AuthorizationStore.

Lemma insert_missing (m : gmap Z Z) u v x : x = default v (m !! u) ->
  default 0 (match m !! u with Some _ => m | None => <[u := v]> m end !! u) = x.
Proof. intros ->. destruct (m !! u) eqn:E; [by rewrite E|]. by rewrite lookup_insert_eq. Qed.

Lemma upsert_state_run k u pts fl t d : fl <= pts ->
  (upsert_state k u pts fl t d = (Ok 0, d)) \/
  exists s, UpdateState.pts s = pts /\ fl <= UpdateState.observed_pts s <= pts /\
    upsert_state k u pts fl t d = (Ok 1, set_update_states (<[(k, u) := s]>) d).
Proof.
  intros Hfl. unfold upsert_state. rewrite bind_get. destruct (update_states d !! (k, u)) as [s|].
  - destruct (Z.leb_spec 0 (UpdateState.pts s)), (Z.leb_spec (UpdateState.pts s) pts),
      (Z.leb_spec (UpdateState.observed_pts s) pts); cbn [andb]; try by left.
    right. eexists. split; [|split; [|reflexivity]]; cbn; lia.
  - right. eexists. split; [|split; [|reflexivity]]; cbn; lia.
Qed.

Lemma bind_rows_run a k key t d :
  let u := Authorization.user_id a in
  (exists what d', bind_rows a k key t d = (Throw (StoreError what), d')) \/
  exists d' row, bind_rows a k key t d = (Ok tt, d') /\
    authorizations d' = <[k := row]> (authorizations d) /\
    AuthorizationRow.user_id row = u /\ AuthorizationRow.password_pending row = Authorization.password_pending a /\
    AuthorizationRow.hash row = Authorization.hash a /\ AuthorizationRow.layer row = KeyRow.layer key /\
    baseline d d' k u /\ others d' = others d.
Proof.
  intros u. unfold bind_rows. fold u.
  unfold insert_watermark. rewrite bind_modify. set (d1 := set_watermarks _ d).
  unfold watermark_of. rewrite bind_gets. unfold insert_retention. rewrite bind_modify. set (d2 := set_retention _ d1).
  unfold floor_of. rewrite bind_gets.
  assert (Ew : default 0 (user_update_watermarks d1 !! u) = watermark d u) by (by apply insert_missing).
  assert (Ef : default 0 (user_update_retention d2 !! u) = floor d u) by (by apply insert_missing).
  rewrite Ew, Ef. rewrite bind_guard_if. destruct (Z.leb_spec (floor d u) (watermark d u)) as [Hle|].
  2:{ left. by eexists _, d2. }
  destruct (upsert_state_run k u (watermark d u) (floor d u) t d2 Hle) as [E|(s & Hp & Ho & E)];
    rewrite (bind_Ok _ _ _ _ _ E), bind_guard_if; cbn [Z.eqb Pos.eqb]; [left; by eexists _, d2|].
  right. unfold delete_other_states, upsert_authorization, modify, bind. eexists _, _. split; [reflexivity|].
  split; [reflexivity|]. repeat (split; [reflexivity|]). split; [|reflexivity].
  exists s. cbn [update_states set_update_states set_authorizations].
  assert (Hl : forall k' u', filter (fun s0 : Z * Z * UpdateState.t => ~ (s0.1.1 = k /\ s0.1.2 <> u))
      (<[(k, u) := s]> (update_states d)) !! (k', u') =
      if decide (k' = k /\ u' <> u) then None else <[(k, u) := s]> (update_states d) !! (k', u')).
  { intros k' u'. case_decide as H.
    - apply map_lookup_filter_None. right. intros x _ Hx. by apply Hx.
    - destruct (<[(k, u) := s]> (update_states d) !! (k', u')) as [x|] eqn:Ex.
      + apply map_lookup_filter_Some. by split.
      + apply map_lookup_filter_None. by left. }
  split; [rewrite Hl, decide_False by tauto; apply lookup_insert_eq|]. split; [exact Hp|]. split; [exact Ho|].
  split.
  - intros u' Hu. by rewrite Hl, decide_True.
  - intros k' u' Hk. rewrite Hl, decide_False by tauto. apply lookup_insert_ne. congruence.
Qed.

#[local] Arguments bind_rows : simpl never.

Lemma AuthorizationHash_nonzero id : AuthorizationHash id <> 0.
Proof. unfold AuthorizationHash. destruct (Z.eqb_spec (s64 (le_val (ztake 8 (sha256 id)))) 0); lia. Qed.

Lemma with_hash_fields a :
  Authorization.auth_key_id (with_hash a) = Authorization.auth_key_id a /\
  Authorization.user_id (with_hash a) = Authorization.user_id a /\
  Authorization.password_pending (with_hash a) = Authorization.password_pending a /\
  Authorization.hash (with_hash a) <> 0.
Proof.
  unfold with_hash. destruct (Z.eqb_spec (Authorization.hash a) 0); cbn; repeat split; try done.
  apply AuthorizationHash_nonzero.
Qed.

Lemma bind_statements_final a k t d : final (fst (bind_statements a k t d)).
Proof.
  unfold bind_statements. destruct (_ <$> _) as [[|]|]; try done.
  destruct (auth_keys d !! k) as [key|]; [|done]. destruct (negb _); [done|]. destruct (negb _); [done|].
  destruct (bind_rows_run a k key t d) as [(what & d' & ->)|(d' & row & -> & _)]; done.
Qed.

Lemma Bind_refines a : refines (fun _ => True) id (Bind a) (Bind_spec a).
Proof.
  destruct (with_hash_fields a) as (Hk & Hu & Hp & Hh). unfold Bind. cbv zeta. rewrite Hk.
  set (k := AuthKeyIDToInt64 (Authorization.auth_key_id a)).
  apply (refines_implements _ _ _ (fun t => atomically (bind_statements (with_hash a) k t) Ok)).
  { apply AuthIdentityAttempts_implements; [apply runs_bind_body|apply bind_statements_final|].
    unfold kAuthIdentityTxMaxAttempts. lia. }
  intros t d _. unfold atomically, bind_statements, Bind_spec. rewrite Hu. fold k.
  destruct (users d !! Authorization.user_id a) as [user|] eqn:Eu; cbn;
    [destruct (UserRow.deleted_at user) as [del|] eqn:Ed; cbn|].
  - split; [done|]. split; [done|]. right. left. eauto.
  - destruct (auth_keys d !! k) as [key|] eqn:Ek; cbn.
    2:{ split; [done|]. split; [done|]. unfold refusal. auto. }
    destruct (Z.eqb_spec (KeyRow.expires_at key) 0) as [E0|E0]; cbn.
    2:{ split; [done|]. split; [done|]. unfold refusal. rewrite Ek. eauto 10. }
    destruct (layer_ok key); cbn [negb]; [|split; [done|]; split; [done|]; unfold refusal; eauto 10].
    destruct (bind_rows_run (with_hash a) k key t d) as [(what & d' & ->)|(d' & row & -> & Hr)].
    + split; [done|]. split; [done|]. unfold refusal. eauto 10.
    + destruct Hr as (Ha & Hru & Hrp & Hrh & Hrl & Hb & Ho). rewrite Hu in *. split; [done|].
      split; [by exists user|]. split; [|done]. exists key, row. rewrite Hrh, Hrp. auto 10.
  - split; [done|]. split; [done|]. by left.
Qed.

(** *** Reading *)

Lemma elem_of_rows P d k row : (k, row) ∈ rows_where P d <-> authorizations d !! k = Some row /\ P (k, row) = true.
Proof.
  unfold rows_where. rewrite merge_sort_Permutation, list_elem_of_filter, elem_of_map_to_list.
  rewrite Is_true_true. tauto.
Qed.
Lemma NoDup_rows P d : NoDup (rows_where P d).*1.
Proof.
  unfold rows_where. rewrite merge_sort_Permutation. apply (sublist_NoDup _ (map_to_list (authorizations d)).*1).
  - apply NoDup_fst_map_to_list.
  - apply fmap_sublist, sublist_filter.
Qed.
#[local] Instance recent_first_total : Total recent_first.
Proof. intros a b. unfold recent_first. lia. Qed.
#[local] Instance oldest_first_total : Total oldest_first.
Proof. intros a b. unfold oldest_first. lia. Qed.

Lemma ByAuthKey_refines key_id : refines (fun _ => True) id (ByAuthKey key_id) (ByAuthKey_spec key_id).
Proof.
  eapply refines_implements; [apply transaction_implements, runs_exec|]. intros t d _. by split.
Qed.

Lemma ListByUser_refines u : refines (fun _ => True) id (ListByUser u) (ListByUser_spec u).
Proof.
  eapply refines_implements; [apply transaction_implements, runs_exec|]. intros t d _. cbn. split; [done|].
  split; [done|]. eexists. split; [reflexivity|]. split; [apply (Sorted_merge_sort recent_first)|]. split.
  - rewrite merge_sort_Permutation. apply NoDup_rows.
  - intros k row. rewrite merge_sort_Permutation, elem_of_rows. unfold of_user. cbn. by rewrite Z.eqb_eq.
Qed.

(** *** Completing a login *)

Lemma MarkPasswordPassed_refines key_id u :
  refines (fun _ => True) id (MarkPasswordPassed key_id u) (MarkPasswordPassed_spec key_id u).
Proof.
  eapply refines_implements.
  { apply transaction_implements. apply runs_bind; [apply runs_exec|]. intros n. apply runs_guard. }
  intros t d _. unfold atomically, pass_password. rewrite bind_assoc, bind_get. unfold MarkPasswordPassed_spec, id.
  destruct (authorizations d !! AuthKeyIDToInt64 key_id) as [row|] eqn:E; cbn.
  2:{ split; [done|]. split; [done|]. split; [done|]. by intros row. }
  destruct (Z.eqb_spec (AuthorizationRow.user_id row) u) as [Hu|Hu]; cbn.
  2:{ split; [done|]. split; [done|]. split; [done|]. by intros row' [= <-]. }
  destruct (AuthorizationRow.password_pending row) eqn:Ep; cbn.
  - split; [done|]. eexists row, _. split; [done|]. split; [done|]. split; [done|].
    split; [|split; [|split; [|reflexivity]]]; done.
  - split; [done|]. split; [done|]. split; [done|]. by intros row' [= <-] _.
Qed.

(** *** Revocation *)

Lemma delete_rows_run keys t d : NoDup keys -> (forall k, k ∈ keys -> is_Some (authorizations d !! k)) ->
  delete_rows keys t d = (Ok (zlen keys), set_authorizations (filter (fun row => row.1 ∉ keys)) d).
Proof.
  intros Hnd Hin. unfold delete_rows. rewrite bind_get. unfold put, bind, ret. f_equal. f_equal.
  unfold zlen. apply Nat2Z.inj_iff, Permutation_length, NoDup_Permutation; [|done|].
  - eapply sublist_NoDup; [apply (NoDup_remove_dups keys)|apply sublist_filter].
  - intros k. rewrite list_elem_of_filter, elem_of_remove_dups. split; [tauto|]. intros H. split; [by apply Hin|done].
Qed.

(** Deleting the rows and the states of some devices. *)
Definition delete_devices {A} (keys : list Z) (n : Z) (e : Z -> exn) (a : A) (t : Z) : M Db A :=
  delete_states keys t ;;;
  deleted <- delete_rows keys t ;;
  guard (deleted =? n) (e deleted) ;;;
  ret a.

Lemma delete_devices_run {A} keys n e (a : A) t d : NoDup keys ->
  (forall k, k ∈ keys -> is_Some (authorizations d !! k)) -> n = zlen keys ->
  delete_devices keys n e a t d = (Ok a, forget keys d).
Proof.
  intros Hnd Hin ->. unfold delete_devices, delete_states. rewrite bind_modify.
  rewrite (bind_Ok _ _ _ _ _ (delete_rows_run keys t (set_update_states _ d) Hnd Hin)).
  by rewrite bind_guard_if, Z.eqb_refl.
Qed.

#[local] Arguments delete_devices : simpl never.

Definition here (u h : Z) (row : Z * AuthorizationRow.t) : bool :=
  of_user u row && (AuthorizationRow.hash row.2 =? h).
Definition one_error (deleted : Z) : exn :=
  StoreError ("revoke authorization by hash: deleted " +:+ pretty deleted +:+ " of 1 locked target").
Definition revoke_one (u h t : Z) : M Db (option Authorization.t) := fun d =>
  match head (rows_where (here u h) d).*1 with
  | None => (Ok None, d)
  | Some c =>
      match auth_keys d !! c, (r ← authorizations d !! c; if here u h (c, r) then Some r else None) with
      | Some _, Some r => delete_devices [c] 1 one_error (Some (RowToAuthorization c r)) t d
      | _, _ => (Ok None, d)
      end
  end.

Lemma runs_delete_devices {A} keys n e (a : A) :
  runs (exec (delete_states keys) ;;; deleted <- exec (delete_rows keys) ;; guard (deleted =? n) (e deleted) ;;; ret a)
    (delete_devices keys n e a).
Proof.
  apply runs_bind; [apply runs_exec|]. intros u1. apply runs_bind; [apply runs_exec|]. intros deleted.
  apply runs_bind; [apply runs_guard|]. intros u2. apply runs_ret.
Qed.

Lemma delete_devices_final {A} keys n e (a : A) t d : (forall k, final (Throw (A := A) (e k))) ->
  final (fst (delete_devices keys n e a t d)).
Proof.
  intros He. unfold delete_devices, delete_states, delete_rows. rewrite bind_modify, bind_assoc, bind_get.
  unfold put, bind, ret, guard. cbn [fst]. destruct (_ =? n); [done|apply He].
Qed.

Lemma head_rows P d c : head (rows_where P d).*1 = Some c ->
  exists row, authorizations d !! c = Some row /\ P (c, row) = true.
Proof.
  intros H. apply head_Some_elem_of in H. apply list_elem_of_fmap in H as ([k row] & -> & H).
  apply elem_of_rows in H. by exists row.
Qed.

Lemma RevokeByHash_refines u h : refines (fun _ => True) id (RevokeByHash u h) (RevokeByHash_spec u h).
Proof.
  apply (refines_implements _ _ _ (fun t => atomically (revoke_one u h t) Ok)).
  - apply AuthIdentityAttempts_implements; [| |unfold kAuthIdentityTxMaxAttempts; lia].
    + eapply runs_ext.
      * apply runs_bind; [apply runs_exec|]. intros c. apply runs_option; [apply (runs_ret None)|]. intros c'.
        apply runs_bind; [apply runs_locks|]. intros u1. apply runs_bind; [apply runs_exec|]. intros locked.
        apply runs_option; [apply (runs_ret None)|]. intros key. apply runs_bind; [apply runs_exec|]. intros row.
        apply runs_option; [apply (runs_ret None)|]. intros r. apply (runs_delete_devices [c'] 1 one_error).
      * intros t d. unfold revoke_one. rewrite bind_gets. fold (here u h).
        destruct (head _) as [c|]; [|done]. rewrite bind_ret. unfold select_key. rewrite bind_gets.
        destruct (auth_keys d !! c); [|done]. rewrite bind_gets.
        destruct (authorizations d !! c) as [r|]; [|done]. unfold here. cbn. by destruct (_ && _).
    + intros t d. unfold revoke_one. destruct (head _) as [c|]; [|done]. destruct (auth_keys d !! c); [|done].
      destruct (_ ≫= _); [|done]. by apply delete_devices_final.
  - intros t d _. unfold atomically, revoke_one, id. destruct (head _) as [c|] eqn:Eh.
    + apply head_rows in Eh as (row & Er & Hh). rewrite Er. cbn. rewrite Hh.
      unfold here, of_user in Hh. cbn in Hh. rewrite andb_true_iff, !Z.eqb_eq in Hh. destruct Hh as [Hu Hk].
      destruct (auth_keys d !! c) as [key|] eqn:Ek.
      * rewrite delete_devices_run; [|apply NoDup_singleton| |done].
        -- split; [done|]. cbn. exists c, row. auto.
        -- intros k Hin. apply list_elem_of_singleton in Hin as ->. by eexists.
      * split; [done|]. cbn. split; [done|]. intros k row' H1 H2 H3. exists c, row. auto.
    + split; [done|]. cbn. split; [done|]. intros k row Hr Hu Hk. exfalso.
      assert (Hin : (k, row) ∈ rows_where (here u h) d).
      { apply elem_of_rows. split; [done|]. unfold here, of_user. cbn. by rewrite Hu, Hk, !Z.eqb_refl. }
      destruct (rows_where (here u h) d); [by apply not_elem_of_nil in Hin|done].
Qed.

Definition other (u keep : Z) (row : Z * AuthorizationRow.t) : bool := of_user u row && negb (row.1 =? keep).
Definition all_error (n deleted : Z) : exn :=
  StoreError ("revoke authorizations by user: deleted " +:+ pretty deleted +:+ " of " +:+ pretty n +:+ " locked targets").
Definition others_of (u keep : Z) (d : Db) : list (Z * AuthorizationRow.t) := merge_sort oldest_first (rows_where (other u keep) d).
Definition revoke_others (u keep t : Z) : M Db (list Authorization.t) := fun d =>
  let candidates := (rows_where (other u keep) d).*1 in
  let out := merge_sort oldest_first (rows_where (fun row => other u keep row && bool_decide (row.1 ∈ candidates)) d) in
  if decide (candidates = []) then (Ok [], d)
  else if decide (out = []) then (Ok [], d)
  else delete_devices out.*1 (zlen out) (all_error (zlen out)) (to_authorization <$> out) t d.

Lemma elem_of_others u keep d k row : (k, row) ∈ others_of u keep d <->
  authorizations d !! k = Some row /\ AuthorizationRow.user_id row = u /\ k <> keep.
Proof.
  unfold others_of. rewrite merge_sort_Permutation, elem_of_rows. unfold other, of_user. cbn.
  rewrite andb_true_iff, negb_true_iff, Z.eqb_eq, Z.eqb_neq. tauto.
Qed.
Lemma forget_nil d : forget [] d = d.
Proof.
  unfold forget. destruct d. unfold set_authorizations, set_update_states. cbn.
  f_equal; apply map_filter_id; intros; apply not_elem_of_nil.
Qed.
Lemma rows_where_ext P Q d : (forall row, row ∈ rows_where P d -> Q row = true) ->
  (forall row, Q row = true -> P row = true) -> rows_where Q d = rows_where P d.
Proof.
  intros HP HQ. assert (H : forall row, row ∈ map_to_list (authorizations d) -> Q row = P row).
  { intros [k row] Hin%elem_of_map_to_list. destruct (P (k, row)) eqn:E.
    - apply HP, elem_of_rows. by split.
    - destruct (Q (k, row)) eqn:E'; [|done]. by apply HQ in E'; rewrite E in E'. }
  unfold rows_where. f_equal. induction (map_to_list (authorizations d)) as [|x l IH]; [done|].
  rewrite !filter_cons, H by constructor. rewrite IH; [done|]. intros row Hin. apply H. by constructor.
Qed.

(** Inside one transaction the second query finds the candidates again. *)
Lemma revoke_others_run u keep t d :
  revoke_others u keep t d = (Ok (to_authorization <$> others_of u keep d), forget (others_of u keep d).*1 d).
Proof.
  unfold revoke_others. set (candidates := (rows_where (other u keep) d).*1).
  assert (E : rows_where (fun row => other u keep row && bool_decide (row.1 ∈ candidates)) d = rows_where (other u keep) d).
  { apply rows_where_ext.
    - intros row Hin. rewrite andb_true_iff, bool_decide_eq_true. split.
      + destruct row as [k row]. by apply elem_of_rows in Hin as [_ ?].
      + by apply list_elem_of_fmap_2.
    - intros row H. by apply andb_true_iff in H as [H _]. }
  rewrite E. fold (others_of u keep d). case_decide as Hc.
  - apply fmap_nil_inv in Hc. unfold others_of. rewrite Hc. cbn. by rewrite forget_nil.
  - case_decide as Ho; [rewrite Ho; cbn; by rewrite forget_nil|].
    apply delete_devices_run.
    + unfold others_of. rewrite merge_sort_Permutation. apply NoDup_rows.
    + intros k H. apply list_elem_of_fmap in H as ([k' row] & -> & H). apply elem_of_others in H as [H _]. by eexists.
    + unfold zlen. by rewrite length_fmap.
Qed.

Lemma RevokeByUserExcept_refines u keep :
  refines (fun _ => True) id (RevokeByUserExcept u keep) (RevokeByUserExcept_spec u keep).
Proof.
  set (keep_id := AuthKeyIDToInt64 keep).
  apply (refines_implements _ _ _ (fun t => atomically (revoke_others u keep_id t) Ok)).
  - apply AuthIdentityAttempts_implements; [| |unfold kAuthIdentityTxMaxAttempts; lia].
    + eapply runs_ext.
      * apply runs_bind; [apply runs_exec|]. intros candidates. apply runs_decide; [apply (runs_ret [])|].
        apply runs_bind; [apply runs_locks|]. intros u1. apply runs_bind; [apply runs_exec|]. intros u2.
        apply runs_bind; [apply runs_exec|]. intros out. apply runs_decide; [apply (runs_ret [])|].
        apply (runs_delete_devices out.*1 (zlen out) (all_error (zlen out))).
      * intros t d. unfold revoke_others. rewrite bind_gets. fold keep_id. fold (other u keep_id).
        case_decide; [done|]. rewrite !bind_ret, bind_gets. unfold other. by case_decide.
    + intros t d. by rewrite revoke_others_run.
  - intros t d _. unfold atomically. rewrite revoke_others_run. split; [done|]. exists (others_of u keep_id d).
    split; [done|]. split; [done|]. split; [apply (Sorted_merge_sort oldest_first)|].
    intros k row. apply elem_of_others.
Qed.

(** *** Deleting, and what a client says of itself *)

Lemma delete_where_refines {A} P (found : list (Z * AuthorizationRow.t) -> A) :
  refines (fun _ => True) id (transaction (exec (delete_where P)) (fun rows => Ok (found rows)))
    (DeleteWhere_spec (fun k row => P (k, row) = true) found).
Proof.
  eapply refines_implements; [apply transaction_implements, runs_exec|]. intros t d _. split; [done|].
  exists (rows_where P d). split; [done|]. split; [done|]. split; [apply NoDup_rows|]. intros k row. apply elem_of_rows.
Qed.

Lemma Delete_refines id_ : refines (fun _ => True) id (Delete id_)
  (fun d r d' => r = Ok tt /\ d' = unauthorize [AuthKeyIDToInt64 id_] d).
Proof.
  eapply refines_implements; [apply transaction_implements, runs_exec|]. intros t d _. by split.
Qed.

Lemma DeleteByHash_refines u h : refines (fun _ => True) id (DeleteByHash u h)
  (DeleteWhere_spec (fun k row => AuthorizationRow.user_id row = u /\ AuthorizationRow.hash row = h)
     (fun rows => to_authorization <$> head rows)).
Proof.
  eapply refines_weaken; [apply delete_where_refines|]. intros d r d' (rows & -> & -> & Hnd & H).
  exists rows. split_and!; [done|done|done|]. intros k row. rewrite H. unfold of_user. cbn.
  by rewrite andb_true_iff, !Z.eqb_eq.
Qed.

Lemma DeleteByUserExcept_refines u keep : refines (fun _ => True) id (DeleteByUserExcept u keep)
  (DeleteWhere_spec (fun k row => AuthorizationRow.user_id row = u /\ k <> AuthKeyIDToInt64 keep) (fmap to_authorization)).
Proof.
  eapply refines_weaken; [apply (delete_where_refines _ (fmap to_authorization))|].
  intros d r d' (rows & -> & -> & Hnd & H). exists rows. split_and!; [done|done|done|]. intros k row. rewrite H.
  unfold of_user. cbn. by rewrite andb_true_iff, negb_true_iff, Z.eqb_eq, Z.eqb_neq.
Qed.

Lemma UpdateClientInfo_refines id_ info :
  refines (fun _ => True) id (UpdateClientInfo id_ info) (UpdateClientInfo_spec id_ info).
Proof.
  eapply refines_implements; [apply transaction_implements, runs_exec|]. intros t d _. cbn. split; [done|].
  split; [done|]. eexists. split; [reflexivity|]. split; [|split].
  - intros k' Hk. by apply lookup_alter_ne.
  - intros row Hrow. rewrite lookup_alter_eq, Hrow. eexists. split; [reflexivity|]. unfold merge_info, AuthKeyStore.text_or.
    cbn. repeat (split; [done|]). split_and!; [by destruct (ClientInfo.device_model info)|
      by destruct (ClientInfo.platform info)|by destruct (ClientInfo.ip info)|].
    intros Hl. by rewrite (proj2 (Z.ltb_lt _ _) Hl).
  - intros Hn. by rewrite lookup_alter_eq, Hn.
Qed.


End Refinement.
