(* ===== verification/UserStore.v ===== *)
(** * Users in Postgres: [user_store.cpp]

    [UserStore]: reading users, the statements that change a row of [users],
    and the registry of user names ([peer_usernames]), which a new name goes
    through.  What the schema adds (defaults and constraints of [users],
    [lower], the normal form of a jsonb) is the class [UserSchema]. *)

From Stdlib Require Import ZArith Lia Strings.Byte Strings.String Floats.SpecFloat.
From stdpp Require Import base decidable list gmap sorting.
From S2P Require Import Prelude Text OpenSSL Json Domain Store Database KeyStore AuthorizationStore.

Class UserSchema : Type := {
  (** A new row of users: its id and what the columns not given get. *)
  new_user : Z -> gmap Z UserRow.t -> Z * UserRow.t;
  (** The constraint that writing this row would violate: SQLSTATE, text. *)
  users_refuse : gmap Z UserRow.t -> Z -> UserRow.t -> option (string * string);
  lower : bytes -> bytes;
  (** [$1::jsonb::text], if the text is JSON. *)
  jsonb : bytes -> option bytes }.

(** ** Rows as users *)

(** A 64-bit floating-point number. *)
Definition double_of_bits (bits : Z) : spec_float :=
  let s := Z.testbit bits 63 in
  let e := Z.land (Z.shiftr bits 52) 2047 in
  let m := Z.land bits (2 ^ 52 - 1) in
  if e =? 0 then
    match m with Z.pos m => S754_finite s m (-1074) | _ => S754_zero s end
  else if e =? 2047 then (if m =? 0 then S754_infinity s else S754_nan)
  else match m + 2 ^ 52 with Z.pos m => S754_finite s m (e - 1075) | _ => S754_nan end.

(** [j.value(key, std::int64_t{0})] and [j.value(key, 0)] *)
Definition value_int64 (members : list (bytes * json)) (key : bytes) : res Z :=
  match member key members with
  | None => Ok 0
  | Some (JInteger n) => Ok (s64 n)
  | Some (JFloat bits) => Ok (Z_of_double (double_of_bits bits))
  | Some _ => Throw JsonTypeError
  end.
Definition value_int (members : list (bytes * json)) (key : bytes) : res Z :=
  match member key members with
  | None => Ok 0
  | Some (JInteger n) => Ok (s32 n)
  | Some (JFloat bits) => Ok (Z_of_double (double_of_bits bits))
  | Some (JBool b) => Ok (if b then 1 else 0)
  | Some _ => Throw JsonTypeError
  end.

Section Rows.
Context {js : Json}.

Definition read_collectible (parsed : option json) : res EmojiStatusCollectible :=
  match parsed with
  | Some (JObject ((_ :: _) as members)) =>
      collectible_id_ <-? value_int64 members (lit "collectible_id") ;;
      document_id <-? value_int64 members (lit "document_id") ;;
      title_ <-? value_or_empty members (lit "title") ;;
      slug_ <-? value_or_empty members (lit "slug") ;;
      pattern_document_id_ <-? value_int64 members (lit "pattern_document_id") ;;
      center_color_ <-? value_int members (lit "center_color") ;;
      edge_color_ <-? value_int members (lit "edge_color") ;;
      pattern_color_ <-? value_int members (lit "pattern_color") ;;
      text_color_ <-? value_int members (lit "text_color") ;;
      Ok (MkCollectible collectible_id_ document_id title_ slug_ pattern_document_id_ center_color_
            edge_color_ pattern_color_ text_color_)
  | _ => Ok no_collectible
  end.

Definition DecodeEmojiStatusCollectible (id : option Z) (raw_json : bytes) : res EmojiStatusCollectible :=
  collectible <-? read_collectible (parse raw_json) ;;
  match id with
  | None =>
      if Collectible_Empty collectible then Ok no_collectible
      else Throw (DomainError "users emoji-status invariant: snapshot exists without collectible id")
  | Some id =>
      if negb (Collectible_Valid collectible) || negb (collectible_id collectible =? id) then
        Throw (DomainError "users emoji-status invariant: incomplete or mismatched collectible snapshot")
      else Ok collectible
  end.

Definition PeerColorFromRow (has : bool) (color background : Z) : PeerColor := MkPeerColor has color background.

(** The columns as the projection selects them; those read as [int] hold one. *)
Definition RowToUser (id : Z) (r : UserRow.t) : res User :=
  collectible <-? DecodeEmojiStatusCollectible (UserRow.emoji_status_collectible_id r)
                    (UserRow.emoji_status_collectible r) ;;
  let is_deleted := bool_decide (is_Some (UserRow.deleted_at r)) in
  let u := MkUser id (UserRow.access_hash r) (UserRow.phone r) (UserRow.first_name r) (UserRow.last_name r)
    (UserRow.about r) (UserRow.username r) (UserRow.country_code r)
    (UserRow.verified r) (UserRow.scam r) (UserRow.fake r) (UserRow.support r) false false false [] [] []
    (UserRow.is_bot r) (UserRow.bot_info_version r)
    (s32 (default 0 (epoch_seconds <$> UserRow.premium_expires_at r)))
    (UserRow.emoji_status_document_id r) (UserRow.emoji_status_until r) collectible
    (UserRow.birthday r) (UserRow.personal_channel_id r) (UserRow.linked_community_id r)
    (UserRow.color r) (UserRow.profile_color r) 0 0 [] false false
    (UserRow.last_seen_at r) (MkStatus StatusUnknown 0 0) is_deleted
    (if is_deleted then default 0 (epoch_seconds <$> UserRow.deleted_at r) else 0)
    (AccountDeletionSourceFromString (UserRow.deletion_source r)) (UserRow.deletion_reason r)
    (EpochToTimePoint (epoch_double (UserRow.created_at r)))
    (default 0 ((fun us => EpochToTimePoint (epoch_double us)) <$> UserRow.account_delete_at r)) false in
  Ok (if is_deleted then DeletedTombstone u else u).

End Rows.

(** ** User names *)

Definition TrimUsername (username : bytes) : bytes :=
  let username := match username with c :: t => if bz c =? 64 then t else username | [] => username end in
  match find_first_not_of is_space username with
  | None => []
  | Some first =>
      match find_last_not_of is_space username with
      | Some last => substr username first (last - first + 1)
      | None => []
      end
  end.

(** [std::string_view(e.what()).find(constraint) != npos] *)
Definition contains (constraint what : string) : bool := bool_decide (is_Some (String.index 0 constraint what)).
Definition IsUniqueViolation (e : exn) (constraint : string) : bool :=
  match e with
  | SqlError sqlstate what => bool_decide (sqlstate = "23505"%string) && contains constraint what
  | _ => false
  end.
(** [try { m } catch (const pqxx::sql_error& e) { if (IsUniqueViolation(e, …)) throw …; throw; }] *)
Definition on_unique {S A} (constraint : string) (occupied : exn) (m : M S A) : M S A :=
  try_catch m (fun e => throw (if IsUniqueViolation e constraint then occupied else e)).

(** ** Statements *)

(** The columns that an UPDATE sets, with [updated_at = now()]. *)
Section Columns.
Import UserRow.

Definition with_premium (until : option Z) (now : Z) (r : t) : t :=
  let 'Mk ah ph fn ln ab un cc ve sc fa su bo bi _ ed eu ec ej bd pc lc co pf ls de ds dr cr ad _ := r in
  Mk ah ph fn ln ab un cc ve sc fa su bo bi until ed eu ec ej bd pc lc co pf ls de ds dr cr ad now.
Definition with_verified (v : bool) (now : Z) (r : t) : t :=
  let 'Mk ah ph fn ln ab un cc _ sc fa su bo bi pr ed eu ec ej bd pc lc co pf ls de ds dr cr ad _ := r in
  Mk ah ph fn ln ab un cc v sc fa su bo bi pr ed eu ec ej bd pc lc co pf ls de ds dr cr ad now.
Definition with_support (v : bool) (now : Z) (r : t) : t :=
  let 'Mk ah ph fn ln ab un cc ve sc fa _ bo bi pr ed eu ec ej bd pc lc co pf ls de ds dr cr ad _ := r in
  Mk ah ph fn ln ab un cc ve sc fa v bo bi pr ed eu ec ej bd pc lc co pf ls de ds dr cr ad now.
Definition with_scam_fake (s f : bool) (now : Z) (r : t) : t :=
  let 'Mk ah ph fn ln ab un cc ve _ _ su bo bi pr ed eu ec ej bd pc lc co pf ls de ds dr cr ad _ := r in
  Mk ah ph fn ln ab un cc ve s f su bo bi pr ed eu ec ej bd pc lc co pf ls de ds dr cr ad now.
Definition with_last_seen (at_ : Z) (now : Z) (r : t) : t :=
  let 'Mk ah ph fn ln ab un cc ve sc fa su bo bi pr ed eu ec ej bd pc lc co pf ls de ds dr cr ad _ := r in
  Mk ah ph fn ln ab un cc ve sc fa su bo bi pr ed eu ec ej bd pc lc co pf (Z.max ls at_) de ds dr cr ad now.
Definition with_profile (first last_ about_ : bytes) (now : Z) (r : t) : t :=
  let 'Mk ah ph _ _ _ un cc ve sc fa su bo bi pr ed eu ec ej bd pc lc co pf ls de ds dr cr ad _ := r in
  Mk ah ph first last_ about_ un cc ve sc fa su bo bi pr ed eu ec ej bd pc lc co pf ls de ds dr cr ad now.
Definition with_username (name : bytes) (now : Z) (r : t) : t :=
  let 'Mk ah ph fn ln ab _ cc ve sc fa su bo bi pr ed eu ec ej bd pc lc co pf ls de ds dr cr ad _ := r in
  Mk ah ph fn ln ab name cc ve sc fa su bo bi pr ed eu ec ej bd pc lc co pf ls de ds dr cr ad now.
Definition with_phone (number : bytes) (now : Z) (r : t) : t :=
  let 'Mk ah _ fn ln ab un cc ve sc fa su bo bi pr ed eu ec ej bd pc lc co pf ls de ds dr cr ad _ := r in
  Mk ah number fn ln ab un cc ve sc fa su bo bi pr ed eu ec ej bd pc lc co pf ls de ds dr cr ad now.
Definition with_emoji_status (doc until : Z) (cid : option Z) (snapshot : bytes) (now : Z) (r : t) : t :=
  let 'Mk ah ph fn ln ab un cc ve sc fa su bo bi pr _ _ _ _ bd pc lc co pf ls de ds dr cr ad _ := r in
  Mk ah ph fn ln ab un cc ve sc fa su bo bi pr doc until cid snapshot bd pc lc co pf ls de ds dr cr ad now.
Definition with_birthday (b : Birthday) (now : Z) (r : t) : t :=
  let 'Mk ah ph fn ln ab un cc ve sc fa su bo bi pr ed eu ec ej _ pc lc co pf ls de ds dr cr ad _ := r in
  Mk ah ph fn ln ab un cc ve sc fa su bo bi pr ed eu ec ej b pc lc co pf ls de ds dr cr ad now.
Definition with_channel (c : Z) (now : Z) (r : t) : t :=
  let 'Mk ah ph fn ln ab un cc ve sc fa su bo bi pr ed eu ec ej bd _ lc co pf ls de ds dr cr ad _ := r in
  Mk ah ph fn ln ab un cc ve sc fa su bo bi pr ed eu ec ej bd c lc co pf ls de ds dr cr ad now.
Definition with_color (c : PeerColor) (now : Z) (r : t) : t :=
  let 'Mk ah ph fn ln ab un cc ve sc fa su bo bi pr ed eu ec ej bd pc lc _ pf ls de ds dr cr ad _ := r in
  Mk ah ph fn ln ab un cc ve sc fa su bo bi pr ed eu ec ej bd pc lc c pf ls de ds dr cr ad now.
Definition with_profile_color (c : PeerColor) (now : Z) (r : t) : t :=
  let 'Mk ah ph fn ln ab un cc ve sc fa su bo bi pr ed eu ec ej bd pc lc co _ ls de ds dr cr ad _ := r in
  Mk ah ph fn ln ab un cc ve sc fa su bo bi pr ed eu ec ej bd pc lc co c ls de ds dr cr ad now.
(** The columns of the INSERT, over the defaults [r]. *)
Definition with_new_user (u : User) (premium : option Z) (r : t) : t :=
  let 'Mk _ _ _ _ ab _ _ ve sc fa su bo bi _ ed eu ec ej bd pc lc co pf ls de ds dr cr ad up := r in
  Mk (Domain.access_hash u) (Domain.phone u) (Domain.first_name u) (Domain.last_name u) ab
    (Domain.username u) (Domain.country_code u) ve sc fa su bo bi premium ed eu ec ej bd pc lc co pf ls de ds dr
    cr ad up.
End Columns.

Section Statements.
Context {schema : UserSchema}.

Definition is_live (r : UserRow.t) : bool := bool_decide (UserRow.deleted_at r = None).

(** Writing a row of users, which a constraint may forbid. *)
Definition write_user (id : Z) (r : UserRow.t) : M Db (Z * UserRow.t) := fun d =>
  match users_refuse (users d) id r with
  | Some (sqlstate, what) => (Throw (SqlError sqlstate what), d)
  | None => (Ok (id, r), set_users (<[id := r]>) d)
  end.

(** [UPDATE users SET … WHERE id = … AND deleted_at IS NULL RETURNING *] *)
Definition update_live (user_id : Z) (set : Z -> UserRow.t -> UserRow.t) (now : Z) : M Db (option (Z * UserRow.t)) :=
  found <- gets (fun d => users d !! user_id) ;;
  match found with
  | Some r => if is_live r then row <- write_user user_id (set now r) ;; ret (Some row) else ret None
  | None => ret None
  end.
(** … without the last condition *)
Definition update_any (user_id : Z) (set : Z -> UserRow.t -> UserRow.t) (now : Z) : M Db (option (Z * UserRow.t)) :=
  found <- gets (fun d => users d !! user_id) ;;
  match found with
  | Some r => row <- write_user user_id (set now r) ;; ret (Some row)
  | None => ret None
  end.

Definition id_order (a b : Z * UserRow.t) : Prop := a.1 <= b.1.
#[export] Instance id_order_dec a b : Decision (id_order a b).
Proof. unfold id_order. apply _. Defined.
(** [SELECT * FROM users WHERE … ORDER BY id] (without ORDER BY, the order is
    the server's). *)
Definition users_where (P : Z * UserRow.t -> bool) (d : Db) : list (Z * UserRow.t) :=
  merge_sort id_order (filter P (map_to_list (users d))).
Definition select_user (user_id : Z) (_ : Z) : M Db (option (Z * UserRow.t)) :=
  gets (fun d => pair user_id <$> users d !! user_id).

(** [INSERT INTO users … RETURNING *] *)
Definition insert_user (user : User) (premium_epoch : option Z) (now : Z) : M Db (Z * UserRow.t) :=
  fresh <- gets (fun d => new_user now (users d)) ;;
  taken <- gets (fun d => users d !! fst fresh) ;;
  guard (bool_decide (taken = None)) (SqlError "23505" "users_pkey") ;;;
  write_user (fst fresh)
    (with_new_user user ((fun s => s * 1000000) <$> premium_epoch) (snd fresh)).

(** ** The registry of user names *)

Record PeerUsernameOwner : Type := MkOwner {
  ow_peer_type : bytes; ow_peer_id : Z; ow_collectible : bool; ow_active : bool; ow_editable : bool }.

Definition select_owner (username_lower : bytes) (_ : Z) : M Db (option PeerUsernameOwner) :=
  gets (fun d => (fun s => MkOwner (PeerUsername.peer_type s) (PeerUsername.peer_id s)
                    (bool_decide (is_Some (PeerUsername.collectible_id s))) (PeerUsername.active s)
                    (PeerUsername.editable s)) <$> peer_usernames d !! username_lower).
Definition reserved (username_lower : bytes) (_ : Z) : M Db bool :=
  gets (fun d => match collectible_usernames d !! username_lower with
                 | Some status => negb (bool_decide (status = lit "burned"))
                 | None => false
                 end).
Definition delete_editable (peer_type : bytes) (peer_id : Z) (_ : Z) : M Db unit :=
  modify (set_peer_usernames (filter (fun s =>
    ~ (PeerUsername.peer_type s.2 = peer_type /\ PeerUsername.peer_id s.2 = peer_id /\ PeerUsername.editable s.2 = true)))).
Definition insert_slot (username_lower peer_type : bytes) (peer_id : Z) (username : bytes) (_ : Z) : M Db unit :=
  taken <- gets (fun d => peer_usernames d !! username_lower) ;;
  guard (bool_decide (taken = None)) (SqlError "23505" "peer_usernames_pkey") ;;;
  modify (set_peer_usernames (<[username_lower := PeerUsername.Mk peer_type peer_id username true true 0 None]>)).

End Statements.

Section Operations.
Context {js : Json} {schema : UserSchema} {server : Server}.

Definition GetPeerUsernameOwner (username_lower : bytes) (for_update : bool) : M World (option PeerUsernameOwner) :=
  if decide (username_lower = []) then ret None else exec (select_owner username_lower).

Definition CollectibleUsernameReserved (username_lower : bytes) : M World bool := exec (reserved username_lower).

Definition ReplacePeerUsernameTx (peer_type : bytes) (peer_id : Z) (username username_lower : bytes) : M World unit :=
  (if decide (username_lower = []) then ret tt
   else
     owner <- GetPeerUsernameOwner username_lower true ;;
     match owner with
     | Some o =>
         guard (negb (negb (bool_decide (ow_peer_type o = peer_type) && (ow_peer_id o =? peer_id)) || ow_collectible o))
           UsernameOccupiedError
     | None =>
         taken <- CollectibleUsernameReserved username_lower ;;
         guard (negb taken) UsernameOccupiedError
     end) ;;;
  exec (delete_editable peer_type peer_id) ;;;
  if decide (username_lower = []) then ret tt
  else
    try_catch (exec (insert_slot username_lower peer_type peer_id username))
      (fun e => throw match e with SqlError "23505" _ => UsernameOccupiedError | _ => e end).

(** [EncodedEmojiStatus] *)
Definition collectible_json (c : EmojiStatusCollectible) : json :=
  JObject (set_member (lit "text_color") (JInteger (text_color c))
    (set_member (lit "pattern_color") (JInteger (pattern_color c))
    (set_member (lit "edge_color") (JInteger (edge_color c))
    (set_member (lit "center_color") (JInteger (center_color c))
    (set_member (lit "pattern_document_id") (JInteger (pattern_document_id c))
    (set_member (lit "slug") (JString (slug c))
    (set_member (lit "title") (JString (title c))
    (set_member (lit "document_id") (JInteger (c_document_id c))
    (set_member (lit "collectible_id") (JInteger (collectible_id c)) []))))))))).
Definition EncodeEmojiStatusCollectible (status : UserEmojiStatus) : res (bytes * option Z) :=
  if negb (EmojiStatus_Valid status) then Throw StarGiftCollectibleInvalidError
  else if Collectible_Empty (es_collectible status) then Ok (lit "{}", None)
  else match dump (collectible_json (es_collectible status)) with
       | Some text => Ok (text, Some (collectible_id (es_collectible status)))
       | None => Throw JsonTypeError
       end.

Definition to_user (row : Z * UserRow.t) : res User := RowToUser row.1 row.2.
Definition to_optional_user (row : option (Z * UserRow.t)) : res (option User) :=
  match row with
  | None => Ok None
  | Some row => u <-? to_user row ;; Ok (Some u)
  end.
Definition to_found_user (row : option (Z * UserRow.t)) : res User :=
  match row with
  | None => Throw UserNotFoundError
  | Some row => to_user row
  end.
Fixpoint to_users (rows : list (Z * UserRow.t)) : res (list User) :=
  match rows with
  | [] => Ok []
  | row :: t => u <-? to_user row ;; us <-? to_users t ;; Ok (u :: us)
  end.

(** The updates without more ado. *)
Definition update_and_read (user_id : Z) (set : Z -> UserRow.t -> UserRow.t) : M World User :=
  transaction (exec (update_live user_id set)) to_found_user.

End Operations.

(** [user.username = …] *)
Section Named.
Import Domain.
Definition named (name : bytes) (u : User) : User :=
  MkUser (id u) (access_hash u) (phone u) (first_name u) (last_name u) (about u) name (country_code u)
    (verified u) (scam u) (fake u) (support u) (contact u) (mutual u) (close_friend u)
    (restriction_reasons u) (contact_note u) (contact_note_entities u) (bot u) (bot_info_version u)
    (premium_until u) (emoji_status_document_id u) (emoji_status_until u) (emoji_status_collectible u)
    (birthday u) (personal_channel_id u) (linked_community_id u) (color u) (profile_color u) (photo_id u)
    (photo_dc_id u) (photo_stripped u) (photo_personal u) (photo_has_video u) (last_seen_at u) (status u)
    (deleted u) (deleted_at u) (deletion_source u) (deletion_reason u) (created_at u) (account_delete_at u)
    (frozen_for_viewer u).
End Named.

Module UserStore.
Section Operations.
Context {js : Json} {schema : UserSchema} {server : Server}.

Definition ByID (id : Z) : M World (option User) := transaction (exec (select_user id)) to_optional_user.

Definition ByIDs (ids : list Z) : M World (list User) :=
  if decide (ids = []) then ret []
  else transaction (exec (fun _ => gets (users_where (fun row => bool_decide (row.1 ∈ ids))))) to_users.

Definition ByPhone (phone : bytes) : M World (option User) :=
  if decide (phone = []) then ret None
  else transaction
    (exec (fun _ => gets (fun d => head (users_where (fun row =>
       bool_decide (UserRow.phone row.2 = phone) && is_live row.2) d)))) to_optional_user.

Definition ByUsername (username_in : bytes) : M World (option User) :=
  let username := TrimUsername username_in in
  if decide (username = []) then ret None
  else transaction
    (exec (fun _ => gets (fun d => head (users_where (fun row =>
       bool_decide (lower (UserRow.username row.2) = lower username) &&
       negb (bool_decide (UserRow.username row.2 = [])) && is_live row.2) d)))) to_optional_user.

Definition Create (user_in : User) : M World User :=
  let user := named (TrimUsername (username user_in)) user_in in
  let premium_epoch := if 0 <? premium_until user then Some (premium_until user) else None in
  transaction
    (row <- on_unique "users_username_lower_unique_idx" UsernameOccupiedError
              (exec (insert_user user premium_epoch)) ;;
     let new_id := fst row in
     let username_lower := ToLower (UserRow.username (snd row)) in
     (if decide (username_lower = []) then ret tt
      else ReplacePeerUsernameTx (lit "user") new_id (UserRow.username (snd row)) username_lower) ;;;
     ret row)
    to_user.

Definition SetPremiumUntil (user_id until : Z) : M World User :=
  let premium_epoch := if 0 <? until then Some until else None in
  update_and_read user_id (with_premium ((fun s => s * 1000000) <$> premium_epoch)).
Definition SetVerified (user_id : Z) (verified : bool) : M World User :=
  update_and_read user_id (with_verified verified).
Definition SetSupport (user_id : Z) (support : bool) : M World User :=
  update_and_read user_id (with_support support).
Definition UpdateLastSeen (user_id last_seen_at : Z) : M World unit :=
  transaction (exec (update_live user_id (with_last_seen last_seen_at))) (fun _ => Ok tt).
Definition UpdateProfile (user_id : Z) (first_name last_name about : bytes) : M World User :=
  update_and_read user_id (with_profile first_name last_name about).

Definition UpdateUsername (user_id : Z) (username_in : bytes) : M World User :=
  let username := TrimUsername username_in in
  let username_lower := ToLower username in
  transaction
    (locked <- exec (fun _ => gets (fun d => r ← users d !! user_id; if is_live r then Some tt else None)) ;;
     guard (bool_decide (is_Some locked)) UsernameNotOccupiedError ;;;
     ReplacePeerUsernameTx (lit "user") user_id username username_lower ;;;
     result <- on_unique "users_username_lower_unique_idx" UsernameOccupiedError
                 (exec (update_live user_id (with_username username))) ;;
     match result with
     | None => throw UsernameNotOccupiedError
     | Some row => ret row
     end)
    to_user.

Definition UpdatePhone (user_id : Z) (phone : bytes) : M World User :=
  transaction
    (on_unique "users_phone_unique_idx" PhoneNumberOccupiedError
       (exec (update_live user_id (with_phone phone))))
    to_found_user.

Definition SetScamFake (user_id : Z) (scam fake : bool) : M World User :=
  guard (negb (scam && fake)) PeerModerationFlagsInvalidError ;;;
  transaction
    (current <- exec (select_user user_id) ;;
     match current with
     | None => throw UserNotFoundError
     | Some (_, r) =>
         if bool_decide (UserRow.scam r = scam) && bool_decide (UserRow.fake r = fake) then
           exec (select_user user_id)
         else
           result <- exec (update_any user_id (with_scam_fake scam fake)) ;;
           guard (bool_decide (is_Some result)) UserNotFoundError ;;;
           ret result
     end)
    to_found_user.

(** [ORDER BY premium_expires_at LIMIT $2] *)
Definition expiry (row : Z * UserRow.t) : Z := default 0 (UserRow.premium_expires_at row.2).
Definition expires_first (a b : Z * UserRow.t) : Prop := expiry a <= expiry b.
#[export] Instance expires_first_dec a b : Decision (expires_first a b).
Proof. unfold expires_first. apply _. Defined.
Definition expired (now : Z) (limit : nat) (d : Db) : list (Z * UserRow.t) :=
  take limit (merge_sort expires_first (users_where (fun row =>
    match UserRow.premium_expires_at row.2 with
    | Some at_ => is_live row.2 && (at_ <=? now * 1000000)
    | None => false
    end) d)).
Definition sweep (now : Z) (limit : nat) (t : Z) : M Db (list (Z * UserRow.t)) :=
  doomed <- gets (expired now limit) ;;
  collect (fun row => write_user row.1 (with_premium None t row.2)) doomed.
Definition SweepExpiredPremium (now limit : Z) : M World (list User) :=
  if limit <=? 0 then ret []
  else transaction (exec (sweep now (Z.to_nat limit))) to_users.

Definition UpdateEmojiStatus (user_id : Z) (status : UserEmojiStatus) : M World User :=
  encoded <- lift (EncodeEmojiStatusCollectible status) ;;
  guard (Collectible_Empty (es_collectible status))
    (NotImplementedError "UpdateEmojiStatus with a collectible snapshot (needs the star-gift module)") ;;;
  transaction
    (exec (fun now =>
       match jsonb (fst encoded) with
       | None => throw (SqlError "22P02" "invalid input syntax for type json")
       | Some snapshot =>
           update_live user_id
             (with_emoji_status (es_document_id status) (es_until status) (snd encoded) snapshot) now
       end))
    to_found_user.

Definition UpdateBirthday (user_id : Z) (birthday : Birthday) : M World User :=
  update_and_read user_id (with_birthday birthday).
Definition UpdatePersonalChannel (user_id channel_id : Z) : M World User :=
  update_and_read user_id (with_channel channel_id).
Definition UpdateColor (user_id : Z) (for_profile : bool) (color : PeerColor) : M World User :=
  update_and_read user_id (if for_profile then with_profile_color color else with_color color).

End Operations.
End UserStore.

(** ** What the store promises *)

(** What the schema documents (the comments of [user_store.cpp]): a new row is
    of a live user without emoji status, and an empty object stays one. *)
Class UserSchemaLaws `{!Json, !UserSchema} : Prop := {
  jsonb_empty : exists text, jsonb (lit "{}") = Some text /\ parse text = Some (JObject []);
  new_user_blank : forall t us, let r := snd (new_user t us) in
    UserRow.deleted_at r = None /\ UserRow.emoji_status_collectible_id r = None /\
    parse (UserRow.emoji_status_collectible r) = Some (JObject []) }.

Section Specification.
Context {js : Json} {schema : UserSchema}.

(** The users as reading shows them. *)
Definition shown_user (i : Z) (r : UserRow.t) : option User :=
  match RowToUser i r with Ok u => Some u | Throw _ => None end.
Definition rows (d : Db) : gmap Z User := map_imap shown_user (users d).

(** Every row can be read, and the name of a live user is registered as its
    own. *)
Record sound (d : Db) : Prop := {
  sound_rows : forall i r, users d !! i = Some r -> exists u, RowToUser i r = Ok u;
  sound_names : forall i r, users d !! i = Some r -> is_live r = true -> UserRow.username r <> [] ->
    exists s, peer_usernames d !! ToLower (UserRow.username r) = Some s /\
      PeerUsername.peer_type s = lit "user" /\ PeerUsername.peer_id s = i }.

Definition live_user (d : Db) (i : Z) : Prop := exists u, rows d !! i = Some u /\ deleted u = false.
(** A constraint of the schema forbids a row. *)
Definition refused (d : Db) (i : Z) (e : exn) : Prop :=
  exists row sqlstate what, users_refuse (users d) i row = Some (sqlstate, what) /\ e = SqlError sqlstate what.
(** … the unique index [constraint], reported as [occupied]. *)
Definition refused_unique (constraint : string) (occupied : exn) (d : Db) (i : Z) (e : exn) : Prop :=
  exists e0, refused d i e0 /\ e = if IsUniqueViolation e0 constraint then occupied else e0.

(** Only the row of [i] changes: from [u] to [u']. *)
Definition changes_user (i : Z) (u u' : User) (d d' : Db) : Prop :=
  rows d !! i = Some u /\ deleted u = false /\ rows d' = <[i := u']> (rows d).
Definition only_users (d d' : Db) : Prop := set_users (fun _ => users d) d' = d.

Definition Update_spec (i : Z) (P : User -> User -> Prop) (d : Db) (r : res User) (d' : Db) : Prop :=
  match r with
  | Ok u' => exists u, changes_user i u u' d d' /\ P u u' /\ only_users d d'
  | Throw e => d' = d /\ (e = UserNotFoundError /\ ~ live_user d i \/ live_user d i /\ refused d i e)
  end.

(** Parts of a user. *)
Definition identity (u : User) := (id u, access_hash u, phone u, username u, country_code u, bot u, created_at u).
Definition profile (u : User) :=
  (first_name u, last_name u, about u, birthday u, personal_channel_id u, linked_community_id u, last_seen_at u).
Definition flags (u : User) := (Domain.verified u, scam u, fake u, support u, premium_until u, deleted u).
Definition looks (u : User) :=
  (emoji_status_document_id u, emoji_status_until u, emoji_status_collectible u, color u, profile_color u).

Definition premium_set (until : Z) (u u' : User) : Prop :=
  premium_until u' = s32 (Z.max 0 until) /\ identity u' = identity u /\ profile u' = profile u /\ looks u' = looks u /\
  (Domain.verified u', scam u', fake u', support u', deleted u') = (Domain.verified u, scam u, fake u, support u, deleted u).
Definition verified_set (v : bool) (u u' : User) : Prop :=
  flags u' = (v, scam u, fake u, support u, premium_until u, deleted u) /\
  identity u' = identity u /\ profile u' = profile u /\ looks u' = looks u.
Definition support_set (v : bool) (u u' : User) : Prop :=
  flags u' = (Domain.verified u, scam u, fake u, v, premium_until u, deleted u) /\
  identity u' = identity u /\ profile u' = profile u /\ looks u' = looks u.
Definition seen_set (at_ : Z) (u u' : User) : Prop :=
  last_seen_at u' = Z.max (last_seen_at u) at_ /\ identity u' = identity u /\ flags u' = flags u /\ looks u' = looks u.
Definition profile_set (f l a : bytes) (u u' : User) : Prop :=
  profile u' = (f, l, a, birthday u, personal_channel_id u, linked_community_id u, last_seen_at u) /\
  identity u' = identity u /\ flags u' = flags u /\ looks u' = looks u.
Definition birthday_set (b : Birthday) (u u' : User) : Prop :=
  profile u' = (first_name u, last_name u, about u, b, personal_channel_id u, linked_community_id u, last_seen_at u) /\
  identity u' = identity u /\ flags u' = flags u /\ looks u' = looks u.
Definition channel_set (c : Z) (u u' : User) : Prop :=
  profile u' = (first_name u, last_name u, about u, birthday u, c, linked_community_id u, last_seen_at u) /\
  identity u' = identity u /\ flags u' = flags u /\ looks u' = looks u.
Definition color_set (for_profile : bool) (c : PeerColor) (u u' : User) : Prop :=
  looks u' = (emoji_status_document_id u, emoji_status_until u, emoji_status_collectible u,
              (if for_profile then color u else c), (if for_profile then c else profile_color u)) /\
  identity u' = identity u /\ profile u' = profile u /\ flags u' = flags u.
Definition phone_set (p : bytes) (u u' : User) : Prop :=
  identity u' = (id u, access_hash u, p, username u, country_code u, bot u, created_at u) /\
  profile u' = profile u /\ flags u' = flags u /\ looks u' = looks u.
Definition username_set (n : bytes) (u u' : User) : Prop :=
  identity u' = (id u, access_hash u, phone u, n, country_code u, bot u, created_at u) /\
  profile u' = profile u /\ flags u' = flags u /\ looks u' = looks u.
Definition emoji_set (s : UserEmojiStatus) (u u' : User) : Prop :=
  looks u' = (es_document_id s, es_until s, no_collectible, color u, profile_color u) /\
  identity u' = identity u /\ profile u' = profile u /\ flags u' = flags u.

(** Reading. *)
Definition ByID_spec (i : Z) (d : Db) (r : res (option User)) (d' : Db) : Prop := r = Ok (rows d !! i) /\ d' = d.
Definition ByIDs_spec (l : list Z) (d : Db) (r : res (list User)) (d' : Db) : Prop :=
  d' = d /\ exists us, r = Ok us /\ Sorted Z.le (id <$> us) /\ NoDup (id <$> us) /\
    forall u, u ∈ us <-> exists i, i ∈ l /\ rows d !! i = Some u.
(** A live user with this property, if there is one. *)
Definition Find_spec (Q : User -> Prop) (d : Db) (r : res (option User)) (d' : Db) : Prop :=
  d' = d /\ exists o, r = Ok o /\
    match o with
    | Some u => rows d !! id u = Some u /\ deleted u = false /\ Q u
    | None => forall i u, rows d !! i = Some u -> deleted u = false -> ~ Q u
    end.
Definition has_phone (p : bytes) (u : User) : Prop := phone u = p /\ p <> [].
Definition has_name (n : bytes) (u : User) : Prop :=
  lower (username u) = lower (TrimUsername n) /\ username u <> [] /\ TrimUsername n <> [].

Definition UpdateLastSeen_spec (i at_ : Z) (d : Db) (r : res unit) (d' : Db) : Prop :=
  match r with
  | Ok _ => (exists u u', changes_user i u u' d d' /\ seen_set at_ u u' /\ only_users d d') \/ ~ live_user d i /\ d' = d
  | Throw e => d' = d /\ live_user d i /\ refused d i e
  end.

Definition UpdatePhone_spec (i : Z) (p : bytes) (d : Db) (r : res User) (d' : Db) : Prop :=
  match r with
  | Ok u' => exists u, changes_user i u u' d d' /\ phone_set p u u' /\ only_users d d'
  | Throw e => d' = d /\ (e = UserNotFoundError /\ ~ live_user d i \/
      live_user d i /\ refused_unique "users_phone_unique_idx" PhoneNumberOccupiedError d i e)
  end.

(** Also for a deleted user, who goes on being shown as a tombstone. *)
Definition SetScamFake_spec (i : Z) (s f : bool) (d : Db) (r : res User) (d' : Db) : Prop :=
  match r with
  | Ok u' => s && f = false /\ exists u, rows d !! i = Some u /\ rows d' = <[i := u']> (rows d) /\ only_users d d' /\
      if deleted u then u' = u
      else flags u' = (Domain.verified u, s, f, support u, premium_until u, false) /\
        identity u' = identity u /\ profile u' = profile u /\ looks u' = looks u
  | Throw e => d' = d /\ (s && f = true /\ e = PeerModerationFlagsInvalidError \/
      e = UserNotFoundError /\ rows d !! i = None \/ refused d i e)
  end.

(** The snapshots of collectibles are refused. *)
Definition UpdateEmojiStatus_spec (i : Z) (s : UserEmojiStatus) (d : Db) (r : res User) (d' : Db) : Prop :=
  if negb (EmojiStatus_Valid s) then r = Throw StarGiftCollectibleInvalidError /\ d' = d
  else if Collectible_Empty (es_collectible s) then Update_spec i (emoji_set s) d r d'
  else d' = d /\ exists e, r = Throw e /\ (e = JsonTypeError \/ exists what, e = NotImplementedError what).

(** The name [name] of [i]: whose slot stands in the way, and the registry
    afterwards. *)
Definition occupied (i : Z) (name : bytes) (d : Db) : Prop :=
  name <> [] /\
  ((exists s, peer_usernames d !! ToLower name = Some s /\
     ~ (PeerUsername.peer_type s = lit "user" /\ PeerUsername.peer_id s = i /\
        PeerUsername.editable s = true /\ PeerUsername.collectible_id s = None)) \/
   peer_usernames d !! ToLower name = None /\
     exists status, collectible_usernames d !! ToLower name = Some status /\ status <> lit "burned").
Definition editable_of (i : Z) (s : PeerUsername.t) : Prop :=
  PeerUsername.peer_type s = lit "user" /\ PeerUsername.peer_id s = i /\ PeerUsername.editable s = true.
#[export] Instance editable_of_dec i s : Decision (editable_of i s).
Proof. unfold editable_of. apply _. Defined.
Definition claimed (i : Z) (name : bytes) (m : gmap bytes PeerUsername.t) : gmap bytes PeerUsername.t :=
  let m := filter (fun s => ~ editable_of i s.2) m in
  if decide (name = []) then m
  else <[ToLower name := PeerUsername.Mk (lit "user") i name true true 0 None]> m.
Definition only_users_names (d d' : Db) : Prop :=
  set_users (fun _ => users d) (set_peer_usernames (fun _ => peer_usernames d) d') = d.

Definition UpdateUsername_spec (i : Z) (n : bytes) (d : Db) (r : res User) (d' : Db) : Prop :=
  let name := TrimUsername n in
  match r with
  | Ok u' => exists u, changes_user i u u' d d' /\ username_set name u u' /\ ~ occupied i name d /\
      peer_usernames d' = claimed i name (peer_usernames d) /\ only_users_names d d'
  | Throw e => d' = d /\
      (e = UsernameNotOccupiedError /\ ~ live_user d i \/
       live_user d i /\ (e = UsernameOccupiedError /\ occupied i name d \/
         refused_unique "users_username_lower_unique_idx" UsernameOccupiedError d i e))
  end.

(** A new user, under a new id. *)
Definition Create_spec (u : User) (d : Db) (r : res User) (d' : Db) : Prop :=
  let name := TrimUsername (username u) in
  match r with
  | Ok u' => rows d !! id u' = None /\ rows d' = <[id u' := u']> (rows d) /\ deleted u' = false /\
      (access_hash u', phone u', first_name u', last_name u', username u', country_code u') =
        (access_hash u, phone u, first_name u, last_name u, name, country_code u) /\
      premium_until u' = s32 (Z.max 0 (premium_until u)) /\
      ~ occupied (id u') name d /\
      peer_usernames d' = (if decide (name = []) then peer_usernames d else claimed (id u') name (peer_usernames d)) /\
      only_users_names d d'
  | Throw e => d' = d /\
      (e = SqlError "23505" "users_pkey" \/
       exists i, users d !! i = None /\
         (e = UsernameOccupiedError /\ occupied i name d \/
          refused_unique "users_username_lower_unique_idx" UsernameOccupiedError d i e))
  end.

(** The subscriptions that have run out, the earliest first. *)
Definition runs_out (now : Z) (d : Db) (i : Z) : Prop :=
  exists r at_, users d !! i = Some r /\ is_live r = true /\
    UserRow.premium_expires_at r = Some at_ /\ at_ <= now * 1000000.
Definition Sweep_spec (now limit : Z) (d : Db) (r : res (list User)) (d' : Db) : Prop :=
  match r with
  | Ok us => zlen us <= Z.max 0 limit /\ NoDup (id <$> us) /\ only_users d d' /\
      (forall u', u' ∈ us -> exists u, rows d !! id u' = Some u /\ runs_out now d (id u') /\
         rows d' !! id u' = Some u' /\ premium_set 0 u u') /\
      (forall i, i ∉ id <$> us -> rows d' !! i = rows d !! i) /\
      (zlen us < limit -> forall i, runs_out now d i -> i ∈ id <$> us)
  | Throw e => d' = d /\ exists sqlstate what, e = SqlError sqlstate what
  end.

(** A column setter that has this effect on the user shown, and none on the
    name and the deletion. *)
Definition sets (set : Z -> UserRow.t -> UserRow.t) (P : User -> User -> Prop) : Prop :=
  forall t i r u, RowToUser i r = Ok u -> is_live r = true ->
    UserRow.username (set t r) = UserRow.username r /\ UserRow.deleted_at (set t r) = UserRow.deleted_at r /\
    exists u', RowToUser i (set t r) = Ok u' /\ P u u'.

End Specification.

Ltac setter :=
  let t := fresh "t" in let i := fresh "i" in let r := fresh "r" in
  let u := fresh "u" in let H := fresh "H" in let L := fresh "L" in
  intros t i r u H L; destruct r; unfold is_live in L; cbn in L; apply bool_decide_eq_true in L; subst;
  split; [done|]; split; [done|];
  unfold RowToUser in *; cbn in *;
  match goal with
  | |- context [DecodeEmojiStatusCollectible ?a ?b] => destruct (DecodeEmojiStatusCollectible a b); [|done]
  end; cbn in *; injection H as <-; eexists; split; [reflexivity|]; repeat split.

Section Setters.
Context {js : Json} {schema : UserSchema}.

Lemma sets_verified v : sets (with_verified v) (verified_set v). Proof. setter. Qed.
Lemma sets_support v : sets (with_support v) (support_set v). Proof. setter. Qed.
Lemma sets_last_seen a : sets (with_last_seen a) (seen_set a). Proof. setter. Qed.
Lemma sets_profile f l a : sets (with_profile f l a) (profile_set f l a). Proof. setter. Qed.
Lemma sets_phone p : sets (with_phone p) (phone_set p). Proof. setter. Qed.
Lemma sets_birthday b : sets (with_birthday b) (birthday_set b). Proof. setter. Qed.
Lemma sets_channel c : sets (with_channel c) (channel_set c). Proof. setter. Qed.
Lemma sets_color c : sets (with_color c) (color_set false c). Proof. setter. Qed.
Lemma sets_profile_color c : sets (with_profile_color c) (color_set true c). Proof. setter. Qed.

Lemma epoch_seconds_whole s : epoch_seconds (s * 1000000) = s.
Proof.
  unfold epoch_seconds. destruct (Z.lt_trichotomy s 0) as [H|[->|H]]; [|done|].
  - rewrite Z.sgn_neg by lia. replace (s * 1000000 + -1 * 500000) with (- (- s * 1000000 + 500000)) by lia.
    rewrite Z.quot_opp_l, Z.quot_div_nonneg by lia. rewrite Z.div_add_l by lia.
    change (500000 / 1000000) with 0. lia.
  - rewrite Z.sgn_pos by lia. rewrite Z.quot_div_nonneg by lia. rewrite Z.mul_1_l, Z.div_add_l by lia.
    change (500000 / 1000000) with 0. lia.
Qed.

Lemma sets_premium until :
  sets (with_premium ((fun s => s * 1000000) <$> (if 0 <? until then Some until else None))) (premium_set until).
Proof.
  setter. destruct (Z.ltb_spec 0 until); cbn.
  - rewrite epoch_seconds_whole. f_equal. lia.
  - rewrite Z.max_l by lia. done.
Qed.
End Setters.

Section Refinement.
Context {js : Json} {schema : UserSchema} {server : Server}.

(** *** Rows and what they show *)

Lemma shown_lookup d i : rows d !! i = r ← users d !! i; shown_user i r.
Proof. apply map_lookup_imap. Qed.

Lemma shown_Ok i r u : RowToUser i r = Ok u -> shown_user i r = Some u.
Proof. unfold shown_user. by intros ->. Qed.

Lemma shown_insert d i r u : RowToUser i r = Ok u -> rows (set_users (<[i := r]>) d) = <[i := u]> (rows d).
Proof. intros H. unfold rows. cbn [users set_users]. apply map_imap_insert_Some. by apply shown_Ok. Qed.

Lemma RowToUser_fields i r u : RowToUser i r = Ok u ->
  id u = i /\ deleted u = negb (is_live r) /\
  (is_live r = true -> username u = UserRow.username r /\ phone u = UserRow.phone r).
Proof.
  unfold RowToUser, is_live. destruct (DecodeEmojiStatusCollectible _ _); [|done]. cbn. intros [= <-].
  destruct (UserRow.deleted_at r); done.
Qed.

Lemma sound_row d i r : sound d -> users d !! i = Some r ->
  exists u, RowToUser i r = Ok u /\ rows d !! i = Some u /\ deleted u = negb (is_live r).
Proof.
  intros Hd Hr. destruct (sound_rows d Hd i r Hr) as [u Hu]. exists u. split; [done|].
  rewrite shown_lookup, Hr. split; [by apply shown_Ok|]. by apply RowToUser_fields in Hu as (_ & Hl & _).
Qed.

Lemma live_user_row d i : sound d ->
  (live_user d i <-> exists r, users d !! i = Some r /\ is_live r = true).
Proof.
  intros Hd. split.
  - intros (u & Hu & Hl). rewrite shown_lookup in Hu. destruct (users d !! i) as [r|] eqn:Hr; [|done].
    exists r. split; [done|]. destruct (sound_row d i r Hd Hr) as (u' & _ & Hu' & Hl').
    rewrite shown_lookup, Hr in Hu'. cbn in Hu, Hu'. assert (u' = u) as -> by congruence. rewrite Hl in Hl'. by destruct (is_live r).
  - intros (r & Hr & Hl). destruct (sound_row d i r Hd Hr) as (u & _ & Hu & Hd'). exists u. by rewrite Hd', Hl.
Qed.

Lemma only_users_set f d : only_users d (set_users f d).
Proof. by destruct d. Qed.

(** Writing a row that shows a user, and keeps the name registered. *)
Lemma sound_write d i r u : sound d -> RowToUser i r = Ok u ->
  (is_live r = true -> UserRow.username r <> [] ->
     exists s, peer_usernames d !! ToLower (UserRow.username r) = Some s /\
       PeerUsername.peer_type s = lit "user" /\ PeerUsername.peer_id s = i) ->
  sound (set_users (<[i := r]>) d).
Proof.
  intros Hd Hu Hn. split; cbn [users peer_usernames set_users]; intros j r' Hj.
  - destruct (decide (i = j)) as [<-|Hij].
    + rewrite lookup_insert_eq in Hj. injection Hj as <-. by exists u.
    + rewrite lookup_insert_ne in Hj by done. by apply (sound_rows d Hd).
  - destruct (decide (i = j)) as [<-|Hij].
    + rewrite lookup_insert_eq in Hj. injection Hj as <-. exact Hn.
    + rewrite lookup_insert_ne in Hj by done. by apply (sound_names d Hd).
Qed.

(** *** The statements *)

Lemma write_user_run i r d :
  (exists sqlstate what, users_refuse (users d) i r = Some (sqlstate, what) /\
     write_user i r d = (Throw (SqlError sqlstate what), d)) \/
  write_user i r d = (Ok (i, r), set_users (<[i := r]>) d).
Proof. unfold write_user. destruct (users_refuse _ _ _) as [[s w]|]; [left; eauto|by right]. Qed.

(** [i] is not a live user; a constraint refuses the row; or it is written. *)
Inductive update_case (i : Z) (set : UserRow.t -> UserRow.t) (d : Db) :
    res (option (Z * UserRow.t)) -> Db -> Prop :=
  | update_absent : (forall r, users d !! i = Some r -> is_live r = false) -> update_case i set d (Ok None) d
  | update_refused r sqlstate what : users d !! i = Some r -> is_live r = true ->
      users_refuse (users d) i (set r) = Some (sqlstate, what) ->
      update_case i set d (Throw (SqlError sqlstate what)) d
  | update_written r : users d !! i = Some r -> is_live r = true ->
      update_case i set d (Ok (Some (i, set r))) (set_users (<[i := set r]>) d).

Lemma update_live_run i set t d : update_case i (set t) d (fst (update_live i set t d)) (snd (update_live i set t d)).
Proof.
  unfold update_live. rewrite bind_gets. destruct (users d !! i) as [r|] eqn:Hr.
  2:{ apply (update_absent i (set t) d). intros r' Hr'. congruence. }
  destruct (is_live r) eqn:Hl.
  2:{ apply (update_absent i (set t) d). intros r' Hr'. congruence. }
  destruct (write_user_run i (set t r) d) as [(s & w & Hc & E)|E]; unfold bind; rewrite E; cbn.
  - by eapply update_refused.
  - by apply update_written.
Qed.

Lemma not_live d i : sound d -> (forall r, users d !! i = Some r -> is_live r = false) -> ~ live_user d i.
Proof. intros Hd H (r & Hr & Hl)%live_user_row; [|done]. by rewrite (H r Hr) in Hl. Qed.

Lemma refused_row d i row s w : users_refuse (users d) i row = Some (s, w) -> refused d i (SqlError s w).
Proof. intros H. by exists row, s, w. Qed.

(** An update in the database: what [update_live] and reading its result do. *)
Lemma update_meets i set P t d : sound d -> sets set P ->
  let '(r, d') := atomically (update_live i set t) to_found_user d in
  sound d' /\ Update_spec i P d r d'.
Proof.
  intros Hd Hset. unfold atomically. destruct (update_live i set t d) as [r d'] eqn:E.
  pose proof (update_live_run i set t d) as Hc. rewrite E in Hc. cbn in Hc. destruct Hc as [H|r s w Hr Hl H|r Hr Hl].
  - cbn. split; [done|]. split; [done|]. left. split; [done|]. by apply not_live.
  - split; [done|]. split; [done|]. right. split; [|by eapply refused_row]. apply live_user_row; eauto.
  - destruct (sound_row d i r Hd Hr) as (u & Hu & Hshow & Hdel). rewrite Hl in Hdel.
    destruct (Hset t i r u Hu Hl) as (En & Ed & u' & Hu' & HP). cbn. unfold to_user. cbn. rewrite Hu'. split.
    + apply (sound_write d i (set t r) u' Hd Hu'). intros _ Hne. rewrite En in *. by apply (sound_names d Hd i r).
    + exists u. split; [|split; [done|apply only_users_set]]. split; [done|]. split; [done|]. by apply shown_insert.
Qed.

Lemma update_refines i set P : sets set P ->
  refines sound Datatypes.id (update_and_read i set) (Update_spec i P).
Proof.
  intros Hset. eapply refines_implements; [apply transaction_implements, runs_exec|]. intros t d Hd.
  by apply update_meets.
Qed.

(** *** The simple updates *)

Import UserStore.

Lemma SetPremiumUntil_refines i until :
  refines sound Datatypes.id (SetPremiumUntil i until) (Update_spec i (premium_set until)).
Proof. apply update_refines, sets_premium. Qed.
Lemma SetVerified_refines i v : refines sound Datatypes.id (SetVerified i v) (Update_spec i (verified_set v)).
Proof. apply update_refines, sets_verified. Qed.
Lemma SetSupport_refines i v : refines sound Datatypes.id (SetSupport i v) (Update_spec i (support_set v)).
Proof. apply update_refines, sets_support. Qed.
Lemma UpdateProfile_refines i f l a :
  refines sound Datatypes.id (UpdateProfile i f l a) (Update_spec i (profile_set f l a)).
Proof. apply update_refines, sets_profile. Qed.
Lemma UpdateBirthday_refines i b : refines sound Datatypes.id (UpdateBirthday i b) (Update_spec i (birthday_set b)).
Proof. apply update_refines, sets_birthday. Qed.
Lemma UpdatePersonalChannel_refines i c :
  refines sound Datatypes.id (UpdatePersonalChannel i c) (Update_spec i (channel_set c)).
Proof. apply update_refines, sets_channel. Qed.
Lemma UpdateColor_refines i p c : refines sound Datatypes.id (UpdateColor i p c) (Update_spec i (color_set p c)).
Proof. apply update_refines. destruct p; [apply sets_profile_color|apply sets_color]. Qed.


(** *** Reading *)

Lemma elem_of_users P d i r : (i, r) ∈ users_where P d <-> users d !! i = Some r /\ P (i, r) = true.
Proof.
  unfold users_where. rewrite merge_sort_Permutation, list_elem_of_filter, elem_of_map_to_list.
  rewrite Is_true_true. tauto.
Qed.
Lemma NoDup_users P d : NoDup (users_where P d).*1.
Proof.
  unfold users_where. rewrite merge_sort_Permutation. apply (sublist_NoDup _ (map_to_list (users d)).*1).
  - apply NoDup_fst_map_to_list.
  - apply fmap_sublist, sublist_filter.
Qed.
#[local] Instance id_order_total : Total id_order.
Proof. intros a b. unfold id_order. lia. Qed.
#[local] Instance expires_first_total : Total expires_first.
Proof. intros a b. unfold expires_first. lia. Qed.
Lemma Sorted_users P d : Sorted Z.le (users_where P d).*1.
Proof. pose proof (Sorted_merge_sort id_order (filter P (map_to_list (users d)))) as H. fold (users_where P d) in H.
  induction H as [|x l Hl IH Hx]; [constructor|]. cbn. constructor; [done|]. by destruct Hx; constructor.
Qed.

(** Rows of the table are all read. *)
Lemma to_users_run d l : sound d -> (forall i r, (i, r) ∈ l -> users d !! i = Some r) ->
  exists us, to_users l = Ok us /\ id <$> us = l.*1 /\ Forall (fun u => rows d !! id u = Some u) us.
Proof.
  intros Hd. induction l as [|[i r] l IH]; intros Hl; [by exists []|].
  destruct (sound_row d i r Hd (Hl i r ltac:(constructor))) as (u & Hu & Hr & _).
  destruct IH as (us & E & Hi & Hus); [intros j r' Hj; apply Hl; by constructor|].
  exists (u :: us). cbn. unfold to_user. cbn. rewrite Hu. cbn. rewrite E. cbn.
  apply RowToUser_fields in Hu as (Hid & _ & _). rewrite Hid, Hi. split; [done|]. split; [done|].
  constructor; [by rewrite Hid|done].
Qed.

Lemma select_refines {A B} (f : Db -> A) (after : A -> res B) (s : Db -> res B -> Db -> Prop) :
  (forall d, sound d -> s d (after (f d)) d) ->
  refines sound Datatypes.id (transaction (exec (fun _ => gets f)) after) s.
Proof.
  intros H. eapply refines_implements; [apply transaction_implements, runs_exec|]. intros t d Hd. split; [done|].
  by apply H.
Qed.

Lemma refines_ret {A} (a : A) (s : Db -> res A -> Db -> Prop) : (forall d, s d (Ok a) d) ->
  refines sound Datatypes.id (ret a) s.
Proof. intros H w Hw. cbn. split; [done|]. left. apply H. Qed.
Lemma refines_throw {A} e (s : Db -> res A -> Db -> Prop) : (forall d, s d (Throw e) d) ->
  refines sound Datatypes.id (@throw _ A e) s.
Proof. intros H w Hw. cbn. split; [done|]. left. apply H. Qed.

Lemma ByID_refines i : refines sound Datatypes.id (ByID i) (ByID_spec i).
Proof.
  apply select_refines. intros d Hd. split; [|done]. rewrite shown_lookup. destruct (users d !! i) as [r|] eqn:Hr; [|done].
  destruct (sound_row d i r Hd Hr) as (u & Hu & _). cbn. unfold to_user, shown_user. cbn. by rewrite Hu.
Qed.

Lemma ByIDs_refines l : refines sound Datatypes.id (ByIDs l) (ByIDs_spec l).
Proof.
  unfold ByIDs. case_decide as Hl.
  { apply refines_ret. intros d. split; [done|]. exists []. split; [done|]. split; [constructor|]. split; [constructor|].
    intros u. split; [by intros ?%not_elem_of_nil|]. subst l. by intros (i & ?%not_elem_of_nil & _). }
  apply select_refines. intros d Hd. split; [done|].
  destruct (to_users_run d (users_where (fun row => bool_decide (row.1 ∈ l)) d) Hd) as (us & E & Hi & Hus).
  { intros i r H. by apply elem_of_users in H as [H _]. }
  exists us. rewrite Hi. split; [done|]. split; [apply Sorted_users|]. split; [apply NoDup_users|].
  intros u. split.
  - intros Hu. rewrite Forall_forall in Hus. specialize (Hus u Hu). exists (id u). split; [|done].
    assert (Hin : id u ∈ id <$> us) by (by apply list_elem_of_fmap_2). rewrite Hi in Hin.
    apply list_elem_of_fmap in Hin as ([i r] & -> & Hin). apply elem_of_users in Hin as [_ Hin]. cbn in *.
    by apply bool_decide_eq_true in Hin.
  - intros (i & Hil & Hi'). rewrite shown_lookup in Hi'. destruct (users d !! i) as [r|] eqn:Hr; [|done].
    assert (Hin : i ∈ id <$> us).
    { rewrite Hi. apply list_elem_of_fmap. exists (i, r). split; [done|]. apply elem_of_users. split; [done|].
      by apply bool_decide_eq_true. }
    apply list_elem_of_fmap in Hin as (u' & -> & Hu'). rewrite Forall_forall in Hus. pose proof (Hus u' Hu') as Hu.
    rewrite shown_lookup, Hr in Hu. cbn in Hu, Hi'. congruence.
Qed.

Lemma find_refines P (Q : User -> Prop) :
  (forall i r u, RowToUser i r = Ok u -> (P (i, r) = true <-> is_live r = true /\ Q u)) ->
  refines sound Datatypes.id (transaction (exec (fun _ => gets (fun d => head (users_where P d)))) to_optional_user)
    (Find_spec Q).
Proof.
  intros HP. apply select_refines. intros d Hd. split; [done|].
  destruct (head (users_where P d)) as [[i r]|] eqn:Eh.
  - apply head_Some_elem_of, elem_of_users in Eh as [Hr Hp].
    destruct (sound_row d i r Hd Hr) as (u & Hu & Hs & Hl). exists (Some u). cbn. unfold to_user. cbn. rewrite Hu. split; [done|].
    destruct (proj1 (HP i r u Hu) Hp) as [Hlive Hq]. rewrite Hlive in Hl. apply RowToUser_fields in Hu as (Hid & _ & _).
    by rewrite Hid.
  - exists None. split; [done|]. intros i u Hs Hl Hq. rewrite shown_lookup in Hs.
    destruct (users d !! i) as [r|] eqn:Hr; [|done]. destruct (sound_row d i r Hd Hr) as (u' & Hu & Hs' & Hl').
    rewrite shown_lookup, Hr in Hs'. assert (Eu : u' = u) by (cbn in *; congruence). rewrite Eu in *.
    assert (Hin : (i, r) ∈ users_where P d).
    { apply elem_of_users. split; [done|]. apply (HP i r u Hu). split; [|done]. rewrite Hl in Hl'. by destruct (is_live r). }
    destruct (users_where P d); [by apply not_elem_of_nil in Hin|done].
Qed.

Lemma ByPhone_refines p : refines sound Datatypes.id (ByPhone p) (Find_spec (has_phone p)).
Proof.
  unfold ByPhone. case_decide as Hp.
  { apply refines_ret. intros d. split; [done|]. exists None. split; [done|]. intros i u _ _ [_ Hne]. done. }
  apply find_refines. intros i r u Hu. apply RowToUser_fields in Hu as (_ & _ & H). cbn.
  rewrite andb_true_iff, bool_decide_eq_true. unfold has_phone. split.
  - intros [<- Hl]. destruct (H Hl) as [_ ->]. done.
  - intros [Hl [<- _]]. destruct (H Hl) as [_ ->]. done.
Qed.

Lemma ByUsername_refines n : refines sound Datatypes.id (ByUsername n) (Find_spec (has_name n)).
Proof.
  unfold ByUsername. cbv zeta. case_decide as Hp.
  { apply refines_ret. intros d. split; [done|]. exists None. split; [done|]. intros i u _ _ (_ & _ & Hne). done. }
  apply find_refines. intros i r u Hu. apply RowToUser_fields in Hu as (_ & _ & H). cbn.
  rewrite !andb_true_iff, negb_true_iff, bool_decide_eq_true, bool_decide_eq_false. unfold has_name. split.
  - intros [[E Hn] Hl]. destruct (H Hl) as [-> _]. done.
  - intros (Hl & E & Hn & _). destruct (H Hl) as [Hu _]. rewrite Hu in *. done.
Qed.

(** Which row a name is read as: the first that matches it. *)
Definition name_matches (name : bytes) (row : Z * UserRow.t) : bool :=
  bool_decide (lower (UserRow.username row.2) = lower name) &&
  negb (bool_decide (UserRow.username row.2 = [])) && is_live row.2.
Definition holder (d : Db) (n : bytes) : option User :=
  if decide (TrimUsername n = []) then None
  else row ← head (users_where (name_matches (TrimUsername n)) d); shown_user row.1 row.2.

Lemma ByUsername_reads n : refines sound Datatypes.id (ByUsername n) (fun d r d' => d' = d /\ r = Ok (holder d n)).
Proof.
  unfold ByUsername, holder. cbv zeta. case_decide as Hp.
  { apply (refines_ret None (fun d r d' => d' = d /\ r = Ok None)). by intros d. }
  apply (select_refines _ _ (fun d r d' => d' = d /\ r = Ok (_ ← head (users_where _ d); _))).
  intros d Hd. split; [done|]. fold (name_matches (TrimUsername n)).
  destruct (head (users_where _ d)) as [[i r]|] eqn:Eh; [|done].
  apply head_Some_elem_of, elem_of_users in Eh as [Hr _].
  destruct (sound_row d i r Hd Hr) as (u & Hu & _). cbn. unfold to_user, shown_user. cbn. by rewrite Hu.
Qed.

(** *** Last seen, phone numbers, moderation flags, emoji status *)

Lemma UpdateLastSeen_refines i a : refines sound Datatypes.id (UpdateLastSeen i a) (UpdateLastSeen_spec i a).
Proof.
  eapply refines_implements; [apply transaction_implements, runs_exec|]. intros t d Hd.
  unfold atomically, UpdateLastSeen_spec. destruct (update_live i (with_last_seen a) t d) as [r d'] eqn:E.
  pose proof (update_live_run i (with_last_seen a) t d) as Hc. rewrite E in Hc. cbn in Hc.
  destruct Hc as [H|r s w Hr Hl H|r Hr Hl]; cbn.
  - split; [done|]. right. split; [by apply not_live|done].
  - split; [done|]. split; [done|]. split; [apply live_user_row; eauto|by eapply refused_row].
  - destruct (sound_row d i r Hd Hr) as (u & Hu & Hs & Hdel). rewrite Hl in Hdel.
    destruct (sets_last_seen a t i r u Hu Hl) as (En & Ed & u' & Hu' & HP). split.
    + apply (sound_write d i _ u' Hd Hu'). intros _ Hne. rewrite En in *. by apply (sound_names d Hd i r).
    + left. exists u, u'. split; [|split; [done|apply only_users_set]]. split; [done|]. split; [done|]. by apply shown_insert.
Qed.

Lemma runs_on_unique {A} c o (m : M World A) d : surfaces o -> runs m d ->
  runs (on_unique c o m) (fun t => on_unique c o (d t)).
Proof.
  intros Ho Hm. apply (runs_catch m d _ (fun _ e => throw (if IsUniqueViolation e c then o else e)) Hm).
  - intros e. apply runs_throw.
  - intros e w He. cbn. eexists. split; [reflexivity|]. by destruct (IsUniqueViolation e c).
Qed.

Lemma UpdatePhone_refines i p : refines sound Datatypes.id (UpdatePhone i p) (UpdatePhone_spec i p).
Proof.
  eapply refines_implements; [apply transaction_implements, runs_on_unique; [done|apply runs_exec]|]. intros t d Hd.
  pose proof (update_meets i (with_phone p) (phone_set p) t d Hd (sets_phone p)) as H.
  pose proof (update_live_run i (with_phone p) t d) as Hc.
  unfold atomically, on_unique, try_catch in *. destruct (update_live i (with_phone p) t d) as [r d'] eqn:E.
  cbn in Hc. destruct Hc as [Ha|r s w Hr Hl Hc|r Hr Hl].
  - destruct H as [Hs _]. cbn. split; [done|]. split; [done|]. left. split; [done|by apply not_live].
  - cbn. split; [done|]. split; [done|]. right. split; [apply live_user_row; eauto|].
    eexists. split; [by eapply refused_row|done].
  - destruct (sound_row d i r Hd Hr) as (u & Hu & _).
    destruct (sets_phone p t i r u Hu Hl) as (_ & _ & u' & Hu' & _).
    cbn in *. unfold to_user in *. cbn in *. rewrite Hu' in *. exact H.
Qed.

Lemma SetScamFake_shown s f t i r u : RowToUser i r = Ok u -> exists u', RowToUser i (with_scam_fake s f t r) = Ok u' /\
  UserRow.username (with_scam_fake s f t r) = UserRow.username r /\ is_live (with_scam_fake s f t r) = is_live r /\
  if deleted u then u' = u
  else flags u' = (Domain.verified u, s, f, support u, premium_until u, false) /\
       identity u' = identity u /\ profile u' = profile u /\ looks u' = looks u.
Proof.
  destruct r. unfold RowToUser, is_live. cbn. destruct (DecodeEmojiStatusCollectible _ _); [|done]. cbn.
  intros [= <-]. destruct deleted_at; cbn; eexists; (split; [reflexivity|]); repeat split.
Qed.

Definition flag_statements (i : Z) (s f : bool) (t : Z) : M Db (option (Z * UserRow.t)) :=
  current <- select_user i t ;;
  match current with
  | None => throw UserNotFoundError
  | Some (_, r) =>
      if bool_decide (UserRow.scam r = s) && bool_decide (UserRow.fake r = f) then select_user i t
      else
        result <- update_any i (with_scam_fake s f) t ;;
        guard (bool_decide (is_Some result)) UserNotFoundError ;;;
        ret result
  end.

Lemma SetScamFake_refines i s f : refines sound Datatypes.id (SetScamFake i s f) (SetScamFake_spec i s f).
Proof.
  unfold SetScamFake. intros w Hw. rewrite bind_guard_if. destruct (negb (s && f)) eqn:Esf.
  2:{ cbn. split; [done|]. left. split; [done|]. left. apply negb_false_iff in Esf. done. }
  apply negb_true_iff in Esf. revert w Hw.
  apply (refines_implements _ _ _ (fun t => atomically (flag_statements i s f t) to_found_user)).
  { apply transaction_implements. apply runs_bind; [apply runs_exec|]. intros [[i' r]|]; [|apply runs_throw].
    apply runs_if; [apply runs_exec|]. apply runs_bind; [apply runs_exec|]. intros result.
    apply runs_bind; [apply runs_guard|]. intros _. apply runs_ret. }
  intros t d Hd. unfold atomically, SetScamFake_spec, flag_statements, select_user. rewrite bind_gets.
  destruct (users d !! i) as [r|] eqn:Hr; cbn [fmap option_fmap option_map].
  2:{ cbn. split; [done|]. split; [done|]. right. left. split; [done|]. by rewrite shown_lookup, Hr. }
  destruct (sound_row d i r Hd Hr) as (u & Hu & Hs & Hl). cbn -[update_any].
  destruct (bool_decide (UserRow.scam r = s) && bool_decide (UserRow.fake r = f)) eqn:Eb; cbn -[update_any].
  { rewrite Hr. cbn. unfold to_user. cbn. rewrite Hu. split; [done|]. split; [done|]. exists u. split; [done|].
    split; [by rewrite insert_id|]. split; [by destruct d|].
    apply andb_true_iff in Eb as [E1%bool_decide_eq_true E2%bool_decide_eq_true]. subst s f.
    revert Hu. unfold RowToUser. destruct (DecodeEmojiStatusCollectible _ _); [|done]. cbn. intros [= <-].
    by destruct (UserRow.deleted_at r). }
  unfold update_any. rewrite bind_assoc, bind_gets, Hr, bind_assoc.
  destruct (SetScamFake_shown s f t i r u Hu) as (u' & Hu' & En & El & HP).
  destruct (write_user_run i (with_scam_fake s f t r) d) as [(st & w & Hc & E)|E].
  - rewrite (bind_Throw _ _ _ _ _ E). split; [done|]. split; [done|]. right. right. by eapply refused_row.
  - rewrite (bind_Ok _ _ _ _ _ E). cbn. unfold to_user. cbn. rewrite Hu'. split.
    + apply (sound_write d i _ u' Hd Hu'). intros Hlive Hne. rewrite En in *. rewrite El in Hlive. by apply (sound_names d Hd i r).
    + split; [done|]. exists u. split; [done|]. split; [by apply shown_insert|]. split; [apply only_users_set|done].
Qed.

Context {laws : UserSchemaLaws}.

Lemma no_snapshot text : parse text = Some (JObject []) -> DecodeEmojiStatusCollectible None text = Ok no_collectible.
Proof. intros H. unfold DecodeEmojiStatusCollectible, read_collectible. by rewrite H. Qed.

Lemma sets_emoji_status s text : parse text = Some (JObject []) ->
  sets (with_emoji_status (es_document_id s) (es_until s) None text) (emoji_set s).
Proof.
  intros Hp t i r u H L. destruct r. unfold is_live in L. cbn in L. apply bool_decide_eq_true in L. subst.
  split; [done|]. split; [done|]. unfold RowToUser in *. cbn in *. rewrite no_snapshot by done.
  destruct (DecodeEmojiStatusCollectible _ _); [|done]. cbn in *. injection H as <-. eexists. by split.
Qed.

Lemma UpdateEmojiStatus_refines i s : refines sound Datatypes.id (UpdateEmojiStatus i s) (UpdateEmojiStatus_spec i s).
Proof.
  intros w Hw. unfold UpdateEmojiStatus. rewrite bind_lift. unfold EncodeEmojiStatusCollectible, UpdateEmojiStatus_spec.
  destruct (negb (EmojiStatus_Valid s)); [cbn; split; [done|by left]|].
  destruct (Collectible_Empty (es_collectible s)).
  2:{ destruct (dump _) as [text|]; [rewrite bind_guard_if|]; cbn; (split; [done|]); left; (split; [done|]); eauto. }
  rewrite bind_guard_if. revert w Hw. eapply refines_implements; [apply transaction_implements, runs_exec|].
  intros t d Hd. cbn [fst snd]. destruct jsonb_empty as (text & -> & Hp). apply update_meets; [done|by apply sets_emoji_status].
Qed.

(** *** User names *)

Definition replace_statements (i : Z) (name low : bytes) (t : Z) : M Db unit :=
  (if decide (low = []) then ret tt
   else
     owner <- (if decide (low = []) then ret None else select_owner low t) ;;
     match owner with
     | Some o =>
         guard (negb (negb (bool_decide (ow_peer_type o = lit "user") && (ow_peer_id o =? i)) || ow_collectible o))
           UsernameOccupiedError
     | None =>
         taken <- reserved low t ;;
         guard (negb taken) UsernameOccupiedError
     end) ;;;
  delete_editable (lit "user") i t ;;;
  if decide (low = []) then ret tt
  else
    try_catch (insert_slot low (lit "user") i name t)
      (fun e => throw match e with SqlError "23505" _ => UsernameOccupiedError | _ => e end).

Lemma runs_replace i name low : runs (ReplacePeerUsernameTx (lit "user") i name low) (replace_statements i name low).
Proof.
  unfold ReplacePeerUsernameTx, GetPeerUsernameOwner. apply runs_bind.
  { apply runs_decide; [apply runs_ret|]. apply runs_bind; [apply runs_decide; [apply runs_ret|apply runs_exec]|].
    intros [o|]; [apply runs_guard|]. apply runs_bind; [apply runs_exec|]. intros taken. apply runs_guard. }
  intros _. apply runs_bind; [apply runs_exec|]. intros _. apply runs_decide; [apply runs_ret|].
  apply (runs_catch _ _ _ (fun _ e => throw match e with SqlError "23505" _ => UsernameOccupiedError | _ => e end));
    [apply runs_exec|intros e; apply runs_throw|].
  intros e w He. eexists. split; [reflexivity|]. destruct e; try done.
  by repeat (match goal with |- context [match ?x with _ => _ end] => is_var x; destruct x end).
Qed.

Definition cleared (i : Z) (m : gmap bytes PeerUsername.t) : gmap bytes PeerUsername.t :=
  filter (fun s => ~ editable_of i s.2) m.
Lemma delete_editable_run i t d :
  delete_editable (lit "user") i t d = (Ok tt, set_peer_usernames (cleared i) d).
Proof.
  done.
Qed.
Lemma cleared_lookup i m low :
  cleared i m !! low = s ← m !! low; if decide (editable_of i s) then None else Some s.
Proof.
  unfold cleared. destruct (m !! low) as [s|] eqn:E; cbn.
  - case_decide.
    + apply map_lookup_filter_None. right. intros s' Hs' Hn. rewrite E in Hs'. injection Hs' as <-. by apply Hn.
    + by apply map_lookup_filter_Some.
  - apply map_lookup_filter_None. by left.
Qed.

Lemma ToLower_nil name : ToLower name = [] <-> name = [].
Proof. by destruct name. Qed.

Lemma insert_slot_run low i name t d : peer_usernames d !! low = None ->
  insert_slot low (lit "user") i name t d =
    (Ok tt, set_peer_usernames (<[low := PeerUsername.Mk (lit "user") i name true true 0 None]>) d).
Proof. intros H. unfold insert_slot. by rewrite bind_gets, H, bind_guard_if. Qed.
Lemma insert_slot_taken low i name t d s : peer_usernames d !! low = Some s ->
  insert_slot low (lit "user") i name t d = (Throw (SqlError "23505" "peer_usernames_pkey"), d).
Proof. intros H. unfold insert_slot. by rewrite bind_gets, H, bind_guard_if. Qed.

(** A name is claimed, or somebody else's slot stands in the way. *)
Lemma replace_run i name t d :
  (~ occupied i name d /\
   replace_statements i name (ToLower name) t d = (Ok tt, set_peer_usernames (claimed i name) d)) \/
  (occupied i name d /\ fst (replace_statements i name (ToLower name) t d) = Throw UsernameOccupiedError).
Proof.
  unfold replace_statements, claimed. fold (cleared i). destruct (decide (name = [])) as [->|Hne].
  { left. split; [by intros [? _]|]. change (ToLower []) with (@nil byte). rewrite decide_True, bind_ret by done.
    rewrite (bind_Ok _ _ _ _ _ (delete_editable_run i t d)). done. }
  assert (Hlow : ToLower name <> []) by (by rewrite ToLower_nil). rewrite !(decide_False (P := ToLower name = [])) by done.
  set (low := ToLower name) in *. rewrite bind_assoc. unfold select_owner. rewrite bind_gets.
  destruct (peer_usernames d !! low) as [s|] eqn:Es; cbn [fmap option_fmap option_map].
  - rewrite bind_guard_if. cbn [ow_peer_type ow_peer_id ow_collectible].
    destruct (negb (negb _ || _)) eqn:Eg.
    + rewrite negb_true_iff, orb_false_iff, negb_false_iff, andb_true_iff, bool_decide_eq_true, bool_decide_eq_false, Z.eqb_eq in Eg.
      destruct Eg as [[Ht Hi] Hc]. assert (Hcol : PeerUsername.collectible_id s = None).
      { destruct (PeerUsername.collectible_id s); [|done]. destruct Hc. by eexists. }
      destruct (PeerUsername.editable s) eqn:Ee.
      * left. split.
        { intros [_ [(s' & Hs' & H)|[Hn _]]]; [fold low in Hs'; apply H; by replace s' with s by congruence|]. fold low in Hn. congruence. }
        rewrite (bind_Ok _ _ _ _ _ (delete_editable_run i t d)). unfold try_catch.
        rewrite insert_slot_run; [done|]. cbn. rewrite cleared_lookup, Es. cbn. by rewrite decide_True.
      * right. split.
        { split; [done|]. left. exists s. split; [done|]. intros (_ & _ & H & _). congruence. }
        rewrite (bind_Ok _ _ _ _ _ (delete_editable_run i t d)). unfold try_catch.
        rewrite (insert_slot_taken low i name t _ s); [done|]. cbn. rewrite cleared_lookup, Es. cbn.
        rewrite decide_False; [done|]. intros (_ & _ & H). congruence.
    + right. split; [|done]. split; [done|]. left. exists s. split; [done|]. intros (Ht & Hi & _ & Hc).
      rewrite Ht, Hi, Hc, Z.eqb_refl in Eg. by rewrite bool_decide_eq_true_2, bool_decide_eq_false_2 in Eg by (done || by intros [? ?]).
  - rewrite bind_assoc. unfold reserved. rewrite bind_gets, bind_guard_if.
    set (r := match collectible_usernames d !! low with Some _ => _ | None => false end).
    destruct (negb r) eqn:Er.
    + left. split.
      { intros [_ [(s' & Hs' & _)|(_ & st & Hst & Hb)]]; [fold low in Hs'; congruence|]. fold low in Hst.
        subst r. rewrite Hst, bool_decide_eq_false_2 in Er by done. done. }
      rewrite (bind_Ok _ _ _ _ _ (delete_editable_run i t d)). unfold try_catch. rewrite insert_slot_run; [done|].
      cbn. by rewrite cleared_lookup, Es.
    + right. split; [|done]. split; [done|]. right. split; [done|]. subst r. fold low.
      destruct (collectible_usernames d !! low) as [st|]; [|done]. exists st. split; [done|]. intros ->.
      by rewrite bool_decide_eq_true_2 in Er.
Qed.

Lemma claimed_lookup i name m low : name <> [] ->
  claimed i name m !! low =
  if decide (low = ToLower name) then Some (PeerUsername.Mk (lit "user") i name true true 0 None) else cleared i m !! low.
Proof.
  intros Hn. unfold claimed. fold (cleared i m). rewrite decide_False by done. case_decide as H.
  - subst low. apply lookup_insert_eq.
  - by apply lookup_insert_ne.
Qed.
Lemma claimed_keeps i j name m low s : (name <> [] -> low <> ToLower name) -> m !! low = Some s ->
  PeerUsername.peer_id s = j -> i <> j -> claimed i name m !! low = Some s.
Proof.
  intros Hl Hs Hj Hij. assert (Hc : cleared i m !! low = Some s).
  { rewrite cleared_lookup, Hs. cbn. rewrite decide_False; [done|]. intros (_ & Hi & _). congruence. }
  destruct (decide (name = [])) as [->|Hn]; [done|]. rewrite claimed_lookup, decide_False by auto. done.
Qed.

(** Taking a free name and writing it. *)
Lemma sound_claim d i name r u : sound d -> ~ occupied i name d -> RowToUser i r = Ok u -> UserRow.username r = name ->
  sound (set_users (<[i := r]>) (set_peer_usernames (claimed i name) d)).
Proof.
  intros Hd Hfree Hu Hn. split; cbn [users peer_usernames set_users set_peer_usernames]; intros j r' Hj.
  - destruct (decide (i = j)) as [<-|Hij].
    + rewrite lookup_insert_eq in Hj. injection Hj as <-. by exists u.
    + rewrite lookup_insert_ne in Hj by done. by apply (sound_rows d Hd).
  - destruct (decide (i = j)) as [<-|Hij].
    + rewrite lookup_insert_eq in Hj. injection Hj as <-. intros _ Hne. rewrite Hn in *. eexists.
      rewrite claimed_lookup, decide_True by done. done.
    + rewrite lookup_insert_ne in Hj by done. intros Hl Hne.
      destruct (sound_names d Hd j r' Hj Hl Hne) as (s & Hs & Ht & Hi). exists s. split; [|done].
      apply (claimed_keeps i j); try done. intros Hname E. apply Hfree. split; [done|]. left. exists s.
      rewrite <- E. split; [done|]. intros (_ & Hi' & _). congruence.
Qed.

Lemma shown_username name t i r u : RowToUser i r = Ok u -> is_live r = true ->
  UserRow.username (with_username name t r) = name /\
  exists u', RowToUser i (with_username name t r) = Ok u' /\ username_set name u u'.
Proof.
  intros H L. destruct r. unfold is_live in L. cbn in L. apply bool_decide_eq_true in L. subst. split; [done|].
  unfold RowToUser in *. cbn in *. destruct (DecodeEmojiStatusCollectible _ _); [|done]. cbn in *.
  injection H as <-. eexists. by split.
Qed.

Definition name_statements (i : Z) (name : bytes) (t : Z) : M Db (Z * UserRow.t) :=
  locked <- gets (fun d => r ← users d !! i; if is_live r then Some tt else None) ;;
  guard (bool_decide (is_Some locked)) UsernameNotOccupiedError ;;;
  replace_statements i name (ToLower name) t ;;;
  result <- on_unique "users_username_lower_unique_idx" UsernameOccupiedError
              (update_live i (with_username name) t) ;;
  match result with
  | None => throw UsernameNotOccupiedError
  | Some row => ret row
  end.

Lemma UpdateUsername_refines i n : refines sound Datatypes.id (UpdateUsername i n) (UpdateUsername_spec i n).
Proof.
  unfold UpdateUsername, UpdateUsername_spec. cbv zeta. set (name := TrimUsername n).
  apply (refines_implements _ _ _ (fun t => atomically (name_statements i name t) to_user)).
  { apply transaction_implements. apply runs_bind; [apply runs_exec|]. intros locked.
    apply runs_bind; [apply runs_guard|]. intros _. apply runs_bind; [apply runs_replace|]. intros _.
    apply runs_bind; [apply runs_on_unique; [done|apply runs_exec]|].
    intros [row|]; [apply runs_ret|apply runs_throw]. }
  intros t d Hd. unfold atomically, name_statements. rewrite bind_gets, bind_guard_if.
  destruct (r ← users d !! i; if is_live r then Some tt else None) as [[]|] eqn:El; cbn [is_Some].
  2:{ rewrite bool_decide_eq_false_2 by (by intros [? ?]). split; [done|]. split; [done|]. left. split; [done|].
      apply not_live; [done|]. intros r Hr. cbn in Hr. rewrite Hr in El. cbn in El. by destruct (is_live r). }
  rewrite bool_decide_eq_true_2 by done.
  destruct (users d !! i) as [r|] eqn:Hr; [|done]. cbn in El. destruct (is_live r) eqn:Hl; [|done].
  assert (Hlive : live_user d i) by (apply live_user_row; eauto).
  destruct (replace_run i name t d) as [[Hfree E]|[Hocc E]].
  2:{ destruct (replace_statements _ _ _ _ _) as [r' d'] eqn:E'. cbn in E. subst r'.
      rewrite (bind_Throw _ _ _ _ _ E'). split; [done|]. split; [done|]. right. auto. }
  rewrite (bind_Ok _ _ _ _ _ E). set (d1 := set_peer_usernames _ d). unfold on_unique, try_catch.
  pose proof (update_live_run i (with_username name) t d1) as Hc.
  destruct (sound_row d i r Hd Hr) as (u & Hu & Hs & Hdel). rewrite Hl in Hdel.
  destruct (shown_username name t i r u Hu Hl) as (En & u' & Hu' & HP).
  unfold bind. destruct (update_live i (with_username name) t d1) as [r1 d2].
  cbn in Hc. destruct Hc as [Ha|r0 s w Hr0 Hl0 Hc|r0 Hr0 Hl0].
  - by rewrite (Ha r Hr) in Hl.
  - cbn. split; [done|]. split; [done|]. right. split; [done|]. right. eexists. split; [by eapply refused_row|done].
  - cbn in Hr0. assert (r0 = r) as -> by congruence. cbn. unfold to_user. cbn. rewrite Hu'. split; [by eapply sound_claim|].
    exists u. split; [split; [done|split; [done|]]|].
    + change (rows d) with (rows d1). by apply shown_insert.
    + split; [done|]. split; [done|]. split; [done|]. by destruct d.
Qed.

(** *** New users *)

Definition premium_epoch (until : Z) : option Z := if 0 <? until then Some until else None.

Lemma shown_new u t us i :
  let r := with_new_user u ((fun s => s * 1000000) <$> premium_epoch (premium_until u)) (snd (new_user t us)) in
  is_live r = true /\ UserRow.username r = username u /\
  exists u', RowToUser i r = Ok u' /\ id u' = i /\ deleted u' = false /\
    (access_hash u', phone u', first_name u', last_name u', username u', country_code u') =
      (access_hash u, phone u, first_name u, last_name u, username u, country_code u) /\
    premium_until u' = s32 (Z.max 0 (premium_until u)).
Proof.
  destruct (new_user_blank t us) as (H1 & H2 & H3). destruct (snd (new_user t us)). cbn in *. subst.
  split; [done|]. split; [done|]. unfold RowToUser. cbn. rewrite no_snapshot by done. cbn.
  eexists. split; [reflexivity|]. cbn. repeat split. unfold premium_epoch. destruct (Z.ltb_spec 0 (premium_until u)); cbn.
  - rewrite epoch_seconds_whole. f_equal. lia.
  - by rewrite Z.max_l by lia.
Qed.

(** The id is taken, a constraint refuses the row, or it is inserted. *)
Inductive insert_case (u : User) (t : Z) (d : Db) : res (Z * UserRow.t) -> Db -> Prop :=
  | insert_taken : insert_case u t d (Throw (SqlError "23505" "users_pkey")) d
  | insert_refused i r sqlstate what : users d !! i = None -> users_refuse (users d) i r = Some (sqlstate, what) ->
      insert_case u t d (Throw (SqlError sqlstate what)) d
  | insert_written i : users d !! i = None ->
      let r := with_new_user u ((fun s => s * 1000000) <$> premium_epoch (premium_until u)) (snd (new_user t (users d))) in
      insert_case u t d (Ok (i, r)) (set_users (<[i := r]>) d).

Lemma insert_user_run u t d :
  insert_case u t d (fst (insert_user u (premium_epoch (premium_until u)) t d))
    (snd (insert_user u (premium_epoch (premium_until u)) t d)).
Proof.
  unfold insert_user. rewrite bind_gets, bind_gets, bind_guard_if.
  set (i := fst (new_user t (users d))).
  destruct (users d !! i) as [r0|] eqn:Ei; [apply insert_taken|]. cbn [bool_decide].
  rewrite bool_decide_eq_true_2 by done.
  destruct (write_user_run i (with_new_user u ((fun s => s * 1000000) <$> premium_epoch (premium_until u))
    (snd (new_user t (users d)))) d) as [(s & w & Hc & E)|E]; rewrite E; cbn.
  - by eapply insert_refused.
  - by apply insert_written.
Qed.

Definition create_statements (u : User) (t : Z) : M Db (Z * UserRow.t) :=
  row <- on_unique "users_username_lower_unique_idx" UsernameOccupiedError
           (insert_user u (premium_epoch (premium_until u)) t) ;;
  let low := ToLower (UserRow.username (snd row)) in
  (if decide (low = []) then ret tt else replace_statements (fst row) (UserRow.username (snd row)) low t) ;;;
  ret row.

Lemma Create_refines u : refines sound Datatypes.id (Create u) (Create_spec u).
Proof.
  unfold Create, Create_spec. cbv zeta. set (name := TrimUsername (username u)).
  apply (refines_implements _ _ _ (fun t => atomically (create_statements (named name u) t) to_user)).
  { apply transaction_implements. apply runs_bind; [apply runs_on_unique; [done|apply runs_exec]|]. intros row.
    apply runs_bind; [apply runs_decide; [apply runs_ret|apply runs_replace]|]. intros _. apply runs_ret. }
  intros t d Hd. unfold atomically, create_statements, on_unique, try_catch.
  pose proof (insert_user_run (named name u) t d) as Hc. unfold bind at 1.
  destruct (insert_user (named name u) _ t d) as [r1 d1]. cbn in Hc. destruct Hc as [|i r s w Hi Hc|i Hi r].
  - cbn. split; [done|]. split; [done|]. by left.
  - cbn. split; [done|]. split; [done|]. right. exists i. split; [done|]. right. eexists. split; [by eapply refused_row|done].
  - destruct (shown_new (named name u) t (users d) i) as (Hlive & Hname & u' & Hu' & Hid & Hdel & Hf & Hp).
    fold r in Hlive, Hname, Hu'. cbn [username named] in Hname. cbn [fst snd]. rewrite Hname.
    assert (Hnone : rows d !! i = None) by (by rewrite shown_lookup, Hi).
    destruct (decide (ToLower name = [])) as [E|E].
    + apply (proj1 (ToLower_nil _)) in E. rewrite bind_ret. cbn. unfold to_user. cbn. rewrite Hu'. split.
      { apply (sound_write d i r u' Hd Hu'). intros _ H. by rewrite Hname in H. }
      rewrite Hid. split; [done|]. split; [by apply shown_insert|]. split; [done|]. split; [exact Hf|]. split; [exact Hp|].
      split; [by intros [? _]|]. rewrite decide_True by done. split; [done|]. by destruct d.
    + rewrite ToLower_nil in E. destruct (replace_run i name t (set_users (<[i := r]>) d)) as [[Hfree Er]|[Hocc Er]].
      * rewrite (bind_Ok _ _ _ _ _ Er). cbn. unfold to_user. cbn. rewrite Hu'. split.
        { exact (sound_claim d i name r u' Hd Hfree Hu' Hname). }
        rewrite Hid. split; [done|].
        split; [by apply (shown_insert (set_peer_usernames (claimed i name) d))|]. split; [done|].
        split; [exact Hf|]. split; [exact Hp|]. split; [exact Hfree|]. rewrite decide_False by done. split; [done|].
        by destruct d.
      * destruct (replace_statements _ _ _ _ _) as [r' d'] eqn:E'. cbn in Er. subst r'.
        rewrite (bind_Throw _ _ _ _ _ E'). split; [done|]. split; [done|]. right. exists i. auto.
Qed.

(** *** Subscriptions that have run out *)

Lemma sweep_loop t l : forall d, sound d -> NoDup l.*1 ->
  (forall i r, (i, r) ∈ l -> users d !! i = Some r /\ is_live r = true) ->
  let '(res, d') := collect (fun row => write_user row.1 (with_premium None t row.2)) l d in
  match res with
  | Throw e => exists s w, e = SqlError s w
  | Ok out => out = (fun row => (row.1, with_premium None t row.2)) <$> l /\ sound d' /\ only_users d d' /\
      (forall i r, (i, r) ∈ l -> users d' !! i = Some (with_premium None t r)) /\
      (forall i, i ∉ l.*1 -> users d' !! i = users d !! i)
  end.
Proof.
  induction l as [|[i r] l IH]; intros d Hd Hnd Hl.
  { cbn. split; [done|]. split; [done|]. split; [by destruct d|]. split; [|done]. by intros ? ? ?%not_elem_of_nil. }
  cbn [collect fst snd]. cbn in Hnd. apply NoDup_cons in Hnd as [Hi Hnd].
  destruct (Hl i r ltac:(constructor)) as [Hr Hlive].
  destruct (write_user_run i (with_premium None t r) d) as [(s & w & Hc & E)|E].
  { rewrite (bind_Throw _ _ _ _ _ E). eauto. }
  rewrite (bind_Ok _ _ _ _ _ E). set (d1 := set_users _ d).
  destruct (sound_row d i r Hd Hr) as (u & Hu & _).
  destruct (sets_premium 0 t i r u Hu Hlive) as (En & Ed & u' & Hu' & _). cbn in Hu', En.
  assert (Hd1 : sound d1).
  { apply (sound_write d i _ u' Hd Hu'). intros _ Hne. rewrite En in *. by apply (sound_names d Hd i r). }
  specialize (IH d1 Hd1 Hnd). unfold bind at 1. destruct (collect _ l d1) as [res d2] eqn:Ec.
  assert (Hl1 : forall j r', (j, r') ∈ l -> users d1 !! j = Some r' /\ is_live r' = true).
  { intros j r' Hj. destruct (Hl j r' ltac:(by constructor)) as [H1 H2]. split; [|done]. cbn.
    rewrite lookup_insert_ne; [done|]. intros <-. apply Hi. by apply (list_elem_of_fmap_2 fst l (i, r')). }
  specialize (IH Hl1). destruct res as [out|e]; [|done]. destruct IH as (-> & Hs & Ho & Hin & Hout).
  split; [done|]. split; [done|]. split; [unfold only_users in *; revert Ho; clear; destruct d, d2; cbn; by intros [= -> -> -> -> -> -> -> -> ->]|].
  split.
  - intros j r' Hj. apply elem_of_cons in Hj as [[= -> ->]|Hj]; [|by apply Hin]. rewrite Hout by done. cbn.
    apply lookup_insert_eq.
  - intros j Hj. cbn in Hj. apply not_elem_of_cons in Hj as [Hne Hj]. rewrite Hout by done. cbn.
    by apply lookup_insert_ne.
Qed.

Lemma elem_of_expired now limit d i r : (i, r) ∈ expired now limit d ->
  users d !! i = Some r /\ is_live r = true /\ exists at_, UserRow.premium_expires_at r = Some at_ /\ at_ <= now * 1000000.
Proof.
  intros H0. pose proof (elem_of_sublist _ _ _ H0 (sublist_take _ _)) as H.
  rewrite merge_sort_Permutation in H. apply elem_of_users in H as [Hr H]. cbn in H.
  destruct (UserRow.premium_expires_at r) as [at_|]; [|done]. apply andb_true_iff in H as [Hl H%Z.leb_le]. eauto.
Qed.
Lemma expired_all now limit d i : (length (expired now limit d) < limit)%nat -> runs_out now d i -> i ∈ (expired now limit d).*1.
Proof.
  intros Hlen (r & at_ & Hr & Hl & Ha & Hle). unfold expired in *. rewrite length_take in Hlen. rewrite take_ge by lia.
  apply list_elem_of_fmap. exists (i, r). split; [done|]. rewrite merge_sort_Permutation. apply elem_of_users. split; [done|].
  cbn. rewrite Ha, Hl. by apply Z.leb_le.
Qed.
Lemma NoDup_expired now limit d : NoDup (expired now limit d).*1.
Proof.
  unfold expired. eapply sublist_NoDup; [|apply fmap_sublist, sublist_take]. rewrite merge_sort_Permutation. apply NoDup_users.
Qed.

Lemma SweepExpiredPremium_refines now limit :
  refines sound Datatypes.id (SweepExpiredPremium now limit) (Sweep_spec now limit).
Proof.
  unfold SweepExpiredPremium. destruct (Z.leb_spec limit 0) as [Hlim|Hlim].
  { apply refines_ret. intros d. split; [unfold zlen; cbn; lia|]. split; [constructor|]. split; [by destruct d|].
    split; [by intros u ?%not_elem_of_nil|]. split; [done|]. unfold zlen. cbn. lia. }
  eapply refines_implements; [apply transaction_implements, runs_exec|]. intros t d Hd.
  unfold atomically, sweep. rewrite bind_gets. set (doomed := expired now (Z.to_nat limit) d).
  assert (Hin : forall i r, (i, r) ∈ doomed -> users d !! i = Some r /\ is_live r = true).
  { intros i r H. apply elem_of_expired in H as (Hr & Hl & _). done. }
  pose proof (sweep_loop t doomed d Hd (NoDup_expired _ _ _) Hin) as Hrun.
  destruct (collect _ doomed d) as [[out|e] d']; [|destruct Hrun as (s & w & ->); cbn; eauto 10].
  destruct Hrun as (-> & Hs & Ho & Hset & Hkeep).
  destruct (to_users_run d' ((fun row => (row.1, with_premium None t row.2)) <$> doomed) Hs) as (us & E & Hids & Hus).
  { intros i r H. apply list_elem_of_fmap in H as ([j r'] & [= -> ->] & H). by apply Hset. }
  rewrite E. split; [done|]. assert (Hids' : id <$> us = doomed.*1) by (rewrite Hids, <- list_fmap_compose; done).
  assert (Hlen : zlen us = zlen doomed).
  { unfold zlen. f_equal. transitivity (length (id <$> us)); [by rewrite length_fmap|]. by rewrite Hids', length_fmap. }
  unfold Sweep_spec, Datatypes.id. rewrite Hids'. split.
  { rewrite Hlen. unfold zlen, doomed, expired. rewrite length_take. lia. }
  split; [apply NoDup_expired|]. split; [done|]. split; [|split].
  - intros u' Hu'. rewrite Forall_forall in Hus. specialize (Hus u' Hu').
    assert (Hi : id u' ∈ doomed.*1) by (rewrite <- Hids'; by apply list_elem_of_fmap_2).
    apply list_elem_of_fmap in Hi as ([i r] & Hi & Hir). cbn in Hi. rewrite Hi in *.
    destruct (Hin i r Hir) as [Hr Hl]. destruct (sound_row d i r Hd Hr) as (u & Hu & Hshow & _).
    exists u. split; [done|]. split; [|split; [done|]].
    + apply elem_of_expired in Hir as (_ & _ & at_ & Ha & Hle). by exists r, at_.
    + destruct (sets_premium 0 t i r u Hu Hl) as (_ & _ & u2 & Hu2 & HP). cbn in Hu2.
      rewrite shown_lookup, (Hset i r Hir) in Hus. cbn in Hus. rewrite (shown_Ok _ _ _ Hu2) in Hus. by injection Hus as <-.
  - intros i Hi. by rewrite !shown_lookup, Hkeep.
  - rewrite Hlen. intros Hlt i Hi. apply expired_all; [|done]. fold doomed. unfold zlen in Hlt. lia.
Qed.

End Refinement.

(** ** Histories of calls *)

Section History.
Context {js : Json} {schema : UserSchema} {server : Server}.
Import UserStore.

(** The calls of the store. *)
Inductive operation : forall {A}, M World A -> Prop :=
  | op_ByID i : operation (ByID i)
  | op_ByIDs l : operation (ByIDs l)
  | op_ByPhone p : operation (ByPhone p)
  | op_ByUsername n : operation (ByUsername n)
  | op_Create u : operation (Create u)
  | op_SetPremiumUntil i t : operation (SetPremiumUntil i t)
  | op_SetVerified i v : operation (SetVerified i v)
  | op_SetSupport i v : operation (SetSupport i v)
  | op_UpdateLastSeen i t : operation (UpdateLastSeen i t)
  | op_UpdateProfile i f l a : operation (UpdateProfile i f l a)
  | op_UpdateUsername i n : operation (UpdateUsername i n)
  | op_UpdatePhone i p : operation (UpdatePhone i p)
  | op_SetScamFake i s f : operation (SetScamFake i s f)
  | op_SweepExpiredPremium t n : operation (SweepExpiredPremium t n)
  | op_UpdateEmojiStatus i s : operation (UpdateEmojiStatus i s)
  | op_UpdateBirthday i b : operation (UpdateBirthday i b)
  | op_UpdatePersonalChannel i c : operation (UpdatePersonalChannel i c)
  | op_UpdateColor i p c : operation (UpdateColor i p c).

(** One call, whatever it returns and whatever the server does. *)
Inductive called : World -> World -> Prop :=
  | called_op {A} (m : M World A) w : operation m -> called w (snd (m w)).

Context {laws : UserSchemaLaws}.

Lemma called_sound w w' : called w w' -> sound (committed w) -> sound (committed w').
Proof.
  intros [A m w0 H] Hw. destruct H; eapply refines_good; try exact Hw;
    [apply ByID_refines|apply ByIDs_refines|apply ByPhone_refines|apply ByUsername_refines|apply Create_refines
    |apply SetPremiumUntil_refines|apply SetVerified_refines|apply SetSupport_refines|apply UpdateLastSeen_refines
    |apply UpdateProfile_refines|apply UpdateUsername_refines|apply UpdatePhone_refines|apply SetScamFake_refines
    |apply SweepExpiredPremium_refines|apply UpdateEmojiStatus_refines|apply UpdateBirthday_refines
    |apply UpdatePersonalChannel_refines|apply UpdateColor_refines].
Qed.

(** Two live users whose names differ at most in case are one. *)
Lemma sound_unique d i j u v : sound d -> rows d !! i = Some u -> rows d !! j = Some v ->
  deleted u = false -> deleted v = false -> username u <> [] -> ToLower (username u) = ToLower (username v) -> i = j.
Proof.
  intros Hd Hi Hj Hu Hv Hne E. rewrite shown_lookup in Hi, Hj.
  destruct (users d !! i) as [r|] eqn:Er; [|done]. destruct (users d !! j) as [r'|] eqn:Er'; [|done].
  destruct (sound_row d i r Hd Er) as (u' & Ru & Si & Li). destruct (sound_row d j r' Hd Er') as (v' & Rv & Sj & Lj).
  rewrite shown_lookup, Er in Si. rewrite shown_lookup, Er' in Sj. cbn in *.
  assert (Eu : u' = u) by congruence. assert (Ev : v' = v) by congruence. rewrite Eu, Ev in *.
  assert (Hl : is_live r = true) by (by destruct (is_live r); cbn in Li; congruence).
  assert (Hl' : is_live r' = true) by (by destruct (is_live r'); cbn in Lj; congruence).
  apply RowToUser_fields in Ru as (_ & _ & Hru). apply RowToUser_fields in Rv as (_ & _ & Hrv).
  destruct (Hru Hl) as [Hnu _]. destruct (Hrv Hl') as [Hnv _].
  destruct (sound_names d Hd i r Er Hl ltac:(congruence)) as (s & Hs & _ & <-).
  destruct (sound_names d Hd j r' Er' Hl') as (s' & Hs' & _ & <-).
  { intros H. rewrite Hnv, H in E. by apply (proj1 (ToLower_nil _)) in E. }
  rewrite Hnu, Hnv in E. congruence.
Qed.

End History.

(** ** A concrete schema *)

Module ToyUsers.

(** A JSON library that knows the empty object. *)
#[export] Instance toy_json : Json := {|
  parse := fun s => if decide (s = lit "{}") then Some (JObject []) else None;
  dump := fun _ => None |}.

Definition toy_user_row (t : Z) : UserRow.t :=
  UserRow.Mk 0 [] [] [] [] [] [] false false false false false 0 None 0 0 None (lit "{}") (MkBirthday 0 0 0) 0 0
    (MkPeerColor false 0 0) (MkPeerColor false 0 0) 0 None [] [] t None t.

(** Ids count up; phone numbers are unique. *)
#[export] Instance toy_users : UserSchema := {|
  new_user := fun t us => (1000 + Z.of_nat (size us), toy_user_row t);
  users_refuse := fun us i r =>
    if decide (UserRow.phone r <> [] /\ map_Exists (fun j r' => j <> i /\ UserRow.phone r' = UserRow.phone r) us)
    then Some ("23505"%string, "duplicate key value violates unique constraint users_phone_unique_idx"%string) else None;
  lower := ToLower; jsonb := fun s => if decide (s = lit "{}") then Some s else None |}.

#[export] Instance toy_users_laws : UserSchemaLaws.
Proof. split; [by exists (lit "{}")|by intros]. Qed.

Definition empty_db : Db := MkDb ∅ ∅ ∅ ∅ ∅ ∅ ∅ ∅ ∅ ∅.
Lemma empty_sound : sound empty_db.
Proof. split; cbn; intros i r H; by rewrite lookup_empty in H. Qed.

Definition start : World := MkWorld empty_db empty_db 0 0 [].
Definition person (number name : bytes) : User :=
  named name (blank_user 0 77 number (lit "Ann") [] (MkStatus StatusUnknown 0 0) false 0 DeletionNone [] 0 0).
(** The server that never fails. *)
Definition healthy : Server := {| failure := fun _ => None; time_of := fun n => 1700000000000000 + Z.of_nat n |}.

End ToyUsers.

(** ** Properties *)

(** C11. User names stay unique. Whatever calls are made of the user store, in
    any order, and whatever the server does, from tables in which every row can
    be read and every live user's name is registered as its own the tables stay
    so; and then no two live users have names that differ at most in case. The
    uniqueness rests on the registry alone, not on an index of the table. *)
Theorem usernames_stay_unique {js : Json} {schema : UserSchema} {laws : UserSchemaLaws} {server : Server}
    (w w' : World) (Hw : sound (committed w)) (Hcalls : rtc called w w') :
  sound (committed w') /\
  forall i j u v, rows (committed w') !! i = Some u -> rows (committed w') !! j = Some v ->
    deleted u = false -> deleted v = false -> username u <> [] ->
    ToLower (username u) = ToLower (username v) -> i = j.
Proof.
  assert (H : sound (committed w')).
  { induction Hcalls as [w|w w1 w' Hc _ IH]; [done|]. apply IH. by eapply called_sound. }
  split; [done|]. intros i j u v. by apply sound_unique.
Qed.

Section Witness.
#[local] Existing Instances ToyUsers.toy_json ToyUsers.toy_users ToyUsers.toy_users_laws ToyUsers.healthy.

(** Two people; the second is refused the name of the first, in capitals. *)
Definition ann : User := ToyUsers.person (lit "15550001") (lit "ann_1").
Definition ANN : User := ToyUsers.person (lit "15550002") (lit "ANN_1").
Definition one_person : World := snd (UserStore.Create ann ToyUsers.start).
Definition two_people : World := snd (UserStore.Create ANN one_person).

Lemma usernames_stay_unique_witness :
  fst (UserStore.Create ANN one_person) = Throw UsernameOccupiedError /\
  sound (committed two_people) /\
  forall i j u v, rows (committed two_people) !! i = Some u -> rows (committed two_people) !! j = Some v ->
    deleted u = false -> deleted v = false -> username u <> [] ->
    ToLower (username u) = ToLower (username v) -> i = j.
Proof.
  split; [vm_compute; reflexivity|].
  apply (usernames_stay_unique ToyUsers.start two_people ToyUsers.empty_sound).
  apply (rtc_l called _ one_person); [apply (called_op (UserStore.Create ann)), op_Create|].
  apply (rtc_l called _ two_people); [apply (called_op (UserStore.Create ANN)), op_Create|apply rtc_refl].
Defined.
End Witness.


