(* ===== verification/PasswordStore.v ===== *)
(** * Passwords in Postgres: [password_store.cpp]

    [PasswordStore]: one row per account.  The columns [current_algo_*] stand
    for both algorithms of the settings, so that what is read back is not always
    what was saved. *)

From Stdlib Require Import ZArith Lia Strings.Byte Strings.String.
From stdpp Require Import base decidable list gmap.
From S2P Require Import Prelude Text OpenSSL Store Password Database KeyStore.

(** [BytesFrom], [BytesParam]: a bytea is its bytes, an empty one too. *)
Definition BytesFrom (f : bytes) : bytes := f.
Definition BytesParam (v : bytes) : bytes := v.

Definition RowToSettings (r : PasswordRow.t) : PasswordSettings.t :=
  let a := PasswordRow.algo r in
  let algo := PasswordAlgo.Mk (BytesFrom (PasswordAlgo.salt1 a)) (BytesFrom (PasswordAlgo.salt2 a))
                (PasswordAlgo.g a) (BytesFrom (PasswordAlgo.p a)) in
  PasswordSettings.Mk (PasswordRow.has_recovery r) (PasswordRow.has_secure_values r) (PasswordRow.has_password r)
    (PasswordRow.hint r) (BytesFrom (PasswordRow.secure_random r)) algo
    (if negb (bool_decide (PasswordAlgo.salt1 algo = [])) || negb (bool_decide (PasswordAlgo.salt2 algo = [])) ||
        negb (bool_decide (PasswordAlgo.p algo = [])) || negb (PasswordAlgo.g algo =? 0)
     then Some algo else None)
    (PasswordRow.srp_id r) (BytesFrom (PasswordRow.srp_verifier r)) (BytesFrom (PasswordRow.srp_b_secret r))
    (BytesFrom (PasswordRow.srp_b r)).

Definition select_password (user_id : Z) (_ : Z) : M Db (option PasswordRow.t) :=
  gets (fun d => account_passwords d !! user_id).
(** [INSERT … ON CONFLICT (user_id) DO UPDATE SET …]: every column is given. *)
Definition upsert_password (user_id : Z) (r : PasswordRow.t) (_ : Z) : M Db unit :=
  modify (set_passwords (<[user_id := r]>)).

Definition row_of (settings : PasswordSettings.t) : PasswordRow.t :=
  let algo := default (PasswordSettings.new_algo settings) (PasswordSettings.current_algo settings) in
  PasswordRow.Mk (PasswordSettings.has_recovery settings) (PasswordSettings.has_secure_values settings)
    (PasswordSettings.has_password settings) (PasswordSettings.hint settings)
    (BytesParam (PasswordSettings.secure_random settings))
    (PasswordAlgo.Mk (BytesParam (PasswordAlgo.salt1 algo)) (BytesParam (PasswordAlgo.salt2 algo))
       (PasswordAlgo.g algo) (BytesParam (PasswordAlgo.p algo)))
    (PasswordSettings.srp_id settings) (BytesParam (PasswordSettings.srp_verifier settings))
    (BytesParam (PasswordSettings.srp_b_secret settings)) (BytesParam (PasswordSettings.srp_b settings)).

Module PasswordStore.
Section Operations.
Context {server : Server}.

Definition GetByUser (user_id : Z) : M World (option PasswordSettings.t) :=
  transaction (exec (select_password user_id)) (fun result => Ok (RowToSettings <$> result)).

Definition Save (user_id : Z) (settings : PasswordSettings.t) : M World unit :=
  transaction (exec (upsert_password user_id (row_of settings))) Ok.

End Operations.
End PasswordStore.

(** ** What the store promises *)

(** The settings as reading shows them. *)
Definition settings (d : Db) (i : Z) : option PasswordSettings.t := RowToSettings <$> account_passwords d !! i.

#[export] Instance PasswordAlgo_eq_dec : EqDecision PasswordAlgo.t.
Proof. solve_decision. Defined.

(** Everything is read back but the algorithms: one of them is kept, the
    current one if there is one, and it is shown as the next algorithm too; a
    blank one is no current algorithm. *)
Definition kept (s : PasswordSettings.t) : PasswordSettings.t :=
  let a := default (PasswordSettings.new_algo s) (PasswordSettings.current_algo s) in
  PasswordSettings.Mk (PasswordSettings.has_recovery s) (PasswordSettings.has_secure_values s)
    (PasswordSettings.has_password s) (PasswordSettings.hint s) (PasswordSettings.secure_random s) a
    (if decide (a = PasswordAlgo.Mk [] [] 0 []) then None else Some a)
    (PasswordSettings.srp_id s) (PasswordSettings.srp_verifier s) (PasswordSettings.srp_b_secret s) (PasswordSettings.srp_b s).

Definition GetByUser_reads (i : Z) (d : Db) (r : res (option PasswordSettings.t)) (d' : Db) : Prop :=
  r = Ok (settings d i) /\ d' = d.
Definition Save_writes (i : Z) (s : PasswordSettings.t) (d : Db) (r : res unit) (d' : Db) : Prop :=
  r = Ok tt /\ settings d' i = Some (kept s) /\ (forall j, j <> i -> settings d' j = settings d j) /\
  set_passwords (fun _ => account_passwords d) d' = d.

Section Refinement.
Context {server : Server}.

Lemma RowToSettings_kept s : RowToSettings (row_of s) = kept s.
Proof.
  unfold RowToSettings, row_of, kept. cbn. set (a := default _ _). destruct a as [s1 s2 g p]. cbn. f_equal.
  unfold BytesFrom, BytesParam.
  destruct s1; [|by rewrite decide_False]. destruct s2; [|by rewrite decide_False]. destruct p; [|by rewrite decide_False].
  cbn. destruct (Z.eqb_spec g 0) as [->|]; cbn; [done|]. rewrite decide_False; [done|]. congruence.
Qed.

(** What was saved is kept whole, if it has a current algorithm that is not
    blank, and the next one is the same. *)
Lemma kept_whole s a : PasswordSettings.current_algo s = Some a -> PasswordSettings.new_algo s = a ->
  a <> PasswordAlgo.Mk [] [] 0 [] -> kept s = s.
Proof. destruct s. cbn. intros -> -> Ha. unfold kept. cbn. by rewrite decide_False. Qed.

Lemma kept_same_proof s : storable s -> same_proof (kept s) s.
Proof.
  intros H. unfold same_proof, kept. cbn. repeat (split; [done|]). intros a Ha. rewrite Ha. cbn.
  rewrite decide_False; [done|]. by apply H.
Qed.

Import PasswordStore.

Lemma GetByUser_refines i : refines (fun _ => True) Datatypes.id (GetByUser i) (GetByUser_reads i).
Proof. eapply refines_implements; [apply transaction_implements, runs_exec|]. intros t d _. by split. Qed.

Lemma Save_refines i s : refines (fun _ => True) Datatypes.id (Save i s) (Save_writes i s).
Proof.
  eapply refines_implements; [apply transaction_implements, runs_exec|]. intros t d _. cbn. split; [done|].
  split; [done|]. unfold settings. cbn [account_passwords set_passwords]. split; [|split].
  - rewrite lookup_insert_eq. cbn. by rewrite RowToSettings_kept.
  - intros j Hj. by rewrite lookup_insert_ne.
  - by destruct d.
Qed.

(** A stored row can be stored again. *)
Lemma normalized_storable d i : storable (normalized (settings d i)).
Proof.
  unfold storable, normalized, NormalizePasswordSettings, settings. destruct (account_passwords d !! i) as [r|]; cbn.
  - unfold RowToSettings. cbn. destruct (PasswordRow.algo r) as [s1 s2 g p]. cbn. unfold BytesFrom.
    destruct s1, s2, p; cbn; try (intros a [= <-]; done).
    destruct (Z.eqb_spec g 0) as [->|Hg]; cbn; [|intros a [= <-]; congruence].
    destruct (PasswordRow.has_password r); [|done]. by intros a [= <-].
  - done.
Qed.

(** C15. What the password store keeps: saving settings and reading them back
    returns them unchanged but for the two algorithms, which share their
    columns. The current algorithm (the next one, if there is none) is read
    back as both, and a blank one is not a current algorithm; so what a proof of
    the password is checked with survives, and settings with one algorithm
    survive whole. Other accounts and other tables are untouched. If the server
    fails, the call throws and the row is the old one or, after a lost commit,
    the new one. *)
Theorem PasswordStore_refines :
  (forall i, refines (fun _ => True) Datatypes.id (GetByUser i) (GetByUser_reads i)) /\
  (forall i s, refines (fun _ => True) Datatypes.id (Save i s) (Save_writes i s)) /\
  (forall s, storable s -> same_proof (kept s) s) /\
  (forall s a, PasswordSettings.current_algo s = Some a -> PasswordSettings.new_algo s = a ->
     a <> PasswordAlgo.Mk [] [] 0 [] -> kept s = s).
Proof.
  split; [exact GetByUser_refines|]. split; [exact Save_refines|]. split; [exact kept_same_proof|exact kept_whole].
Qed.

End Refinement.

Section Witness.

(** Somebody with a password, whose next algorithm differs from the current. *)
Definition some_algo : PasswordAlgo.t := PasswordAlgo.Mk (lit "salt1") (lit "salt2") 3 (lit "prime").
Definition some_settings : PasswordSettings.t :=
  PasswordSettings.Mk false false true (lit "hint") [] (PasswordAlgo.Mk (lit "next") [] 3 []) (Some some_algo) 7
    (lit "verifier") (lit "secret") (lit "public").

Lemma PasswordStore_refines_witness :
  storable some_settings /\ same_proof (kept some_settings) some_settings /\ kept some_settings <> some_settings.
Proof.
  assert (H : storable some_settings) by (intros a; cbn; by intros [= <-]).
  split; [exact H|]. split; [|by vm_compute].
  exact (proj1 (proj2 (proj2 (@PasswordStore_refines KeyStore.ToySchema.flaky))) some_settings H).
Defined.

End Witness.
