(* ===== verification/Locks.v ===== *)
(** * Advisory locks: [auth_identity_lock.cpp], [user_lock.cpp]

    Every transaction of the stores of [store/postgres/] takes its advisory
    locks in one order, which all transactions share: users by their id, then
    identities by the hash of theirs.  So the sessions of any number of servers
    that share a database never wait for each other in a circle, which is a
    step relation here: a session takes the next lock of its transaction when no
    other session holds it, and lets go of all its locks when the transaction
    ends. *)

From Stdlib Require Import ZArith Lia Strings.Byte Strings.String.
From stdpp Require Import base decidable relations list gmap sorting.
From S2P Require Import Prelude OpenSSL Json Domain Store Database KeyStore AuthorizationStore UserStore PasswordStore.

(** ** The order *)

Definition precedes (a b : AdvisoryLock) : Prop :=
  match a, b with
  | UserLock u, UserLock v => u < v
  | UserLock _, IdentityLock _ => True
  | IdentityLock j, IdentityLock k => j < k
  | IdentityLock _, UserLock _ => False
  end.
#[export] Instance AdvisoryLock_eq_dec : EqDecision AdvisoryLock.
Proof. solve_decision. Defined.
#[export] Instance precedes_dec a b : Decision (precedes a b).
Proof. destruct a, b; cbn; apply _. Defined.
#[export] Instance precedes_trans : Transitive precedes.
Proof. intros [] [] []; cbn; lia || done. Qed.
#[export] Instance precedes_irreflexive : Irreflexive precedes.
Proof. intros []; unfold complement; cbn; lia. Qed.

Definition ascending : list AdvisoryLock -> Prop := StronglySorted precedes.
Definition is_user (l : AdvisoryLock) : Prop := match l with UserLock _ => True | IdentityLock _ => False end.

Lemma ascending_app l k : ascending (l ++ k) <->
  ascending l /\ ascending k /\ forall x y, x ∈ l -> y ∈ k -> precedes x y.
Proof.
  unfold ascending. induction l as [|a l IH]; cbn.
  - split; [intros H; split; [constructor|split; [exact H|intros x y Hx; by apply not_elem_of_nil in Hx]]|by intros (_ & H & _)].
  - split.
    + intros [H1 H2]%StronglySorted_inv. apply IH in H1 as (Hl & Hk & Hlk). rewrite Forall_app in H2. destruct H2 as [H2 H3].
      split; [by constructor|]. split; [done|]. intros x y [->|Hx]%elem_of_cons Hy; [|by apply Hlk].
      rewrite Forall_forall in H3. by apply H3.
    + intros ([Hl Ha]%StronglySorted_inv & Hk & Hlk). constructor.
      * apply IH. split; [done|]. split; [done|]. intros x y Hx. apply Hlk. by right.
      * apply Forall_app. split; [done|]. apply Forall_forall. intros y Hy. apply Hlk; [by left|done].
Qed.

(** Numbers that are sorted and differ, as locks. *)
Lemma ascending_sorted (f : Z -> AdvisoryLock) l : (forall x y, x < y -> precedes (f x) (f y)) -> NoDup l ->
  ascending (f <$> merge_sort Z.le l).
Proof.
  intros Hf Hl. assert (Hs : StronglySorted Z.le (merge_sort Z.le l)) by apply (StronglySorted_merge_sort _).
  assert (Hn : NoDup (merge_sort Z.le l)) by by rewrite merge_sort_Permutation.
  induction Hs as [|x k Hs IH Hx]; cbn; [constructor|]. apply NoDup_cons in Hn as [Hxk Hn].
  constructor; [by apply IH|]. apply Forall_fmap, Forall_forall. intros y Hy. cbn. apply Hf.
  rewrite Forall_forall in Hx. specialize (Hx y Hy). assert (x <> y) by by intros ->. lia.
Qed.

(** ** What the operations lock *)

(** How far a transaction is: without locks, with users only, or with any. *)
Inductive stage : Type := Unlocked | Users | Identities.
Definition at_stage (s : stage) (locks : list AdvisoryLock) : Prop :=
  match s with
  | Unlocked => locks = []
  | Users => ascending locks /\ Forall is_user locks
  | Identities => ascending locks
  end.
Definition below (s t : stage) : Prop := forall locks, at_stage s locks -> at_stage t locks.

Lemma below_refl s : below s s.
Proof. by intros l. Qed.
Lemma Unlocked_below s : below Unlocked s.
Proof. intros l ->. destruct s; [done|split; constructor|constructor]. Qed.
Lemma below_Identities s : below s Identities.
Proof. destruct s; [apply Unlocked_below|by intros l []|apply below_refl]. Qed.

Section Operations.
Context {ssl : OpenSSL} {js : Json} {schema : Schema} {user_schema : UserSchema} {server : Server}.

(** From stage [s] of its transaction, [m] ends at [t], whatever happens. *)
Definition advances {A} (s t : stage) (m : M World A) : Prop := forall locks earlier,
  at_stage s locks ->
  effect taken m (locks :: earlier) (fun _ now => exists locks', now = locks' :: earlier /\ at_stage t locks').

Lemma advances_quiet {A} s t (m : M World A) : below s t -> frames taken m -> advances s t m.
Proof. intros Hb Hm l e Hl. apply effect_view_frame; [done|]. exists l. split; [done|by apply Hb]. Qed.

Lemma advances_bind {A B} s t u (m : M World A) (k : A -> M World B) :
  advances s t m -> below t u -> (forall a, advances t u (k a)) -> advances s u (bind m k).
Proof.
  intros Hm Hb Hk l e Hl. apply effect_bind. eapply effect_mono; [by apply Hm|].
  intros [a|x] now (l' & -> & Hl'); [by apply Hk|]. exists l'. split; [done|by apply Hb].
Qed.

Lemma advances_catch {A} s t (m : M World A) h :
  advances s t m -> (forall x, frames taken (h x)) -> advances s t (try_catch m h).
Proof.
  intros Hm Hh l e Hl. apply effect_catch_view; [|by apply Hm].
  intros x now Hnow. by apply effect_view_frame.
Qed.

(** Statements that take no lock come and go. *)
Lemma advances_then {A B} s t (m : M World A) (k : A -> M World B) :
  frames taken m -> below s t -> (forall a, advances s t (k a)) -> advances s t (bind m k).
Proof. intros Hm Hb Hk. apply (advances_bind s s); [by apply advances_quiet, Hm; apply below_refl|done|done]. Qed.

Lemma frames_request : frames taken request.
Proof. intros w. unfold request. by destruct (failure (requests w)). Qed.
Lemma frames_exec {A} (statement : Z -> M Db A) : frames taken (exec statement).
Proof. apply frames_bind; [apply frames_request|]. intros n w. by destruct (statement (began w) (working w)). Qed.
Lemma frames_commit : frames taken commit.
Proof. intros w. unfold commit. by destruct (failure (requests w)) as [[|[]]|]. Qed.

(** One statement that takes locks. *)
Lemma advances_lock s t locks : below s t ->
  (forall so_far, at_stage s so_far -> at_stage t (so_far ++ locks)) -> advances s t (pg_advisory_xact_lock locks).
Proof.
  intros Hb Hl so_far e Hs. apply effect_bind. intros w Hw. unfold request.
  destruct (failure (requests w)); cbn; rewrite Hw; [exists so_far; split; [done|by apply Hb]|].
  intros w' Hw'. cbn. rewrite Hw'. exists (so_far ++ locks). split; [done|by apply Hl].
Qed.

Lemma LockUserForUpdate_advances u : advances Unlocked Users (LockUserForUpdate u).
Proof.
  unfold LockUserForUpdate, LockUsersForUpdate. case_decide.
  - apply advances_quiet; [apply Unlocked_below|auto with frames].
  - apply advances_lock; [apply Unlocked_below|]. intros so_far ->. cbn [app]. split.
    + apply ascending_sorted; [done|apply NoDup_remove_dups].
    + apply Forall_fmap, Forall_forall. done.
Qed.

Lemma identities_advance keys : ascending (IdentityLock <$> keys) ->
  advances Users Identities (for_each (fun key => pg_advisory_xact_lock [IdentityLock key]) keys).
Proof.
  intros Hk locks e [Hl Hu].
  assert (Hall : ascending (locks ++ (IdentityLock <$> keys))).
  { apply ascending_app. split; [done|]. split; [done|]. intros x y Hx (k & -> & _)%list_elem_of_fmap.
    rewrite Forall_forall in Hu. specialize (Hu x Hx). by destruct x. }
  clear Hl Hu Hk. revert locks Hall. induction keys as [|k keys IH]; intros locks Hall.
  { rewrite app_nil_r in Hall. apply effect_view_frame; [apply frames_ret|]. by exists locks. }
  assert (Hl : ascending locks) by by apply ascending_app in Hall as (Hl & _).
  apply effect_bind. apply effect_bind. intros w Hw. unfold request.
  destruct (failure (requests w)); cbn; rewrite Hw; [by exists locks|].
  intros w' Hw'. cbn. rewrite Hw'. apply (IH (locks ++ [IdentityLock k])). by rewrite <- app_assoc.
Qed.

Lemma LockPermanentAuthIdentities_advances ids s : below s Users ->
  advances s Identities (LockPermanentAuthIdentities ids).
Proof.
  intros Hb. unfold LockPermanentAuthIdentities. case_decide.
  { apply advances_quiet; [apply below_Identities|auto with frames]. }
  assert (Hgo : advances Users Identities (result <- exec (fun _ => ret (lock_keys ids)) ;;
    for_each (fun key => pg_advisory_xact_lock [IdentityLock key]) result)).
  { intros l e Hl. unfold exec. apply effect_bind, effect_bind. intros w Hw. unfold request.
    destruct (failure (requests w)); cbn; rewrite Hw.
    - exists l. split; [done|]. by destruct Hl.
    - intros w' Hw'. cbn. rewrite Hw'. apply identities_advance; [|done].
      apply ascending_sorted; [done|apply NoDup_remove_dups]. }
  intros l e Hl. apply Hgo. by apply Hb.
Qed.

(** *** Whole operations *)

Definition orderly (transactions : list (list AdvisoryLock)) : Prop := Forall ascending transactions.
Definition stays_orderly {A} (m : M World A) : Prop := forall w, orderly (taken w) -> orderly (taken (snd (m w))).

Lemma quiet_orderly {A} (m : M World A) : frames taken m -> stays_orderly m.
Proof. intros Hm w Hw. by rewrite Hm. Qed.
Lemma orderly_bind {A B} (m : M World A) (k : A -> M World B) :
  stays_orderly m -> (forall a, stays_orderly (k a)) -> stays_orderly (bind m k).
Proof. intros Hm Hk w Hw. specialize (Hm w Hw). unfold bind. destruct (m w) as [[a|e] w']; [by apply Hk|done]. Qed.

(** A transaction begins without locks. *)
Lemma in_transaction {A} (body : M World A) : advances Unlocked Identities body ->
  stays_orderly (begin_work ;;; body).
Proof.
  intros Hb w Hw. unfold begin_work, request, bind. destruct (failure (requests w)); [exact Hw|]. cbn.
  set (w1 := MkWorld _ _ _ _ _). destruct (Hb [] (taken w) eq_refl w1 eq_refl) as (locks & -> & Hl).
  by constructor.
Qed.
Lemma transaction_orderly {A B} (body : M World A) (after : A -> res B) :
  advances Unlocked Identities body -> stays_orderly (transaction body after).
Proof.
  intros Hb. unfold transaction. apply in_transaction. apply (advances_bind _ Identities); [done|apply below_refl|].
  intros a. apply advances_quiet; [apply below_refl|]. apply frames_bind; [apply frames_commit|auto with frames].
Qed.
Lemma quiet_transaction {A B} (body : M World A) (after : A -> res B) :
  frames taken body -> stays_orderly (transaction body after).
Proof. intros Hb. by apply transaction_orderly, advances_quiet; [apply below_Identities|]. Qed.

(** Each attempt is a transaction of its own. *)
Lemma WithAuthIdentityTx_orderly {A} op (fn : M World A) :
  advances Unlocked Identities fn -> stays_orderly (WithAuthIdentityTx op fn).
Proof.
  intros Hfn. unfold WithAuthIdentityTx. generalize kAuthIdentityTxMaxAttempts as n.
  induction n as [|n IH]; [by apply quiet_orderly|]. cbn [AuthIdentityAttempts].
  assert (Htry : stays_orderly (begin_work ;;; a <- fn ;; commit ;;; ret a)).
  { apply in_transaction. apply (advances_bind _ Identities); [done|apply below_refl|].
    intros a. apply advances_quiet; [apply below_refl|]. apply frames_bind; [apply frames_commit|auto with frames]. }
  assert (Hretry : forall e, stays_orderly (retry (AuthIdentityAttempts n op fn) n e)).
  { intros e. unfold retry. by repeat case_match; first [exact IH|apply quiet_orderly; auto with frames]. }
  intros w Hw. specialize (Htry w Hw). unfold bind at 1. unfold bind at 1 in Htry.
  destruct (begin_work w) as [[[]|e] w1]; [|exact Htry].
  unfold try_catch. destruct ((a <- fn ;; commit ;;; ret a) w1) as [[a|e] w2]; [exact Htry|by apply Hretry].
Qed.


(** *** Every operation *)

#[local] Hint Resolve frames_exec frames_request frames_commit : frames.
#[local] Ltac quiet := repeat first
  [ solve [auto with frames] | apply frames_bind; [|intros ?] | apply frames_catch; [|intros ?] | case_match ].
#[local] Ltac quietly := repeat first
  [ apply quiet_transaction; solve [quiet] | apply quiet_orderly; solve [quiet]
  | apply orderly_bind; [|intros ?] | case_match ].

Lemma bind_body_advances a k : advances Unlocked Identities (AuthorizationStore.bind_body a k).
Proof.
  unfold AuthorizationStore.bind_body. cbv zeta.
  apply (advances_bind _ Users); [apply LockUserForUpdate_advances|apply below_Identities|]. intros _.
  apply advances_then; [auto with frames|apply below_Identities|]. intros [deleted|].
  2:{ apply advances_quiet; [apply below_Identities|auto with frames]. }
  apply advances_then; [auto with frames|apply below_Identities|]. intros _.
  apply (advances_bind _ Identities); [by apply LockPermanentAuthIdentities_advances, below_refl|apply below_refl|].
  intros _. apply advances_quiet; [apply below_refl|]. quiet.
Qed.

Lemma LockRaw_advances id : advances Unlocked Identities (LockRawAuthKeyInIdentityOrder id).
Proof.
  unfold LockRawAuthKeyInIdentityOrder, LookupAuthKeyIdentityHint.
  apply advances_then; [quiet|apply below_Identities|]. intros hint.
  apply advances_then; [auto with frames|apply below_Identities|]. intros _.
  apply (advances_bind _ Identities); [|apply below_refl|].
  - unfold when. destruct (h_has_identity hint); [apply LockPermanentAuthIdentities_advances, Unlocked_below|].
    apply advances_quiet; [apply below_Identities|auto with frames].
  - intros _. apply advances_quiet; [apply below_refl|]. quiet.
Qed.

(** The calls of the stores of [store/postgres/]. *)
Inductive store_call : forall {A}, M World A -> Prop :=
  | call_SaveKey k : store_call (AuthKeyStore.Save k)
  | call_GetKey i : store_call (AuthKeyStore.Get i)
  | call_Revalidate i : store_call (AuthKeyStore.Revalidate i)
  | call_LoadBindingKeys t p : store_call (AuthKeyStore.LoadBindingKeys t p)
  | call_UpdateKeyInfo i info : store_call (AuthKeyStore.UpdateClientInfo i info)
  | call_DeleteKey i : store_call (AuthKeyStore.Delete i)
  | call_SaveWithState b : store_call (TempAuthKeyBindingStore.SaveWithState b)
  | call_GetByTemp i : store_call (TempAuthKeyBindingStore.GetByTemp i)
  | call_Bind a : store_call (AuthorizationStore.Bind a)
  | call_ByAuthKey i : store_call (AuthorizationStore.ByAuthKey i)
  | call_UpdateInfo i info : store_call (AuthorizationStore.UpdateClientInfo i info)
  | call_ListByUser u : store_call (AuthorizationStore.ListByUser u)
  | call_Delete i : store_call (AuthorizationStore.Delete i)
  | call_DeleteByHash u h : store_call (AuthorizationStore.DeleteByHash u h)
  | call_DeleteByUserExcept u i : store_call (AuthorizationStore.DeleteByUserExcept u i)
  | call_MarkPasswordPassed i u : store_call (AuthorizationStore.MarkPasswordPassed i u)
  | call_RevokeByHash u h : store_call (AuthorizationStore.RevokeByHash u h)
  | call_RevokeByUserExcept u i : store_call (AuthorizationStore.RevokeByUserExcept u i)
  | call_users {A} (m : M World A) : operation m -> store_call m
  | call_GetByUser u : store_call (PasswordStore.GetByUser u)
  | call_SavePassword u p : store_call (PasswordStore.Save u p).

Lemma DeleteKey_orderly i : stays_orderly (AuthKeyStore.Delete i).
Proof.
  apply WithAuthIdentityTx_orderly. apply (advances_bind _ Identities); [|apply below_refl|].
  - apply advances_catch; [|intros x; quiet].
    apply (advances_bind _ Identities); [apply LockRaw_advances|apply below_refl|].
    intros _. apply advances_quiet; [apply below_refl|auto with frames].
  - intros found. apply advances_quiet; [apply below_refl|]. destruct found; quiet.
Qed.
Lemma RevokeByHash_orderly u h : stays_orderly (AuthorizationStore.RevokeByHash u h).
Proof.
  apply WithAuthIdentityTx_orderly. apply advances_then; [auto with frames|apply below_Identities|].
  intros [candidate|]; [|apply advances_quiet; [apply below_Identities|auto with frames]].
  apply (advances_bind _ Identities); [apply LockPermanentAuthIdentities_advances, Unlocked_below|apply below_refl|].
  intros _. apply advances_quiet; [apply below_refl|]. quiet.
Qed.
Lemma RevokeByUserExcept_orderly u i : stays_orderly (AuthorizationStore.RevokeByUserExcept u i).
Proof.
  apply WithAuthIdentityTx_orderly. apply advances_then; [auto with frames|apply below_Identities|].
  intros candidates. case_decide; [apply advances_quiet; [apply below_Identities|auto with frames]|].
  apply (advances_bind _ Identities); [apply LockPermanentAuthIdentities_advances, Unlocked_below|apply below_refl|].
  intros _. apply advances_quiet; [apply below_refl|]. quiet.
Qed.

Lemma users_orderly {A} (m : M World A) : operation m -> stays_orderly m.
Proof.
  assert (Hr : forall t i n l, frames taken (ReplacePeerUsernameTx t i n l)).
  { intros t i n l. unfold ReplacePeerUsernameTx, GetPeerUsernameOwner, CollectibleUsernameReserved. quiet. }
  intros [];
    unfold UserStore.ByID, UserStore.ByIDs, UserStore.ByPhone, UserStore.ByUsername, UserStore.Create,
      UserStore.SetPremiumUntil, UserStore.SetVerified, UserStore.SetSupport, UserStore.UpdateLastSeen,
      UserStore.UpdateProfile, UserStore.UpdateUsername, UserStore.UpdatePhone, UserStore.SetScamFake,
      UserStore.SweepExpiredPremium, UserStore.UpdateEmojiStatus, UserStore.UpdateBirthday,
      UserStore.UpdatePersonalChannel, UserStore.UpdateColor, update_and_read, on_unique; cbv zeta; quietly.
Qed.

Lemma SaveWithState_orderly b : stays_orderly (TempAuthKeyBindingStore.SaveWithState b).
Proof.
  apply orderly_bind; [apply quiet_orderly; auto with frames|]. intros _. apply WithAuthIdentityTx_orderly.
  apply advances_quiet; [apply below_Identities|]. apply frames_bind; [|intros [[]]; auto with frames].
  apply frames_catch; [auto with frames|]. intros e w. by repeat case_match.
Qed.
Lemma Bind_orderly a : stays_orderly (AuthorizationStore.Bind a).
Proof. apply WithAuthIdentityTx_orderly, bind_body_advances. Qed.
#[local] Hint Resolve DeleteKey_orderly RevokeByHash_orderly RevokeByUserExcept_orderly users_orderly
  SaveWithState_orderly Bind_orderly : core.

Lemma calls_orderly {A} (m : M World A) : store_call m -> stays_orderly m.
Proof.
  intros []; auto; unfold AuthKeyStore.Save, AuthKeyStore.UpdateClientInfo, AuthorizationStore.DeleteByHash,
    AuthorizationStore.DeleteByUserExcept; quietly.
Qed.

End Operations.


(** ** Sessions that share a database *)

(** The locks a session holds, those its transaction still wants, and those of
    its later transactions. *)
Record session : Type := MkSession {
  held : list AdvisoryLock; wanted : list AdvisoryLock; later : list (list AdvisoryLock) }.
Abbreviation sessions := (gmap nat session).

Inductive lock_step : sessions -> sessions -> Prop :=
  | step_take S i h l ws ls :
      S !! i = Some (MkSession h (l :: ws) ls) ->
      (forall j t, S !! j = Some t -> j <> i -> l ∉ held t) ->
      lock_step S (<[i := MkSession (h ++ [l]) ws ls]> S)
  | step_next S i h t ls :
      S !! i = Some (MkSession h [] (t :: ls)) ->
      lock_step S (<[i := MkSession [] t ls]> S)
  | step_last S i h :
      S !! i = Some (MkSession h [] []) -> h <> [] ->
      lock_step S (<[i := MkSession [] [] []]> S).

Definition exclusive (S : sessions) : Prop :=
  forall i j s t l, S !! i = Some s -> S !! j = Some t -> i <> j -> l ∈ held s -> l ∉ held t.
Definition finished (S : sessions) : Prop := forall i s, S !! i = Some s -> s = MkSession [] [] [].

Definition good_session (s : session) : Prop := ascending (held s ++ wanted s) /\ orderly (later s).
Definition good_sessions (S : sessions) : Prop := map_Forall (fun _ => good_session) S /\ exclusive S.

(** One session moves on, to locks that nobody else holds. *)
Lemma move_exclusive S i s : exclusive S ->
  (forall j t l, S !! j = Some t -> j <> i -> l ∈ held s -> l ∉ held t) -> exclusive (<[i := s]> S).
Proof.
  intros He Hs j k t u l. rewrite !lookup_insert_Some.
  intros [[-> ->]|[Hj Ht]] [[-> ->]|[Hk Hu]] Hne Hl; [done|by apply (Hs k u)| |by apply (He j k t u)].
  intros Hl'. by apply (Hs j t l).
Qed.

Lemma step_good S S' : lock_step S S' -> good_sessions S -> good_sessions S'.
Proof.
  intros [T i h l ws ls Hi Hfree|T i h t ls Hi|T i h Hi _] [Hg He]; destruct (Hg i _ Hi) as [Ha Hl];
    cbn [held wanted later] in *; (split; [apply map_Forall_insert_2; [|done]; split|apply move_exclusive; [done|]]); cbn.
  - by rewrite <- app_assoc.
  - done.
  - intros j u x Hj Hne [Hx| ->%list_elem_of_singleton]%elem_of_app; [|by apply (Hfree j)].
    by apply (He i j _ _ x Hi Hj).
  - by apply Forall_cons in Hl as [].
  - by apply Forall_cons in Hl as [].
  - intros j u x _ _ Hx. by apply not_elem_of_nil in Hx.
  - constructor.
  - constructor.
  - intros j u x _ _ Hx. by apply not_elem_of_nil in Hx.
Qed.
Lemma steps_good S S' : rtc lock_step S S' -> good_sessions S -> good_sessions S'.
Proof. induction 1; eauto using step_good. Qed.

(** Of finitely many locks one is the last. *)
Lemma last_lock (l : list AdvisoryLock) : l <> [] -> exists x, x ∈ l /\ forall y, y ∈ l -> ~ precedes x y.
Proof.
  induction l as [|a l IH]; [done|]. intros _. destruct l as [|b l].
  { exists a. split; [by left|]. intros y ->%list_elem_of_singleton. apply irreflexivity, _. }
  destruct IH as (x & Hx & Hmax); [done|]. destruct (decide (precedes x a)) as [Hxa|Hxa].
  - exists a. split; [by left|]. intros y [ ->|Hy]%elem_of_cons; [apply irreflexivity, _|]. intros Hay.
    apply (Hmax y Hy). by etrans.
  - exists x. split; [by right|]. intros y [ ->|Hy]%elem_of_cons; [done|by apply Hmax].
Qed.

(** What the sessions wait for. *)
Definition waiting_for (S : sessions) : list AdvisoryLock := omap (fun row => head (wanted row.2)) (map_to_list S).
Lemma elem_of_waiting_for S l : l ∈ waiting_for S <-> exists i s ws, S !! i = Some s /\ wanted s = l :: ws.
Proof.
  unfold waiting_for. rewrite list_elem_of_omap. split.
  - intros ([i s] & Hi%elem_of_map_to_list & Hh). cbn in Hh. destruct (wanted s) as [|x ws] eqn:E; [done|].
    injection Hh as ->. by exists i, s, ws.
  - intros (i & s & ws & Hi & E). exists (i, s). split; [by apply elem_of_map_to_list|]. cbn. by rewrite E.
Qed.

(** The session that waits for the last lock does not wait for long: whoever
    holds it waits for nothing. *)
Lemma good_progress S : good_sessions S -> finished S \/ exists S', lock_step S S'.
Proof.
  intros [Hg He]. destruct (decide (waiting_for S = [])) as [Hw|Hw].
  - assert (Hnone : forall i s, S !! i = Some s -> wanted s = []).
    { intros i s Hi. destruct (wanted s) as [|l ws] eqn:E; [done|].
      assert (Hl : l ∈ waiting_for S) by (apply elem_of_waiting_for; by exists i, s, ws).
      rewrite Hw in Hl. by apply not_elem_of_nil in Hl. }
    destruct (decide (map_Forall (fun _ s => held s = [] /\ later s = []) S)) as [Hd|Hd].
    + left. intros i [h ws ls] Hi. specialize (Hnone i _ Hi). destruct (Hd i _ Hi) as [Hh Hl]. by cbn in *; subst.
    + right. apply map_not_Forall in Hd as (i & [h ws ls] & Hi & Hd); [|apply _]. specialize (Hnone i _ Hi). cbn in *. subst ws.
      destruct ls as [|t ls]; [|eexists; by eapply step_next]. eexists. eapply step_last; [exact Hi|]. by intros ->; apply Hd.
  - right. destruct (last_lock _ Hw) as (l & (i & [h ws0 ls] & ws & Hi & E)%elem_of_waiting_for & Hmax). cbn in E. subst ws0.
    destruct (decide (map_Forall (fun j t => j <> i -> l ∉ held t) S)) as [Hfree|Hheld].
    { eexists. eapply step_take; [exact Hi|]. intros j t Hj. by apply Hfree. }
    apply map_not_Forall in Hheld as (j & [h' [|l' ws'] ls'] & Hj & Hheld); [| |apply _].
    + destruct ls' as [|t ls']; eexists; [eapply step_last|eapply step_next]; try exact Hj.
      intros ->. apply Hheld. intros _. apply not_elem_of_nil.
    + exfalso. assert (Hl : l ∈ h') by (apply dec_stable; intros Hn; by apply Hheld).
      destruct (Hg j _ Hj) as [Ha _]. cbn in Ha. apply ascending_app in Ha as (_ & _ & Ha).
      apply (Hmax l'); [apply elem_of_waiting_for; by exists j, (MkSession h' (l' :: ws') ls'), ws'|].
      apply Ha; [done|by left].
Qed.

(** Without the order it may wait for ever. *)
Lemma opposite_orders_block (a b : AdvisoryLock) S :
  ~ lock_step {[0%nat := MkSession [a] [b] []; 1%nat := MkSession [b] [a] []]} S.
Proof.
  inversion 1 as [T i h l ws ls Hi Hfree|T i h t ls Hi|T i h Hi]; subst;
    apply lookup_insert_Some in Hi as [[<- [=]]|[_ [<- [=]]%lookup_singleton_Some]]; subst.
  - by apply (Hfree 1%nat (MkSession [l] [a] []) eq_refl); [|left].
  - by apply (Hfree 0%nat (MkSession [l] [b] []) eq_refl); [|left].
Qed.

(** *** Every way on ends *)

Definition busy (s : session) : nat := match held s, wanted s with [], [] => 0%nat | _, _ => 1%nat end.
Definition weight (s : session) : nat :=
  (length (wanted s) + busy s + sum_list_with (fun t => 2 + length t) (later s))%nat.
Definition total (S : sessions) : nat := map_fold (fun _ s n => weight s + n)%nat 0%nat S.

Lemma total_insert_new S i s : S !! i = None -> total (<[i := s]> S) = (weight s + total S)%nat.
Proof. intros Hi. unfold total. rewrite map_fold_insert_L; [done|intros; lia|done]. Qed.
Lemma total_insert S i s s' : S !! i = Some s -> (total (<[i := s']> S) + weight s = total S + weight s')%nat.
Proof.
  intros Hi. rewrite <- (insert_id S i s Hi) at 2. rewrite <- !(insert_delete_eq S).
  rewrite !total_insert_new by apply lookup_delete_eq. lia.
Qed.

Lemma lighter S i s s' : S !! i = Some s -> (weight s' < weight s)%nat -> (total (<[i := s']> S) < total S)%nat.
Proof. intros Hi Hw. pose proof (total_insert S i s s' Hi). lia. Qed.

Lemma step_total S S' : lock_step S S' -> (total S' < total S)%nat.
Proof.
  intros [T i h l ws ls Hi _|T i h t ls Hi|T i h Hi Hh]; apply (lighter _ _ _ _ Hi); unfold weight, busy.
  - destruct h; cbn; lia.
  - destruct h, t; cbn; lia.
  - destruct h; [done|]. cbn. lia.
Qed.
Lemma steps_total n S S' : nsteps lock_step n S S' -> (n + total S' <= total S)%nat.
Proof. induction 1 as [S|n S T U Hs%step_total _ IH]; lia. Qed.

Lemma good_finishes S : good_sessions S -> exists S', rtc lock_step S S' /\ finished S'.
Proof.
  remember (total S) as n eqn:E. revert S E. induction (lt_wf n) as [n _ IH]. intros S -> Hg.
  destruct (good_progress S Hg) as [Hf|[T Ht]]; [by exists S|].
  destruct (IH (total T) (step_total S T Ht) T eq_refl (step_good S T Ht Hg)) as (U & HU & Hf).
  exists U. split; [by eapply rtc_l|done].
Qed.

(** ** The sessions of the servers *)

Section Servers.
Context {ssl : OpenSSL} {js : Json} {schema : Schema} {user_schema : UserSchema} {server : Server}.

(** One call of a store, whatever it returns and whatever the server does. *)
Inductive calls : World -> World -> Prop :=
  | calls_store {A} (m : M World A) w : store_call m -> calls w (snd (m w)).

(** A session that has locked nothing yet, before transactions that lock what
    the calls that led to [w] locked. *)
Definition session_of (w : World) : session := MkSession [] [] (reverse (taken w)).

Lemma calls_good w0 w : taken w0 = [] -> rtc calls w0 w -> good_session (session_of w).
Proof.
  intros H0 Hw. assert (Ho : orderly (taken w0)) by (rewrite H0; constructor).
  split; [constructor|]. apply Forall_reverse. clear H0.
  induction Hw as [w|w0 w1 w Hc _ IH]; [done|]. apply IH. destruct Hc as [A m w0 Hm]. by apply (calls_orderly m).
Qed.
Lemma sessions_good (ws : gmap nat World) :
  (forall i w, ws !! i = Some w -> exists w0, taken w0 = [] /\ rtc calls w0 w) -> good_sessions (session_of <$> ws).
Proof.
  intros Hws. split.
  - intros i s. rewrite lookup_fmap. intros (w & Hi & ->)%fmap_Some. cbn.
    destruct (Hws i w Hi) as (w0 & H0 & Hw). by apply (calls_good w0).
  - intros i j s t l. rewrite !lookup_fmap. intros (w & _ & ->)%fmap_Some _ _ Hl. by apply not_elem_of_nil in Hl.
Qed.

End Servers.

(** C13. Servers that share a database never deadlock on its advisory locks.
    Each session makes calls of the stores, any number of them in any order,
    failures and retries included (it asks for the locks it would ask for on its
    own), and any number of sessions interleave, each waiting for the next lock of its transaction while another session holds
    it.  Then no lock has two holders; as long as a session is not done some
    session can go on; every way to go on ends, after at most as many steps as
    there are locks and transactions to come; and all can be done.  Hash
    collisions of identities do no harm: they are one lock, taken once. *)
Theorem advisory_locks_never_deadlock
    `{!OpenSSL, !Json, !Schema, !UserSchema, !Server} (ws : gmap nat World) (S : sessions) :
  (forall i w, ws !! i = Some w -> exists w0, taken w0 = [] /\ rtc calls w0 w) ->
  rtc lock_step (session_of <$> ws) S ->
  exclusive S /\
  (finished S \/ exists S', lock_step S S') /\
  (forall n S', nsteps lock_step n S S' -> (n <= total S)%nat) /\
  exists S', rtc lock_step S S' /\ finished S'.
Proof.
  intros Hws HS. pose proof (steps_good _ _ HS (sessions_good ws Hws)) as Hg. split; [apply Hg|].
  split; [by apply good_progress|]. split; [intros n S' Hn%steps_total; lia|by apply good_finishes].
Qed.

Section Witness.
#[local] Existing Instances Toy.toy ToySchema.toy_schema ToyUsers.toy_json ToyUsers.toy_users ToyUsers.healthy.

Definition device_key : bytes := replicate 8 x01.
Definition device : AuthKeyData.t := AuthKeyData.Mk device_key (replicate 256 x07) 5 0 0 0 0 [] [] [] 0 [].
Definition prepared : World :=
  snd (AuthKeyStore.Save device
    (snd (UserStore.Create ann ToyUsers.start))).
(** One server logs the device in, another deletes its key. *)
Definition login : Authorization.t := Authorization.Mk device_key 1000 5 0 [] [] [] 0 [] [] false 0 0.
Definition logs_in : World := snd (AuthorizationStore.Bind login prepared).
Definition deletes : World := snd (AuthKeyStore.Delete device_key prepared).
Definition servers : gmap nat World := {[0%nat := logs_in; 1%nat := deletes]}.

Lemma prepared_calls w : calls prepared w -> exists w0, taken w0 = [] /\ rtc calls w0 w.
Proof.
  intros H. exists ToyUsers.start. split; [done|].
  eapply rtc_l; [apply (calls_store (UserStore.Create ann)), call_users, op_Create|].
  eapply rtc_l; [apply (calls_store (AuthKeyStore.Save device)), call_SaveKey|]. by apply rtc_once.
Qed.

Lemma advisory_locks_never_deadlock_witness :
  taken logs_in = [[UserLock 1000; IdentityLock 16843009]; []; []] /\
  taken deletes = [[IdentityLock 16843009]; []; []] /\
  (finished (session_of <$> servers) \/ exists S', lock_step (session_of <$> servers) S').
Proof.
  split; [vm_compute; reflexivity|]. split; [vm_compute; reflexivity|].
  refine (proj1 (proj2 (advisory_locks_never_deadlock servers (session_of <$> servers) _ (rtc_refl _ _)))).
  intros i w Hi. unfold servers in Hi.
  apply lookup_insert_Some in Hi as [[<- <-]|[_ [<- <-]%lookup_singleton_Some]]; apply prepared_calls.
  - apply (calls_store (AuthorizationStore.Bind login)), call_Bind.
  - apply (calls_store (AuthKeyStore.Delete device_key)), call_DeleteKey.
Defined.
End Witness.
