(* ===== verification/Main.v ===== *)
(** * The server program: [cmd/shuzagram_server/main.cpp]

    The handlers of the API methods, the registry they are registered in, the
    resolver of known keys and what happens to a negotiated key.  The world
    [W], the stores, the clock, the generator and the delivery of codes are
    parameters.  [db_mutex] makes each handler that takes it one step; what is
    printed is not modelled. *)

From Stdlib Require Import ZArith Lia Strings.Byte Strings.String.
From stdpp Require Import base decidable list gmap.
From S2P Require Import Prelude Text TL Schema Messages OpenSSL Cipher Session Handshake Server.
From S2P Require Import Domain Store Auth Password Bind Api ApiSchema Users.
Import TLBuffer.

Definition EncodeRpcError (code : Z) (message : bytes) : bytes :=
  let error := RpcError.Mk code message in
  RpcError.Encode error [].

Definition kInternal : bytes := EncodeRpcError 500 (lit "INTERNAL").

(** ** The handlers *)

Section Handlers.
Context {ssl : OpenSSL} {W : Type} (e164 : bytes -> option bytes).
Context (rand : RandomFill W) (now : Clock W).

Section KeyStores.
Context (auth_keys : IAuthKeyStore W) (temp_keys : ITempAuthKeyBindingStore W).

Definition bind_error (e : exn) : bytes :=
  match e with
  | ExpiresAtInvalidError => EncodeRpcError 400 (lit "EXPIRES_AT_INVALID")
  | TempAuthKeyEmptyError => EncodeRpcError 400 (lit "TEMP_AUTH_KEY_EMPTY")
  | EncryptedMessageInvalidError => EncodeRpcError 400 (lit "ENCRYPTED_MESSAGE_INVALID")
  | TempAuthKeyAlreadyBoundError => EncodeRpcError 400 (lit "TEMP_AUTH_KEY_ALREADY_BOUND")
  | _ => kInternal
  end.

Definition HandleAuthBindTempAuthKey (body : bytes) (ctx : RpcContext) : M W bytes :=
  req <- local body AuthBindTempAuthKeyRequest.DecodeBare ;;
  let bind_req := BindRequest.Mk (ctx_auth_key_id ctx) (ctx_session_id ctx)
    (AuthBindTempAuthKeyRequest.perm_auth_key_id req) (AuthBindTempAuthKeyRequest.nonce req)
    (AuthBindTempAuthKeyRequest.expires_at req) (AuthBindTempAuthKeyRequest.encrypted_message req) in
  failed <- try_catch (_ <- BindTempAuthKey now auth_keys temp_keys bind_req ;; ret None)
              (fun e => ret (Some (bind_error e))) ;;
  match failed with
  | Some error => ret error
  | None => ret (EncodeBool true [])
  end.
End KeyStores.

Section UserStores.
Context (users : IUserStore W) (authorizations : IAuthorizationStore W).
Context (codes : ICodeStore W) (passwords : IPasswordStore W).

Definition send_code_error (e : exn) : bytes :=
  match e with
  | PhoneNumberInvalidError => EncodeRpcError 406 (lit "PHONE_NUMBER_INVALID")
  | _ => kInternal
  end.

Definition HandleAuthSendCode (otp_sender : option (OtpSender W)) (code_length : Z)
    (body : bytes) : M W bytes :=
  req <- local body AuthSendCodeRequest.DecodeBare ;;
  try_catch
    (hash <- SendCode e164 rand now users codes (AuthSendCodeRequest.phone_number req) (lit "12345")
               otp_sender code_length 300 ;;
     let resp := AuthSentCode.Mk (match otp_sender with Some _ => code_length | None => 5 end) hash in
     ret (AuthSentCode.Encode resp []))
    (fun e => ret (send_code_error e)).

(** [domain::Authorization auth_template; auth_template.auth_key_id = …;] *)
Definition template_of (ctx : RpcContext) : Authorization.t :=
  Authorization.Mk (ctx_auth_key_id ctx) 0 0 0 [] [] [] 0 [] [] false 0 0.

Definition sign_in_error (e : exn) : bytes :=
  match e with
  | SessionPasswordNeededError => EncodeRpcError 401 (lit "SESSION_PASSWORD_NEEDED")
  | CodeExpiredError => EncodeRpcError 400 (lit "PHONE_CODE_EXPIRED")
  | CodeInvalidError => EncodeRpcError 400 (lit "PHONE_CODE_INVALID")
  | AccountDeletedError => EncodeRpcError 406 (lit "PHONE_NUMBER_INVALID")
  | UserNotFoundError => EncodeRpcError 406 (lit "PHONE_NUMBER_INVALID")
  | AuthKeyNotPermanentError => EncodeRpcError 401 (lit "AUTH_KEY_PERM_EMPTY")
  | _ => kInternal
  end.

Definition HandleAuthSignIn (body : bytes) (ctx : RpcContext) : M W bytes :=
  req <- local body AuthSignInRequest.DecodeBare ;;
  try_catch
    (result <- SignIn e164 users authorizations codes (template_of ctx)
                 (AuthSignInRequest.phone_number req) (AuthSignInRequest.phone_code_hash req)
                 (AuthSignInRequest.phone_code req) (Some passwords) ;;
     ret (if need_sign_up result then AuthAuthorizationSignUpRequired.Encode []
          else AuthAuthorization.Encode (si_user result) []))
    (fun e => ret (sign_in_error e)).

Definition sign_up_error (e : exn) : bytes :=
  match e with
  | PhoneNumberInvalidError => EncodeRpcError 406 (lit "PHONE_NUMBER_INVALID")
  | FirstNameInvalidError => EncodeRpcError 400 (lit "FIRSTNAME_INVALID")
  | CodeExpiredError => EncodeRpcError 400 (lit "PHONE_CODE_EXPIRED")
  | CodeInvalidError => EncodeRpcError 400 (lit "PHONE_CODE_INVALID")
  | AccountDeletedError => EncodeRpcError 406 (lit "PHONE_NUMBER_INVALID")
  | UserNotFoundError => EncodeRpcError 406 (lit "PHONE_NUMBER_INVALID")
  | AuthKeyNotPermanentError => EncodeRpcError 401 (lit "AUTH_KEY_PERM_EMPTY")
  | _ => kInternal
  end.

Definition HandleAuthSignUp (body : bytes) (ctx : RpcContext) : M W bytes :=
  req <- local body AuthSignUpRequest.DecodeBare ;;
  try_catch
    (created <- SignUp e164 rand users authorizations codes (template_of ctx)
                  (AuthSignUpRequest.phone_number req) (AuthSignUpRequest.phone_code_hash req)
                  (AuthSignUpRequest.first_name req) (AuthSignUpRequest.last_name req) ;;
     ret (AuthAuthorization.Encode created []))
    (fun e => ret (sign_up_error e)).

Definition HandleAccountGetPassword (body : bytes) (ctx : RpcContext) : M W bytes :=
  local body AccountGetPasswordRequest.DecodeBare ;;;
  try_catch
    (authz <- ByAuthKey authorizations (ctx_auth_key_id ctx) ;;
     settings <- match authz with
                 | Some a =>
                     if negb (Authorization.user_id a =? 0)
                     then GetPassword rand passwords (Authorization.user_id a)
                     else ret DefaultPasswordSettings
                 | None => ret DefaultPasswordSettings
                 end ;;
     ret (AccountPassword.Encode settings []))
    (fun _ => ret kInternal).

Definition check_password_error (e : exn) : bytes :=
  match e with
  | PasswordHashInvalidError => EncodeRpcError 400 (lit "PASSWORD_HASH_INVALID")
  | SrpIdInvalidError => EncodeRpcError 400 (lit "SRP_ID_INVALID")
  | SrpPasswordChangedError => EncodeRpcError 400 (lit "SRP_PASSWORD_CHANGED")
  | _ => kInternal
  end.

Definition HandleAuthCheckPassword (body : bytes) (ctx : RpcContext) : M W bytes :=
  check <- local body AuthCheckPasswordRequest.DecodeBare ;;
  try_catch
    (authz <- ByAuthKey authorizations (ctx_auth_key_id ctx) ;;
     match authz with
     | None => ret (EncodeRpcError 400 (lit "PASSWORD_HASH_INVALID"))
     | Some a =>
         if Authorization.user_id a =? 0 then ret (EncodeRpcError 400 (lit "PASSWORD_HASH_INVALID"))
         else
           CheckPassword passwords (Authorization.user_id a) check ;;;
           (if Authorization.password_pending a
            then MarkPasswordPassed authorizations (ctx_auth_key_id ctx) (Authorization.user_id a)
            else ret tt) ;;;
           user <- ByID users (Authorization.user_id a) ;;
           ret (AuthAuthorization.Encode (default empty_user user) [])
     end)
    (fun e => ret (check_password_error e)).

Definition HandleUsersGetUsers (body : bytes) (ctx : RpcContext) : M W bytes :=
  try_catch
    (ids <- local body UsersGetUsersRequest.DecodeBare ;;
     resolved <- ResolveGetUsers users authorizations (ctx_auth_key_id ctx) ids ;;
     t <- NowUnix now ;;
     let out := PutVectorHeader (s32 (zlen resolved)) [] in
     ret (PutAll (fun r => EncodeUser (ru_user r) (ru_self r) t) resolved out))
    (fun _ => ret kInternal).

Definition HandleAccountUpdateStatus (body : bytes) (ctx : RpcContext) : M W bytes :=
  try_catch
    (_ <- local body AccountUpdateStatusRequest.DecodeBare ;;
     t <- NowUnix now ;;
     UpdateStatus users authorizations (ctx_auth_key_id ctx) (s32 t) ;;;
     ret (EncodeBool true []))
    (fun _ => ret kInternal).

Definition HandleAccountGetAuthorizations (body : bytes) (ctx : RpcContext) : M W bytes :=
  try_catch
    (local body AccountGetAuthorizationsRequest.DecodeBare ;;;
     current <- ResolveCurrentUser authorizations (ctx_auth_key_id ctx) ;;
     list <- (if CurrentUser.authorized current
              then ListByUser authorizations (CurrentUser.user_id current) else ret []) ;;
     t <- NowUnix now ;;
     ret (EncodeAccountAuthorizations list (ctx_auth_key_id ctx) t []))
    (fun _ => ret kInternal).

Definition update_profile_error (e : exn) : bytes :=
  match e with
  | FirstNameInvalidError => EncodeRpcError 400 (lit "FIRSTNAME_INVALID")
  | AboutTooLongError => EncodeRpcError 400 (lit "ABOUT_TOO_LONG")
  | _ => kInternal
  end.

Definition HandleAccountUpdateProfile (body : bytes) (ctx : RpcContext) : M W bytes :=
  try_catch
    (update <- local body AccountUpdateProfileRequest.DecodeBare ;;
     t <- NowUnix now ;;
     current <- ResolveCurrentUser authorizations (ctx_auth_key_id ctx) ;;
     updated <- UpdateProfile users (CurrentUser.user_id current) update t ;;
     ret (EncodeUser updated true t []))
    (fun e => ret (update_profile_error e)).

Definition check_username_error (e : exn) : bytes :=
  match e with
  | UsernameInvalidError => EncodeRpcError 400 (lit "USERNAME_INVALID")
  | _ => kInternal
  end.

Definition HandleAccountCheckUsername (body : bytes) (ctx : RpcContext) : M W bytes :=
  try_catch
    (username <- local body AccountCheckUsernameRequest.DecodeBare ;;
     current <- ResolveCurrentUser authorizations (ctx_auth_key_id ctx) ;;
     available <- CheckUsername users (CurrentUser.user_id current) username ;;
     ret (EncodeBool available []))
    (fun e => ret (check_username_error e)).

Definition update_username_error (e : exn) : bytes :=
  match e with
  | UsernameInvalidError => EncodeRpcError 400 (lit "USERNAME_INVALID")
  | UsernameOccupiedError => EncodeRpcError 400 (lit "USERNAME_OCCUPIED")
  | _ => kInternal
  end.

Definition HandleAccountUpdateUsername (body : bytes) (ctx : RpcContext) : M W bytes :=
  try_catch
    (username <- local body AccountUpdateUsernameRequest.DecodeBare ;;
     current <- ResolveCurrentUser authorizations (ctx_auth_key_id ctx) ;;
     updated <- UpdateUsername users (CurrentUser.user_id current) username ;;
     t <- NowUnix now ;;
     ret (EncodeUser updated true t []))
    (fun e => ret (update_username_error e)).

Definition update_birthday_error (e : exn) : bytes :=
  match e with
  | BirthdayInvalidError => EncodeRpcError 400 (lit "BIRTHDAY_INVALID")
  | _ => kInternal
  end.

Definition HandleAccountUpdateBirthday (body : bytes) (ctx : RpcContext) : M W bytes :=
  try_catch
    (birthday <- local body AccountUpdateBirthdayRequest.DecodeBare ;;
     current <- ResolveCurrentUser authorizations (ctx_auth_key_id ctx) ;;
     UpdateBirthday users (CurrentUser.user_id current) birthday ;;;
     ret (EncodeBool true []))
    (fun e => ret (update_birthday_error e)).
End UserStores.

Definition HandleHelpGetConfig (dc_id : Z) (advertise_ip : bytes) (advertise_port : Z)
    (body : bytes) : M W bytes :=
  local body HelpGetConfigRequest.DecodeBare ;;;
  t <- NowUnix now ;;
  let config := Config.Mk dc_id advertise_ip advertise_port t (t + 3600) in
  ret (Config.Encode config []).

End Handlers.

(** ** Start-up *)

(** [std::getenv] *)
Definition Environment : Type := bytes -> option bytes.

Definition GetEnvOr (getenv : Environment) (name fallback : bytes) : bytes :=
  match getenv name with
  | Some v => if nonempty v then v else fallback
  | None => fallback
  end.

Record Settings : Type := MkSettings {
  bind_address : bytes; s_port : Z; rsa_key_path : bytes; pg_dsn : bytes; advertise_ip : bytes;
  s_dc_id : Z; otp_webhook_url : bytes; otp_code_length : Z }.

Definition ReadSettings (getenv : Environment) : Settings :=
  let bind_address := GetEnvOr getenv (lit "SHUZAGRAM_BIND_ADDRESS") (lit "0.0.0.0") in
  let port := atoi (GetEnvOr getenv (lit "SHUZAGRAM_PORT") (lit "2398")) in
  let rsa_key_path := GetEnvOr getenv (lit "SHUZAGRAM_RSA_KEY_PATH") (lit "./shuzagram-server-rsa.pem") in
  let pg_dsn := GetEnvOr getenv (lit "SHUZAGRAM_PG_DSN") [] in
  let advertise_ip := GetEnvOr getenv (lit "SHUZAGRAM_ADVERTISE_IP") (lit "127.0.0.1") in
  let dc_id := atoi (GetEnvOr getenv (lit "SHUZAGRAM_DC_ID") (lit "1")) in
  let otp_webhook_url := GetEnvOr getenv (lit "SHUZAGRAM_OTP_WEBHOOK_URL") [] in
  let otp_code_length := atoi (GetEnvOr getenv (lit "SHUZAGRAM_OTP_CODE_LENGTH") (lit "5")) in
  MkSettings bind_address port rsa_key_path pg_dsn advertise_ip dc_id otp_webhook_url otp_code_length.

(** The stores of a connected database; all of them or none. *)
Record Stores (W : Type) : Type := MkStores {
  auth_key_store : IAuthKeyStore W; temp_key_store : ITempAuthKeyBindingStore W;
  user_store : IUserStore W; authorization_store : IAuthorizationStore W;
  password_store : IPasswordStore W }.
Arguments MkStores {W}. Arguments auth_key_store {W}. Arguments temp_key_store {W}.
Arguments user_store {W}. Arguments authorization_store {W}. Arguments password_store {W}.

Section Wiring.
Context {ssl : OpenSSL} {W : Type} (e164 : bytes -> option bytes).
Context (rand : RandomFill W) (now : Clock W).
Context (s : Settings) (db : option (Stores W)) (code_store : ICodeStore W).
Context (otp_sender : option (OtpSender W)).

(** [rpc_registry] *)
Definition BuildRegistry : RpcHandlerRegistry W :=
  let r := Register HelpGetConfigRequest.kTypeId (fun _ body _ =>
             HandleHelpGetConfig now (s_dc_id s) (advertise_ip s) (s_port s) body) ∅ in
  match db with
  | None => r
  | Some d =>
      let r := Register AuthBindTempAuthKeyRequest.kTypeId (fun _ body ctx =>
                 HandleAuthBindTempAuthKey now (auth_key_store d) (temp_key_store d) body ctx) r in
      let r := Register AuthSendCodeRequest.kTypeId (fun _ body _ =>
                 HandleAuthSendCode e164 rand now (user_store d) code_store otp_sender
                   (otp_code_length s) body) r in
      let r := Register AuthSignInRequest.kTypeId (fun _ body ctx =>
                 HandleAuthSignIn e164 (user_store d) (authorization_store d) code_store
                   (password_store d) body ctx) r in
      let r := Register AuthSignUpRequest.kTypeId (fun _ body ctx =>
                 HandleAuthSignUp e164 rand (user_store d) (authorization_store d) code_store body ctx) r in
      let r := Register AccountGetPasswordRequest.kTypeId (fun _ body ctx =>
                 HandleAccountGetPassword rand (authorization_store d) (password_store d) body ctx) r in
      let r := Register AuthCheckPasswordRequest.kTypeId (fun _ body ctx =>
                 HandleAuthCheckPassword (user_store d) (authorization_store d) (password_store d)
                   body ctx) r in
      let r := Register UsersGetUsersRequest.kTypeId (fun _ body ctx =>
                 HandleUsersGetUsers now (user_store d) (authorization_store d) body ctx) r in
      let r := Register AccountUpdateStatusRequest.kTypeId (fun _ body ctx =>
                 HandleAccountUpdateStatus now (user_store d) (authorization_store d) body ctx) r in
      let r := Register AccountGetAuthorizationsRequest.kTypeId (fun _ body ctx =>
                 HandleAccountGetAuthorizations now (authorization_store d) body ctx) r in
      let r := Register AccountUpdateProfileRequest.kTypeId (fun _ body ctx =>
                 HandleAccountUpdateProfile now (user_store d) (authorization_store d) body ctx) r in
      let r := Register AccountCheckUsernameRequest.kTypeId (fun _ body ctx =>
                 HandleAccountCheckUsername (user_store d) (authorization_store d) body ctx) r in
      let r := Register AccountUpdateUsernameRequest.kTypeId (fun _ body ctx =>
                 HandleAccountUpdateUsername now (user_store d) (authorization_store d) body ctx) r in
      Register AccountUpdateBirthdayRequest.kTypeId (fun _ body ctx =>
        HandleAccountUpdateBirthday (user_store d) (authorization_store d) body ctx) r
  end.

(** [auth_key_resolver] *)
Definition ResolveAuthKey (auth_keys : IAuthKeyStore W) (id : bytes) : M W (option ResolvedAuthKey) :=
  data <- try_catch (ak_Get auth_keys id) (fun _ => ret None) ;;
  match data with
  | None => ret None
  | Some data =>
      if AuthKeyData.expires_at data <? 0 then ret None
      else
        t <- NowUnix now ;;
        if (0 <? AuthKeyData.expires_at data) && (AuthKeyData.expires_at data <=? t) then ret None
        else ret (Some (MkResolved (AuthKeyData.value data) (AuthKeyData.server_salt data)))
  end.
Definition auth_key_resolver : option (AuthKeyResolver W) :=
  match db with Some d => Some (ResolveAuthKey (auth_key_store d)) | None => None end.

(** The success handler given to [server.Run]. *)
Definition key_data (result : ServerExchangeResult) : AuthKeyData.t :=
  AuthKeyData.Mk (AuthKeyId (auth_key result)) (auth_key result) (server_salt result) 0
    (Handshake.expires_at result) 0 0 [] [] [] 0 [].
Definition OnHandshake (result : ServerExchangeResult) : M W unit :=
  match db with
  | None => ret tt
  | Some d => try_catch (ak_Save (auth_key_store d) (key_data result)) (fun _ => ret tt)
  end.

(** What each accepted connection runs. *)
Definition ServeClient (read : M W bytes) (write : bytes -> M W unit) (key : Dh.RsaPrivateKey.t)
    : nat -> M W unit :=
  ServeConnection now rand read write key (Some BuildRegistry) auth_key_resolver OnHandshake.

End Wiring.

(** ** Responses are whole TL objects *)

(** [b'] is [b] with whole words appended. *)
Definition extends (b b' : bytes) : Prop := exists e, b' = b ++ e /\ zlen e mod 4 = 0.

(** An object: a constructor id, then whole words. *)
Definition object (r : bytes) : Prop := exists i, extends (PutID i []) r.

Create HintDb words.

Lemma extends_refl b : extends b b.
Proof. exists []. by rewrite app_nil_r. Qed.
#[export] Hint Resolve extends_refl : words.

Lemma extends_app b b' e : zlen e mod 4 = 0 -> extends b b' -> extends b (b' ++ e).
Proof.
  intros He (d & -> & Hd). exists (d ++ e). rewrite app_assoc. split; [done|]. rewrite zlen_app.
  rewrite <- Z.add_mod_idemp_l, <- Z.add_mod_idemp_r by lia. by rewrite Hd, He.
Qed.

Lemma zlen_enc_bytes_mod v : zlen (enc_bytes v) mod 4 = 0.
Proof. 
  rewrite zlen_enc_bytes. apply NearestPaddedLength_spec. pose proof (zlen_nonneg v).
  unfold header_len_of. case_match; lia.
Qed.

Section Words.
Context (b b' : bytes) (H : extends b b').
Lemma extends_PutID v : extends b (PutID v b').
Proof. rewrite PutID_app. by apply extends_app; [rewrite zlen_le_bytes|]. Qed.
Lemma extends_PutUint32 v : extends b (PutUint32 v b').
Proof. rewrite PutUint32_app. by apply extends_app; [rewrite zlen_le_bytes|]. Qed.
Lemma extends_PutInt32 v : extends b (PutInt32 v b').
Proof. rewrite PutInt32_app. by apply extends_app; [rewrite zlen_le_bytes|]. Qed.
Lemma extends_PutLong v : extends b (PutLong v b').
Proof. rewrite PutLong_app. by apply extends_app; [rewrite zlen_le_bytes|]. Qed.
Lemma extends_PutBytes v : extends b (PutBytes v b').
Proof. rewrite PutBytes_app. apply extends_app; [apply zlen_enc_bytes_mod|done]. Qed.
End Words.
#[export] Hint Resolve extends_PutID extends_PutUint32 extends_PutInt32 extends_PutLong
  extends_PutBytes : words.

Lemma extends_PutVectorHeader b b' v : extends b b' -> extends b (PutVectorHeader v b').
Proof. unfold PutVectorHeader. auto with words. Qed.
Lemma extends_put_if c put b b' :
  (forall b', extends b b' -> extends b (put b')) -> extends b b' -> extends b (put_if c put b').
Proof. destruct c; cbn; auto. Qed.
Lemma extends_if (c : bool) b b1 b2 : extends b b1 -> extends b b2 -> extends b (if c then b1 else b2).
Proof. by destruct c. Qed.
Lemma extends_PutAll {A} (f : A -> bytes -> bytes) l b b' :
  (forall a b', extends b b' -> extends b (f a b')) -> extends b b' -> extends b (PutAll f l b').
Proof.
  intros Hf. revert b'. induction l as [|a l IH]; intros b' Hb; [done|]. cbn. auto.
Qed.
#[export] Hint Resolve extends_PutVectorHeader extends_put_if extends_if : words.

(** Follow the writes of an encoder. *)
Ltac words :=
  repeat first
    [ progress cbv zeta
    | lazymatch goal with |- extends (PutID _ []) (PutID _ []) => apply extends_refl end
    | apply extends_PutID | apply extends_PutUint32 | apply extends_PutInt32 | apply extends_PutLong
    | apply extends_PutBytes | apply extends_PutVectorHeader
    | apply extends_put_if; [intros ? ?|] | apply extends_PutAll; [intros ? ? ?|] | apply extends_if
    | assumption ].

Lemma extends_EncodeUserStatus s b b' : extends b b' -> extends b (EncodeUserStatus s b').
Proof. intros H. unfold EncodeUserStatus. destruct (st_kind s); words. Qed.
Lemma extends_EncodeUserProfilePhoto u b b' : extends b b' -> extends b (EncodeUserProfilePhoto u b').
Proof. intros H. unfold EncodeUserProfilePhoto. words. Qed.
Lemma extends_EncodePeerColor c b b' : extends b b' -> extends b (EncodePeerColorIfPresent c b').
Proof. intros H. unfold EncodePeerColorIfPresent. words. Qed.
Lemma extends_EncodeEmojiStatus s b b' : extends b b' -> extends b (EncodeEmojiStatus s b').
Proof. intros H. unfold EncodeEmojiStatus. words. Qed.
Lemma extends_EncodeUser u is_self t b b' : extends b b' -> extends b (EncodeUser u is_self t b').
Proof.
  intros H. unfold EncodeUser, EncodeRestrictionReason.
  repeat first [ apply extends_EncodeUserStatus | apply extends_EncodeUserProfilePhoto
    | apply extends_EncodePeerColor | apply extends_EncodeEmojiStatus | progress words ].
Qed.
Lemma extends_EncodePasswordAlgo a b b' : extends b b' -> extends b (EncodePasswordAlgo a b').
Proof. intros H. unfold EncodePasswordAlgo. words. Qed.

Lemma object_user u is_self t : object (EncodeUser u is_self t []).
Proof.
  exists 0xb1b8cc83. unfold EncodeUser, EncodeRestrictionReason.
  repeat first [ apply extends_EncodeUserStatus | apply extends_EncodeUserProfilePhoto
    | apply extends_EncodePeerColor | apply extends_EncodeEmojiStatus | progress words ].
Qed.
Lemma object_users t l :
  object (PutAll (fun r => EncodeUser (ru_user r) (ru_self r) t) l (PutVectorHeader (s32 (zlen l)) [])).
Proof.
  exists kTypeVector. apply extends_PutAll; [intros; by apply extends_EncodeUser|].
  unfold PutVectorHeader. words.
Qed.
Lemma object_authorization u : object (AuthAuthorization.Encode u []).
Proof. exists AuthAuthorization.kTypeId. unfold AuthAuthorization.Encode, MinimalSelfUser.Encode. words. Qed.
Lemma object_password s : object (AccountPassword.Encode s []).
Proof.
  exists AccountPassword.kTypeId. unfold AccountPassword.Encode, EncodeSecurePasswordAlgoUnknown.
  repeat first [apply extends_EncodePasswordAlgo | progress words].
Qed.
Lemma object_authorizations l key t : object (EncodeAccountAuthorizations l key t []).
Proof. exists 0x4bff8ea0. unfold EncodeAccountAuthorizations, EncodeAuthorization. words. Qed.
Lemma object_sent_code m : object (AuthSentCode.Encode m []).
Proof. exists AuthSentCode.kTypeId. unfold AuthSentCode.Encode, AuthSentCodeTypeApp.Encode. words. Qed.
Lemma object_sign_up_required : object (AuthAuthorizationSignUpRequired.Encode []).
Proof. exists AuthAuthorizationSignUpRequired.kTypeId. unfold AuthAuthorizationSignUpRequired.Encode. words. Qed.
Lemma object_config m : object (Config.Encode m []).
Proof.
  exists 0xcc1a241e. unfold Config.Encode, EncodeReactionEmoji, DcOption.Encode, EncodeBool. words.
Qed.
Lemma object_bool v : object (EncodeBool v []).
Proof. eexists. apply extends_refl. Qed.
Lemma object_error code message : object (EncodeRpcError code message).
Proof. exists RpcError.kTypeId. unfold EncodeRpcError, RpcError.Encode. words. Qed.
#[export] Hint Resolve object_user object_users object_authorization object_password
  object_authorizations object_sent_code object_sign_up_required object_config object_bool
  object_error : words.

(** What the session needs of a response. *)
Lemma object_sendable r : object r -> r <> [] /\ 4 <= zlen r /\ zlen r mod 4 = 0.
Proof.
  intros (i & e & -> & He). rewrite PutID_app. cbn [app].
  assert (El : zlen (le_bytes 4 i ++ e) = 4 + zlen e) by (rewrite zlen_app, zlen_le_bytes; lia).
  pose proof (zlen_nonneg e). split; [intros E; rewrite E in El; change (0 = 4 + zlen e) in El; lia|].
  rewrite El. split; [lia|]. rewrite <- Z.add_mod_idemp_r, He by lia. done.
Qed.

(** ** Every call that decodes is answered *)

(** [m] returns only objects. *)
Definition tidy {S} (m : M S bytes) : Prop := forall s r s', m s = (Ok r, s') -> object r.
(** [m] returns an object. *)
Definition answers {S} (m : M S bytes) : Prop := forall s, exists r s', m s = (Ok r, s') /\ object r.

Lemma tidy_ret {S} r : object r -> tidy (@ret S bytes r).
Proof. by intros H s r' s' [= <- _]. Qed.
Lemma tidy_bind {S A} (m : M S A) (k : A -> M S bytes) : (forall a, tidy (k a)) -> tidy (bind m k).
Proof. intros H s r s' (a & s1 & _ & E)%bind_Ok_inv. by apply (H a s1 r s'). Qed.
Lemma tidy_if {S} (c : bool) (m1 m2 : M S bytes) : tidy m1 -> tidy m2 -> tidy (if c then m1 else m2).
Proof. by destruct c. Qed.
Lemma answers_return {S} r : object r -> answers (@ret S bytes r).
Proof. intros H s. by exists r, s. Qed.
Lemma answers_try {S} (m : M S bytes) (h : exn -> bytes) :
  tidy m -> (forall e, object (h e)) -> answers (try_catch m (fun e => ret (h e))).
Proof.
  intros Hm Hh s. unfold try_catch. destruct (m s) as [[r|e] s'] eqn:E.
  - exists r, s'. split; [done|]. by apply (Hm s r s').
  - by exists (h e), s'.
Qed.

Ltac tidy :=
  repeat first
    [ apply tidy_bind; intros ? | apply tidy_if | apply tidy_ret | solve [auto with words]
    | lazymatch goal with
      | |- tidy (match ?x with Some _ => _ | None => _ end) => destruct x
      | |- object (if ?c then _ else _) => destruct c
      end ].

(** The body of a handler: the fields are read, then the answer is made. *)
Definition answered {W A} (h : bytes -> M W bytes) (decode : M bytes A) : Prop := forall body w,
  match fst (decode body) with
  | Throw e => h body w = (Throw e, w)
  | Ok _ => exists r w', h body w = (Ok r, w') /\ object r
  end.

Lemma answered_local {W A} (decode : M bytes A) (k : A -> M W bytes) :
  (forall a, answers (k a)) -> answered (fun body => a <- local body decode ;; k a) decode.
Proof.
  intros H body w. unfold local. rewrite bind_lift. destruct (fst (decode body)) as [a|e]; [|done].
  apply H.
Qed.

Section Answers.
Context {ssl : OpenSSL} {W : Type} (e164 : bytes -> option bytes).
Context (rand : RandomFill W) (now : Clock W) (d : Stores W) (codes : ICodeStore W).

Lemma object_bind_error e : object (bind_error e).
Proof. destruct e; apply object_error. Qed.
Lemma object_send_code_error e : object (send_code_error e).
Proof. destruct e; apply object_error. Qed.
Lemma object_sign_in_error e : object (sign_in_error e).
Proof. destruct e; apply object_error. Qed.
Lemma object_sign_up_error e : object (sign_up_error e).
Proof. destruct e; apply object_error. Qed.
Lemma object_check_password_error e : object (check_password_error e).
Proof. destruct e; apply object_error. Qed.
Lemma object_update_profile_error e : object (update_profile_error e).
Proof. destruct e; apply object_error. Qed.
Lemma object_check_username_error e : object (check_username_error e).
Proof. destruct e; apply object_error. Qed.
Lemma object_update_username_error e : object (update_username_error e).
Proof. destruct e; apply object_error. Qed.
Lemma object_update_birthday_error e : object (update_birthday_error e).
Proof. destruct e; apply object_error. Qed.
Lemma object_internal : object kInternal.
Proof. apply object_error. Qed.
#[local] Hint Resolve object_bind_error object_send_code_error object_sign_in_error
  object_sign_up_error object_check_password_error object_update_profile_error
  object_check_username_error object_update_username_error object_update_birthday_error
  object_internal : words.

Lemma answered_bind ctx :
  answered (fun body => HandleAuthBindTempAuthKey now (auth_key_store d) (temp_key_store d) body ctx)
    AuthBindTempAuthKeyRequest.DecodeBare.
Proof.
  apply answered_local. intros req s. unfold try_catch, bind.
  destruct (BindTempAuthKey _ _ _ _ s) as [[r|e] s']; (eexists _, _; split; [done|auto with words]).
Qed.
Lemma answered_send_code otp n :
  answered (HandleAuthSendCode e164 rand now (user_store d) codes otp n) AuthSendCodeRequest.DecodeBare.
Proof. apply answered_local. intros req. apply answers_try; tidy. Qed.
Lemma answered_sign_in ctx :
  answered (fun body => HandleAuthSignIn e164 (user_store d) (authorization_store d) codes
    (password_store d) body ctx) AuthSignInRequest.DecodeBare.
Proof. apply answered_local. intros req. apply answers_try; tidy. Qed.
Lemma answered_sign_up ctx :
  answered (fun body => HandleAuthSignUp e164 rand (user_store d) (authorization_store d) codes body ctx)
    AuthSignUpRequest.DecodeBare.
Proof. apply answered_local. intros req. apply answers_try; tidy. Qed.
Lemma answered_get_password ctx :
  answered (fun body => HandleAccountGetPassword rand (authorization_store d) (password_store d) body ctx)
    AccountGetPasswordRequest.DecodeBare.
Proof. apply answered_local. intros req. apply answers_try; tidy. Qed.
Lemma answered_check_password ctx :
  answered (fun body => HandleAuthCheckPassword (user_store d) (authorization_store d)
    (password_store d) body ctx) AuthCheckPasswordRequest.DecodeBare.
Proof. apply answered_local. intros req. apply answers_try; tidy. Qed.

Lemma answers_get_users body ctx :
  answers (HandleUsersGetUsers now (user_store d) (authorization_store d) body ctx).
Proof. apply answers_try; tidy. Qed.
Lemma answers_update_status body ctx :
  answers (HandleAccountUpdateStatus now (user_store d) (authorization_store d) body ctx).
Proof. apply answers_try; tidy. Qed.
Lemma answers_get_authorizations body ctx :
  answers (HandleAccountGetAuthorizations now (authorization_store d) body ctx).
Proof. apply answers_try; tidy. Qed.
Lemma answers_update_profile body ctx :
  answers (HandleAccountUpdateProfile now (user_store d) (authorization_store d) body ctx).
Proof. apply answers_try; tidy. Qed.
Lemma answers_check_username body ctx :
  answers (HandleAccountCheckUsername (user_store d) (authorization_store d) body ctx).
Proof. apply answers_try; tidy. Qed.
Lemma answers_update_username body ctx :
  answers (HandleAccountUpdateUsername now (user_store d) (authorization_store d) body ctx).
Proof. apply answers_try; tidy. Qed.
Lemma answers_update_birthday body ctx :
  answers (HandleAccountUpdateBirthday (user_store d) (authorization_store d) body ctx).
Proof. apply answers_try; tidy. Qed.
End Answers.

(** The methods served without a database, and with one. *)
Definition methods (connected : bool) : list Z :=
  HelpGetConfigRequest.kTypeId ::
  (if connected then
     [AuthBindTempAuthKeyRequest.kTypeId; AuthSendCodeRequest.kTypeId; AuthSignInRequest.kTypeId;
      AuthSignUpRequest.kTypeId; AccountGetPasswordRequest.kTypeId; AuthCheckPasswordRequest.kTypeId;
      UsersGetUsersRequest.kTypeId; AccountUpdateStatusRequest.kTypeId;
      AccountGetAuthorizationsRequest.kTypeId; AccountUpdateProfileRequest.kTypeId;
      AccountCheckUsernameRequest.kTypeId; AccountUpdateUsernameRequest.kTypeId;
      AccountUpdateBirthdayRequest.kTypeId] else []).

(** The methods whose fields are decoded outside the handler's try block, and
    what decoding them throws. *)
Definition decode_error (id : Z) (fields : bytes) : option exn :=
  let thrown {A} (decode : M bytes A) :=
    match fst (decode fields) with Throw e => Some e | Ok _ => None end in
  if id =? AuthBindTempAuthKeyRequest.kTypeId then thrown AuthBindTempAuthKeyRequest.DecodeBare
  else if id =? AuthSendCodeRequest.kTypeId then thrown AuthSendCodeRequest.DecodeBare
  else if id =? AuthSignInRequest.kTypeId then thrown AuthSignInRequest.DecodeBare
  else if id =? AuthSignUpRequest.kTypeId then thrown AuthSignUpRequest.DecodeBare
  else if id =? AuthCheckPasswordRequest.kTypeId then thrown AuthCheckPasswordRequest.DecodeBare
  else None.

Definition settled {W} (error : option exn) (m : M W bytes) : Prop := forall w,
  match error with
  | Some e => m w = (Throw e, w)
  | None => exists r w', m w = (Ok r, w') /\ object r
  end.

Lemma settled_answered {W A} (h : bytes -> M W bytes) (decode : M bytes A) body :
  answered h decode ->
  settled (match fst (decode body) with Throw e => Some e | Ok _ => None end) (h body).
Proof. intros H w. specialize (H body w). by destruct (fst (decode body)). Qed.

Lemma settled_answers {W} (m : M W bytes) : answers m -> settled None m.
Proof. by intros H w. Qed.

Lemma Find_Register {W} id k (h h' : RpcHandler W) r :
  Find id (Register k h r) = Some h' -> k = id /\ h = h' \/ Find id r = Some h'.
Proof.
  unfold Find, Register, RpcHandlerRegistry in *. rewrite lookup_insert_Some. tauto.
Qed.
Lemma Find_Register_is_Some {W} id k (h : RpcHandler W) r :
  is_Some (Find id (Register k h r)) <-> k = id \/ is_Some (Find id r).
Proof. unfold Find, Register, RpcHandlerRegistry in *. by rewrite lookup_insert_is_Some'. Qed.
Lemma Find_empty {W} id : Find id (∅ : RpcHandlerRegistry W) = None.
Proof. exact (lookup_empty (M := gmap Z) id). Qed.

Section Registry.
Context {ssl : OpenSSL} {W : Type} (e164 : bytes -> option bytes).
Context (rand : RandomFill W) (now : Clock W) {T : Type} (keep : W -> T).
Context {clock : ClockSource now keep}.
Context (s : Settings) (db : option (Stores W)) (codes : ICodeStore W) (otp : option (OtpSender W)).

Lemma answered_config dc ip port :
  answered (HandleHelpGetConfig now dc ip port) HelpGetConfigRequest.DecodeBare.
Proof.
  apply answered_local. intros _ w. destruct (clock_now (keep := keep) w) as (t & w' & E & _).
  eexists _, w'. unfold NowUnix. rewrite bind_assoc. erewrite bind_Ok by exact E.
  split; [done|apply object_config].
Qed.

Lemma registry_settled id handler fields ctx :
  Find id (BuildRegistry e164 rand now s db codes otp) = Some handler ->
  settled (decode_error id fields) (handler id fields ctx).
Proof.
  unfold BuildRegistry. intros H. destruct db as [d|]; cbv zeta in H;
    repeat (apply Find_Register in H as [[<- <-]|H]); try (rewrite Find_empty in H; discriminate).
  - exact (settled_answers _ (answers_update_birthday d fields ctx)).
  - exact (settled_answers _ (answers_update_username now d fields ctx)).
  - exact (settled_answers _ (answers_check_username d fields ctx)).
  - exact (settled_answers _ (answers_update_profile now d fields ctx)).
  - exact (settled_answers _ (answers_get_authorizations now d fields ctx)).
  - exact (settled_answers _ (answers_update_status now d fields ctx)).
  - exact (settled_answers _ (answers_get_users now d fields ctx)).
  - exact (settled_answered _ _ fields (answered_check_password d ctx)).
  - exact (settled_answered _ _ fields (answered_get_password rand d ctx)).
  - exact (settled_answered _ _ fields (answered_sign_up e164 rand d codes ctx)).
  - exact (settled_answered _ _ fields (answered_sign_in e164 d codes ctx)).
  - exact (settled_answered _ _ fields (answered_send_code e164 rand now d codes otp _)).
  - exact (settled_answered _ _ fields (answered_bind now d ctx)).
  - exact (settled_answered _ _ fields (answered_config _ _ _)).
  - exact (settled_answered _ _ fields (answered_config _ _ _)).
Qed.

Lemma registry_methods id :
  is_Some (Find id (BuildRegistry e164 rand now s db codes otp)) <->
  In id (methods (bool_decide (is_Some db))).
Proof.
  unfold BuildRegistry, methods.
  assert (He : is_Some (Find id (∅ : RpcHandlerRegistry W)) <-> False)
    by (rewrite Find_empty; split; [by intros [? ?]|done]).
  destruct db as [d|]; cbv zeta.
  - rewrite bool_decide_eq_true_2 by eauto. rewrite !Find_Register_is_Some, He. cbn [In]. tauto.
  - rewrite bool_decide_eq_false_2 by (by intros [? ?]). rewrite Find_Register_is_Some, He. cbn [In]. tauto.
Qed.

End Registry.
