(* ===== verification/Program.v ===== *)
(** * The program: [main] of [cmd/shuzagram_server/main.cpp]

    The start of the process, what each connection runs, and its end: settings,
    the RSA key, the database, the registry and the resolver of [Main], the
    listener and the accept loop of [Process], each connection the thread of
    [Server] over the socket calls of [Net].  What the program prints is not
    modelled, but for the debug line of a failed connection. *)

From Stdlib Require Import ZArith Lia Strings.Byte Strings.String.
From stdpp Require Import base decidable list gmap relations.
From S2P Require Import Prelude Text TL OpenSSL Transport Detect Net Sockets Process Dh RsaKey Session Handshake Server.
From S2P Require Import Domain Store Auth Json Http Webhook Api Main.

(** ** HTTP over a socket of its own ([http_client.cpp]) *)

Section Client.
Context {W : Type} {kernel : Kernel W}.
Context (recv : Z -> Z -> W -> TcpSocket.recv_result * W) (send : Z -> bytes -> W -> TcpSocket.send_result * W).
Context (interrupts : W -> nat).

Definition SO_RCVTIMEO : Z := 20.
Definition SO_SNDTIMEO : Z := 21.
Definition timeval (timeout : Z) : Z := Z.quot timeout 1000 * 1000000 + Z.rem timeout 1000 * 1000.
Definition SetSocketTimeout (fd timeout : Z) : M W unit :=
  sys_ (sys_setsockopt fd SOL_SOCKET SO_RCVTIMEO (timeval timeout)) ;;;
  sys_ (sys_setsockopt fd SOL_SOCKET SO_SNDTIMEO (timeval timeout)).

(** [socket.Reader()] and [socket.Writer()] *)
Definition Reader (c : TcpSocket) : ReadExact W := TcpSocket.ReadExact strerror (recv (s_fd c)) interrupts.
Definition Writer (c : TcpSocket) : WriteBytes W := TcpSocket.WriteAll strerror errno (send (s_fd c)) interrupts.

(** A computation with one local socket, which is destroyed however it ends. *)
Definition with_socket {A} (m : M (W * TcpSocket) A) : M W A := fun w =>
  let '(r, (w', socket)) := m (w, MkSocket (-1)) in
  (r, snd (TcpSocket_Close socket w')).

Definition http_connect (timeout : Z) (host : bytes) (port : Z) : M (W * TcpSocket) unit :=
  socket <- on_fst (Connect host port) ;;
  on_snd (put socket) ;;;
  on_fst (SetSocketTimeout (s_fd socket) timeout).
Definition http_read : ReadExact (W * TcpSocket) := fun n => fun '(w, c) => on_fst (Reader c n) (w, c).
Definition http_write : WriteBytes (W * TcpSocket) := fun d => fun '(w, c) => on_fst (Writer c d) (w, c).

(** The sender [main] configures. *)
Definition SendCodes {ssl : OpenSSL} {js : Json} (now : Clock W) (config : Webhook.Config) : OtpSender W := fun request =>
  with_socket (WebhookSender (on_fst now) (http_connect (timeout config)) http_read http_write config request).

End Client.

(** ** A connection's thread *)

Section Connection.
Context {ssl : OpenSSL} {W : Type} {kernel : Kernel W}.
Context (recv : Z -> Z -> W -> TcpSocket.recv_result * W) (send : Z -> bytes -> W -> TcpSocket.send_result * W).
Context (interrupts : W -> nat) (now : Clock W) (rand : RandomFill W).
(** [getpeername] with [inet_ntop]: the peer's address as text, and its port *)
Context (getpeername : Z -> W -> option (bytes * Z)).
(** [std::fprintf(stderr, …)] *)
Context (eprint : bytes -> M W unit).
Context (getenv : Environment).

Definition DebugTransportEnabled : bool :=
  match getenv (lit "SHUZAGRAM_DEBUG_TRANSPORT") with
  | Some v => nonempty v && negb (bool_decide (v = lit "0"))
  | None => false
  end.

Definition PeerAddress (fd : Z) : M W bytes :=
  peer <- gets (getpeername fd) ;;
  match peer with
  | None => ret (lit "unknown")
  | Some (address, sin_port) => ret (address ++ lit ":" ++ to_string (ntohs sin_port))
  end.

Definition LogRawBytes (peer raw : bytes) (what : bytes) : M W unit :=
  eprint (lit "[transport debug] " ++ peer ++ lit ": " ++ what ++ lit " (" ++ to_string (zlen raw) ++
          lit " bytes): " ++ HexEncode raw ++ [x0a]).

(** The reader that keeps what it has read. *)
Definition logging (raw_reader : ReadExact W) : ReadExact (W * bytes) := fun len =>
  dst <- on_fst (raw_reader len) ;;
  on_snd (modify (fun raw_log => raw_log ++ dst)) ;;;
  ret dst.

(** The body of the thread; [fuel] bounds the loops only the peer ends. *)
Definition connection (key_ : RsaPrivateKey.t) (rpc_registry_ : RpcHandlerRegistry W)
    (auth_key_resolver_ : option (AuthKeyResolver W)) (on_success : SuccessHandler W)
    (on_failure : string -> M W unit) (fuel : nat) (socket : TcpSocket) : M W unit :=
  let raw_reader := Reader recv interrupts socket in
  let writer := Writer send interrupts socket in
  if DebugTransportEnabled then
    peer <- PeerAddress (s_fd socket) ;;
    fun w =>
      let '(r, (w', _)) :=
        ConnectionThread (on_fst now) (fun n => on_fst (rand n)) (logging raw_reader) (fun d => on_fst (writer d)) key_
          (Some ((fun handler id body ctx => on_fst (handler id body ctx)) <$> (rpc_registry_ : gmap Z (RpcHandler W))))
          ((fun resolver id => on_fst (resolver id)) <$> auth_key_resolver_)
          (fun result => on_fst (on_success result))
          (fun what => fun '(w, raw_log) =>
             on_fst (LogRawBytes peer raw_log (lit what) ;;; on_failure what) (w, raw_log))
          fuel (w, []) in
      (r, w')
  else
    ConnectionThread now rand raw_reader writer key_ (Some rpc_registry_) auth_key_resolver_ on_success on_failure fuel.

End Connection.

(** ** [main] *)

Section Program.
Context {ssl : OpenSSL} {js : Json} {W : Type} {kernel : Kernel W} {tools : KeyTools W}.
Context (recv : Z -> Z -> W -> TcpSocket.recv_result * W) (send : Z -> bytes -> W -> TcpSocket.send_result * W).
Context (interrupts : W -> nat) (now : Clock W) (rand : RandomFill W).
Context (getpeername : Z -> W -> option (bytes * Z)) (eprint : bytes -> M W unit) (getenv : Environment).
Context (e164 : bytes -> option bytes).
(** [pqxx::connection(conninfo)], and the stores over the connection. *)
Context (pqxx_connect : bytes -> M W unit) (stores : Stores W) (code_store : ICodeStore W).

(** What becomes of the process once [main] has started it. *)
Inductive program : Type :=
  | Exited (code : Z)
  | Serving (connection : nat -> TcpSocket -> M W unit) (listener : TcpListener).

Definition OtpConfig (s : Settings) : option Webhook.Config :=
  if decide (otp_webhook_url s = []) then None
  else Some (MkConfig (otp_webhook_url s) (GetEnvOr getenv (lit "SHUZAGRAM_OTP_WEBHOOK_SECRET") [])
               (atoi (GetEnvOr getenv (lit "SHUZAGRAM_OTP_WEBHOOK_TIMEOUT_MS") (lit "5000")))).

(** The stores, if there is a database and it can be reached. *)
Definition ConnectDatabase (pg_dsn : bytes) : M W (option (Stores W)) :=
  if decide (pg_dsn = []) then ret None
  else try_catch (pqxx_connect pg_dsn ;;; ret (Some stores)) (fun _ => ret None).

(** What a connection runs, once the settings and the database are known. *)
Definition serve (s : Settings) (key : RsaPrivateKey.t) (db : option (Stores W)) : nat -> TcpSocket -> M W unit :=
  let otp_sender := SendCodes recv send interrupts now <$> OtpConfig s in
  connection recv send interrupts now rand getpeername eprint getenv key
    (BuildRegistry e164 rand now s db code_store otp_sender) (auth_key_resolver now db) (OnHandshake db)
    (fun what => eprint (lit "handshake failed: " ++ lit what ++ [x0a])).

(** [main] up to [server.Run]; an exception that leaves it ends the process. *)
Definition main : M W program :=
  let s := ReadSettings getenv in
  key <- try_catch (key <- LoadOrGenerate (rsa_key_path s) ;; ret (Some key)) (fun _ => ret None) ;;
  match key with
  | None => ret (Exited 1)
  | Some key =>
      db <- ConnectDatabase (pg_dsn s) ;;
      listener <- Listen (bind_address s) (u16 (s_port s)) 128 ;;
      ret (Serving (serve s key db) listener)
  end.

(** [std::_Exit(0)] after [server.Run] has returned. *)
Definition exit_code (p : @process W) : option Z :=
  match p_run p with Returned => Some 0 | _ => None end.

End Program.

(** ** Sockets of the HTTP client *)

Section Delivery.
Context {W : Type} {kernel : Kernel W} (table : W -> gmap Z socket_state) {laws : KernelLaws table}.
Context (recv : Z -> Z -> W -> TcpSocket.recv_result * W) (send : Z -> bytes -> W -> TcpSocket.send_result * W).
Context (interrupts : W -> nat).
Hypothesis recv_quiet : forall fd n w, table (snd (recv fd n w)) = table w.
Hypothesis send_quiet : forall fd d w, table (snd (send fd d w)) = table w.

Lemma Reader_quiet c n : frames table (Reader recv interrupts c n).
Proof.
  intros w. unfold Reader, TcpSocket.ReadExact. generalize (interrupts w + Z.to_nat n + 1)%nat ([] : bytes).
  intros fuel buf. revert buf w. induction fuel as [|fuel IH]; intros buf w; [done|]. cbn [TcpSocket.ReadExact_loop].
  destruct (zlen buf <? n); [|done]. pose proof (recv_quiet (s_fd c) (n - zlen buf) w) as Hr.
  destruct (recv (s_fd c) (n - zlen buf) w) as [[[|b chunk]|e] w']; cbn in Hr |- *; [done|by rewrite IH|].
  destruct (e =? TcpSocket.EINTR); [by rewrite IH|done].
Qed.

Lemma Writer_quiet c d : frames table (Writer send interrupts c d).
Proof.
  intros w. unfold Writer, TcpSocket.WriteAll. generalize (interrupts w + length d + 1)%nat. generalize 0.
  intros off fuel. revert off w. induction fuel as [|fuel IH]; intros off w; [done|]. cbn [TcpSocket.WriteAll_loop].
  destruct (off <? zlen d); [|done]. pose proof (send_quiet (s_fd c) (zdrop off d) w) as Hs.
  destruct (send (s_fd c) (zdrop off d) w) as [[n|e] w']; cbn in Hs |- *.
  - destruct (n >? 0); [by rewrite IH|done].
  - destruct (e =? TcpSocket.EINTR); [by rewrite IH|done].
Qed.

(** The table and the client's socket. *)
Definition held (wc : W * TcpSocket) : gmap Z socket_state * TcpSocket := (table wc.1, wc.2).
(** From [T]: no socket yet, or one, open and new. *)
Definition one_socket (T : gmap Z socket_state) (h : gmap Z socket_state * TcpSocket) : Prop :=
  (h.1 = T /\ s_fd h.2 < 0) \/ (0 <= s_fd h.2 /\ T !! s_fd h.2 = None /\ exists st, h.1 = <[s_fd h.2 := st]> T).

Lemma http_read_quiet n : frames held (http_read recv interrupts n).
Proof.
  intros [w c]. unfold http_read, on_fst, held. cbn. pose proof (Reader_quiet c n w) as H.
  destruct (Reader recv interrupts c n w) as [r w']. cbn in *. by rewrite H.
Qed.
Lemma http_write_quiet d : frames held (http_write send interrupts d).
Proof.
  intros [w c]. unfold http_write, on_fst, held. cbn. pose proof (Writer_quiet c d w) as H.
  destruct (Writer send interrupts c d w) as [r w']. cbn in *. by rewrite H.
Qed.

Lemma http_connect_one t h p T c : s_fd c < 0 ->
  effect held (http_connect t h p) (T, c) (fun _ h => one_socket T h).
Proof.
  intros Hc [w c'] [= Hw ->]. unfold http_connect, bind, on_fst. cbn.
  pose proof (Connect_spec table h p T w Hw) as H. destruct (Connect h p w) as [[s|e] w1]; cbn in H |- *.
  - destruct H as (fd & st & [Hs _] & Hfd & Hnew & Ht).
    right. cbn. rewrite Hs, !setsockopt_law. eauto.
  - left. cbn. by destruct H.
Qed.

(** Whatever happens to a delivery, its socket has been closed. *)
Lemma SendCodes_quiet {ssl : OpenSSL} {js : Json} (now : Clock W) config request : frames table now ->
  frames table (SendCodes recv send interrupts now config request).
Proof.
  intros Hnow w0. unfold SendCodes, with_socket. set (T := table w0).
  assert (H : effect held (WebhookSender (on_fst now) (http_connect (timeout config)) (http_read recv interrupts)
    (http_write send interrupts) config request) (T, MkSocket (-1)) (fun _ h => one_socket T h)).
  { assert (Hnone : one_socket T (T, MkSocket (-1))) by (left; by split).
    assert (Hkeep : forall A (m : M (W * TcpSocket) A) h, frames held m -> one_socket T h ->
      effect held m h (fun _ h => one_socket T h)) by (intros; by apply effect_view_frame).
    unfold WebhookSender, Deliver. apply effect_bind_view; [|intros a h Hh; by apply Hkeep].
    apply effect_bind_frame; [|intros t|done].
    { intros [w c]. unfold on_fst, held. cbn. specialize (Hnow w). destruct (now w) as [r w']. cbn in *. by rewrite Hnow. }
    cbv zeta. destruct (dump _) as [body|]; [|by apply Hkeep].
    apply effect_bind_view; [|intros a h' Hh'; by apply Hkeep].
    apply effect_catch_view; [intros [] h' Hh'; by apply Hkeep|]. unfold HttpPost.
    apply effect_bind_frame; [apply frames_lift|intros url|done]. apply effect_bind_view.
    { apply effect_catch_view; [intros [] h' Hh'; by apply Hkeep|]. by apply http_connect_one. }
    intros _ h Hh. apply Hkeep; [|done]. apply frames_bind.
    - apply frames_catch; [apply http_write_quiet|intros e; apply frames_throw].
    - intros _. apply ReadResponse_quiet, http_read_quiet. }
  specialize (H (w0, MkSocket (-1)) eq_refl).
  destruct (WebhookSender _ _ _ _ _ _ _) as [r [w' c]]. cbn in H |- *. rewrite (table_Close table).
  destruct H as [[H Hc]|(Hc & Hnew & st & H)]; cbn in *; destruct (Z.leb_spec 0 (s_fd c)); try lia; [done|].
  rewrite H. by rewrite delete_opened.
Qed.

End Delivery.

(** ** The start of the program *)

Section Start.
Context {ssl : OpenSSL} {js : Json} {W : Type} {kernel : Kernel W} {tools : KeyTools W}.
Context (table : W -> gmap Z socket_state) {laws : KernelLaws table}.
(** Generating and writing a key and connecting to the database open no socket
    of the program's own. *)
Hypothesis generate_quiet : forall bits w, table (snd (EVP_PKEY_generate bits w)) = table w.
Hypothesis fopen_quiet : forall path w, table (snd (fopen_wb path w)) = table w.
Hypothesis fwrite_quiet : forall path data w, table (fwrite_all path data w) = table w.

Lemma LoadOrGenerate_quiet path : frames table (LoadOrGenerate path).
Proof.
  unfold LoadOrGenerate. apply frames_bind; [done|]. intros [stream|]; [apply frames_lift|].
  apply frames_bind; [|intros key; apply frames_bind; [apply frames_lift|intros pem]].
  - intros w. unfold Generate. destruct (keygen_init kRsaKeyBits w); [|done]. cbn [negb].
    pose proof (generate_quiet kRsaKeyBits w) as H. by destruct (EVP_PKEY_generate kRsaKeyBits w) as [[k|] w'].
  - apply frames_bind; [|intros [|]; [|apply frames_throw]].
    + intros w. pose proof (fopen_quiet path w) as H. by destruct (fopen_wb path w).
    + apply frames_bind; [intros w; apply fwrite_quiet|intros _; apply frames_ret].
Qed.

Context (pqxx_connect : bytes -> M W unit) (stores : Stores W).
Hypothesis connect_quiet : forall dsn, frames table (pqxx_connect dsn).

Lemma ConnectDatabase_quiet dsn : frames table (ConnectDatabase pqxx_connect stores dsn).
Proof.
  unfold ConnectDatabase. case_decide; [apply frames_ret|].
  apply frames_catch; [apply frames_bind; [apply connect_quiet|intros _; apply frames_ret]|intros e; apply frames_ret].
Qed.

Lemma ConnectDatabase_run dsn w : exists db w', ConnectDatabase pqxx_connect stores dsn w = (Ok db, w') /\
  (is_Some db <-> dsn <> [] /\ exists w', pqxx_connect dsn w = (Ok tt, w')) /\ (is_Some db -> db = Some stores).
Proof.
  unfold ConnectDatabase. case_decide as Hd.
  { exists None, w. split; [done|]. split; [|by intros []]. split; [by intros []|by intros []]. }
  unfold try_catch, bind. destruct (pqxx_connect dsn w) as [[[]|e] w'] eqn:E; cbn.
  - exists (Some stores), w'. split; [done|]. split; [|done]. split; [|by eauto]. intros _. by eauto.
  - exists None, w'. split; [done|]. split; [|by intros []]. split; [by intros []|]. intros (_ & ? & ?). congruence.
Qed.

End Start.

(** ** Properties *)

(** C24. What starting the program comes to. Without a usable RSA key it
    exits with 1 and listens nowhere. Otherwise it serves with that key, with
    the stores exactly if a database is configured and can be reached, and
    listens on the configured address and port (modulo 2^16; any port, if that
    is 0), all of its descriptors accounted for; or the system refuses the
    address, nothing is left open, and the [SocketError] leaves [main]. Once it
    serves, a turn of the loop ends the program with 0 exactly if a signal has
    called [Stop]. *)
Theorem main_outcome {ssl : OpenSSL} {js : Json} {W} {kernel : Kernel W} {tools : KeyTools W}
    (table : W -> gmap Z socket_state) {laws : KernelLaws table}
    (Hgen : forall bits w, table (snd (EVP_PKEY_generate bits w)) = table w)
    (Hopen : forall path w, table (snd (fopen_wb path w)) = table w)
    (Hwrite : forall path data w, table (fwrite_all path data w) = table w)
    (recv : Z -> Z -> W -> TcpSocket.recv_result * W) (send : Z -> bytes -> W -> TcpSocket.send_result * W)
    (interrupts : W -> nat) (now : Clock W) (rand : RandomFill W) (getpeername : Z -> W -> option (bytes * Z))
    (eprint : bytes -> M W unit) (getenv : Environment) (e164 : bytes -> option bytes)
    (pqxx_connect : bytes -> M W unit) (Hconnect : forall dsn, frames table (pqxx_connect dsn))
    (stores : Stores W) (codes : ICodeStore W) (can_start : W -> bool) (w : W) :
  let s := ReadSettings getenv in
  let key := fst (LoadOrGenerate (rsa_key_path s) w) in
  let '(r, w') := main recv send interrupts now rand getpeername eprint getenv e164 pqxx_connect stores codes w in
  match r with
  | Ok (Exited code) => code = 1 /\ (exists e, key = Throw e) /\ table w' = table w
  | Ok (Serving connection l) =>
      exists k db w1, key = Ok k /\
        (is_Some db <-> pg_dsn s <> [] /\ exists w2, pqxx_connect (pg_dsn s) w1 = (Ok tt, w2)) /\
        (is_Some db -> db = Some stores) /\
        connection = serve recv send interrupts now rand getpeername eprint getenv e164 codes s k db /\
        (u16 (s_port s) <> 0 -> l_port l = u16 (s_port s)) /\ Process.accounted table (table w) (started l w') /\
        forall p, exit_code (RunTurn can_start p) = Some 0 <-> stopping_ p = true
  | Throw e => (exists k, key = Ok k) /\ table w' = table w /\ exists what, e = SocketError what
  end.
Proof.
  intros s key. unfold main. fold s. subst key. clearbody s. cbv zeta. pose proof (LoadOrGenerate_quiet table Hgen Hopen Hwrite (rsa_key_path s) w) as Hk.
  unfold bind at 1. unfold try_catch, bind at 1.
  destruct (LoadOrGenerate (rsa_key_path s) w) as [[k|e] w1]; cbn in Hk |- *; [|by eauto].
  destruct (ConnectDatabase_run pqxx_connect stores (pg_dsn s) w1) as (db & w2 & Ed & Hdb & Hst).
  pose proof (ConnectDatabase_quiet table pqxx_connect stores Hconnect (pg_dsn s) w1) as Hq.
  rewrite Ed in Hq. erewrite bind_Ok by exact Ed. cbn in Hq.
  assert (Hport : 0 <= u16 (s_port s) < 2 ^ 16) by (apply Z.mod_pos_bound; lia).
  pose proof (Listen_spec table (bind_address s) (u16 (s_port s)) 128 (table w2) Hport w2 eq_refl) as Hl.
  pose proof (started_accounted table (bind_address s) (u16 (s_port s)) 128 w2) as Ha.
  unfold bind at 1. destruct (Listen (bind_address s) (u16 (s_port s)) 128 w2) as [[l|e] w3]; cbn in Hl |- *.
  - exists k, db, w1. destruct Hl as (fd & st & (a & _ & _ & _ & Hp & _) & _).
    split; [done|]. split; [exact Hdb|]. split; [exact Hst|]. split; [done|]. split; [exact Hp|].
    split; [rewrite <- Hk, <- Hq; by apply Ha|].
    intros p. unfold exit_code, RunTurn, StartThread. by destruct (stopping_ p); repeat case_match.
  - destruct Hl as [Ht He]. split_and!; [by eauto|congruence|done].
Qed.

(** ** A machine with a disk *)

Module ToyProgram.
Import ToyMachine ToyDisk.

Definition lift {A} (call : machine -> A * machine) : machine * disk -> A * (machine * disk) := fun w =>
  let '(a, m') := call (fst w) in (a, (m', snd w)).
Lemma lift_law A (call : machine -> A * machine) w (P : A -> machine -> Prop) :
  (let '(a, m') := call (fst w) in P a m') -> let '(a, w') := lift call w in P a (fst w').
Proof. unfold lift. by destruct (call (fst w)). Qed.

#[export] Instance kernel : Kernel (machine * disk) := {|
  errno w := errno (fst w); strerror := strerror (K := machine); gai_strerror := gai_strerror (K := machine);
  sys_socket d t p := lift (sys_socket d t p); sys_close fd w := (sys_close fd (fst w), snd w);
  sys_setsockopt fd l n v w := (sys_setsockopt fd l n v (fst w), snd w);
  sys_bind fd a := lift (sys_bind fd a); sys_listen fd n := lift (sys_listen fd n);
  sys_getsockname fd := lift (sys_getsockname fd); sys_poll fd t := lift (sys_poll fd t);
  sys_accept fd := lift (sys_accept fd); sys_connect fd a := lift (sys_connect fd a);
  sys_getaddrinfo h p := lift (sys_getaddrinfo h p); inet_pton := inet_pton (K := machine) |}.

Definition table (w : machine * disk) : sockets := open_sockets (fst w).

#[export] Instance kernel_laws : KernelLaws table.
Proof.
  split.
  - intros d t p w. exact (lift_law _ (sys_socket d t p) w (fun fd m' => opens _ (table w) fd (open_sockets m')) (socket_law d t p (fst w))).
  - done.
  - done.
  - intros fd a w Ha. exact (bind_law (table := open_sockets) fd a (fst w) Ha).
  - intros fd n w. exact (listen_law (table := open_sockets) fd n (fst w)).
  - intros fd w. pose proof (getsockname_law (table := open_sockets) fd (fst w)) as H.
    change (sys_getsockname fd w) with (lift (sys_getsockname fd) w). unfold lift.
    by destruct (sys_getsockname fd (fst w)) as [[] ?].
  - done.
  - intros fd w. exact (lift_law _ (sys_accept fd) w (fun r m' => (r < 0 /\ open_sockets m' = table w) \/
      exists st, table w !! fd = Some st /\ listens st = true /\ opens (MkState (local st) false) (table w) r (open_sockets m'))
      (accept_law fd (fst w))).
  - done.
  - intros h p w. change (sys_getaddrinfo h p w) with (lift (sys_getaddrinfo h p) w). unfold lift.
    pose proof (getaddrinfo_law (table := open_sockets) h p (fst w)) as H. by destruct (sys_getaddrinfo h p (fst w)) as [[] ?].
Qed.

#[export] Instance tools : KeyTools (machine * disk) := {|
  keygen_init bits w := keygen_init bits (snd w);
  EVP_PKEY_generate bits w := let '(k, d) := EVP_PKEY_generate bits (snd w) in (k, (fst w, d));
  PEM_read_bio_PrivateKey := PEM_read_bio_PrivateKey (W := disk); EVP_PKEY_fromdata := EVP_PKEY_fromdata (W := disk);
  PEM_write_traditional := PEM_write_traditional (W := disk); fopen_rb path w := fopen_rb path (snd w);
  fopen_wb path w := let '(ok, d) := fopen_wb path (snd w) in (ok, (fst w, d));
  fwrite_all path data w := (fst w, fwrite_all path data (snd w)) |}.

Lemma generate_quiet bits w : table (snd (EVP_PKEY_generate bits w)) = table w.
Proof. done. Qed.
Lemma fopen_quiet path w : table (snd (fopen_wb path w)) = table w.
Proof. unfold table, fopen_wb, tools. by destruct (fopen_wb path (snd w)). Qed.

(** No database: the stores are never called. *)
Definition no_stores {W} : Stores W :=
  let down {A} : M W A := throw DatabaseError in
  MkStores (MkAuthKeyStore W (fun _ => down) (fun _ => down) (fun _ _ => down) (fun _ => down) (fun _ => down) (fun _ _ => down))
    (MkTempStore W (fun _ => down) (fun _ => down))
    (MkUserStore W (fun _ => down) (fun _ => down) (fun _ => down) (fun _ => down) (fun _ => down) (fun _ _ => down)
       (fun _ _ => down) (fun _ _ => down) (fun _ _ => down) (fun _ _ _ _ => down) (fun _ _ => down) (fun _ _ => down)
       (fun _ _ _ => down) (fun _ _ => down) (fun _ _ => down) (fun _ _ => down) (fun _ _ => down) (fun _ _ _ => down))
    (MkAuthorizationStore W (fun _ => down) (fun _ => down) (fun _ _ => down) (fun _ => down) (fun _ => down)
       (fun _ _ => down) (fun _ _ => down) (fun _ _ => down))
    (MkPasswordStore W (fun _ => down) (fun _ _ => down)).
Definition no_codes {W} : ICodeStore W :=
  MkCodeStore W (fun _ _ => throw DatabaseError) (fun _ => throw DatabaseError) (fun _ => throw DatabaseError)
    (fun _ _ _ _ _ => throw DatabaseError) (fun _ _ => throw DatabaseError).

Definition environment (key_path : bytes) : Environment := fun name =>
  if decide (name = lit "SHUZAGRAM_RSA_KEY_PATH") then Some key_path
  else if decide (name = lit "SHUZAGRAM_BIND_ADDRESS") then Some (lit "127.0.0.1")
  else if decide (name = lit "SHUZAGRAM_PORT") then Some (lit "67934") else None.

Definition start (key_path : bytes) : res program * (machine * disk) :=
  main (ssl := Toy.toy) (js := ToyJson.toy) (fun _ _ w => (TcpSocket.Received [], w)) (fun _ _ w => (TcpSocket.Sent 0, w))
    (fun _ => 0%nat) (ret 0) (fun _ => throw DatabaseError) (fun _ _ => None) (fun _ => ret tt) (environment key_path)
    (fun _ => None) (fun _ => throw DatabaseError) no_stores no_codes (booted, roomy).

Definition listening (r : res (@program (machine * disk))) : option TcpListener :=
  match r with Ok (Serving _ l) => Some l | _ => None end.

End ToyProgram.

Section Witness.
#[local] Existing Instances ToyProgram.kernel ToyProgram.kernel_laws ToyProgram.tools.

(** Port 67934 is 2398 modulo 2^16.  Where no key can be written the program
    exits. *)
Lemma main_outcome_witness :
  ToyProgram.listening (fst (ToyProgram.start (lit "key.pem"))) = Some (MkListener 0 2398) /\
  (exists p, fst (ToyProgram.start (lit "/nowhere")) = Ok p /\ p = Exited 1) /\
  match fst (ToyProgram.start (lit "key.pem")) with
  | Ok (Serving _ l) => Process.accounted ToyProgram.table ∅ (started l (snd (ToyProgram.start (lit "key.pem"))))
  | _ => False
  end.
Proof.
  assert (Hl : ToyProgram.listening (fst (ToyProgram.start (lit "key.pem"))) = Some (MkListener 0 2398))
    by (vm_compute; reflexivity).
  assert (Hn : fst (ToyProgram.start (lit "/nowhere")) = Ok (Exited 1)) by (vm_compute; reflexivity).
  split; [exact Hl|]. split; [exists (Exited 1); split; [exact Hn|reflexivity]|].
  pose proof (main_outcome (ssl := Toy.toy) (js := ToyJson.toy) ToyProgram.table
    ToyProgram.generate_quiet ToyProgram.fopen_quiet (fun path data w => eq_refl)
    (fun _ _ w => (TcpSocket.Received [], w)) (fun _ _ w => (TcpSocket.Sent 0, w))
    (fun _ => 0%nat) (ret 0) (fun _ => throw DatabaseError) (fun _ _ => None) (fun _ => ret tt)
    (ToyProgram.environment (lit "key.pem")) (fun _ => None) (fun _ => throw DatabaseError) ltac:(intros dsn; apply frames_throw)
    ToyProgram.no_stores ToyProgram.no_codes (fun _ => true) (ToyMachine.booted, ToyDisk.roomy)) as H.
  cbv zeta in H. fold (ToyProgram.start (lit "key.pem")) in H.
  destruct (ToyProgram.start (lit "key.pem")) as [[[code|c l]|e] w']; try discriminate Hl.
  destruct H as (k & db & w1 & _ & _ & _ & _ & _ & Ha & _). exact Ha.
Defined.

End Witness.
