(* ===== verification/Gate.v ===== *)
(** * What the server guarantees to its callers

    Theorems about the program of [Main.v] as a whole: every call that decodes
    is answered, a key that speaks for nobody reaches no account, a pending
    login is completed only by a proof, and a negotiated key is resumed until
    it expires.  The stores are any that keep the contracts stated here. *)

From Stdlib Require Import ZArith Lia Strings.Byte Strings.String.
From stdpp Require Import base decidable list gmap.
From S2P Require Import Prelude TL Schema Messages OpenSSL Cipher Session Handshake Server.
From S2P Require Import Domain Store Auth Srp Password Bind Api ApiSchema Users Main.
Import TLBuffer.

(** ** The clock *)

Lemma NowUnix_keeps {W T} (now : Clock W) (keep : W -> T) {clock : ClockSource now keep} w :
  exists n w', NowUnix now w = (Ok (seconds_of n), w') /\ keep w' = keep w /\
    exists w0 w1, now w0 = (Ok n, w1).
Proof.
  destruct (clock_now (keep := keep) w) as (n & w' & E & _ & Hk). exists n, w'. unfold NowUnix.
  erewrite bind_Ok by exact E. eauto.
Qed.

(** ** A caller without an identity *)

(** What every account method answers a key that is unknown, or whose
    password is pending. *)
Definition anonymous_answer (id : Z) (fields : bytes) : bytes :=
  let decoded {A} (decode : M bytes A) (answer : bytes) (error : exn -> bytes) :=
    match fst (decode fields) with Ok _ => answer | Throw e => error e end in
  let internal (_ : exn) := kInternal in
  if id =? UsersGetUsersRequest.kTypeId
  then decoded UsersGetUsersRequest.DecodeBare (PutVectorHeader 0 []) internal
  else if id =? AccountUpdateStatusRequest.kTypeId
  then decoded AccountUpdateStatusRequest.DecodeBare (EncodeBool true []) internal
  else if id =? AccountGetAuthorizationsRequest.kTypeId
  then EncodeAccountAuthorizations [] [] 0 []
  else if id =? AccountUpdateProfileRequest.kTypeId
  then decoded AccountUpdateProfileRequest.DecodeBare kInternal update_profile_error
  else if id =? AccountCheckUsernameRequest.kTypeId
  then decoded AccountCheckUsernameRequest.DecodeBare kInternal check_username_error
  else if id =? AccountUpdateUsernameRequest.kTypeId
  then decoded AccountUpdateUsernameRequest.DecodeBare kInternal update_username_error
  else decoded AccountUpdateBirthdayRequest.DecodeBare kInternal update_birthday_error.

Definition account_methods : list Z :=
  [UsersGetUsersRequest.kTypeId; AccountUpdateStatusRequest.kTypeId;
   AccountGetAuthorizationsRequest.kTypeId; AccountUpdateProfileRequest.kTypeId;
   AccountCheckUsernameRequest.kTypeId; AccountUpdateUsernameRequest.kTypeId;
   AccountUpdateBirthdayRequest.kTypeId].

Section Anonymous.
Context {W : Type} (now : Clock W) (users : IUserStore W) (authorizations : IAuthorizationStore W).
Context (rows : W -> gmap Z User) (holder : W -> bytes -> option User).
Context (bound : W -> gmap bytes Authorization.t).
Context {clock : ClockSource now (fun w => (rows w, bound w))} {spec : UserStoreSpec users rows holder}.
Context {reads : SessionReads authorizations bound rows}.
Context (ctx : RpcContext) (w : W).
Context (Hanon : identity (bound w !! ctx_auth_key_id ctx) = None) (Hzero : rows w !! 0 = None).

(** [m] answers [r] and leaves the accounts alone. *)
Definition gives {A} (m : M W A) (r : res A) : Prop := exists w', m w = (r, w') /\ rows w' = rows w.

Lemma tick w1 : exists t w2, NowUnix now w1 = (Ok t, w2) /\ rows w2 = rows w1 /\ bound w2 = bound w1.
Proof.
  destruct (NowUnix_keeps now (fun w => (rows w, bound w)) w1) as (n & w2 & E & [= Hr Hb] & _). eauto.
Qed.

Lemma nobody w1 : bound w1 = bound w -> exists w2,
  ResolveCurrentUser authorizations (ctx_auth_key_id ctx) w1 = (Ok (CurrentUser.Mk 0 false), w2) /\
  rows w2 = rows w1.
Proof.
  intros Hb.
  destruct (ResolveCurrentUser_identity authorizations bound rows (ctx_auth_key_id ctx) w1) as (w2 & E & Hr).
  rewrite Hb, Hanon in E. by exists w2.
Qed.

(** The handlers: decode, then a body, errors mapped by [h]. *)
Lemma gives_try {A} (fields : bytes) (decode : M bytes A) (k : A -> M W bytes) h r :
  (forall a, gives (k a) r) ->
  gives (try_catch (a <- local fields decode ;; k a) (fun e => ret (h e)))
    (Ok (match fst (decode fields) with
         | Ok _ => match r with Ok b => b | Throw e => h e end
         | Throw e => h e
         end)).
Proof.
  intros Hk. unfold gives, try_catch, local. rewrite bind_lift.
  destruct (fst (decode fields)) as [a|e]; [|by exists w].
  destruct (Hk a) as (w' & -> & Hr). destruct r; by exists w'.
Qed.

Lemma anonymous_get_users fields :
  gives (HandleUsersGetUsers now users authorizations fields ctx)
    (Ok (match fst (UsersGetUsersRequest.DecodeBare fields) with
         | Ok _ => PutVectorHeader 0 [] | Throw _ => kInternal end)).
Proof.
  apply (gives_try _ _ _ (fun _ => kInternal) (Ok (PutVectorHeader 0 []))). intros ids. unfold gives.
  destruct (ResolveGetUsers_run users authorizations rows holder bound (ctx_auth_key_id ctx) ids w)
    as (w1 & E & Hr).
  erewrite bind_Ok by exact E. destruct (tick w1) as (t & w2 & E2 & Hr2 & _).
  erewrite bind_Ok by exact E2. exists w2. split; [|congruence]. rewrite Hanon.
  assert (concat (map (lookup_input (rows w) None) ids) = []) as -> by (clear; by induction ids as [|i l IH]).
  done.
Qed.

Lemma anonymous_update_status fields :
  gives (HandleAccountUpdateStatus now users authorizations fields ctx)
    (Ok (match fst (AccountUpdateStatusRequest.DecodeBare fields) with
         | Ok _ => EncodeBool true [] | Throw _ => kInternal end)).
Proof.
  apply (gives_try _ _ _ (fun _ => kInternal) (Ok (EncodeBool true []))). intros _. unfold gives.
  destruct (tick w) as (t & w1 & E & Hr & Hb). erewrite bind_Ok by exact E.
  destruct (nobody w1 Hb) as (w2 & E2 & Hr2). exists w2. split; [|congruence].
  unfold UpdateStatus. rewrite bind_assoc. by erewrite bind_Ok by exact E2.
Qed.

Lemma anonymous_get_authorizations fields :
  gives (HandleAccountGetAuthorizations now authorizations fields ctx)
    (Ok (EncodeAccountAuthorizations [] [] 0 [])).
Proof.
  apply (gives_try fields AccountGetAuthorizationsRequest.DecodeBare _ (fun _ => kInternal)
    (Ok (EncodeAccountAuthorizations [] [] 0 []))). intros _. unfold gives.
  destruct (nobody w eq_refl) as (w1 & E1 & Hr1). erewrite bind_Ok by exact E1.
  cbn [CurrentUser.authorized]. rewrite bind_ret. destruct (tick w1) as (t & w2 & E & Hr & _).
  erewrite bind_Ok by exact E. exists w2. split; [done|congruence].
Qed.

Lemma anonymous_update_profile fields :
  gives (HandleAccountUpdateProfile now users authorizations fields ctx)
    (Ok (match fst (AccountUpdateProfileRequest.DecodeBare fields) with
         | Ok _ => kInternal | Throw e => update_profile_error e end)).
Proof.
  apply (gives_try _ _ _ update_profile_error (Throw UserNotFoundError)). intros upd. unfold gives.
  destruct (tick w) as (t & w1 & E & Hr & Hb). erewrite bind_Ok by exact E.
  destruct (nobody w1 Hb) as (w2 & E2 & Hr2). erewrite bind_Ok by exact E2.
  destruct (UpdateProfile_run users rows holder 0 upd t w2) as (r & w3 & E3 & Hr3).
  rewrite Hr2, Hr, Hzero in Hr3. destruct Hr3 as [-> Hr3]. erewrite bind_Throw by exact E3. eauto.
Qed.

Lemma anonymous_check_username fields :
  gives (HandleAccountCheckUsername users authorizations fields ctx)
    (Ok (match fst (AccountCheckUsernameRequest.DecodeBare fields) with
         | Ok _ => kInternal | Throw e => check_username_error e end)).
Proof.
  apply (gives_try _ _ _ check_username_error (Throw UserNotFoundError)). intros n. unfold gives.
  destruct (nobody w eq_refl) as (w1 & E1 & Hr1). erewrite bind_Ok by exact E1.
  destruct (CheckUsername_run users rows holder 0 n w1) as (w2 & E2 & Hr2).
  cbn [account Z.eqb] in E2. erewrite bind_Throw by exact E2. exists w2. split; [done|congruence].
Qed.

Lemma anonymous_update_username fields :
  gives (HandleAccountUpdateUsername now users authorizations fields ctx)
    (Ok (match fst (AccountUpdateUsernameRequest.DecodeBare fields) with
         | Ok _ => kInternal | Throw e => update_username_error e end)).
Proof.
  apply (gives_try _ _ _ update_username_error (Throw UserNotFoundError)). intros n. unfold gives.
  destruct (nobody w eq_refl) as (w1 & E1 & Hr1). erewrite bind_Ok by exact E1.
  destruct (UpdateUsername_run users rows holder 0 n w1) as (r & w2 & E2 & Hr2).
  cbn [account Z.eqb] in Hr2. destruct Hr2 as [-> Hr2]. erewrite bind_Throw by exact E2.
  exists w2. split; [done|congruence].
Qed.

Lemma anonymous_update_birthday fields :
  gives (HandleAccountUpdateBirthday users authorizations fields ctx)
    (Ok (match fst (AccountUpdateBirthdayRequest.DecodeBare fields) with
         | Ok _ => kInternal | Throw e => update_birthday_error e end)).
Proof.
  apply (gives_try _ _ _ update_birthday_error (Throw UserNotFoundError)). intros b. unfold gives.
  destruct (nobody w eq_refl) as (w1 & E1 & Hr1). erewrite bind_Ok by exact E1.
  destruct (UpdateBirthday_run users rows holder 0 b w1) as (r & w2 & E2 & Hr2).
  rewrite Hr1, Hzero in Hr2. destruct Hr2 as [-> Hr2]. erewrite bind_Throw by exact E2. eauto.
Qed.
End Anonymous.

Section Server.
Context {ssl : OpenSSL} {W : Type} (e164 : bytes -> option bytes).
Context (rand : RandomFill W) (now : Clock W) (s : Settings) (d : Stores W).
Context (codes : ICodeStore W) (otp : option (OtpSender W)).

Lemma anonymous_answers (rows : W -> gmap Z User) (holder : W -> bytes -> option User)
    (bound : W -> gmap bytes Authorization.t)
    {clock : ClockSource now (fun w => (rows w, bound w))}
    {spec : UserStoreSpec (user_store d) rows holder}
    {reads : SessionReads (authorization_store d) bound rows} id handler fields ctx w :
  Find id (BuildRegistry e164 rand now s (Some d) codes otp) = Some handler ->
  In id account_methods ->
  identity (bound w !! ctx_auth_key_id ctx) = None -> rows w !! 0 = None ->
  exists w', handler id fields ctx w = (Ok (anonymous_answer id fields), w') /\ rows w' = rows w.
Proof.
  intros H Hin Ha Hz. unfold BuildRegistry in H. cbv zeta in H.
  repeat (apply Find_Register in H as [[<- <-]|H]); try (rewrite Find_empty in H; discriminate);
    try (exfalso; cbv in Hin; repeat destruct Hin as [Hin|Hin]; (discriminate || contradiction)).
  - exact (anonymous_update_birthday (user_store d) (authorization_store d) rows holder bound ctx w Ha Hz fields).
  - exact (anonymous_update_username now (user_store d) (authorization_store d) rows holder bound ctx w Ha fields).
  - exact (anonymous_check_username (user_store d) (authorization_store d) rows holder bound ctx w Ha fields).
  - exact (anonymous_update_profile now (user_store d) (authorization_store d) rows holder bound ctx w Ha Hz fields).
  - exact (anonymous_get_authorizations now (authorization_store d) rows bound ctx w Ha fields).
  - exact (anonymous_update_status now (user_store d) (authorization_store d) rows bound ctx w Ha fields).
  - exact (anonymous_get_users now (user_store d) (authorization_store d) rows holder bound ctx w Ha fields).
Qed.
End Server.

(** ** A pending login *)

(** What the stores promise auth.checkPassword. *)
Class PendingStores {W} (d : Stores W) (bound : W -> gmap bytes Authorization.t)
    (stored : W -> Z -> option PasswordSettings.t) : Prop := {
  ps_ByAuthKey key w : exists w', ByAuthKey (authorization_store d) key w = (Ok (bound w !! key), w') /\
    bound w' = bound w /\ stored w' = stored w;
  ps_GetByUser i w : exists w', GetByUser (password_store d) i w = (Ok (stored w i), w') /\
    bound w' = bound w;
  ps_MarkPasswordPassed key i w : exists r w',
    MarkPasswordPassed (authorization_store d) key i w = (r, w') /\
    match r with
    | Ok _ => exists a a', bound w !! key = Some a /\ Authorization.user_id a = i /\
        Authorization.password_pending a = true /\ Authorization.user_id a' = i /\
        Authorization.password_pending a' = false /\ bound w' = <[key := a']> (bound w)
    | Throw _ => bound w' = bound w
    end;
  ps_ByID i w : exists r w', ByID (user_store d) i w = (r, w') /\ bound w' = bound w }.

Section Pending.
Context {ssl : OpenSSL} {W : Type} (d : Stores W) (bound : W -> gmap bytes Authorization.t).
Context (stored : W -> Z -> option PasswordSettings.t) {stores : PendingStores d bound stored}.

Lemma CheckPassword_verdict i check w : exists w',
  CheckPassword (password_store d) i check w = (CheckSrp (normalized (stored w i)) check, w') /\
  bound w' = bound w.
Proof.
  destruct (ps_GetByUser i w) as (w' & E & Hb). exists w'. unfold CheckPassword, LoadNormalized.
  rewrite bind_assoc. by erewrite bind_Ok by exact E.
Qed.

(** After a good proof. *)
Lemma complete_login key a w : bound w !! key = Some a ->
  let finish :=
    (if Authorization.password_pending a
     then MarkPasswordPassed (authorization_store d) key (Authorization.user_id a) else ret tt) ;;;
    user <- ByID (user_store d) (Authorization.user_id a) ;;
    ret (AuthAuthorization.Encode (default empty_user user) []) in
  exists r w', finish w = (r, w') /\
    (bound w' = bound w \/
     Authorization.password_pending a = true /\ exists a', Authorization.user_id a' = Authorization.user_id a /\
       Authorization.password_pending a' = false /\ bound w' = <[key := a']> (bound w)).
Proof.
  intros Ha finish. unfold finish. destruct (Authorization.password_pending a) eqn:Ep.
  - destruct (ps_MarkPasswordPassed key (Authorization.user_id a) w) as (r & w1 & E1 & Hr).
    destruct r as [u|e]; [|exists (Throw e), w1; split; [by erewrite bind_Throw by exact E1|by left]].
    destruct Hr as (b & a' & Hb & _ & _ & Hu & Hp & Hbound). erewrite bind_Ok by exact E1.
    destruct (ps_ByID (Authorization.user_id a) w1) as (r & w2 & E2 & Hb2).
    assert (Hdone : bound w2 = <[key := a']> (bound w)) by congruence.
    destruct r as [o|e]; [erewrite bind_Ok by exact E2|erewrite bind_Throw by exact E2];
      eexists _, w2; (split; [done|right; split; [done|by exists a']]).
  - rewrite bind_ret. destruct (ps_ByID (Authorization.user_id a) w) as (r & w2 & E2 & Hb2).
    destruct r as [o|e]; [erewrite bind_Ok by exact E2|erewrite bind_Throw by exact E2];
      eexists _, w2; (split; [done|by left]).
Qed.

Lemma HandleAuthCheckPassword_run body ctx w :
  let key := ctx_auth_key_id ctx in
  exists r w',
    HandleAuthCheckPassword (user_store d) (authorization_store d) (password_store d) body ctx w = (r, w') /\
    (bound w' = bound w \/
     exists a a' check, bound w !! key = Some a /\ Authorization.password_pending a = true /\
       fst (AuthCheckPasswordRequest.DecodeBare body) = Ok check /\
       CheckSrp (normalized (stored w (Authorization.user_id a))) check = Ok tt /\
       Authorization.user_id a' = Authorization.user_id a /\ Authorization.password_pending a' = false /\
       bound w' = <[key := a']> (bound w)).
Proof.
  intros key. unfold HandleAuthCheckPassword, local. rewrite bind_lift.
  destruct (fst (AuthCheckPasswordRequest.DecodeBare body)) as [check|e] eqn:Ed.
  2:{ exists (Throw e), w. split; [done|by left]. }
  unfold try_catch. destruct (ps_ByAuthKey key w) as (w1 & E1 & Hb1 & Hs1). fold key.
  erewrite bind_Ok by exact E1. destruct (bound w !! key) as [a|] eqn:Ea.
  2:{ eexists _, w1. split; [done|by left]. }
  destruct (Authorization.user_id a =? 0).
  { eexists _, w1. split; [done|by left]. }
  destruct (CheckPassword_verdict (Authorization.user_id a) check w1) as (w2 & E2 & Hb2).
  rewrite Hs1 in E2. destruct (CheckSrp (normalized (stored w (Authorization.user_id a))) check) as [[]|e] eqn:Ec.
  2:{ erewrite bind_Throw by exact E2. eexists _, w2. split; [done|left; congruence]. }
  erewrite bind_Ok by exact E2.
  destruct (complete_login key a w2 ltac:(congruence)) as (r & w3 & E3 & H3).
  cbv zeta in E3. rewrite E3. destruct r as [r|e]; eexists _, w3; (split; [done|]);
    (destruct H3 as [H3|(Hp & a' & Hu & Hp' & H3)]; [left; congruence|right]);
    exists a, a', check; repeat split; congruence.
Qed.
End Pending.

(** ** Keys *)

(** The rows of auth_keys: reading returns them, saving adds one or does
    nothing. *)
Class KeyStoreSpec {W} (auth_keys : IAuthKeyStore W) (keys : W -> gmap bytes AuthKeyData.t) : Prop := {
  ks_Get i w : exists w', ak_Get auth_keys i w = (Ok (keys w !! i), w') /\ keys w' = keys w;
  ks_Save k w : exists r w', ak_Save auth_keys k w = (r, w') /\
    match r with
    | Ok _ => exists row, keys w' = <[AuthKeyData.id k := row]> (keys w) /\
        AuthKeyData.value row = AuthKeyData.value k /\
        AuthKeyData.server_salt row = AuthKeyData.server_salt k /\
        AuthKeyData.expires_at row = AuthKeyData.expires_at k
    | Throw _ => keys w' = keys w
    end }.

(** What a row is worth at time [t]. *)
Definition live (t : Z) (row : option AuthKeyData.t) : option ResolvedAuthKey :=
  match row with
  | Some k =>
      if decide (AuthKeyData.expires_at k = 0 \/ 0 < AuthKeyData.expires_at k /\ t < AuthKeyData.expires_at k)
      then Some (MkResolved (AuthKeyData.value k) (AuthKeyData.server_salt k)) else None
  | None => None
  end.

(** [t] is a time the clock shows. *)
Definition shown {W} (now : Clock W) (t : Z) : Prop := exists n w w', now w = (Ok n, w') /\ t = seconds_of n.

Section Keys.
Context {ssl : OpenSSL} {W : Type} (now : Clock W) (auth_keys : IAuthKeyStore W).
Context (keys : W -> gmap bytes AuthKeyData.t).
Context {clock : ClockSource now keys} {spec : KeyStoreSpec auth_keys keys}.

Lemma ResolveAuthKey_run id w : exists t w', shown now t /\
  ResolveAuthKey now auth_keys id w = (Ok (live t (keys w !! id)), w') /\ keys w' = keys w.
Proof.
  destruct (ks_Get id w) as (w1 & E1 & Hk1).
  destruct (NowUnix_keeps now keys w1) as (n & w2 & E2 & Hk2 & w0 & w0' & En).
  exists (seconds_of n).
  assert (Hs : shown now (seconds_of n)) by (by exists n, w0, w0').
  unfold ResolveAuthKey, live.
  assert (Et : try_catch (ak_Get auth_keys id) (fun _ => ret None) w = (Ok (keys w !! id), w1))
    by (unfold try_catch; by rewrite E1).
  erewrite bind_Ok by exact Et. destruct (keys w !! id) as [k|]; [|by exists w1].
  destruct (Z.ltb_spec (AuthKeyData.expires_at k) 0).
  { exists w1. by rewrite decide_False by lia. }
  erewrite bind_Ok by exact E2. exists w2. split; [done|]. split; [|congruence].
  destruct (Z.ltb_spec 0 (AuthKeyData.expires_at k)),
    (Z.leb_spec (AuthKeyData.expires_at k) (seconds_of n)); cbn [andb];
    try (by rewrite decide_True by lia); by rewrite decide_False by lia.
Qed.

Lemma OnHandshake_run (d : Stores W) result w : auth_key_store d = auth_keys ->
  exists w', OnHandshake (Some d) result w = (Ok tt, w') /\
    (keys w' = keys w \/
     exists row, keys w' = <[AuthKeyId (auth_key result) := row]> (keys w) /\
       AuthKeyData.value row = auth_key result /\ AuthKeyData.server_salt row = server_salt result /\
       AuthKeyData.expires_at row = Handshake.expires_at result).
Proof.
  intros Ed. unfold OnHandshake. rewrite Ed.
  destruct (ks_Save (key_data result) w) as (r & w' & E & Hr). exists w'.
  unfold try_catch. rewrite E. destruct r as [[]|e]; (split; [done|]); [right|left]; done.
Qed.
End Keys.

(** ** The guarantees *)



(** C4. A pending login is completed only by a proof.  auth.checkPassword
    changes the identity of no key but the caller's, and that one only from
    nobody to the user whose login was pending, when the proof it carries
    passes the check against that user's stored challenge. *)
Theorem checkPassword_needs_proof {ssl : OpenSSL} {W} (d : Stores W)
    (bound : W -> gmap bytes Authorization.t) (stored : W -> Z -> option PasswordSettings.t)
    (stores : PendingStores d bound stored) (body : bytes) (ctx : RpcContext) (w : W) :
  let '(_, w') := HandleAuthCheckPassword (user_store d) (authorization_store d) (password_store d)
    body ctx w in
  forall k, identity (bound w' !! k) <> identity (bound w !! k) ->
    k = ctx_auth_key_id ctx /\ identity (bound w !! k) = None /\
    exists a check, bound w !! k = Some a /\ Authorization.password_pending a = true /\
      fst (AuthCheckPasswordRequest.DecodeBare body) = Ok check /\
      CheckSrp (normalized (stored w (Authorization.user_id a))) check = Ok tt /\
      identity (bound w' !! k) = Some (Authorization.user_id a).
Proof.
  destruct (HandleAuthCheckPassword_run d bound stored body ctx w) as (r & w' & E & H). rewrite E.
  intros k Hk.
  destruct H as [H|(a & a' & check & Ha & Hp & Hd & Hc & Hu & Hp' & Hb)]; [congruence|].
  rewrite Hb in Hk |- *. destruct (decide (ctx_auth_key_id ctx = k)) as [<-|Hne].
  2:{ by rewrite lookup_insert_ne in Hk. }
  split; [done|]. rewrite Ha, lookup_insert_eq. cbn [identity]. rewrite Hp, Hp', Hu.
  split; [done|]. by exists a, check.
Qed.

(** C26. A negotiated key is resumed, for as long as it lives.  What the server
    does with the result of a key exchange never throws and touches no other
    key; once the key is saved, a client that comes back with it, whenever its
    row is as it was left, is resolved to exactly that key and salt if the key
    is permanent or the clock has not reached its expiry, and to no key at all
    otherwise.  A key without a row, or with the unprovable expiry -1, never
    resolves. *)
Theorem handshake_key_resumes {ssl : OpenSSL} {W} (now : Clock W) (d : Stores W)
    (keys : W -> gmap bytes AuthKeyData.t) (clock : ClockSource now keys)
    (spec : KeyStoreSpec (auth_key_store d) keys) (result : ServerExchangeResult) (w : W) :
  let id := AuthKeyId (auth_key result) in
  exists w1, OnHandshake (Some d) result w = (Ok tt, w1) /\
    (forall j, j <> id -> keys w1 !! j = keys w !! j) /\
    (keys w1 = keys w \/
     forall w2, keys w2 !! id = keys w1 !! id ->
       exists t w3, shown now t /\ keys w3 = keys w2 /\
         ResolveAuthKey now (auth_key_store d) id w2 =
           (Ok (if decide (Handshake.expires_at result = 0 \/
                           0 < Handshake.expires_at result /\ t < Handshake.expires_at result)
                then Some (MkResolved (auth_key result) (server_salt result)) else None), w3)) /\
    (forall j w2, (forall row, keys w2 !! j = Some row -> AuthKeyData.expires_at row = -1) ->
       fst (ResolveAuthKey now (auth_key_store d) j w2) = Ok None).
Proof.
  intros id. destruct (OnHandshake_run (auth_key_store d) keys d result w eq_refl) as (w1 & E & Hk).
  exists w1. split; [exact E|]. fold id in Hk. split; [|split].
  - intros j Hj. destruct Hk as [->|(row & -> & _)]; [done|]. by rewrite lookup_insert_ne.
  - destruct Hk as [Hk|(row & Hk & Hv & Hs & He)]; [by left|right]. intros w2 H2.
    destruct (ResolveAuthKey_run now (auth_key_store d) keys id w2) as (t & w3 & Ht & E3 & Hk3).
    exists t, w3. split; [done|]. split; [done|]. rewrite E3, H2, Hk, lookup_insert_eq.
    unfold live. by rewrite Hv, Hs, He.
  - intros j w2 Hj. destruct (ResolveAuthKey_run now (auth_key_store d) keys j w2) as (t & w3 & _ & E3 & _).
    rewrite E3. cbn [fst]. unfold live. destruct (keys w2 !! j) as [row|]; [|done].
    rewrite decide_False; [done|]. rewrite (Hj row eq_refl). lia.
Qed.

(** ** A small server *)

Module Demo.
#[local] Existing Instances Toy.toy Toy.toy_laws.
Import UserTable.

#[export] Instance clock_any {W T} (keep : W -> T) : ClockSource (@Toy.clock W) keep.
Proof. intros w. exists 1780243200000000001, w. split; [done|]. split; [split|]; done. Qed.

Definition pass (a : Authorization.t) : Authorization.t :=
  Authorization.with_user a (Authorization.user_id a) false.

Definition authorizations : IAuthorizationStore world :=
  MkAuthorizationStore world
    (fun a => modify (fun w => MkWorld (w_rows w) (<[Authorization.auth_key_id a := a]> (w_bound w))))
    (fun k => gets (fun w => w_bound w !! k))
    (fun _ _ => ret tt) (fun _ => ret []) (fun _ => unused) (fun _ _ => unused) (fun _ _ => unused)
    (fun k i w => match w_bound w !! k with
                  | Some a => if Authorization.password_pending a && (Authorization.user_id a =? i)
                              then (Ok tt, MkWorld (w_rows w) (<[k := pass a]> (w_bound w)))
                              else (Throw AuthorizationStateChangedError, w)
                  | None => (Throw AuthorizationStateChangedError, w)
                  end).
Definition passwords : IPasswordStore world := MkPasswordStore world (fun _ => ret None) (fun _ _ => unused).
Definition codes : ICodeStore world :=
  MkCodeStore world (fun _ _ => ret tt) (fun _ => ret None) (fun _ => ret tt)
    (fun _ _ _ _ _ => ret (MkVerify kMissing empty_code)) (fun _ _ => ret None).
Definition no_keys : IAuthKeyStore world :=
  MkAuthKeyStore world (fun _ => unused) (fun _ => ret None) (fun _ _ => unused) (fun _ => unused)
    (fun _ => ret None) (fun _ _ => unused).
Definition no_bindings : ITempAuthKeyBindingStore world :=
  MkTempStore world (fun _ => unused) (fun _ => ret None).
Definition stores : Stores world := MkStores no_keys no_bindings users authorizations passwords.
Definition settings : Settings := ReadSettings (fun _ => None).
Definition registry : RpcHandlerRegistry world :=
  BuildRegistry Some_digits Toy.zeros Toy.clock settings (Some stores) codes None.

#[export] Instance reads : SessionReads authorizations bound rows.
Proof. intros key w. by exists w. Qed.

#[export] Instance pending : PendingStores stores bound (fun _ _ => None).
Proof.
  split.
  - by eexists.
  - by eexists.
  - intros key i w. cbn. destruct (w_bound w !! key) as [a|] eqn:Ea; [|by eexists _, _].
    destruct (Authorization.password_pending a) eqn:Ep; [|by eexists _, _].
    destruct (Z.eqb_spec (Authorization.user_id a) i) as [Hi|]; [|by eexists _, _].
    eexists _, _. split; [done|]. exists a, (pass a). by repeat split.
  - intros i w. by eexists _, _.
Qed.

(** User 7 has signed in under "key" and still owes a proof. *)
Definition waiting : Authorization.t :=
  Authorization.Mk (lit "key") 7 0 0 [] [] [] 0 [] [] true 0 0.
Definition start : world := MkWorld {[ 7 := ann ]} {[ lit "key" := waiting ]}.
Definition caller : RpcContext := MkContext (lit "key") 1.
Definition get_users : RpcHandler world := fun _ body ctx =>
  HandleUsersGetUsers Toy.clock users authorizations body ctx.
End Demo.



Lemma checkPassword_needs_proof_witness :
  let body := fput ApiSchema.check_password (inl tt) in
  let '(_, w') := @HandleAuthCheckPassword Toy.toy _ UserTable.users Demo.authorizations Demo.passwords
    body Demo.caller Demo.start in
  forall k, identity (UserTable.bound w' !! k) <> identity (UserTable.bound Demo.start !! k) ->
    k = lit "key" /\ identity (UserTable.bound Demo.start !! k) = None /\
    exists a check, UserTable.bound Demo.start !! k = Some a /\ Authorization.password_pending a = true /\
      fst (AuthCheckPasswordRequest.DecodeBare body) = Ok check /\
      @CheckSrp Toy.toy (normalized None) check = Ok tt /\
      identity (UserTable.bound w' !! k) = Some (Authorization.user_id a).
Proof.
  intros body.
  exact (@checkPassword_needs_proof Toy.toy _ Demo.stores UserTable.bound (fun _ _ => None) Demo.pending
    body Demo.caller Demo.start).
Defined.

(** A table of keys. *)
Module KeyTable.
Definition world : Type := gmap bytes AuthKeyData.t.
Definition unused {A} : M world A := throw (StoreError "unused").
Definition store : IAuthKeyStore world :=
  MkAuthKeyStore world
    (fun k => guard (ValidNewAuthKeyProtocolExpiry (AuthKeyData.expires_at k)) InvalidAuthKeyProtocolExpiryError ;;;
              modify (fun w => <[AuthKeyData.id k := k]> w))
    (fun i => gets (fun w => w !! i)) (fun _ _ => unused) (fun _ => unused) (fun _ => unused)
    (fun _ _ => unused).
Lemma store_spec : KeyStoreSpec store (fun w => w).
Proof.
  split.
  - intros i w. by exists w.
  - intros k w. cbn. rewrite bind_guard_if. destruct (ValidNewAuthKeyProtocolExpiry _); [|by eexists _, _].
    eexists _, _. split; [done|]. by exists k.
Qed.
Definition stores : Stores world :=
  MkStores store (MkTempStore world (fun _ => unused) (fun _ => unused))
    (MkUserStore world (fun _ => unused) (fun _ => unused) (fun _ => unused) (fun _ => unused)
      (fun _ => unused) (fun _ _ => unused) (fun _ _ => unused) (fun _ _ => unused) (fun _ _ => unused)
      (fun _ _ _ _ => unused) (fun _ _ => unused) (fun _ _ => unused) (fun _ _ _ => unused)
      (fun _ _ => unused) (fun _ _ => unused) (fun _ _ => unused) (fun _ _ => unused)
      (fun _ _ _ => unused))
    (MkAuthorizationStore world (fun _ => unused) (fun _ => unused) (fun _ _ => unused)
      (fun _ => unused) (fun _ => unused) (fun _ _ => unused) (fun _ _ => unused) (fun _ _ => unused))
    (MkPasswordStore world (fun _ => unused) (fun _ _ => unused)).
End KeyTable.

(** A temporary key that lives until 2033. *)
Lemma handshake_key_resumes_witness :
  let result := MkResult (replicate 256 x2a) 77 2000000000 in
  let id := @AuthKeyId Toy.toy (auth_key result) in
  exists w1 : KeyTable.world, @OnHandshake Toy.toy _ (Some KeyTable.stores) result ∅ = (Ok tt, w1) /\
    (w1 = ∅ \/ exists t w3, shown (@Toy.clock KeyTable.world) t /\ w3 = w1 /\
      ResolveAuthKey Toy.clock KeyTable.store id w1 =
        (Ok (if decide (2000000000 = 0 \/ 0 < 2000000000 /\ t < 2000000000)
             then Some (MkResolved (auth_key result) 77) else None), w3)).
Proof.
  intros result id.
  destruct (@handshake_key_resumes Toy.toy _ Toy.clock KeyTable.stores (fun w => w) (Demo.clock_any _)
    KeyTable.store_spec result ∅) as (w1 & E & _ & [H|H] & _); exists w1; (split; [exact E|]).
  - left. exact H.
  - right. exact (H w1 eq_refl).
Defined.
