(* ===== verification/Mutex.v ===== *)
(** * The mutex of the database: [cmd/shuzagram_server/main.cpp]

    The threads of the connections share one database connection.  [Main] takes
    each handler for one step; here a handler is a sequence of actions that
    those of other threads can come between, unless both hold [db_mutex].  The
    handlers that take it are run one after another, in some order, whatever
    the scheduler does.  The other handlers are not: two updates of a profile
    can lose one of them. *)

From Stdlib Require Import ZArith Lia Strings.Byte Strings.String.
From stdpp Require Import base decidable relations list gmap.
From S2P Require Import Prelude TL Schema Messages OpenSSL Session Server Domain Store Auth Bind Api ApiSchema Users Main Gate.

(** ** Computations in actions *)

Section Code.
Context {W : Type}.

(** An action on the shared world, and what is left to do after it, which
    depends on the world the action found. *)
Inductive code (A : Type) : Type :=
  | Done (r : res A)
  | Act (effect : W -> W) (next : W -> code A).
#[global] Arguments Done {A}. #[global] Arguments Act {A}.

(** All of it, with nothing in between. *)
Fixpoint run {A} (c : code A) : M W A := fun w =>
  match c with
  | Done r => (r, w)
  | Act effect next => run (next w) (effect w)
  end.

(** One action. *)
Definition perform {A} (m : M W A) : code A := Act (fun w => snd (m w)) (fun w => Done (fst (m w))).

Fixpoint and_then {A B} (c : code A) (k : A -> code B) : code B :=
  match c with
  | Done (Ok a) => k a
  | Done (Throw e) => Done (Throw e)
  | Act effect next => Act effect (fun w => and_then (next w) k)
  end.
Fixpoint or_catch {A} (c : code A) (h : exn -> code A) : code A :=
  match c with
  | Done (Ok a) => Done (Ok a)
  | Done (Throw e) => h e
  | Act effect next => Act effect (fun w => or_catch (next w) h)
  end.

Lemma run_perform {A} (m : M W A) w : run (perform m) w = m w.
Proof. cbn. by destruct (m w). Qed.
Lemma run_and_then {A B} (c : code A) (k : A -> code B) w :
  run (and_then c k) w = bind (run c) (fun a => run (k a)) w.
Proof. unfold bind. revert w. induction c as [[a|e]|effect next IH]; intros w; [done..|]. apply IH. Qed.
Lemma run_or_catch {A} (c : code A) (h : exn -> code A) w :
  run (or_catch c h) w = try_catch (run c) (fun e => run (h e)) w.
Proof. unfold try_catch. revert w. induction c as [[a|e]|effect next IH]; intros w; [done..|]. apply IH. Qed.
Lemma run_perform_then {A B} (m : M W A) (k : A -> code B) w :
  run (and_then (perform m) k) w = bind m (fun a => run (k a)) w.
Proof. cbn. unfold bind. by destruct (m w) as [[a|e] w']. Qed.

Lemma bind_ext {A B} (m : M W A) (k k' : A -> M W B) w : (forall a w, k a w = k' a w) -> bind m k w = bind m k' w.
Proof. intros H. unfold bind. by destruct (m w) as [[a|e] w']. Qed.
Lemma catch_ext {A} (m m' : M W A) h w : m w = m' w -> try_catch m h w = try_catch m' h w.
Proof. intros H. unfold try_catch. by rewrite H. Qed.
End Code.

(** ** Threads *)

(** [std::lock_guard<std::mutex> lock(db_mutex);] *)
Definition takes_db_mutex (id : Z) : bool :=
  bool_decide (id ∈ [AuthBindTempAuthKeyRequest.kTypeId; AuthSendCodeRequest.kTypeId; AuthSignInRequest.kTypeId;
    AuthSignUpRequest.kTypeId; AccountGetPasswordRequest.kTypeId; AuthCheckPasswordRequest.kTypeId]).

Section Threads.
Context {W : Type}.

(** A call that has not begun, one that is running, and one that has answered;
    the first two say whether its handler takes the mutex. *)
Inductive thread : Type :=
  | Waiting (locks : bool) (c : code (W := W) bytes)
  | Running (locks : bool) (c : code (W := W) bytes)
  | Finished (r : res bytes).

(** The threads, the holder of the mutex, and the world. *)
Record pool : Type := MkPool { threads : gmap nat thread; owner : option nat; shared : W }.

Inductive pool_step : pool -> pool -> Prop :=
  | pool_lock ts i c w : ts !! i = Some (Waiting true c) ->
      pool_step (MkPool ts None w) (MkPool (<[i := Running true c]> ts) (Some i) w)
  | pool_enter ts i c h w : ts !! i = Some (Waiting false c) ->
      pool_step (MkPool ts h w) (MkPool (<[i := Running false c]> ts) h w)
  | pool_act ts i l effect next h w : ts !! i = Some (Running l (Act effect next)) ->
      pool_step (MkPool ts h w) (MkPool (<[i := Running l (next w)]> ts) h (effect w))
  | pool_unlock ts i r h w : ts !! i = Some (Running true (Done r)) ->
      pool_step (MkPool ts h w) (MkPool (<[i := Finished r]> ts) None w)
  | pool_leave ts i r h w : ts !! i = Some (Running false (Done r)) ->
      pool_step (MkPool ts h w) (MkPool (<[i := Finished r]> ts) h w).

(** Calls of methods, none of which has begun. *)
Definition begin (calls : gmap nat (Z * code (W := W) bytes)) (w : W) : pool :=
  MkPool ((fun call => Waiting (takes_db_mutex call.1) call.2) <$> calls) None w.
Definition all_finished (p : pool) : Prop := forall i t, threads p !! i = Some t -> exists r, t = Finished r.
Definition running (p : pool) (i : nat) : Prop := exists l c, threads p !! i = Some (Running l c).

(** One after another. *)
Fixpoint in_turn (order : list (nat * M W bytes)) (w : W) : list (nat * res bytes) * W :=
  match order with
  | [] => ([], w)
  | (i, m) :: order => let '(rs, w') := in_turn order (snd (m w)) in ((i, fst (m w)) :: rs, w')
  end.

Lemma in_turn_app a b w : in_turn (a ++ b) w =
  let '(rs, w') := in_turn a w in let '(rs', w'') := in_turn b w' in (rs ++ rs', w'').
Proof.
  revert w. induction a as [|[i m] a IH]; intros w; cbn; [by destruct (in_turn b w)|].
  rewrite IH. destruct (in_turn a _) as [rs w']. by destruct (in_turn b w').
Qed.
Lemma in_turn_fst order w : (in_turn order w).1.*1 = order.*1.
Proof. revert w. induction order as [|[i m] order IH]; intros w; cbn; [done|]. specialize (IH (snd (m w))). by destruct (in_turn order _); cbn in *; f_equal. Qed.
End Threads.

(** ** Handlers that take the mutex *)

Section Serial.
Context {W : Type} (handlers : gmap nat (M W bytes)) (w0 : W).

Definition answered (ts : gmap nat thread) (rs : list (nat * res bytes)) : Prop :=
  forall i r, ts !! i = Some (Finished (W := W) r) <-> (i, r) ∈ rs.
Definition to_come (ts : gmap nat thread) : Prop := forall i l c, ts !! i = Some (Waiting l c) ->
  l = true /\ exists m, handlers !! i = Some m /\ forall w, run c w = m w.

Lemma answered_running ts rs i l c : (forall r, ts !! i <> Some (Finished r)) -> answered ts rs ->
  answered (<[i := Running l c]> ts) rs.
Proof.
  intros Hi Hrs j r. rewrite <- (Hrs j r), lookup_insert_Some. split; [by intros [[-> ?]|[_ ?]]|].
  intros Hj. right. split; [intros ->; by apply (Hi r)|done].
Qed.
Lemma to_come_insert ts i t : (forall l c, t <> Waiting l c) -> to_come ts -> to_come (<[i := t]> ts).
Proof. intros Ht Hts j l c. rewrite lookup_insert_Some. intros [[_ ->]|[_ Hj]]; [by destruct (Ht l c)|by apply (Hts j)]. Qed.

(** Some calls have answered, as if one after another; of the others at most
    one is running, which holds the mutex and continues from there. *)
Definition so_far (p : pool) (order : list (nat * M W bytes)) (rs : list (nat * res bytes)) (w : W) : Prop :=
  in_turn order w0 = (rs, w) /\ NoDup order.*1 /\
  (forall i m, (i, m) ∈ order -> handlers !! i = Some m) /\
  answered (threads p) rs /\ to_come (threads p) /\
  match owner p with
  | None => shared p = w /\ forall i, ~ running p i
  | Some i => exists c m, threads p !! i = Some (Running true c) /\ handlers !! i = Some m /\
      run c (shared p) = m w /\ forall j, running p j -> j = i
  end.
Definition serial (p : pool) : Prop := exists order rs w, so_far p order rs w.

(** A running thread is the owner's. *)
Lemma serial_running p i l c : serial p -> threads p !! i = Some (Running l c) -> owner p = Some i /\ l = true.
Proof.
  intros (order & rs & w & _ & _ & _ & _ & _ & Ho) Hi. destruct (owner p) as [j|].
  - destruct Ho as (c' & m & Hj & _ & _ & Hu). assert (i = j) as -> by (apply Hu; by exists l, c).
    split; [done|]. rewrite Hi in Hj. by injection Hj as ->.
  - destruct Ho as [_ Hn]. exfalso. apply (Hn i). by exists l, c.
Qed.

(** What a change of thread [i] leaves of the others. *)
Lemma running_insert ts o w i t j : running (MkPool (<[i := t]> ts) o w) j ->
  j = i \/ exists l c, ts !! j = Some (Running (W := W) l c).
Proof.
  intros (l & c & H). cbn in H. apply lookup_insert_Some in H as [[-> _]|[_ H]]; [by left|right; by exists l, c].
Qed.

Lemma step_serial p p' : pool_step p p' -> serial p -> serial p'.
Proof.
  intros Hstep Hs. pose proof (serial_running p) as Hrun.
  destruct Hstep as [ts i c w Hi|ts i c h w Hi|ts i l effect next h w Hi|ts i r h w Hi|ts i r h w Hi];
    cbn [threads owner shared] in *.
  - destruct Hs as (order & rs & v & Hin & Hnd & Hord & Hfin & Hwait & Hw & Hnone). cbn in *.
    destruct (Hwait i _ c Hi) as (_ & m & Hm & Hc). exists order, rs, v. split; [done|]. split; [done|]. split; [done|].
    split; [apply answered_running; [congruence|done]|]. split; [by apply to_come_insert|].
    cbn. exists c, m. rewrite lookup_insert_eq. split; [done|]. split; [done|]. split; [by rewrite Hc, Hw|].
    intros j [->|(l & c' & Hj)]%running_insert; [done|]. exfalso. apply (Hnone j). by exists l, c'.
  - destruct Hs as (order & rs & v & _ & _ & _ & _ & Hwait & _). by destruct (Hwait i _ c Hi) as [[=] _].
  - destruct (Hrun i l _ Hs Hi) as [-> ->].
    destruct Hs as (order & rs & v & Hin & Hnd & Hord & Hfin & Hwait & c & m & Hic & Hm & Hc & Hu). cbn in *.
    rewrite Hi in Hic. injection Hic as <-. exists order, rs, v. split; [done|]. split; [done|]. split; [done|].
    split; [apply answered_running; [congruence|done]|]. split; [by apply to_come_insert|].
    cbn. exists (next w), m. rewrite lookup_insert_eq. split; [done|]. split; [done|]. split; [done|].
    intros j [->|(l & c' & Hj)]%running_insert; [done|]. apply Hu. by exists l, c'.
  - destruct (Hrun i _ _ Hs Hi) as [-> _].
    destruct Hs as (order & rs & v & Hin & Hnd & Hord & Hfin & Hwait & c & m & Hic & Hm & Hc & Hu). cbn in *.
    rewrite Hi in Hic. injection Hic as <-. cbn in Hc.
    assert (Hnew : i ∉ order.*1).
    { rewrite <- (in_turn_fst order w0), Hin. cbn. intros ([j r'] & -> & Hr')%list_elem_of_fmap. cbn in Hi.
      apply Hfin in Hr'. congruence. }
    exists (order ++ [(i, m)]), (rs ++ [(i, r)]), w. split.
    { rewrite in_turn_app, Hin. cbn. by rewrite <- Hc. }
    split; [rewrite fmap_app; apply NoDup_app; split; [done|]; split; [intros x Hx ->%list_elem_of_singleton; done|apply NoDup_singleton]|].
    split; [intros j m' [Hj|[= -> ->]%list_elem_of_singleton]%elem_of_app; [by apply Hord|done]|].
    split; [|split; [by apply to_come_insert|]].
    + intros j r'. rewrite elem_of_app, list_elem_of_singleton, <- (Hfin j r'). cbn. rewrite lookup_insert_Some. split.
      * intros [[-> [= ->]]|[_ Hj]]; [by right|by left].
      * intros [Hj|[= -> ->]]; [|by left]. right. split; [by intros ->; congruence|done].
    + cbn. split; [done|]. intros j (l & c' & Hj). cbn in Hj. apply lookup_insert_Some in Hj as [[_ [=]]|[Hne Hj]].
      apply Hne. symmetry. apply Hu. by exists l, c'.
  - by destruct (Hrun i _ _ Hs Hi) as [_ [=]].
Qed.

Lemma steps_serial p p' : rtc pool_step p p' -> serial p -> serial p'.
Proof. induction 1; eauto using step_serial. Qed.

Definition is_waiting (t : thread (W := W)) : bool := match t with Waiting _ _ => true | _ => false end.

Lemma serial_next ts w : serial (MkPool ts None w) ->
  all_finished (MkPool ts None w) \/ exists i c, ts !! i = Some (Waiting true c).
Proof.
  intros (order & rs & v & _ & _ & _ & _ & Hwait & _ & Hnone). cbn in *.
  destruct (decide (map_Forall (fun _ t => is_waiting t = false) ts)) as [Ht|Ht].
  - left. intros i t Hi. specialize (Ht i t Hi). destruct t as [l c|l c|r]; [discriminate Ht| |by exists r].
    exfalso. apply (Hnone i). by exists l, c.
  - right. apply map_not_Forall in Ht as (i & [l c|l c|r] & Hi & Ht); [|by destruct Ht..|apply _].
    destruct (Hwait i l c Hi) as [-> _]. by exists i, c.
Qed.

(** The owner can go on; without one, a call that waits can. *)
Lemma serial_progress p : serial p -> all_finished p \/ exists p', pool_step p p'.
Proof.
  destruct p as [ts [i|] w]; intros Hs.
  - destruct Hs as (order & rs & v & _ & _ & _ & _ & _ & [r|effect next] & m & Hi & _);
      right; eexists; [by eapply pool_unlock|by eapply pool_act].
  - destruct (serial_next ts w Hs) as [Hf|(i & c & Hi)]; [by left|right]. eexists. by eapply pool_lock.
Qed.

(** *** All calls can be answered *)

Lemma owner_finishes c ts i w : ts !! i = Some (Running true c) -> exists r w',
  rtc pool_step (MkPool (W := W) ts (Some i) w) (MkPool (<[i := Finished r]> ts) None w').
Proof.
  revert ts w. induction c as [r|effect next IH]; intros ts w Hi.
  - exists r, w. apply rtc_once. by eapply pool_unlock.
  - destruct (IH w (<[i := Running true (next w)]> ts) (effect w) (lookup_insert_eq _ _ _)) as (r & w' & H).
    rewrite insert_insert_eq in H. exists r, w'. eapply rtc_l; [by eapply pool_act|exact H].
Qed.

Definition waiting (ts : gmap nat (thread (W := W))) : gmap nat thread := filter (fun row => is_waiting row.2 = true) ts.

Lemma serial_finishes p : serial p -> exists p', rtc pool_step p p' /\ all_finished p'.
Proof.
  destruct p as [ts o w]. intros Hs.
  assert (H : exists ts' w', rtc pool_step (MkPool ts o w) (MkPool ts' None w')).
  { destruct o as [i|]; [|by exists ts, w]. destruct Hs as (order & rs & v & _ & _ & _ & _ & _ & c & m & Hi & _).
    destruct (owner_finishes c ts i w Hi) as (r & w' & H). eauto. }
  destruct H as (ts' & w' & H). pose proof (steps_serial _ _ H Hs) as Hs'. clear Hs.
  cut (exists p', rtc pool_step (MkPool ts' None w') p' /\ all_finished p').
  { intros (p' & Hp & Hf). exists p'. split; [by etrans|done]. }
  clear H ts w. revert w' Hs'. remember (size (waiting ts')) as n eqn:En. revert ts' En.
  induction n as [|n IH]; intros ts En w Hs; (destruct (serial_next ts w Hs) as [Hf|(i & c & Hi)]; [by exists (MkPool ts None w)|]);
    assert (Hw : waiting ts !! i = Some (Waiting true c)) by by apply map_lookup_filter_Some.
  - symmetry in En. apply map_size_empty_inv in En. by rewrite En, lookup_empty in Hw.
  - assert (H1 : pool_step (MkPool ts None w) (MkPool (<[i := Running true c]> ts) (Some i) w)) by by apply pool_lock.
    destruct (owner_finishes c _ i w (lookup_insert_eq ts i _)) as (r & w' & H2). rewrite insert_insert_eq in H2.
    assert (H3 : rtc pool_step (MkPool ts None w) (MkPool (<[i := Finished r]> ts) None w')) by by eapply rtc_l.
    destruct (IH (<[i := Finished r]> ts)) with (w' := w') as (q & Hq & Hf).
    + unfold waiting. rewrite map_filter_insert_False, map_filter_delete by done. fold (waiting ts).
      rewrite map_size_delete_Some by done. lia.
    + by eapply steps_serial.
    + exists q. split; [by etrans|done].
Qed.
End Serial.

(** ** A handler that does not take it *)

(** [HandleAccountUpdateProfile], an action per call of a store. *)
Section Profile.
Context {W : Type} (now : Clock W) (users : IUserStore W) (authorizations : IAuthorizationStore W).

(** The store, with what it has found for the account. *)
Definition having_found (self : option User) : IUserStore W :=
  MkUserStore W (fun _ => ret self) (ByIDs users) (ByPhone users) (ByUsername users) (Create users)
    (SetPremiumUntil W users) (SetVerified W users) (SetSupport W users) (UpdateLastSeen users) (UpdateProfile_ users)
    (UpdateUsername_ users) (UpdatePhone W users) (SetScamFake W users) (SweepExpiredPremium W users)
    (UpdateEmojiStatus W users) (UpdateBirthday_ users) (UpdatePersonalChannel W users) (UpdateColor W users).

Definition profile_code (fields : bytes) (ctx : RpcContext) : code (W := W) bytes :=
  or_catch
    (and_then (Done (fst (AccountUpdateProfileRequest.DecodeBare fields))) (fun update =>
     and_then (perform (NowUnix now)) (fun t =>
     and_then (perform (ResolveCurrentUser authorizations (ctx_auth_key_id ctx))) (fun current =>
     and_then (perform (ByID users (CurrentUser.user_id current))) (fun self =>
     and_then (perform (UpdateProfile (having_found self) (CurrentUser.user_id current) update t)) (fun updated =>
     Done (Ok (EncodeUser updated true t []))))))))
    (fun e => Done (Ok (update_profile_error e))).

Lemma UpdateProfile_found i update t w : UpdateProfile users i update t w =
  (self <- ByID users i ;; UpdateProfile (having_found self) i update t) w.
Proof. unfold UpdateProfile, bind. by destruct (ByID users i w) as [[self|e] w']. Qed.

Lemma profile_code_run fields ctx w :
  run (profile_code fields ctx) w = HandleAccountUpdateProfile now users authorizations fields ctx w.
Proof.
  unfold profile_code, HandleAccountUpdateProfile. rewrite run_or_catch. apply catch_ext. unfold local, lift.
  rewrite run_and_then. apply bind_ext; intros update w1.
  rewrite run_perform_then. apply bind_ext; intros t w2. rewrite run_perform_then. apply bind_ext; intros current w3.
  rewrite run_perform_then. unfold bind. rewrite UpdateProfile_found. unfold bind.
  destruct (ByID users _ w3) as [[self|e] w4]; [|done]. by rewrite run_perform_then.
Qed.
End Profile.

(** ** What the mutex guarantees, and to whom *)

(** A scheduler, for examples: the thread that makes the next step. *)
Definition advance {W} (i : nat) (p : pool (W := W)) : option pool :=
  match threads p !! i with
  | Some (Waiting true c) =>
      match owner p with
      | None => Some (MkPool (<[i := Running true c]> (threads p)) (Some i) (shared p))
      | Some _ => None
      end
  | Some (Waiting false c) => Some (MkPool (<[i := Running false c]> (threads p)) (owner p) (shared p))
  | Some (Running l (Act effect next)) =>
      Some (MkPool (<[i := Running l (next (shared p))]> (threads p)) (owner p) (effect (shared p)))
  | Some (Running l (Done r)) => Some (MkPool (<[i := Finished r]> (threads p)) (if l then None else owner p) (shared p))
  | _ => None
  end.
Definition schedule {W} (turns : list nat) (p : pool (W := W)) : pool :=
  fold_left (fun p i => default p (advance i p)) turns p.

Lemma advance_step {W} i (p p' : pool (W := W)) : advance i p = Some p' -> pool_step p p'.
Proof.
  destruct p as [ts o w]. unfold advance. cbn.
  destruct (ts !! i) as [[[] c|l [r|effect next]|r]|] eqn:Hi; try done.
  - destruct o; [done|]. intros [= <-]. by apply pool_lock.
  - intros [= <-]. by apply pool_enter.
  - destruct l; intros [= <-]; [by apply pool_unlock|by apply pool_leave].
  - intros [= <-]. by apply pool_act.
Qed.
Lemma schedule_steps {W} turns (p : pool (W := W)) : rtc pool_step p (schedule turns p).
Proof.
  revert p. induction turns as [|i turns IH]; intros p; [done|]. cbn. destruct (advance i p) as [p'|] eqn:E; [|apply IH].
  eapply rtc_l; [by eapply advance_step|apply IH].
Qed.

(** The calls of methods that take the mutex are serial from the start. *)
Lemma begin_serial {W} (calls : gmap nat (Z * code (W := W) bytes)) (handlers : gmap nat (M W bytes)) w0 :
  (forall i id c, calls !! i = Some (id, c) -> takes_db_mutex id = true /\
     exists m, handlers !! i = Some m /\ forall w, run c w = m w) ->
  serial handlers w0 (begin calls w0).
Proof.
  intros H. exists [], [], w0. split; [done|]. split; [constructor|].
  split; [intros i m Hi; by apply not_elem_of_nil in Hi|]. unfold begin. cbn. split; [|split; [|split; [done|]]].
  - intros i r. cbn. rewrite lookup_fmap. split; [by intros (x & _ & [=])%fmap_Some|intros Hi; by apply not_elem_of_nil in Hi].
  - intros i l c. cbn. rewrite lookup_fmap. intros ([id c'] & Hi & [= -> ->])%fmap_Some. apply (H i id c' Hi).
  - intros i (l & c & Hi). cbn in Hi. rewrite lookup_fmap in Hi. by apply fmap_Some in Hi as (x & _ & [=]).
Qed.

Module TwoUpdates.
Import UserTable.

Definition ann_logged_in : Authorization.t := Authorization.Mk (lit "key") 7 0 0 [] [] [] 0 [] [] false 0 0.
Definition before : world := MkWorld {[ 7 := ann ]} {[ lit "key" := ann_logged_in ]}.
Definition caller : RpcContext := MkContext (lit "key") 1.

(** One call renames Ann, another says something about her. *)
Definition rename : bytes := fput ApiSchema.update_profile (1, (Some (lit "Bea"), (None, None))).
Definition describe : bytes := fput ApiSchema.update_profile (4, (None, (None, Some (lit "hello")))).
Definition update (fields : bytes) : M world bytes :=
  HandleAccountUpdateProfile Toy.clock users authorizations fields caller.
Definition update_code (fields : bytes) : code bytes := profile_code Toy.clock users authorizations fields caller.

Definition both : gmap nat (Z * code bytes) :=
  {[ 0%nat := (AccountUpdateProfileRequest.kTypeId, update_code rename);
     1%nat := (AccountUpdateProfileRequest.kTypeId, update_code describe) ]}.
(** Both read the account before either writes it. *)
Definition turns : list nat := [0; 1; 0; 1; 0; 1; 0; 1; 0; 1; 0; 1]%nat.
Definition shown_of (w : world) : option (bytes * bytes) := (fun u => (first_name u, about u)) <$> rows w !! 7.
End TwoUpdates.

Definition is_finished {W} (t : thread (W := W)) : bool := match t with Finished _ => true | _ => false end.
Lemma all_finished_true {W} (p : pool (W := W)) :
  forallb (fun row => is_finished row.2) (map_to_list (threads p)) = true -> all_finished p.
Proof.
  rewrite forallb_forall. intros H i t Hi%elem_of_map_to_list%list_elem_of_In. specialize (H _ Hi).
  destruct t as [| |r]; [done..|by exists r].
Qed.

(** Both calls succeed, the first with the new name, which the second undoes. *)
Lemma update_lost : exists p u t,
  rtc pool_step (begin TwoUpdates.both TwoUpdates.before) p /\ all_finished p /\
  threads p !! 0%nat = Some (Finished (Ok (EncodeUser u true t []))) /\ first_name u = lit "Bea" /\
  TwoUpdates.shown_of (shared p) = Some (lit "Ann", lit "hello").
Proof.
  exists (schedule TwoUpdates.turns (begin TwoUpdates.both TwoUpdates.before)).
  exists (UserTable.row 7 UserTable.ann (lit "Bea") [] [] [] (MkBirthday 0 0 0)), 1780243200.
  split; [apply schedule_steps|]. split; [apply all_finished_true; vm_compute; reflexivity|].
  split; [|split]; vm_compute; reflexivity.
Qed.



Section Witness.
#[local] Existing Instance Toy.toy.

(** Two calls of account.getPassword; the second to arrive runs first. *)
Definition get_password : RpcHandler UserTable.world := fun _ body ctx =>
  HandleAccountGetPassword Toy.zeros Demo.authorizations Demo.passwords body ctx.
Definition ask : M UserTable.world bytes := get_password AccountGetPasswordRequest.kTypeId [] Demo.caller.
Definition two_calls : gmap nat (Z * code bytes) :=
  <[0%nat := (AccountGetPasswordRequest.kTypeId, perform ask)]> {[1%nat := (AccountGetPasswordRequest.kTypeId, perform ask)]}.
Definition two_handlers : gmap nat (M UserTable.world bytes) := <[0%nat := ask]> {[1%nat := ask]}.
Definition answered_both : pool := schedule [1; 0; 1; 1; 0; 0; 0]%nat (begin two_calls Demo.start).

End Witness.
