(* ===== verification/Postgres.v ===== *)
(** * The Postgres stores are the stores the program was proved against

    [main.cpp] hands the stores of [store/postgres/] to handlers that [Auth],
    [Bind], [Password], [Users], [Main] and [Gate] prove correct against
    interfaces: reading returns what a view of the world shows, writing changes
    the view as documented.  Here the operations of [KeyStore],
    [AuthorizationStore], [UserStore] and [PasswordStore] are put into the
    records of [Store] and meet all of these interfaces at once, over one
    database whose tables are good, as long as the server does not fail.  The
    rest of the world (the clock, the generator, the codes in memory) is [T]. *)

From Stdlib Require Import ZArith Lia Strings.Byte Strings.String.
From stdpp Require Import base decidable list gmap sorting.
From S2P Require Import Prelude OpenSSL Json Domain Store Auth Password Bind Users Main Gate.
From S2P Require Import Database KeyStore AuthorizationStore UserStore PasswordStore.

(** ** A table by the ids of its keys *)

#[export] Instance is_s64_dec z : Decision (is_s64 z).
Proof. unfold is_s64. apply _. Defined.

(** The rows whose key is a 64-bit integer, under the eight bytes of it. *)
Definition by_id {A B} (f : Z -> A -> B) (rows : gmap Z A) : gmap bytes B :=
  list_to_map ((fun row => (AuthKeyIDFromInt64 row.1, f row.1 row.2)) <$> filter (fun row => is_s64 row.1) (map_to_list rows)).

Lemma AuthKeyIDToInt64_s64 id : is_s64 (AuthKeyIDToInt64 id).
Proof. apply s64_range. Qed.
Lemma zlen_AuthKeyIDFromInt64 v : zlen (AuthKeyIDFromInt64 v) = 8.
Proof. apply zlen_le_bytes. Qed.

Section ById.
Context {A B : Type} (f : Z -> A -> B).

Lemma by_id_NoDup (rows : gmap Z A) :
  NoDup ((fun row => (AuthKeyIDFromInt64 row.1, f row.1 row.2)) <$> filter (fun row => is_s64 row.1) (map_to_list rows)).*1.
Proof.
  set (l := filter _ _). replace (_ <$> l).*1 with (AuthKeyIDFromInt64 <$> l.*1) by by rewrite <- !list_fmap_compose.
  apply NoDup_fmap_2_strong.
  - intros x y Hx Hy E. apply list_elem_of_fmap in Hx as (rx & -> & Hx), Hy as (ry & -> & Hy).
    apply list_elem_of_filter in Hx as [Hx _], Hy as [Hy _].
    by rewrite <- (AuthKeyIDToInt64_roundtrip rx.1), E, AuthKeyIDToInt64_roundtrip by done.
  - apply (sublist_NoDup _ (map_to_list rows).*1); [apply NoDup_fst_map_to_list|apply fmap_sublist, sublist_filter].
Qed.

Lemma by_id_Some (rows : gmap Z A) id b : by_id f rows !! id = Some b <->
  exists i a, rows !! i = Some a /\ is_s64 i /\ id = AuthKeyIDFromInt64 i /\ b = f i a.
Proof.
  unfold by_id. rewrite <- elem_of_list_to_map by apply by_id_NoDup. rewrite list_elem_of_fmap. split.
  - intros ([i a] & [= -> ->] & H). apply list_elem_of_filter in H as [Hi H%elem_of_map_to_list]. by exists i, a.
  - intros (i & a & Ha & Hi & -> & ->). exists (i, a). split; [done|]. apply list_elem_of_filter.
    split; [done|]. by apply elem_of_map_to_list.
Qed.

Lemma lookup_by_id (rows : gmap Z A) id : zlen id = 8 ->
  by_id f rows !! id = f (AuthKeyIDToInt64 id) <$> rows !! AuthKeyIDToInt64 id.
Proof.
  intros Hid. apply option_eq. intros b. rewrite by_id_Some, fmap_Some. split.
  - intros (i & a & Ha & Hi & -> & ->). rewrite AuthKeyIDToInt64_roundtrip by done. eauto.
  - intros (a & Ha & ->). exists (AuthKeyIDToInt64 id), a. split; [done|].
    split; [apply AuthKeyIDToInt64_s64|]. by rewrite AuthKeyID_roundtrip.
Qed.
Lemma by_id_other (rows : gmap Z A) id : zlen id <> 8 -> by_id f rows !! id = None.
Proof.
  intros Hid. destruct (by_id f rows !! id) as [b|] eqn:E; [|done].
  apply by_id_Some in E as (i & a & _ & _ & -> & _). by rewrite zlen_AuthKeyIDFromInt64 in Hid.
Qed.

(** Equal where it matters. *)
Lemma by_id_eq (rows : gmap Z A) (m : gmap bytes B) : (forall id, zlen id = 8 -> by_id f rows !! id = m !! id) ->
  (forall id, zlen id <> 8 -> m !! id = None) -> by_id f rows = m.
Proof.
  intros H8 Hn. apply map_eq. intros id. destruct (decide (zlen id = 8)) as [H|H]; [by apply H8|].
  by rewrite by_id_other, Hn.
Qed.
Lemma by_id_insert_eq (rows rows' : gmap Z A) id b : zlen id = 8 -> by_id f rows' !! id = Some b ->
  (forall i, zlen i = 8 -> i <> id -> by_id f rows' !! i = by_id f rows !! i) ->
  by_id f rows' = <[id := b]> (by_id f rows).
Proof.
  intros Hid Hb Hne. apply by_id_eq; intros i Hi.
  - destruct (decide (i = id)) as [->|H]; [by rewrite lookup_insert_eq|]. rewrite lookup_insert_ne by done. by apply Hne.
  - rewrite lookup_insert_ne by congruence. by apply by_id_other.
Qed.
End ById.

(** ** Good tables *)

Section Good.
Context {ssl : OpenSSL} {js : Json} {schema : Schema} {user_schema : UserSchema} {server : Server}.

Definition good (d : Db) : Prop := sound d /\ consistent d.

(** What the user store leaves alone, and what it depends on. *)
Definition logins (d : Db) : gmap Z KeyRow.t * gmap Z BindingRow.t * gmap Z AuthorizationRow.t * gmap Z PasswordRow.t :=
  (auth_keys d, temp_auth_key_bindings d, authorizations d, account_passwords d).

Lemma sound_users d d' : users d' = users d -> peer_usernames d' = peer_usernames d -> sound d -> sound d'.
Proof. intros Hu Hn [Hr Hs]. split; rewrite ?Hu, ?Hn; [exact Hr|exact Hs]. Qed.
Lemma consistent_keys d d' : auth_keys d' = auth_keys d -> temp_auth_key_bindings d' = temp_auth_key_bindings d ->
  consistent d -> consistent d'.
Proof. intros Hk Hb [H1 H2]. split; rewrite ?Hk, ?Hb; [exact H1|exact H2]. Qed.

Lemma only_users_logins d d' : only_users d d' -> logins d' = logins d.
Proof. unfold only_users, set_users. destruct d, d'; cbn. by intros [=]; subst. Qed.
Lemma only_users_names_logins d d' : only_users_names d d' -> logins d' = logins d.
Proof. unfold only_users_names, set_users, set_peer_usernames. destruct d, d'; cbn. by intros [=]; subst. Qed.

(** An operation of each store keeps all tables good. *)
Lemma users_good {A} (m : M World A) s : refines sound Datatypes.id m s ->
  (forall d r d', s d r d' -> logins d' = logins d) ->
  refines good Datatypes.id m (fun d r d' => s d r d' /\ logins d' = logins d).
Proof.
  intros Hm Hs. apply (refines_weaken _ _ _ s); [|intros d r d' H; split; [done|by eapply Hs]].
  apply refines_and; [done|]. intros d r d' _ Hc H. apply Hs in H. injection H as Hk Hb _ _.
  by apply (consistent_keys d).
Qed.
Lemma keys_good {A} (m : M World A) s : refines consistent Datatypes.id m s ->
  (forall d r d', s d r d' -> people d' = people d) -> refines good Datatypes.id m s.
Proof.
  intros Hm Hs. eapply (refines_and consistent sound) in Hm.
  - intros w [H1 H2]. specialize (Hm w (conj H2 H1)). destruct (m w) as [r w']. destruct Hm as [[H3 H4] Hm].
    split; [by split|done].
  - intros d r d' _ Hd H. apply Hs in H. injection H as Hu _ Hn _. by apply (sound_users d).
Qed.
Lemma others_good {A} (m : M World A) s : refines (fun _ => True) Datatypes.id m s ->
  (forall d r d', s d r d' -> others d' = others d) -> refines good Datatypes.id m s.
Proof.
  intros Hm Hs. eapply (refines_and _ good) in Hm.
  - intros w Hg. specialize (Hm w (conj I Hg)). destruct (m w) as [r w']. by destruct Hm as [[_ H] Hm].
  - intros d r d' _ [H1 H2] H. apply Hs in H. injection H as Hk Hb Hu Hp Hn Hc.
    split; [by apply (sound_users d)|by apply (consistent_keys d)].
Qed.
(** Everything but the passwords. *)
Definition no_passwords (d : Db) : gmap Z KeyRow.t * gmap Z BindingRow.t * gmap Z AuthorizationRow.t * gmap Z UserRow.t *
    gmap bytes PeerUsername.t * gmap bytes bytes :=
  (auth_keys d, temp_auth_key_bindings d, authorizations d, users d, peer_usernames d, collectible_usernames d).
Lemma set_passwords_rest d d' : set_passwords (fun _ => account_passwords d) d' = d -> no_passwords d' = no_passwords d.
Proof. unfold set_passwords. destruct d, d'; cbn. by intros [=]; subst. Qed.
Lemma passwords_good {A} (m : M World A) s : refines (fun _ => True) Datatypes.id m s ->
  (forall d r d', s d r d' -> no_passwords d' = no_passwords d) -> refines good Datatypes.id m s.
Proof.
  intros Hm Hs. eapply (refines_and _ good) in Hm.
  - intros w Hg. specialize (Hm w (conj I Hg)). destruct (m w) as [r w']. by destruct Hm as [[_ H] Hm].
  - intros d r d' _ [H1 H2] H. apply Hs in H. injection H as Hk Hb _ Hu Hn _.
    split; [by apply (sound_users d)|by apply (consistent_keys d)].
Qed.

(** Each specification says what it leaves alone. *)
#[local] Ltac leaves := solve [by eapply only_users_logins | by eapply only_users_names_logins | congruence | done].

Lemma Update_logins i P d r d' : Update_spec i P d r d' -> logins d' = logins d.
Proof. destruct r; [intros (u & _ & _ & H); leaves|intros [-> _]; done]. Qed.
Lemma Find_logins Q d r d' : Find_spec Q d r d' -> logins d' = logins d.
Proof. by intros [-> _]. Qed.
Lemma UpdateLastSeen_logins i a d r d' : UpdateLastSeen_spec i a d r d' -> logins d' = logins d.
Proof. destruct r; [intros [(u & u' & _ & _ & H)|[_ ->]]; leaves|by intros [-> _]]. Qed.
Lemma UpdatePhone_logins i p d r d' : UpdatePhone_spec i p d r d' -> logins d' = logins d.
Proof. destruct r; [intros (u & _ & _ & H); leaves|by intros [-> _]]. Qed.
Lemma SetScamFake_logins i s f d r d' : SetScamFake_spec i s f d r d' -> logins d' = logins d.
Proof. destruct r; [intros (_ & u & _ & _ & H & _); leaves|by intros [-> _]]. Qed.
Lemma UpdateEmojiStatus_logins i s d r d' : UpdateEmojiStatus_spec i s d r d' -> logins d' = logins d.
Proof.
  unfold UpdateEmojiStatus_spec. destruct (negb _); [by intros [_ ->]|]. destruct (Collectible_Empty _); [apply Update_logins|].
  by intros [-> _].
Qed.
Lemma UpdateUsername_logins i n d r d' : UpdateUsername_spec i n d r d' -> logins d' = logins d.
Proof. destruct r; [intros (u & _ & _ & _ & _ & H); leaves|by intros [-> _]]. Qed.
Lemma Create_logins u d r d' : Create_spec u d r d' -> logins d' = logins d.
Proof. destruct r; [intros (_ & _ & _ & _ & _ & _ & _ & H); leaves|by intros [-> _]]. Qed.
Lemma Sweep_logins now limit d r d' : Sweep_spec now limit d r d' -> logins d' = logins d.
Proof. destruct r; [intros (_ & _ & H & _); leaves|by intros [-> _]]. Qed.

Lemma Bind_others a d r d' : Bind_spec a d r d' -> others d' = others d.
Proof. destruct r; [by intros (_ & _ & _ & H)|by intros [-> _]]. Qed.
Lemma DeleteWhere_others P {A} (found : _ -> A) d r d' : DeleteWhere_spec P found d r d' -> others d' = others d.
Proof. by intros (rows & _ & -> & _). Qed.
Lemma UpdateClientInfo_others id info d r d' : AuthorizationStore.UpdateClientInfo_spec id info d r d' -> others d' = others d.
Proof. by intros (_ & rows & -> & _). Qed.
Lemma MarkPasswordPassed_others id u d r d' : MarkPasswordPassed_spec id u d r d' -> others d' = others d.
Proof. destruct r; [by intros (x & y & _ & _ & _ & _ & _ & _ & ->)|by intros (_ & -> & _)]. Qed.

End Good.

(** ** The stores of the program *)

Section Program.
Context {ssl : OpenSSL} {js : Json} {schema : Schema} {schema_laws : SchemaLaws} {bind_laws : BindLaws}.
Context {user_schema : UserSchema} {user_laws : UserSchemaLaws} {server : Server}.
(** The rest of the program's world. *)
Context {T : Type}.

Definition world : Type := {w : World | good (committed w)} * T.
Definition db (w : world) : Db := committed (proj1_sig (fst w)).

(** An operation on a database whose tables are good and stay so. *)
Definition on_tables {A} {m : M World A} {s} (H : refines good Datatypes.id m s) : M world A := fun w =>
  let ran := m (proj1_sig (fst w)) in
  (fst ran, (snd ran ↾ refines_good good Datatypes.id m s (proj1_sig (fst w)) H (proj2_sig (fst w)), snd w)).

Definition of_users {A} {m : M World A} {s} (Hm : refines sound Datatypes.id m s)
  (Hs : forall d r d', s d r d' -> logins d' = logins d) : M world A := on_tables (users_good m s Hm Hs).
Definition of_keys {A} {m : M World A} {s} (Hm : refines consistent Datatypes.id m s)
  (Hs : forall d r d', s d r d' -> people d' = people d) : M world A := on_tables (keys_good m s Hm Hs).
Definition of_authorizations {A} {m : M World A} {s} (Hm : refines (fun _ => True) Datatypes.id m s)
  (Hs : forall d r d', s d r d' -> others d' = others d) : M world A := on_tables (others_good m s Hm Hs).
Definition of_passwords {A} {m : M World A} {s} (Hm : refines (fun _ => True) Datatypes.id m s)
  (Hs : forall d r d', s d r d' -> no_passwords d' = no_passwords d) : M world A := on_tables (passwords_good m s Hm Hs).

Definition pg_users : IUserStore world :=
  MkUserStore world
    (fun i => of_users (ByID_refines i) (fun _ _ _ H => f_equal logins (proj2 H)))
    (fun l => of_users (ByIDs_refines l) (fun _ _ _ H => f_equal logins (proj1 H)))
    (fun p => of_users (ByPhone_refines p) (Find_logins _))
    (fun n => of_users (ByUsername_reads n) (fun _ _ _ H => f_equal logins (proj1 H)))
    (fun u => of_users (Create_refines u) (Create_logins u))
    (fun i t => of_users (SetPremiumUntil_refines i t) (Update_logins i _))
    (fun i v => of_users (SetVerified_refines i v) (Update_logins i _))
    (fun i v => of_users (SetSupport_refines i v) (Update_logins i _))
    (fun i t => of_users (UpdateLastSeen_refines i t) (UpdateLastSeen_logins i t))
    (fun i f l a => of_users (UpdateProfile_refines i f l a) (Update_logins i _))
    (fun i n => of_users (UpdateUsername_refines i n) (UpdateUsername_logins i n))
    (fun i p => of_users (UpdatePhone_refines i p) (UpdatePhone_logins i p))
    (fun i s f => of_users (SetScamFake_refines i s f) (SetScamFake_logins i s f))
    (fun t n => of_users (SweepExpiredPremium_refines t n) (Sweep_logins t n))
    (fun i s => of_users (UpdateEmojiStatus_refines i s) (UpdateEmojiStatus_logins i s))
    (fun i b => of_users (UpdateBirthday_refines i b) (Update_logins i _))
    (fun i c => of_users (UpdatePersonalChannel_refines i c) (Update_logins i _))
    (fun i p c => of_users (UpdateColor_refines i p c) (Update_logins i _)).

(** A key id is an array of eight bytes, a key one of 256; the interfaces of
    [Store] take lists.  What is no such array names no row, and is not
    stored. *)
Definition no_array : exn := LengthError.

Definition pg_authorizations : IAuthorizationStore world :=
  MkAuthorizationStore world
    (fun a => if decide (zlen (Authorization.auth_key_id a) = 8)
              then of_authorizations (Bind_refines a) (Bind_others a) else throw no_array)
    (fun id => if decide (zlen id = 8)
               then of_authorizations (ByAuthKey_refines id) (fun _ _ _ H => f_equal others (proj2 H)) else ret None)
    (fun id info => of_authorizations (AuthorizationStore.UpdateClientInfo_refines id info) (UpdateClientInfo_others id info))
    (fun u => of_authorizations (ListByUser_refines u) (fun _ _ _ H => f_equal others (proj1 H)))
    (fun id => of_authorizations (Delete_refines id) (fun _ _ _ H => f_equal others (proj2 H)))
    (fun u h => of_authorizations (DeleteByHash_refines u h) (DeleteWhere_others _ _))
    (fun u keep => of_authorizations (DeleteByUserExcept_refines u keep) (DeleteWhere_others _ _))
    (fun id u => if decide (zlen id = 8)
                 then of_authorizations (MarkPasswordPassed_refines id u) (MarkPasswordPassed_others id u) else throw no_array).

Definition pg_Get (id : bytes) : M world (option AuthKeyData.t) :=
  match decide (zlen id = 8) with
  | left H => of_keys (Get_meets id H) (fun _ _ _ H => proj2 H)
  | right _ => ret None
  end.
Definition pg_keys : IAuthKeyStore world :=
  MkAuthKeyStore world
    (fun k => match decide (zlen (AuthKeyData.id k) = 8), decide (zlen (AuthKeyData.value k) = 256) with
              | left Hi, left Hv => of_keys (Save_meets k Hi Hv) (fun _ _ _ H => proj2 H)
              | _, _ => throw no_array
              end)
    pg_Get
    (fun id info => match decide (zlen id = 8) with
                    | left H => of_keys (UpdateClientInfo_meets id info H) (fun _ _ _ H => proj2 H)
                    | right _ => throw no_array
                    end)
    (fun id => match decide (zlen id = 8) with
               | left H => of_keys (Delete_meets id H) (fun _ _ _ H => proj2 H)
               | right _ => ret tt
               end)
    (fun id => match decide (zlen id = 8) with
               | left H => of_keys (Revalidate_meets id H) (fun _ _ _ H => proj2 H)
               | right _ => ret None
               end)
    (fun t p => match decide (zlen t = 8), decide (zlen p = 8) with
                | left Ht, left Hp => of_keys (LoadBindingKeys_meets t p Ht Hp) (fun _ _ _ H => proj2 H)
                | _, _ =>
                    temp <- pg_Get t ;;
                    perm <- pg_Get p ;;
                    ret (MkBindingKeys (default empty_key_data temp) (bool_decide (is_Some temp))
                           (default empty_key_data perm) (bool_decide (is_Some perm)))
                end).

Lemma SaveWithState_array b : is_s64 (TempAuthKeyBinding.perm_auth_key_id b) -> zlen (TempAuthKeyBinding.temp_auth_key_id b) = 8 ->
  refines consistent Datatypes.id (TempAuthKeyBindingStore.SaveWithState b) (SaveWithState_spec b).
Proof. intros Hp Ht. eapply refines_weaken; [apply SaveWithState_refines|]. intros d r d' [_ H]. by apply H. Qed.
Lemma SaveWithState_people b d r d' : SaveWithState_spec b d r d' -> people d' = people d.
Proof. destruct r; [by intros (tk & pk & _ & _ & _ & _ & _ & _ & _ & H & _)|by intros ->]. Qed.

Definition pg_bindings : ITempAuthKeyBindingStore world :=
  MkTempStore world
    (fun b => match decide (is_s64 (TempAuthKeyBinding.perm_auth_key_id b)),
                    decide (zlen (TempAuthKeyBinding.temp_auth_key_id b) = 8) with
              | left Hp, left Ht => of_keys (SaveWithState_array b Hp Ht) (SaveWithState_people b)
              | _, _ => throw no_array
              end)
    (fun id => of_keys (GetByTemp_refines id) (fun _ _ _ H => f_equal people (proj2 H))).

Definition pg_passwords : IPasswordStore world :=
  MkPasswordStore world
    (fun i => of_passwords (GetByUser_refines i) (fun _ _ _ H => f_equal no_passwords (proj2 H)))
    (fun i s => of_passwords (Save_refines i s) (fun _ _ _ H => set_passwords_rest _ _ (proj2 (proj2 (proj2 H))))).

Definition pg_stores : Stores world := MkStores pg_keys pg_bindings pg_users pg_authorizations pg_passwords.

(** *** What the program sees of the tables *)

Definition pg_rows (w : world) : gmap Z User := rows (db w).
Definition pg_holder (w : world) : bytes -> option User := holder (db w).
Definition pg_bound (w : world) : gmap bytes Authorization.t := by_id RowToAuthorization (authorizations (db w)).
Definition pg_stored (w : world) : Z -> option PasswordSettings.t := settings (db w).
Definition pg_key_data (w : world) : gmap bytes AuthKeyData.t := by_id data_of (auth_keys (db w)).
Definition pg_bound_keys (w : world) : gmap bytes TempAuthKeyBinding.t := by_id to_binding (temp_auth_key_bindings (db w)).

Lemma lookup_bound w id : zlen id = 8 -> pg_bound w !! id = authorization (db w) id.
Proof. apply lookup_by_id. Qed.
Lemma lookup_key_data w id : zlen id = 8 -> pg_key_data w !! id = key (db w) id.
Proof. apply lookup_by_id. Qed.
Lemma lookup_bound_keys w id : zlen id = 8 -> pg_bound_keys w !! id = binding (db w) id.
Proof. apply lookup_by_id. Qed.

(** Views of tables that are as they were. *)
Lemma others_views w w' : others (db w') = others (db w) ->
  pg_rows w' = pg_rows w /\ pg_holder w' = pg_holder w /\ pg_stored w' = pg_stored w /\
  pg_key_data w' = pg_key_data w /\ pg_bound_keys w' = pg_bound_keys w.
Proof.
  intros [= Hk Hb Hu Hp _ _]. unfold pg_rows, pg_holder, pg_stored, pg_key_data, pg_bound_keys, rows, holder, settings.
  unfold users_where. by rewrite Hk, Hb, Hu, Hp.
Qed.
Lemma logins_views w w' : logins (db w') = logins (db w) ->
  pg_bound w' = pg_bound w /\ pg_stored w' = pg_stored w /\
  pg_key_data w' = pg_key_data w /\ pg_bound_keys w' = pg_bound_keys w.
Proof.
  intros [= Hk Hb Ha Hp]. unfold pg_bound, pg_stored, pg_key_data, pg_bound_keys, settings. by rewrite Hk, Hb, Ha, Hp.
Qed.
Lemma no_passwords_views w w' : no_passwords (db w') = no_passwords (db w) -> pg_bound w' = pg_bound w.
Proof. intros [= _ _ Ha _ _ _]. unfold pg_bound. by rewrite Ha. Qed.
Lemma same_views w w' : same (key (db w)) (bound_to (db w)) (key (db w')) (bound_to (db w')) ->
  pg_key_data w' = pg_key_data w.
Proof.
  intros H. apply by_id_eq; intros id Hid; [|by apply by_id_other].
  change (pg_key_data w' !! id = pg_key_data w !! id). rewrite !lookup_key_data by done. by apply H.
Qed.

(** *** Every operation, on a server that does not fail *)

Hypothesis healthy : forall n, failure n = None.

Lemma on_tables_run {A} {m : M World A} {s} (H : refines good Datatypes.id m s) w : exists r w',
  on_tables H w = (r, w') /\ s (db w) r (db w') /\ snd w' = snd w.
Proof.
  eexists _, _. split; [reflexivity|]. split; [|done].
  exact (refines_healthy _ _ _ _ (proj1_sig (fst w)) H healthy (proj2_sig (fst w))).
Qed.
Lemma of_users_run {A} {m : M World A} {s} (Hm : refines sound Datatypes.id m s) Hs w : exists r w',
  of_users Hm Hs w = (r, w') /\ s (db w) r (db w') /\ logins (db w') = logins (db w) /\ snd w' = snd w.
Proof. destruct (on_tables_run (users_good m s Hm Hs) w) as (r & w' & E & [H Hl] & Hw). by exists r, w'. Qed.
Lemma of_authorizations_run {A} {m : M World A} {s} (Hm : refines (fun _ => True) Datatypes.id m s) Hs w : exists r w',
  of_authorizations Hm Hs w = (r, w') /\ s (db w) r (db w') /\ others (db w') = others (db w) /\ snd w' = snd w.
Proof.
  destruct (on_tables_run (others_good m s Hm Hs) w) as (r & w' & E & H & Hw). exists r, w'.
  split; [done|]. split; [done|]. split; [by eapply Hs|done].
Qed.

Lemma of_keys_run {A} {m : M World A} {s} (Hm : refines consistent Datatypes.id m s) Hs w : exists r w',
  of_keys Hm Hs w = (r, w') /\ s (db w) r (db w') /\ people (db w') = people (db w) /\ snd w' = snd w /\
  (keeps_bindings m -> temp_auth_key_bindings (db w') = temp_auth_key_bindings (db w)).
Proof.
  destruct (on_tables_run (keys_good m s Hm Hs) w) as (r & w' & E & H & Hw). exists r, w'.
  split; [exact E|]. split; [exact H|]. split; [by eapply Hs|]. split; [exact Hw|]. intros Hk.
  unfold on_tables in E. injection E as _ <-. exact (refines_healthy _ _ _ _ (proj1_sig (fst w)) Hk healthy I).
Qed.
Lemma of_passwords_run {A} {m : M World A} {s} (Hm : refines (fun _ => True) Datatypes.id m s) Hs w : exists r w',
  of_passwords Hm Hs w = (r, w') /\ s (db w) r (db w') /\ no_passwords (db w') = no_passwords (db w) /\ snd w' = snd w.
Proof.
  destruct (on_tables_run (passwords_good m s Hm Hs) w) as (r & w' & E & H & Hw). exists r, w'.
  split; [done|]. split; [done|]. split; [by eapply Hs|done].
Qed.

(** *** Accounts *)

Lemma shown_id d i u : rows d !! i = Some u -> id u = i.
Proof.
  rewrite shown_lookup. destruct (users d !! i) as [r|]; [|done]. cbn. unfold shown_user.
  destruct (RowToUser i r) as [u'|e] eqn:E; [|done]. intros [= ->]. by apply RowToUser_fields in E as [H _].
Qed.

(** A valid name has no white space to trim. *)
Lemma TrimUsername_valid n : ValidUsername n = true -> TrimUsername n = n.
Proof.
  intros (Ht & _ & Hh)%username_trimmed. unfold TrimUsername. destruct n as [|c t]; [done|].
  destruct (Hh c t eq_refl) as [Hat _]. destruct (Z.eqb_spec (bz c) 64); [done|]. exact (trimmed_id _ Ht).
Qed.

#[export] Instance pg_users_spec : UserStoreSpec pg_users pg_rows pg_holder.
Proof.
  split.
  - intros w i u. apply shown_id.
  - intros i w. destruct (of_users_run (ByID_refines i) (fun _ _ _ H => f_equal logins (proj2 H)) w) as (r & w' & E & [-> Hd] & _ & _).
    exists w'. split; [exact E|]. unfold pg_rows, pg_holder. by rewrite Hd.
  - intros l w. destruct (of_users_run (ByIDs_refines l) (fun _ _ _ H => f_equal logins (proj1 H)) w)
      as (r & w' & E & (Hd & us & -> & _ & _ & H) & _ & _).
    exists us, w'. split; [exact E|]. unfold pg_rows, pg_holder. rewrite Hd. split; [done|].
    intros u. rewrite <- list_elem_of_In, H.
    setoid_rewrite list_elem_of_In. done.
  - intros n w. destruct (of_users_run (ByUsername_reads n) (fun _ _ _ H => f_equal logins (proj1 H)) w)
      as (r & w' & E & [Hd ->] & _ & _).
    exists w'. split; [exact E|]. unfold pg_rows. by rewrite Hd.
  - intros i n w Hn. destruct (of_users_run (UpdateUsername_refines i n) (UpdateUsername_logins i n) w) as (r & w' & E & H & _ & _).
    exists r, w'. split; [exact E|]. destruct r as [u|e]; [|destruct H as [Hd _]; unfold pg_rows; by rewrite Hd].
    destruct H as (u0 & (_ & _ & Hrows) & ([= _ _ _ Hname _ _ _] & _) & _). split; [|exact Hrows].
    rewrite Hname. destruct Hn as [->|Hv]; [done|by apply TrimUsername_valid].
  - intros i f l a w. destruct (of_users_run (UpdateProfile_refines i f l a) (Update_logins i _) w) as (r & w' & E & H & _ & _).
    exists r, w'. split; [exact E|]. destruct r as [u|e]; [|destruct H as [Hd _]; unfold pg_rows; by rewrite Hd].
    destruct H as (u0 & (_ & _ & Hrows) & ([= Hf Hl Ha _ _ _ _] & _) & _). done.
  - intros i b w. destruct (of_users_run (UpdateBirthday_refines i b) (Update_logins i _) w) as (r & w' & E & H & _ & _).
    exists r, w'. split; [exact E|]. destruct r as [u|e]; [|destruct H as [Hd _]; unfold pg_rows; by rewrite Hd].
    destruct H as (u0 & (_ & _ & Hrows) & ([= _ _ _ Hb _ _ _] & _) & _). done.
Qed.

(** *** Logins *)

Lemma pg_ByAuthKey_run id w : exists w', ByAuthKey pg_authorizations id w = (Ok (pg_bound w !! id), w') /\ db w' = db w.
Proof.
  unfold ByAuthKey, pg_authorizations. case_decide as Hid.
  - destruct (of_authorizations_run (ByAuthKey_refines id) (fun _ _ _ H => f_equal others (proj2 H)) w)
      as (r & w' & E & [-> Hd] & _ & _).
    exists w'. rewrite E, lookup_bound by done. done.
  - exists w. unfold pg_bound. by rewrite by_id_other.
Qed.

Lemma pg_GetByUser_run i w : exists w', GetByUser pg_passwords i w = (Ok (pg_stored w i), w') /\ db w' = db w.
Proof.
  destruct (of_passwords_run (GetByUser_refines i) (fun _ _ _ H => f_equal no_passwords (proj2 H)) w)
    as (r & w' & E & [-> Hd] & _ & _).
  by exists w'.
Qed.

(** A row written under a key. *)
Lemma bound_insert w w' id row : zlen id = 8 ->
  authorizations (db w') = <[AuthKeyIDToInt64 id := row]> (authorizations (db w)) ->
  pg_bound w' = <[id := RowToAuthorization (AuthKeyIDToInt64 id) row]> (pg_bound w).
Proof.
  intros Hid H. apply by_id_insert_eq; [done| |]; rewrite ?lookup_by_id, H by done; [by rewrite lookup_insert_eq|].
  intros i Hi Hne. rewrite !lookup_by_id, lookup_insert_ne by (done || by intros ?%AuthKeyIDToInt64_inj). done.
Qed.

#[export] Instance pg_session_reads : SessionReads pg_authorizations pg_bound pg_rows.
Proof.
  intros k w. destruct (pg_ByAuthKey_run k w) as (w' & E & Hd). exists w'. split; [exact E|].
  unfold pg_bound, pg_rows. by rewrite Hd.
Qed.

#[export] Instance pg_password_spec : PasswordStoreSpec pg_passwords pg_stored.
Proof.
  split.
  - intros i w. destruct (pg_GetByUser_run i w) as (w' & E & Hd). exists w'. split; [exact E|].
    unfold pg_stored. by rewrite Hd.
  - intros i s w Hs. edestruct (of_passwords_run (Save_refines i s)) as (r & w' & E & (-> & Hi & Hj & _) & _ & _).
    exists w', (kept s). split; [exact E|]. split; [exact Hi|]. split; [by apply kept_same_proof|exact Hj].
Qed.

#[export] Instance pg_pending : PendingStores pg_stores pg_bound pg_stored.
Proof.
  split.
  - intros k w. destruct (pg_ByAuthKey_run k w) as (w' & E & Hd). exists w'. split; [exact E|].
    unfold pg_bound, pg_stored. by rewrite Hd.
  - intros i w. destruct (pg_GetByUser_run i w) as (w' & E & Hd). exists w'. split; [exact E|].
    unfold pg_bound. by rewrite Hd.
  - intros k i w. unfold MarkPasswordPassed, authorization_store, pg_stores, pg_authorizations. case_decide as Hk.
    2:{ by exists (Throw no_array), w. }
    edestruct (of_authorizations_run (MarkPasswordPassed_refines k i)) as (r & w' & E & H & _ & _).
    exists r, w'. split; [exact E|]. destruct r as [[]|e].
    + destruct H as (row & row' & Hrow & Hu & Hp & Hp' & Hu' & _ & Hd).
      exists (RowToAuthorization (AuthKeyIDToInt64 k) row), (RowToAuthorization (AuthKeyIDToInt64 k) row').
      split; [rewrite lookup_bound by done; unfold authorization; by rewrite Hrow|]. do 4 (split; [done|]).
      apply bound_insert; [done|]. by rewrite Hd.
    + destruct H as (_ & Hd & _). unfold pg_bound. by rewrite Hd.
  - intros i w. edestruct (of_users_run (ByID_refines i)) as (r & w' & E & _ & Hl & _). exists r, w'. split; [exact E|].
    by apply (logins_views w w').
Qed.

(** *** Keys and their bindings *)

Lemma pg_Get_run id w : exists w', pg_Get id w = (Ok (pg_key_data w !! id), w') /\
  pg_key_data w' = pg_key_data w /\ pg_bound_keys w' = pg_bound_keys w.
Proof.
  unfold pg_Get. destruct (decide (zlen id = 8)) as [Hid|Hid].
  - edestruct (of_keys_run (Get_meets id Hid)) as (r & w' & E & [[-> Hs] _] & _ & _ & Hk). exists w'.
    rewrite lookup_key_data by done. split; [exact E|]. split; [by apply same_views|].
    unfold pg_bound_keys. by rewrite (Hk (Get_keeps id)).
  - exists w. unfold pg_key_data. by rewrite by_id_other.
Qed.

#[export] Instance pg_key_spec : KeyStoreSpec pg_keys pg_key_data.
Proof.
  split.
  - intros id w. destruct (pg_Get_run id w) as (w' & E & H & _). by exists w'.
  - intros k w. unfold ak_Save, pg_keys. destruct (decide (zlen (AuthKeyData.id k) = 8)) as [Hi|]; [|by exists (Throw no_array), w].
    destruct (decide (zlen (AuthKeyData.value k) = 256)) as [Hv|]; [|by exists (Throw no_array), w].
    edestruct (of_keys_run (Save_meets k Hi Hv)) as (r & w' & E & [Hs _] & _ & _ & _). exists r, w'. split; [exact E|].
    unfold Save_spec in Hs. destruct (ValidNewAuthKeyProtocolExpiry _).
    2:{ destruct Hs as [-> Hs]. by apply same_views. }
    assert (Hins : forall new, same_but (AuthKeyData.id k) (key (db w)) (bound_to (db w)) (key (db w')) (bound_to (db w')) ->
      key (db w') (AuthKeyData.id k) = Some new -> pg_key_data w' = <[AuthKeyData.id k := new]> (pg_key_data w)).
    { intros new [Hk _] Hn. apply by_id_insert_eq; [done|by rewrite lookup_by_id|]. intros i H8 Hne.
      rewrite !lookup_by_id by done. by apply Hk. }
    destruct (key (db w) (AuthKeyData.id k)) as [old|].
    + case_decide as Hold.
      * destruct Hs as (-> & Hb & new & Hn & Hsalt & Hval & Hexp & _). exists new. destruct Hold as [Hov Hoe].
        split; [by apply Hins|]. by rewrite Hval, Hexp.
      * destruct Hs as [-> Hs]. by apply same_views.
    + destruct Hs as (-> & Hb & new & Hn & _ & Hsalt & Hval & Hexp). exists new. split; [by apply Hins|]. naive_solver.
Qed.

Lemma pg_LoadBindingKeys_run t p w : exists w',
  LoadBindingKeys pg_keys t p w =
    (Ok (MkBindingKeys (default empty_key_data (pg_key_data w !! t)) (bool_decide (is_Some (pg_key_data w !! t)))
           (default empty_key_data (pg_key_data w !! p)) (bool_decide (is_Some (pg_key_data w !! p)))), w') /\
  pg_key_data w' = pg_key_data w /\ pg_bound_keys w' = pg_bound_keys w.
Proof.
  assert (Hboth : exists w', (temp <- pg_Get t ;; perm <- pg_Get p ;;
    ret (MkBindingKeys (default empty_key_data temp) (bool_decide (is_Some temp))
           (default empty_key_data perm) (bool_decide (is_Some perm)))) w =
    (Ok (MkBindingKeys (default empty_key_data (pg_key_data w !! t)) (bool_decide (is_Some (pg_key_data w !! t)))
           (default empty_key_data (pg_key_data w !! p)) (bool_decide (is_Some (pg_key_data w !! p)))), w') /\
    pg_key_data w' = pg_key_data w /\ pg_bound_keys w' = pg_bound_keys w).
  { destruct (pg_Get_run t w) as (w1 & E1 & Hk1 & Hb1), (pg_Get_run p w1) as (w2 & E2 & Hk2 & Hb2). exists w2.
    unfold bind at 1. rewrite E1. unfold bind at 1. rewrite E2, Hk1. split; [done|]. by split; etrans. }
  unfold LoadBindingKeys, pg_keys. destruct (decide (zlen t = 8)) as [Ht|]; [|exact Hboth].
  destruct (decide (zlen p = 8)) as [Hp|]; [|exact Hboth]. clear Hboth.
  edestruct (of_keys_run (LoadBindingKeys_meets t p Ht Hp)) as (r & w' & E & [[-> Hs] _] & _ & _ & Hk). exists w'.
  rewrite !lookup_key_data by done. split; [exact E|]. split; [by apply same_views|].
  unfold pg_bound_keys. by rewrite (Hk (LoadBindingKeys_keeps t p)).
Qed.

Lemma pg_SaveWithState_run b w : exists r w', SaveWithState pg_bindings b w = (r, w') /\
  match r with
  | Ok _ => pg_bound_keys w' = <[TempAuthKeyBinding.temp_auth_key_id b := b]> (pg_bound_keys w)
  | Throw _ => pg_bound_keys w' = pg_bound_keys w
  end.
Proof.
  unfold SaveWithState, pg_bindings.
  destruct (decide (is_s64 (TempAuthKeyBinding.perm_auth_key_id b))) as [Hp|]; [|by exists (Throw no_array), w].
  destruct (decide (zlen (TempAuthKeyBinding.temp_auth_key_id b) = 8)) as [Ht|]; [|by exists (Throw no_array), w].
  edestruct (of_keys_run (SaveWithState_array b Hp Ht)) as (r & w' & E & Hs & _). exists r, w'. split; [exact E|].
  destruct r as [e|e]; [|unfold pg_bound_keys; by rewrite Hs].
  destruct Hs as (tk & pk & _ & _ & _ & _ & _ & _ & Hi & _). apply by_id_insert_eq; [done| |].
  - rewrite lookup_by_id by done. destruct (Hi _ Ht) as [H _]. by rewrite decide_True in H.
  - intros i H8 Hne. rewrite !lookup_by_id by done. destruct (Hi _ H8) as [H _]. by rewrite decide_False in H.
Qed.

(** *** The rest of the world *)

Section Rest.
Context (codes : ICodeStore T) (rand : RandomFill T) (now : Clock T) (otp_sender : option (OtpSender T)).
Context (shown : T -> CodeStore.codes).

Definition pg_codes : ICodeStore world :=
  MkCodeStore world (fun h c => on_snd (Set_ codes h c)) (fun h => on_snd (Get codes h)) (fun h => on_snd (Del codes h))
    (fun h p c k d => on_snd (VerifyLogin codes h p c k d)) (fun h p => on_snd (ConsumeSignUpVerified codes h p)).
Definition pg_rand : RandomFill world := fun n => on_snd (rand n).
Definition pg_now : Clock world := on_snd now.
Definition pg_otp : option (OtpSender world) := (fun send r => on_snd (send r)) <$> otp_sender.
Definition pg_shown (w : world) : CodeStore.codes := shown (snd w).

Lemma on_snd_run {A} (m : M T A) (w : world) : on_snd m w = (fst (m (snd w)), (fst w, snd (m (snd w)))).
Proof. destruct w as [d t]. cbn. by destruct (m t). Qed.
Lemma on_snd_db {A V} (view : Db -> V) (m : M T A) : frames (fun w => view (db w)) (on_snd m).
Proof. intros w. by rewrite on_snd_run. Qed.
Lemma on_snd_shown {A} (m : M T A) : frames shown m -> frames pg_shown (on_snd m).
Proof. intros H w. rewrite on_snd_run. apply H. Qed.

Lemma tables_shown {A} {m : M World A} {s} (H : refines good Datatypes.id m s) : frames pg_shown (on_tables H).
Proof. by intros w. Qed.
Lemma users_frames {A} {m : M World A} {s} (Hm : refines sound Datatypes.id m s) Hs :
  frames (fun w => (pg_bound w, pg_stored w)) (of_users Hm Hs).
Proof.
  intros w. destruct (of_users_run Hm Hs w) as (r & w' & E & _ & Hl & _). rewrite E. cbn.
  by destruct (logins_views w w' Hl) as (-> & -> & _).
Qed.

#[export] Instance pg_bind_stores `{!ClockSource now shown} : BindStores pg_now pg_keys pg_bindings pg_key_data pg_bound_keys.
Proof.
  split.
  - intros w. destruct (clock_now (now := now) (snd w)) as (t & s' & E & Ht & _). exists t, (fst w, s').
    unfold pg_now. rewrite on_snd_run, E. done.
  - intros t p w. apply pg_LoadBindingKeys_run.
  - intros b w. apply pg_SaveWithState_run.
Qed.

#[export] Instance pg_login_stores : LoginStores pg_users pg_authorizations pg_codes pg_passwords pg_bound pg_stored.
Proof.
  split.
  - intros k w. destruct (pg_ByAuthKey_run k w) as (w' & E & _). by exists w'.
  - intros a w. unfold Bind, pg_authorizations. case_decide as Hk; [|by exists (Throw no_array), w].
    edestruct (of_authorizations_run (Bind_refines a)) as (r & w' & E & H & Ho & _). exists r, w'. split; [exact E|].
    destruct (others_views w w' Ho) as (_ & _ & Hset & _). split; [exact Hset|].
    destruct r as [[]|e]; [|destruct H as [Hd _]; unfold pg_bound; by rewrite Hd].
    destruct H as (_ & (k & row & _ & _ & Hd & Hu & Hp & _) & _). eexists. split; [by apply bound_insert|by split].
  - intros i w. destruct (pg_GetByUser_run i w) as (w' & E & Hd). exists (Ok (pg_stored w i)), w'. split; [exact E|].
    unfold pg_bound, pg_stored. rewrite Hd. split; [done|]. split; [done|]. by intros o [= <-].
  - intros p. apply users_frames.
  - intros h. apply (on_snd_db (fun d => (by_id RowToAuthorization (authorizations d), settings d))).
  - intros h. apply (on_snd_db (fun d => (by_id RowToAuthorization (authorizations d), settings d))).
  - intros h p c k d. apply (on_snd_db (fun d => (by_id RowToAuthorization (authorizations d), settings d))).
Qed.

#[export] Instance pg_code_spec `{!CodeStoreSpec codes shown} : CodeStoreSpec pg_codes pg_shown.
Proof.
  split.
  - intros h c w. destruct (Store.Set_spec h c (snd w)) as (t & E & H). exists (fst w, t). cbn. by rewrite on_snd_run, E.
  - intros h w. destruct (Store.Get_spec h (snd w)) as (t & E & H). exists (fst w, t). cbn. by rewrite on_snd_run, E.
  - intros h w. destruct (Store.Del_spec h (snd w)) as (t & E & H). exists (fst w, t). cbn. by rewrite on_snd_run, E.
  - intros h p c k d w. destruct (Store.Verify_spec h p c k d (snd w)) as (r & t & E & H). exists r, (fst w, t).
    cbn. by rewrite on_snd_run, E.
  - intros h p w. destruct (Store.Consume_spec h p (snd w)) as (t & E & H). exists (fst w, t). cbn. by rewrite on_snd_run, E.
Qed.

Lemma pg_login_world `{!RandomSource rand shown, !ClockSource now shown} : (forall n, frames shown (rand n)) ->
  (forall send r, otp_sender = Some send -> frames shown (send r)) ->
  LoginWorld pg_shown pg_rand pg_now pg_users pg_authorizations (Some pg_passwords) pg_otp.
Proof.
  intros Hdraw Hotp. split.
  - intros n w Hn. destruct (random_fill n (snd w) Hn) as (r & t & E & Hr & H). exists r, (fst w, t).
    unfold pg_rand. by rewrite on_snd_run, E.
  - intros n. apply on_snd_shown, Hdraw.
  - intros w. destruct (clock_now (now := now) (snd w)) as (t & s' & E & Ht & H). exists t, (fst w, s').
    unfold pg_now. by rewrite on_snd_run, E.
  - intros p. apply tables_shown.
  - intros u. apply tables_shown.
  - intros a. unfold Bind, pg_authorizations. case_decide; [apply tables_shown|apply frames_throw].
  - intros store i [= <-]. apply tables_shown.
  - intros send r Hs. unfold pg_otp in Hs. apply fmap_Some in Hs as (send' & Hs & ->). apply on_snd_shown. by eapply Hotp.
Qed.

End Rest.

End Program.

(** C12. The handlers' theorems hold of the deployed program.  Over a database
    whose tables are good (names unique and valid, keys whole and bindings
    between a temporary and a permanent key) and whose server does not fail,
    with the codes, the generator ([RAND_bytes]), the clock and the delivery of codes in the
    rest of the world, the stores that [main.cpp] connects meet every interface
    the components were proved against: those of the account services and of
    their sessions, of the two-step verification and of a pending login, of the
    keys and of their binding, and both of the login by code.  What each
    interface shows are the rows: accounts, holders of names, authorizations,
    password settings, keys and bindings. *)
Theorem Postgres_keeps_contracts `{!OpenSSL, !Json, !Schema, !SchemaLaws, !BindLaws, !UserSchema, !UserSchemaLaws, !Server}
    {T} (codes : ICodeStore T) (RAND_bytes : Z -> T -> Z * bytes * T) (now : Clock T) (otp_sender : option (OtpSender T))
    (shown : T -> CodeStore.codes) :
  (forall n, failure n = None) ->
  CodeStoreSpec codes shown -> RandBytes RAND_bytes shown -> ClockSource now shown ->
  (forall send r, otp_sender = Some send -> frames shown (send r)) ->
  UserStoreSpec (user_store pg_stores) (pg_rows (T := T)) pg_holder /\
  SessionReads (authorization_store pg_stores) (pg_bound (T := T)) pg_rows /\
  PasswordStoreSpec (password_store pg_stores) (pg_stored (T := T)) /\
  PendingStores pg_stores (pg_bound (T := T)) pg_stored /\
  KeyStoreSpec (auth_key_store pg_stores) (pg_key_data (T := T)) /\
  BindStores (pg_now now) (auth_key_store pg_stores) (temp_key_store pg_stores) (pg_key_data (T := T)) pg_bound_keys /\
  LoginStores (user_store pg_stores) (authorization_store pg_stores) (pg_codes codes) (password_store pg_stores)
    (pg_bound (T := T)) pg_stored /\
  CodeStoreSpec (pg_codes codes) (pg_shown shown) /\
  LoginWorld (pg_shown shown) (pg_rand (SystemRandomFill RAND_bytes)) (pg_now now) (user_store pg_stores) (authorization_store pg_stores)
    (Some (password_store pg_stores)) (pg_otp otp_sender).
Proof.
  intros Hok Hcodes Hrand Hnow Hotp.
  split; [by apply pg_users_spec|]. split; [by apply pg_session_reads|]. split; [by apply pg_password_spec|].
  split; [by apply pg_pending|]. split; [by apply pg_key_spec|]. split; [by eapply pg_bind_stores|].
  split; [by apply pg_login_stores|]. split; [by apply pg_code_spec|].
  apply pg_login_world; [by apply SystemRandom_source|done|intros n; by apply SystemRandom_draw|exact Hotp].
Qed.

Section Witness.
#[local] Existing Instances Toy.toy ToyUsers.toy_json ToySchema.toy_schema ToySchema.toy_schema_laws ToySchema.toy_bind_laws.
#[local] Existing Instances ToyUsers.toy_users ToyUsers.toy_users_laws ToyUsers.healthy.

Lemma empty_good : good ToyUsers.empty_db.
Proof. split; [apply ToyUsers.empty_sound|]. by split. Qed.

(** No accounts, and no codes. *)
Definition opened : world (T := CodeStore.codes) := (ToyUsers.start ↾ empty_good, ∅).
Definition zeros (num : Z) (s : CodeStore.codes) : Z * bytes * CodeStore.codes := (1, replicate (Z.to_nat num) x00, s).
Definition epoch : Clock CodeStore.codes := ret 0.

Lemma zeros_source : RandBytes zeros Datatypes.id.
Proof. split; [|done]. intros n s Hn. eexists _, s. split; [reflexivity|]. rewrite zlen_replicate. lia. Qed.
Lemma epoch_source : ClockSource epoch Datatypes.id.
Proof. intros s. by exists 0, s. Qed.

Lemma Postgres_keeps_contracts_witness :
  pg_rows opened = ∅ /\
  UserStoreSpec (user_store pg_stores) (pg_rows (T := CodeStore.codes)) pg_holder /\
  LoginWorld (pg_shown Datatypes.id) (pg_rand (SystemRandomFill zeros)) (pg_now epoch) (user_store pg_stores)
    (authorization_store pg_stores) (Some (password_store pg_stores)) (pg_otp None).
Proof.
  pose proof (Postgres_keeps_contracts memory_store zeros epoch None Datatypes.id
    (fun _ => eq_refl) memory_store_spec zeros_source epoch_source ltac:(intros send r [=])) as H.
  split; [reflexivity|]. split; [exact (proj1 H)|].
  exact (proj2 (proj2 (proj2 (proj2 (proj2 (proj2 (proj2 (proj2 H)))))))).
Defined.
End Witness.
